(* ===== verification/_CoqProject ===== *)
-Q . S2P
Prelude.v
Kernel.v
Structure.v
Subr.v
Node.v
Sysctl.v
Readdir.v
Lookup.v
Attr.v
Walk.v
Getdents.v
Vfsops.v
Vnode.v
Sbuf.v
Sbuftest.v
Text.v
Limit.v
Phys.v
Mem.v
Procargs.v
Map.v
Ctl.v
Bridge.v
Loadavg.v
Kern.v
Fdtable.v
Status.v
Fdnode.v
Linux.v
Iokit.v
Linuxproc.v
Daemon.v
Boot.v
Fileio.v
Ksyms.v
Libkext.v
Cpu.v
Account.v
Dispatch.v
Stage.v
