(* ===== verification/Prelude.v ===== *)
(** * Verification of procfs_kext

    procfs_kext is a kernel extension that gives macOS a /proc file system: a directory
    for each process with files that show its state, directories for its threads and
    open descriptors, a mirror of the sysctl tree, and files with the text formats of
    Linux.  A daemon, a mount command and a tool that stages kernel symbols run in user
    space.  This library models the code under [src/kext/], [src/lib/], [src/tools/] and
    [src/fs/] and proves what its parts promise.  This file is the root: it holds the
    vocabulary all other files share (error numbers, machine integers, bytes and numerals,
    tactics, hints).

    ** The program and the files that model it

    - [Kernel]: what the code uses of the kernel (process table, credentials, threads,
      memory) as the class [KernelOps], with [KernelStable] for a system at rest; the
      state monad [K] in which kernel calls are made (a clock, so that two calls may see
      different processes; references held; bytes allocated; locks) and the predicates
      on programs in it; [uio_t] and [uiomove]; the concrete system [simple_kernel] at
      which the witnesses are evaluated.
    - [Structure]: procfs_structure.c, the static tree of file names, as an arena of
      [pfssnode] records with parent and child links; construction and release.
    - [Subr]: procfs_subr.c, numbers and names, file ids, access checks, the lists of
      processes, threads and descriptors, copying a window of data to the reader.
    - [Node]: procfs_node.c and the reclaim operation, the hash table of nodes with its
      lock, as a transition system: any number of threads call [procfsnode_find] and the
      kernel reclaims vnodes between any two steps.
    - [Sysctl], [Readdir], [Lookup], [Attr]: the operations of procfs_vnops.c and
      procfs_sysctl.c (readdir, lookup, getattr, readlink, read) over [Structure] and [Subr].
    - [Walk]: these operations composed, along every path a program can take from the root;
      [Getdents]: test/test_getdents.c and test_getdents_multi.c, programs that read a
      directory through the system call.
    - [Vfsops]: procfs_vfsops.c and procfs.c, mounting and loading; [Vnode]: what the
      node table is given to make a vnode.
    - [Sbuf]: lib/sbuf.c, the string buffer all text files are made with; [Text]: how a
      node uses it, with the [printf] conversions the sources use; [Sbuftest]: the
      self-tests at the end of lib/sbuf.c, run on the model.
    - [Limit], [Phys], [Mem], [Procargs], [Map]: procfs_limit.c, procfs_mem.c,
      procfs_cmdline.c, procfs_auxv.c, procfs_map.c, the files about resource limits,
      memory, arguments and address spaces.
    - [Ctl]: procfs_ctl.c, the bridge to the user-space daemon: requests wait in a table
      of slots for replies that carry their sequence number; a transition system of
      requests, replies, connections and time-outs.  [Bridge] states what the files rely on of it
      as the class [CtlOps] with [CtlLaws] and shows that every reachable state of [Ctl]
      gives an instance.
    - [Loadavg], [Linux], [Linuxproc]: procfs_linux.c, the load sampler and the files in
      the formats of Linux, system-wide and for processes and threads; [Iokit]:
      procfs_iokit.cpp, which finds the block devices of the partitions file.
    - [Cpu]: lib/cpu.c and the cpuinfo file of procfs_linux.c, for both architectures.
    - [Fdtable]: the functions of lib/kern.c on descriptor tables; [with_tables] turns
      them into the descriptor operations of [KernelOps].
    - [Status]: procfs_status.c, procfs_regs.c, procfs_fpregs.c, procfs_note.c and
      [proc_pidshortbsdinfo] of lib/kern.c, the binary files; [Fdnode]: procfs_fd.c, with
      the vnode and socket structures of the descriptor files.
    - [Kern]: the parts of lib/kern.c no file uses (pid lists, the run-queue average).
    - [Daemon]: tools/procfsd.c, how a request is answered, put behind the bridge of [Ctl];
      [Boot]: its start, its mount thread and its socket, and fs/mount_procfs.c.
    - [Fileio]: reading files in the kernel (lib/libreadfile, lib/libkext, klookup.c);
      [Ksyms]: tools/procfs_ksyms.c, which writes the symbol file, with lib/libklookup and
      lib/symbols.c, which use it in the kext; [Stage]: the run of that tool over a file
      system whose calls may fail or fall short, with every state in between; [Libkext]: the callback counter, the counted
      allocator and the UUID functions of lib/libkext.

    - [Account]: a logic for the references and the memory a program in [K] takes and gives
      back; [Dispatch]: procfs_vnop_read with the handlers of all files behind it, in both
      presentations, and what holds for every file at once.

    Every definition keeps the name of the function, type or constant it models; parts of
    a function that are loops or formats have a definition of their own.  A C integer is a
    [Z], with the wrap-around of its type written where an operation may leave it.  An
    access outside an array or through a dangling pointer is a [None] result or a state no
    step leaves, and the theorems show that it does not occur.  Effects are explicit: a
    function is a program in [K], a step on a state record, or a pure function.

    ** What the theorems show

    - Tree: construction gives a well-formed tree with different ids
      ([structure_init_wf], [structure_init_ids_distinct]); release frees each object once
      ([structure_free_complete]).
    - Node table, in every interleaving: one node for a key, in its bucket
      ([node_table_consistent]); a returned node is alive and referenced
      ([find_result_valid]); no thread touches freed memory ([find_memory_safe]); no
      wake-up is lost and no deadlock arises ([no_lost_wakeup], [find_no_deadlock]);
      a failed lookup leaves nothing behind ([find_missing]).
    - Directories: repeated reads give the listing, whatever the size of the buffers
      ([readdir_complete], [readdir_window]); what is listed is found and nothing hidden
      is ([lookup_listed], [lookup_process_accessible]); [..] leads back ([lookup_dotdot]).
    - Walks, along every path from the root, with processes that come and go: no node of a
      process is reached that nobody walking may see ([walk_accessible]); [..] leads back
      ([walk_dotdot]); listing, lookup and stat agree ([walk_listing]); a program that reads a
      directory prints all of it ([getdents_prints_all], [getdents_multi_total]).
    - Reads, for every file and both presentations: what is taken is given back
      ([reads_give_back]; for the files that count threads while none comes or goes,
      [thread_count_residue] gives the bytes lost otherwise); memory and maps
      are read by those who may ([memory_reads_checked]); files of a process that is gone
      ([gone_reads]); a read agrees with the type of the node ([walk_reads]).
    - Data: a read returns the window asked for ([copy_data_window]); memory, arguments,
      maps, status records and the texts are those of the process ([copy_user_phys_bytes],
      [mem_read], [procargs_roundtrip], [procargs_nodes], [map_read], [status_fields],
      [procstat_read], [filesystems_read], [partitions_read]).
    - String buffer: any sequence of operations implements the text it stands for without
      leaving its memory ([sbuf_refines]) and gives all of it back ([sbuf_delete_frees]);
      the self-tests of the authors pass ([sbuf_self_tests]).
    - Bridge: slots have one owner, a request gets the reply to its own number and never
      more bytes than it has room for, and it returns ([ctl_slot_ownership],
      [ctl_reply_matches], [ctl_payload_bounded], [ctl_request_terminates]); with the daemon
      behind it, it gets the daemon's answer to it ([daemon_answers_own_request]).
    - User space: the start of the daemon ends ([bootstrap_terminates]), it keeps one socket
      and one mount ([daemon_one_socket], [mount_thread_once]).
    - Symbols: what the tool writes for a kernel is what the kext resolves, and a file of
      another kernel is refused ([ksyms_roundtrip], [ksyms_stale_rejected]); staging is atomic
      for a kext loaded at any moment ([staging_atomic]), and a run that succeeds serves the
      kext the symbols of the running build ([staging_resolves]).
    - Support library, in every interleaving: the counter of callbacks is the number of
      references and its invalidation returns ([kcb_references], [kcb_invalidate_returns]);
      the allocator counts its blocks ([malloc_counts]); UUIDs are read back
      ([vma_uuid_image]).
    - Processors: feature lists and entries ([arm_flags], [x86_cpuinfo_entries],
      [cpuinfo_read]).
    - Descriptor tables: lists are complete and agree with the lookup of an object
      ([fdlist_complete], [fd_object_listed], [fd_list_from_table]); the descriptor files
      show the file or socket of the descriptor ([fd_node_read], [socket_node_read]).
    - Load averages stay between 0 and the number of processors ([loadavg_bounded]).
    - Where the code does not do what it means to, a theorem shows the behaviour it has
      (for example [structure_ids_wrap], [copy_data_offset_wraps], [find_leaks_allocation],
      [ctl_stale_payload], [status_traced_flag], [loadavg_lost_processor],
      [noprocperms_ignored], [kcb_second_invalidation], [sysctl_dotdot_root],
      [environ_of_successor], [short_write_staged], [x86_cpuinfo_faults]).
    - The pointers to private kernel symbols that symbols.c declares and nothing sets are
      [None] in the file that uses them ([Status], [Fdnode], [Cpu]); the branches behind them
      are translated but never taken, and the theorems show what is left ([fd_node_read],
      [status_fields]).

    ** Fuel and bounds

    Loops run over lists or are bounded by a number the code has: the pid scan by the
    highest pid, the copy loops by the bytes left, the region walk by
    [PROCFS_MAP_MAX_REGIONS], the argument scan by the length of the area.  Where a
    definition takes fuel of its own, the theorem about it is stated for the fuel its
    caller passes and shows that it is enough.  Size hypotheses of theorems (numbers fit
    their C types, names fit their arrays, fewer than 2^32 requests) are named
    predicates with a witness.

    ** Not modelled

    - The decompression of the kernel file and the messages of procfs_ksyms.c (other programs
      that write to its files meanwhile are not modelled either), the entry points of the
      support libraries as kexts of their own (lib/*/main.c), and the tables of processor
      flags in lib/cpu.c that no function reads.
    - The handler of the [procfs.linux] sysctl, which is the kernel's: the mode it holds is an
      argument of [Dispatch.read_handler], and its registration is in [Vfsops].
    - The other test programs, which only call library functions and print (test_readdir.c,
      test_mount.c, test_taskinfo.c, find_task_offsets.c), and the kernel headers apart from
      the structures and constants in use. *)

From stdpp Require Export base gmap strings list list_numbers pretty.
From Stdlib Require Export ZArith Lia Ascii.

#[export] Set Warnings "-implicit-create-rewrite-hint-db,-clear-no-such-hyp".
#[global] Open Scope Z_scope.

(** ** Error numbers

    The Darwin [errno] values the sources return. *)

Definition EPERM : Z := 1.
Definition ENOENT : Z := 2.
Definition ESRCH : Z := 3.
Definition EIO : Z := 5.
Definition ENOMEM : Z := 12.
Definition EACCES : Z := 13.
Definition EFAULT : Z := 14.
Definition EBUSY : Z := 16.
Definition ENOTDIR : Z := 20.
Definition EISDIR : Z := 21.
Definition EINVAL : Z := 22.
Definition EMSGSIZE : Z := 40.
Definition ENOTSUP : Z := 45.
Definition ENOTCONN : Z := 57.
Definition ETIMEDOUT : Z := 60.
Definition EOPNOTSUPP : Z := 102.

(** ** Machine integers

    A C integer is a [Z]; every operation whose result may leave its type is
    followed by the wrap-around of that type. *)

Declare Scope cint_scope.
Delimit Scope cint_scope with C.

Definition INT_MAX : Z := 2147483647.
Definition INT_MIN : Z := -2147483648.

Definition u16 (z : Z) : Z := z mod 65536.
Definition u32 (z : Z) : Z := z mod 4294967296.
Definition u64 (z : Z) : Z := z mod 18446744073709551616.
Definition s32 (z : Z) : Z := (z + 2147483648) mod 4294967296 - 2147483648.
Definition s64 (z : Z) : Z :=
  (z + 9223372036854775808) mod 18446744073709551616 - 9223372036854775808.

(** Flag tests: [flags & mask] used as a C condition. *)
Notation "f &? m" := (negb (Z.land f m =? 0)) (at level 40) : cint_scope.

Lemma u16_small z : 0 <= z < 65536 -> u16 z = z.
Proof. intros. unfold u16. by apply Z.mod_small. Qed.
Lemma u32_small z : 0 <= z < 4294967296 -> u32 z = z.
Proof. intros. unfold u32. by apply Z.mod_small. Qed.
Lemma u64_small z : 0 <= z < 18446744073709551616 -> u64 z = z.
Proof. intros. unfold u64. by apply Z.mod_small. Qed.
Lemma s32_small z : INT_MIN <= z <= INT_MAX -> s32 z = z.
Proof. unfold INT_MIN, INT_MAX, s32. intros. rewrite Z.mod_small; lia. Qed.
Lemma s64_small z :
  -9223372036854775808 <= z <= 9223372036854775807 -> s64 z = z.
Proof. unfold s64. intros. rewrite Z.mod_small; lia. Qed.

Lemma u16_range z : 0 <= u16 z < 65536.
Proof. unfold u16. apply Z.mod_pos_bound. lia. Qed.
Lemma u64_range z : 0 <= u64 z < 18446744073709551616.
Proof. unfold u64. apply Z.mod_pos_bound. lia. Qed.
Lemma s32_range z : INT_MIN <= s32 z <= INT_MAX.
Proof.
  unfold s32, INT_MIN, INT_MAX.
  pose proof (Z.mod_pos_bound (z + 2147483648) 4294967296). lia.
Qed.
Lemma s64_mod z : u64 (s64 z) = u64 z.
Proof. unfold s64, u64. rewrite Zminus_mod_idemp_l. f_equal. lia. Qed.
Lemma u64_add_r a b : u64 (a + u64 b) = u64 (a + b).
Proof. unfold u64. by rewrite Zplus_mod_idemp_r. Qed.
Lemma u64_sub_l a b : u64 (u64 a - b) = u64 (a - b).
Proof. unfold u64. by rewrite Zminus_mod_idemp_l. Qed.

Create HintDb cint.
#[export] Hint Rewrite u16_small u32_small u64_small s32_small s64_small
  using (unfold INT_MIN, INT_MAX in *; lia) : cint.

(** Removes the wrap-arounds whose argument is in range. *)
Ltac cint := autorewrite with cint in *.

(** ** C strings

    A NUL-terminated string is a [string] without its terminator. *)

(** [strlcpy(dst, s, n)]: at most [n - 1] characters are kept. *)
Definition strlcpy (n : nat) (s : string) : string := String.substring 0 (n - 1) s.

(** [snprintf(dst, n, ...)] stores at most [n - 1] characters of the text; its
    value is the length of the whole text. *)
Definition snprintf (n : nat) (s : string) : string := strlcpy n s.

(** [%d] (and [%lld], [%u], [%llu]) of an integer of the type. *)
Definition fmt_d (z : Z) : string := pretty z.

(** Hexadecimal digits. *)
Definition hex_digit (d : Z) : Ascii.ascii := nth (Z.to_nat d) ["0";"1";"2";"3";"4";"5";"6";"7";"8";"9";"a";"b";"c";"d";"e";"f"]%char "0"%char.

(** The [n] low hexadecimal digits. *)
Fixpoint hex_digits (n : nat) (z : Z) : string :=
  match n with
  | O => ""%string
  | S n' => (hex_digits n' (z / 16) +:+ String (hex_digit (z mod 16)) "")%string
  end.

(** [%llx]: the digits without leading zeros, at most [n] of them. *)
Fixpoint hex_min (n : nat) (z : Z) : string :=
  match n with
  | O => ""%string
  | S n' => if z =? 0 then ""%string else (hex_min n' (z / 16) +:+ String (hex_digit (z mod 16)) "")%string
  end.
Definition fmt_llx (z : Z) : string := if z =? 0 then "0"%string else hex_min 16 z.

(** The newline character, as a string. *)
Definition nl : string := String (Ascii.ascii_of_nat 10) EmptyString.

(** Bytes of a string, as copied out by the handlers. *)
Definition bytes_of_string (s : string) : list Byte.byte := String.list_byte_of_string s.

Lemma substring_full s n :
  (String.length s <= n)%nat -> String.substring 0 n s = s.
Proof.
  revert n. induction s as [|c s IH]; intros [|n] Hn; simpl in *; try done; try lia.
  f_equal. apply IH. lia.
Qed.

Lemma string_length_app (s t : string) :
  String.length (s +:+ t) = (String.length s + String.length t)%nat.
Proof. induction s as [|c s IH]; [done|]. exact (f_equal S IH). Qed.

Lemma strlcpy_fits s n : (String.length s < n)%nat -> strlcpy n s = s.
Proof. intros. unfold strlcpy. apply substring_full. lia. Qed.

Lemma bytes_of_string_length s : length (bytes_of_string s) = String.length s.
Proof. unfold bytes_of_string. induction s as [|c s IH]; [done|]. exact (f_equal S IH). Qed.

Lemma bytes_of_string_app a b : bytes_of_string (a +:+ b) = bytes_of_string a ++ bytes_of_string b.
Proof. induction a as [|c a IH]; [done|]. exact (f_equal (cons _) IH). Qed.

Lemma bytes_of_string_inj a b : bytes_of_string a = bytes_of_string b -> a = b.
Proof.
  intros E. apply (f_equal String.string_of_list_byte) in E. unfold bytes_of_string in E.
  by rewrite !String.string_of_list_byte_of_string in E.
Qed.

(** The length of a number in decimal. *)
Lemma pretty_N_go_length k x s :
  (x < 10 ^ N.of_nat k)%N -> (String.length (pretty_N_go x s) <= k + String.length s)%nat.
Proof.
  revert x s. induction k as [|k IH]; intros x s Hx.
  - assert (x = 0%N) as -> by (simpl in Hx; lia). by rewrite pretty_N_go_0.
  - destruct (decide (x = 0%N)) as [->|Hne]; [rewrite pretty_N_go_0; lia|].
    rewrite pretty_N_go_step by lia. etrans.
    + apply IH. rewrite Nat2N.inj_succ, N.pow_succ_r' in Hx. apply N.Div0.div_lt_upper_bound. lia.
    + simpl. lia.
Qed.

Lemma fmt_d_length k z :
  (0 < k)%nat -> Z.abs z < 10 ^ Z.of_nat k -> (String.length (fmt_d z) <= S k)%nat.
Proof.
  intros Hk Hz.
  assert (Hp : forall p, Z.pos p < 10 ^ Z.of_nat k -> (String.length (pretty_N_go (N.pos p) "") <= k)%nat).
  { intros p Hp. pose proof (pretty_N_go_length k (N.pos p) "") as H. simpl in H.
    rewrite Nat.add_0_r in H. apply H. apply N2Z.inj_lt. rewrite N2Z.inj_pow, nat_N_Z. exact Hp. }
  destruct z as [|p|p]; unfold fmt_d; [simpl; lia| |].
  - change (pretty (Z.pos p)) with (pretty_N_go (N.pos p) ""). pose proof (Hp p). lia.
  - change (pretty (Z.neg p)) with ("-" +:+ pretty_N_go (N.pos p) "")%string. pose proof (Hp p). rewrite string_length_app. simpl. lia.
Qed.

(** ** Bytes of an integer, little-endian *)

#[export] Instance byte_eq_dec : EqDecision Byte.byte := Byte.byte_eq_dec.

Fixpoint le_bytes (n : nat) (z : Z) : list Byte.byte :=
  match n with
  | O => []
  | S n' =>
    match Byte.of_N (Z.to_N (z mod 256)) with
    | Some b => b :: le_bytes n' (z / 256)
    | None => []
    end
  end.

Lemma byte_of_N_small z : 0 <= z < 256 -> exists b, Byte.of_N (Z.to_N z) = Some b ∧ Byte.to_N b = Z.to_N z.
Proof.
  intros Hz. destruct (Byte.of_N (Z.to_N z)) as [b|] eqn:E; [exists b; split; [done|]; by apply Byte.to_of_N|].
  apply Byte.of_N_None_iff in E. lia.
Qed.

Lemma le_bytes_length n z : length (le_bytes n z) = n.
Proof.
  revert z. induction n as [|n IH]; intros z; simpl; [done|].
  destruct (byte_of_N_small (z mod 256)) as (b & -> & _); [apply Z.mod_pos_bound; lia|].
  simpl. by rewrite IH.
Qed.

(** The number the bytes stand for. *)
Fixpoint le_value (l : list Byte.byte) : Z :=
  match l with [] => 0 | b :: l' => Z.of_N (Byte.to_N b) + 256 * le_value l' end.

Lemma le_bytes_value n z : 0 <= z < 256 ^ Z.of_nat n -> le_value (le_bytes n z) = z.
Proof.
  revert z. induction n as [|n IH]; intros z Hz; simpl; [simpl in Hz; lia|].
  pose proof (Z.mod_pos_bound z 256).
  destruct (byte_of_N_small (z mod 256)) as (b & -> & Eb); [lia|]. simpl. rewrite Eb, IH.
  - rewrite Z2N.id by lia. pose proof (Z.div_mod z 256). lia.
  - rewrite Nat2Z.inj_succ, Z.pow_succ_r in Hz by lia. split; [apply Z.div_pos; lia|].
    apply Z.div_lt_upper_bound; lia.
Qed.

Lemma le_value_bound l : 0 <= le_value l < 256 ^ Z.of_nat (length l).
Proof.
  induction l as [|b l IH]; cbn [le_value length]; [simpl; lia|]. pose proof (Byte.to_N_bounded b).
  rewrite Nat2Z.inj_succ, Z.pow_succ_r by lia. lia.
Qed.

Lemma le_bytes_mod n z : le_value (le_bytes n z) = z mod 256 ^ Z.of_nat n.
Proof.
  revert z. induction n as [|n IH]; intros z; [simpl; by rewrite Z.mod_1_r|]. cbn [le_bytes].
  pose proof (Z.mod_pos_bound z 256). destruct (byte_of_N_small (z mod 256)) as (b & -> & Eb); [lia|].
  cbn [le_value]. rewrite Eb, IH, Z2N.id by lia. rewrite Nat2Z.inj_succ, Z.pow_succ_r by lia.
  rewrite Z.rem_mul_r by lia. lia.
Qed.

Lemma field_value n z r : le_value (take n (le_bytes n z ++ r)) = z mod 256 ^ Z.of_nat n.
Proof. rewrite take_app_length' by (by rewrite le_bytes_length). apply le_bytes_mod. Qed.

Lemma drop_field n k z r : (k <= n)%nat -> drop n (le_bytes k z ++ r) = drop (n - k) r.
Proof. intros Hk. rewrite drop_app_ge; rewrite le_bytes_length; [done|lia]. Qed.

(** Reads a field of a structure written as a concatenation of fields. *)
Ltac wire_fields :=
  repeat (rewrite drop_0 || (rewrite drop_field by lia; cbn [Nat.sub])); rewrite ?drop_0, ?field_value;
  change (256 ^ Z.of_nat 4) with 4294967296; change (256 ^ Z.of_nat 8) with 18446744073709551616.

(** [strnlen(b, length b)] *)
Fixpoint strnlen (b : list Byte.byte) : nat :=
  match b with
  | [] => 0
  | c :: b' => if bool_decide (c = Byte.x00) then 0 else S (strnlen b')
  end.

Lemma list_omap_some {A B} (f : A -> B) (l : list A) : omap (λ a, Some (f a)) l = f <$> l.
Proof. induction l as [|a l IH]; [done|]. exact (f_equal (cons (f a)) IH). Qed.

Lemma zip_with_comp {A B C D} (f : A -> C -> D) (g : A -> B -> C) (ws : list A) (l : list B) :
  zip_with f ws (zip_with g ws l) = zip_with (λ w x, f w (g w x)) ws l.
Proof. revert l. induction ws as [|w ws IH]; intros [|x l]; simpl; [done..|]. by rewrite IH. Qed.

Lemma zip_with_keep {A B} (ws : list A) (l : list B) : length l = length ws -> zip_with (λ _ x, x) ws l = l.
Proof. revert l. induction ws as [|w ws IH]; intros [|x l] Hl; simpl in *; [done..|]. by rewrite IH by lia. Qed.

(** ** Case analysis on a boolean test of the code *)

Ltac case_bool :=
  match goal with
  | |- context [if ?b then _ else _] => destruct b eqn:?
  | H : context [if ?b then _ else _] |- _ => destruct b eqn:?
  end.

Ltac b2p :=
  repeat match goal with
  | H : (_ && _)%bool = true |- _ => apply andb_true_iff in H as [? ?]
  | H : (_ || _)%bool = false |- _ => apply orb_false_iff in H as [? ?]
  | H : negb _ = true |- _ => apply negb_true_iff in H
  | H : negb _ = false |- _ => apply negb_false_iff in H
  | H : (_ =? _) = true |- _ => apply Z.eqb_eq in H
  | H : (_ =? _) = false |- _ => apply Z.eqb_neq in H
  | H : (_ <? _) = true |- _ => apply Z.ltb_lt in H
  | H : (_ <? _) = false |- _ => apply Z.ltb_ge in H
  | H : (_ <=? _) = true |- _ => apply Z.leb_le in H
  | H : (_ <=? _) = false |- _ => apply Z.leb_gt in H
  end.

(** Reduces the binds of the option monad whose first part is known. *)
Ltac bind_some := cbn [mbind option_bind] in *.

(** ** Bits *)

(** Packing a field above the low [k] bits. *)
Lemma lor_shiftl a b k : 0 <= k -> 0 <= a < 2 ^ k -> Z.lor a (Z.shiftl b k) = a + b * 2 ^ k.
Proof.
  intros Hk Ha. rewrite <- Z.add_nocarry_lor.
  - rewrite Z.shiftl_mul_pow2 by done. done.
  - apply Z.bits_inj'. intros i Hi. rewrite Z.land_spec, Z.bits_0.
    destruct (Z.lt_ge_cases i k).
    + rewrite Z.shiftl_spec_low by done. apply andb_false_r.
    + rewrite <- (Z.mod_small a (2 ^ k)), Z.mod_pow2_bits_high by lia. done.
Qed.
