(* ===== verification/Kernel.v ===== *)
(** * The kernel interfaces the sources call

    The XNU services used by the kext are not part of the repository.  They are
    parameters: the class [KernelOps] for processes, credentials, threads,
    descriptors and memory, and the class [UioOps] for the data-transfer
    descriptor [uio_t].  What a theorem relies on is stated in the classes
    [UioLaws] and [KernelStable], with concrete instances at the end of the file.

    The calls that change kernel state go through the state monad [K]: it counts
    the process references held ([proc_find] minus [proc_rele]) and the bytes
    allocated and not yet freed, and its clock lets every call of a service see
    a different state of the system. *)

From S2P Require Import Prelude.

(** ** Kernel state *)

Record kstate := Kstate {
  k_clock : nat;      (** calls of kernel services so far *)
  k_procrefs : Z;     (** process references taken and not released *)
  k_mem : Z;          (** bytes allocated and not freed *)
}.

Definition K (A : Type) : Type := kstate -> A * kstate.
#[export] Instance K_ret : MRet K := λ A a s, (a, s).
#[export] Instance K_bind : MBind K := λ A B f m s, let (a, s') := m s in f a s'.

Definition tick (s : kstate) : kstate := Kstate (S (k_clock s)) (k_procrefs s) (k_mem s).
Definition now : K nat := λ s, (k_clock s, tick s).
Definition add_refs (n : Z) : K unit := λ s, (tt, Kstate (k_clock s) (k_procrefs s + n) (k_mem s)).
Definition add_mem (n : Z) : K unit := λ s, (tt, Kstate (k_clock s) (k_procrefs s) (k_mem s + n)).

(** ** Processes, credentials, threads and descriptors *)

Class KernelOps := {
  proc_t : Type;
  kauth_cred_t : Type;
  (** the process table at a time *)
  proc_find_at : nat -> Z -> option proc_t;
  proc_pid : proc_t -> Z;
  (** the command name of a process, as [proc_name] copies it *)
  proc_name : Z -> string;
  (** whether an allocation of that many bytes succeeds *)
  malloc_at : nat -> Z -> bool;
  kauth_cred_proc_ref : proc_t -> kauth_cred_t;
  (** [cr_posix.cr_uid] and [cr_posix.cr_groups[0]] *)
  cr_uid : kauth_cred_t -> Z;
  cr_groups0 : kauth_cred_t -> Z;
  kauth_cred_getuid : kauth_cred_t -> Z;
  kauth_cred_getruid : kauth_cred_t -> Z;
  kauth_cred_getgid : kauth_cred_t -> Z;
  kauth_cred_getrgid : kauth_cred_t -> Z;
  (** the addresses of the [uthread]s of a process, in list order *)
  p_uthlist_at : nat -> proc_t -> list Z;
  (** whether a kernel address is mapped ([pmap_find_phys(kernel_pmap, va) != 0]) *)
  kernel_mapped : Z -> bool;
  thread_tid : Z -> Z;
  current_proc : option proc_t;
  current_thread : Z;
  (** [proc_fdlist(p, NULL, &n)]: error and upper bound *)
  proc_fdlist_bound_at : nat -> proc_t -> Z * Z;
  (** [proc_fdlist(p, buf, &n)]: error and the descriptors written *)
  proc_fdlist_at : nat -> proc_t -> Z -> Z * list Z;
}.

Section Services.
Context `{KernelOps}.

(** A reference is taken when the process exists. *)
Definition proc_find (pid : Z) : K (option proc_t) :=
  t ← now;
  match proc_find_at t pid with
  | Some p => _ ← add_refs 1; mret (Some p)
  | None => mret None
  end.

Definition proc_rele (p : proc_t) : K unit := add_refs (-1).

(** [OSMalloc]/[malloc]: [true] when memory was returned. *)
Definition OSMalloc (size : Z) : K bool :=
  t ← now;
  if malloc_at t size then _ ← add_mem size; mret true else mret false.

Definition OSFree (size : Z) : K unit := add_mem (- size).

Definition uthlist (p : proc_t) : K (list Z) := t ← now; mret (p_uthlist_at t p).
Definition proc_fdlist_bound (p : proc_t) : K (Z * Z) := t ← now; mret (proc_fdlist_bound_at t p).
Definition proc_fdlist (p : proc_t) (cap : Z) : K (Z * list Z) := t ← now; mret (proc_fdlist_at t p cap).

(** The system does not change while an operation runs, and memory is
    available: the situation in which listings are complete. *)
Class KernelStable : Prop := {
  stable_find t pid : proc_find_at t pid = proc_find_at 0 pid;
  stable_pid t pid p : proc_find_at t pid = Some p -> proc_pid p = pid;
  stable_malloc t n : malloc_at t n = true;
  stable_uthlist t p : p_uthlist_at t p = p_uthlist_at 0 p;
  stable_fdlist_bound t p : proc_fdlist_bound_at t p = proc_fdlist_bound_at 0 p;
  stable_fdlist t p n : proc_fdlist_at t p n = proc_fdlist_at 0 p n;
}.

End Services.

(** ** Reasoning about [K] *)

(** The resources held: references and memory. *)
Definition same_res (s s' : kstate) : Prop :=
  k_procrefs s' = k_procrefs s /\ k_mem s' = k_mem s.

#[export] Instance same_res_refl : Reflexive same_res.
Proof. done. Qed.
#[export] Instance same_res_trans : Transitive same_res.
Proof. intros ??? [] []. split; congruence. Qed.

(** [balanced m]: whatever happens, [m] releases what it takes. *)
Definition balanced {A} (m : K A) : Prop := forall s, same_res s (m s).2.

(** [yields m a]: [m] returns [a] and releases what it takes. *)
Definition yields {A} (m : K A) (a : A) : Prop := forall s, (m s).1 = a /\ same_res s (m s).2.

Lemma yields_balanced {A} (m : K A) a : yields m a -> balanced m.
Proof. intros Hm s. apply Hm. Qed.

Lemma K_bind_run {A B} (m : K A) (f : A -> K B) s : (m ≫= f) s = f (m s).1 (m s).2.
Proof. unfold mbind, K_bind. by destruct (m s). Qed.

Lemma balanced_ret {A} (a : A) : balanced (mret a : K A).
Proof. intros s. done. Qed.

Lemma balanced_bind {A B} (m : K A) (f : A -> K B) :
  balanced m -> (forall a, balanced (f a)) -> balanced (m ≫= f).
Proof. intros Hm Hf s. rewrite K_bind_run. etrans; [apply Hm|apply Hf]. Qed.

Lemma yields_ret {A} (a : A) : yields (mret a : K A) a.
Proof. intros s. done. Qed.

Lemma yields_bind {A B} (m : K A) (f : A -> K B) a b :
  yields m a -> yields (f a) b -> yields (m ≫= f) b.
Proof.
  intros Hm Hf s. rewrite K_bind_run. destruct (Hm s) as [-> Hs], (Hf (m s).2) as [E Hf'].
  split; [exact E|]. etrans; eassumption.
Qed.

(** [value m a]: [m] returns [a] whatever the state. *)
Definition value {A} (m : K A) (a : A) : Prop := forall s, (m s).1 = a.

Lemma value_ret {A} (a : A) : value (mret a : K A) a.
Proof. intros s. done. Qed.
Lemma value_bind {A B} (m : K A) (f : A -> K B) a b : value m a -> value (f a) b -> value (m ≫= f) b.
Proof. intros Hm Hf s. rewrite K_bind_run, Hm. apply Hf. Qed.
Lemma value_unit {A} (m : K unit) (f : unit -> K A) a : value (f tt) a -> value (m ≫= f) a.
Proof. intros Hf s. rewrite K_bind_run. destruct (m s).1. apply Hf. Qed.
Lemma yields_value {A} (m : K A) a : yields m a -> value m a.
Proof. intros Hm s. apply Hm. Qed.

(** [refs_kept m]: [m] releases every process reference it takes. *)
Definition refs_kept {A} (m : K A) : Prop := forall s, k_procrefs (m s).2 = k_procrefs s.

Lemma refs_kept_ret {A} (a : A) : refs_kept (mret a : K A).
Proof. intros s. done. Qed.
Lemma refs_kept_bind {A B} (m : K A) (f : A -> K B) :
  refs_kept m -> (forall a, refs_kept (f a)) -> refs_kept (m ≫= f).
Proof. intros Hm Hf s. rewrite K_bind_run, Hf. apply Hm. Qed.
Lemma balanced_refs_kept {A} (m : K A) : balanced m -> refs_kept m.
Proof. intros Hm s. apply Hm. Qed.
Lemma refs_kept_OSFree n : refs_kept (OSFree n).
Proof. intros s. done. Qed.

Lemma balanced_now {A} (f : nat -> A) : balanced (t ← now; mret (f t)).
Proof. intros s. done. Qed.

(** A bracket around a process reference. *)
Lemma balanced_proc_find `{KernelOps} {A} pid (f : option proc_t -> K A) :
  (forall p s, k_procrefs (f (Some p) s).2 = k_procrefs s - 1 /\ k_mem (f (Some p) s).2 = k_mem s) ->
  balanced (f None) -> balanced (proc_find pid ≫= f).
Proof.
  intros Hs Hn s. unfold proc_find. rewrite !K_bind_run. simpl.
  destruct (proc_find_at (k_clock s) pid) as [p|]; simpl.
  - destruct (Hs p (Kstate (S (k_clock s)) (k_procrefs s + 1) (k_mem s))) as [E1 E2].
    simpl in *. split; lia.
  - destruct (Hn (tick s)) as [E1 E2]. by split.
Qed.

Lemma proc_find_stable `{KernelOps} `{!KernelStable} pid s :
  proc_find pid s =
  (proc_find_at 0 pid,
   Kstate (S (k_clock s)) (k_procrefs s + if proc_find_at 0 pid is Some _ then 1 else 0) (k_mem s)).
Proof.
  unfold proc_find, mbind, K_bind, now, tick. simpl. rewrite stable_find.
  destruct (proc_find_at 0 pid); simpl; f_equal; f_equal; lia.
Qed.

Lemma proc_find_some `{KernelOps} pid s p s' :
  proc_find pid s = (Some p, s') -> proc_find_at (k_clock s) pid = Some p.
Proof.
  unfold proc_find. rewrite K_bind_run. simpl. destruct (proc_find_at (k_clock s) pid); [|done].
  by intros [= <- _].
Qed.

Lemma value_proc_find `{KernelOps} `{!KernelStable} pid : value (proc_find pid) (proc_find_at 0 pid).
Proof. intros s. by rewrite proc_find_stable. Qed.

Lemma value_OSMalloc `{KernelOps} `{!KernelStable} n : value (OSMalloc n) true.
Proof. intros s. unfold OSMalloc. rewrite K_bind_run. simpl. by rewrite stable_malloc. Qed.
Lemma value_uthlist `{KernelOps} `{!KernelStable} p : value (uthlist p) (p_uthlist_at 0 p).
Proof. intros s. unfold uthlist. rewrite K_bind_run. simpl. apply stable_uthlist. Qed.
Lemma value_fdlist_bound `{KernelOps} `{!KernelStable} p :
  value (proc_fdlist_bound p) (proc_fdlist_bound_at 0 p).
Proof. intros s. unfold proc_fdlist_bound. rewrite K_bind_run. simpl. apply stable_fdlist_bound. Qed.
Lemma value_fdlist `{KernelOps} `{!KernelStable} p n : value (proc_fdlist p n) (proc_fdlist_at 0 p n).
Proof. intros s. unfold proc_fdlist. rewrite K_bind_run. simpl. apply stable_fdlist. Qed.

(** A process reference that the rest of the operation releases. *)
Lemma refs_kept_proc_find `{KernelOps} {A} pid (f : option proc_t -> K A) :
  (forall p s, k_procrefs (f (Some p) s).2 = k_procrefs s - 1) ->
  refs_kept (f None) -> refs_kept (proc_find pid ≫= f).
Proof.
  intros Hs Hn s. unfold proc_find. rewrite !K_bind_run. simpl.
  destruct (proc_find_at (k_clock s) pid) as [p|]; simpl.
  - rewrite Hs. simpl. lia.
  - by rewrite (Hn (tick s)).
Qed.

Lemma refs_rele `{KernelOps} {A} p (m : K A) s :
  refs_kept m -> k_procrefs ((_ ← proc_rele p; m) s).2 = k_procrefs s - 1.
Proof. intros Hm. rewrite K_bind_run, Hm. simpl. lia. Qed.

Lemma refs_kept_OSMalloc `{KernelOps} n : refs_kept (OSMalloc n).
Proof. intros s. unfold OSMalloc. rewrite K_bind_run. simpl. by destruct (malloc_at _ _). Qed.

(** ** Data transfer *)

Class UioOps := {
  uio_t : Type;
  uio_offset : uio_t -> Z;
  uio_resid : uio_t -> Z;
  (** [uio_rw(uio) == UIO_READ] *)
  uio_is_read : uio_t -> bool;
  uio_setoffset : uio_t -> Z -> uio_t;
  (** [uiomove(buf, n, uio)] from the kernel buffer to the caller *)
  uiomove : list Byte.byte -> Z -> uio_t -> Z * uio_t;
  (** the bytes the caller has received *)
  uio_out : uio_t -> list Byte.byte;
  (** the caller's memory can be written *)
  uio_writable : uio_t -> bool;
}.

(** The documented behaviour of uiomove(9): it transfers up to [uio_resid]
    bytes, advancing the offset and decreasing the residual count. *)
Class UioLaws `{UioOps} : Prop := {
  uio_resid_nonneg u : 0 <= uio_resid u;
  uiomove_writable data n u : uio_writable u = true -> 0 <= n <= Z.of_nat (length data) ->
    (uiomove data n u).1 = 0;
  uiomove_moved data n u : 0 <= n <= Z.of_nat (length data) -> (uiomove data n u).1 = 0 ->
    let u' := (uiomove data n u).2 in
    let k := Z.min n (uio_resid u) in
    uio_out u' = uio_out u ++ take (Z.to_nat k) data /\
    uio_offset u' = uio_offset u + k /\ uio_resid u' = uio_resid u - k /\
    uio_is_read u' = uio_is_read u /\ uio_writable u' = uio_writable u;
  uio_setoffset_spec u z :
    uio_offset (uio_setoffset u z) = z /\ uio_resid (uio_setoffset u z) = uio_resid u /\
    uio_out (uio_setoffset u z) = uio_out u /\
    uio_is_read (uio_setoffset u z) = uio_is_read u /\
    uio_writable (uio_setoffset u z) = uio_writable u;
}.

(** ** Pages *)

(** The page size of the machine: 4 KiB, or 16 KiB. *)
Class PageSize := { PAGE_SHIFT : Z; page_shift_cases : PAGE_SHIFT = 12 \/ PAGE_SHIFT = 14 }.

Section Pages.
Context `{PageSize}.

Definition PAGE_SIZE : Z := 2 ^ PAGE_SHIFT.
Definition PAGE_MASK : Z := PAGE_SIZE - 1.

Lemma page_size_cases : PAGE_SIZE = 4096 ∨ PAGE_SIZE = 16384.
Proof. unfold PAGE_SIZE. destruct page_shift_cases as [-> | ->]; auto. Qed.

Lemma page_round z : 0 <= z -> Z.land z (Z.lnot PAGE_MASK) = PAGE_SIZE * (z / PAGE_SIZE).
Proof.
  intros Hz. pose proof page_size_cases as Hp. unfold PAGE_MASK.
  replace (PAGE_SIZE - 1) with (Z.ones PAGE_SHIFT) by (unfold PAGE_SIZE; rewrite Z.ones_equiv; lia).
  assert (Hs : 0 <= PAGE_SHIFT) by (destruct page_shift_cases; lia).
  rewrite <- Z.ldiff_land, Z.ldiff_ones_r by done.
  rewrite Z.shiftl_mul_pow2, Z.shiftr_div_pow2 by done. unfold PAGE_SIZE. lia.
Qed.

End Pages.

(** ** Concrete instances, for evaluation *)

#[export] Instance small_pages : PageSize := {| PAGE_SHIFT := 12; page_shift_cases := or_introl eq_refl |}.

Record simple_uio := SimpleUio {
  su_offset : Z; su_room : nat; su_read : bool; su_out : list Byte.byte; su_writable : bool
}.

Definition simple_uiomove (data : list Byte.byte) (n : Z) (u : simple_uio) : Z * simple_uio :=
  if su_writable u then
    let k := Nat.min (Z.to_nat n) (su_room u) in
    (0, SimpleUio (su_offset u + Z.of_nat k) (su_room u - k) (su_read u)
          (su_out u ++ take k data) true)
  else (EFAULT, u).

#[export] Instance simple_uio_ops : UioOps := {
  uio_t := simple_uio;
  uio_offset := su_offset;
  uio_resid u := Z.of_nat (su_room u);
  uio_is_read := su_read;
  uio_setoffset u z := SimpleUio z (su_room u) (su_read u) (su_out u) (su_writable u);
  uiomove := simple_uiomove;
  uio_out := su_out;
  uio_writable := su_writable;
}.

#[export] Instance simple_uio_laws : UioLaws.
Proof.
  split; simpl.
  - intros. lia.
  - intros data n u Hw _. unfold simple_uiomove. by rewrite Hw.
  - intros data n u Hn. unfold simple_uiomove. destruct (su_writable u) eqn:Hw; [|done]. simpl.
    intros _. replace (Z.to_nat (Z.min n (Z.of_nat (su_room u)))) with
      (Nat.min (Z.to_nat n) (su_room u)) by lia. split_and!; (done || lia).
  - done.
Qed.

(** A system described by a table of processes. *)
Record simple_proc := SimpleProc {
  sp_pid : Z; sp_name : string; sp_uid : Z; sp_gid : Z; sp_uthreads : list Z; sp_fds : list Z
}.
Record simple_cred := SimpleCred { sc_uid : Z; sc_gid : Z }.

(** [threads]: the thread whose [uthread] is at [u] has id [u - base]. *)
Definition simple_kernel (procs : list simple_proc) : KernelOps := {|
  proc_t := simple_proc;
  kauth_cred_t := simple_cred;
  proc_find_at _ pid := List.find (λ p, sp_pid p =? pid) procs;
  proc_pid := sp_pid;
  proc_name pid := match List.find (λ p, sp_pid p =? pid) procs with
                   | Some p => sp_name p | None => ""%string end;
  malloc_at _ _ := true;
  kauth_cred_proc_ref p := SimpleCred (sp_uid p) (sp_gid p);
  cr_uid := sc_uid; cr_groups0 := sc_gid;
  kauth_cred_getuid := sc_uid; kauth_cred_getruid := sc_uid;
  kauth_cred_getgid := sc_gid; kauth_cred_getrgid := sc_gid;
  p_uthlist_at _ p := sp_uthreads p;
  kernel_mapped _ := true;
  thread_tid th := th - 18446741874686296064;
  current_proc := head procs;
  current_thread := match procs with
                    | p :: _ => match sp_uthreads p with u :: _ => u - 64 | [] => 0 end
                    | [] => 0 end;
  proc_fdlist_bound_at _ p := (0, Z.of_nat (length (sp_fds p)));
  proc_fdlist_at _ p cap := (0, take (Z.to_nat cap) (sp_fds p));
|}.

#[export] Instance simple_kernel_stable procs : @KernelStable (simple_kernel procs).
Proof.
  split; try done. intros t pid p. simpl. intros [_ E]%find_some. by apply Z.eqb_eq in E.
Qed.
