(* ===== verification/Structure.v ===== *)
(** * The file system layout (kext/procfs_structure.c, include/fs/procfs/procfs.h)

    The layout is a tree of [pfssnode] objects linked by parent pointers and
    TAILQ child lists.  It is modelled as an arena: a pointer is a binary
    natural number, the heap a [gmap] from pointers to objects, and the operations
    [add_node], [add_directory], [add_file], [release_node],
    [procfs_structure_init] and [procfs_structure_free] are state transformers
    that fail (with [None]) where the C code panics or
    would use a pointer that is not to a live object. *)

From S2P Require Import Prelude.

(** ** Data *)

(** The node types, in the order of the C enumeration. *)
Inductive pfstype : Set :=
| PFSroot | PFSproc | PFSthread | PFSdir | PFSfile | PFSdirthis | PFSdirparent
| PFScurproc | PFSprocnamedir | PFSfd | PFScpuinfo | PFSloadavg | PFSpartitions
| PFSversion | PFSmeminfo | PFSmtab | PFSstat | PFSvmstat | PFSuptime | PFSswaps
| PFSfilesystems | PFSproclink | PFSsysctl.

#[export] Instance pfstype_eq_dec : EqDecision pfstype.
Proof. solve_decision. Defined.

(** The functions that the [psn_getsize_fn] hook can name. *)
Inductive procfs_node_size_fn : Set :=
| procfs_process_node_size_fn | procfs_thread_node_size_fn | procfs_fd_node_size_fn.

(** The functions that the [psn_read_data_fn] hook can name. *)
Inductive procfs_read_data_fn : Set :=
| procfs_docpuinfo | procfs_doloadavg | procfs_domeminfo | procfs_domtab | procfs_dostat
| procfs_dovmstat | procfs_dopartitions | procfs_doversion | procfs_douptime | procfs_doswaps
| procfs_dofilesystems | procfs_doprocargs_fn | procfs_read_pid_data_fn
| procfs_read_ppid_data_fn | procfs_read_pgid_data_fn | procfs_read_sid_data_fn
| procfs_read_tty_data_fn | procfs_dostatus_fn | procfs_read_task_info_fn | procfs_donote_fn
| procfs_dolimit_fn | procfs_domem_fn | procfs_domap_fn | procfs_domaps_fn | procfs_docomm
| procfs_doprocstat | procfs_dostatm | procfs_doenviron_fn | procfs_doregs_fn
| procfs_dofpregs_fn | procfs_doauxv_fn | procfs_read_thread_info_fn | procfs_dothreadcomm
| procfs_dothreadstat | procfs_dothreadstatus | procfs_dothreadsched | procfs_read_fd_data_fn
| procfs_read_socket_data_fn.

Definition PSN_FLAG_PROCESS : Z := 1.
Definition PSN_FLAG_THREAD : Z := 2.
Definition PSN_FLAGS_BOTH : Z := Z.lor PSN_FLAG_PROCESS PSN_FLAG_THREAD.

Definition PRNODE_NO_PID : Z := -1.
Definition PRNODE_NO_OBJECTID : Z := 0.
Definition PROCFS_ROOT_NODE_BASE_ID : Z := 1.
Definition MAX_STRUCT_NODE_NAME_LEN : nat := 16.

(** The sizes of the structures of xnu/bsd/sys/proc_info.h, on LP64. *)
Definition sizeof_proc_bsdshortinfo : Z := 64.
Definition sizeof_proc_taskinfo : Z := 96.
Definition sizeof_proc_threadinfo : Z := 112.
Definition sizeof_vnode_fdinfowithpath : Z := 1200.
Definition sizeof_socket_fdinfo : Z := 792.

(** An entry of the layout.  [psn_children] is the TAILQ, from first to last. *)
Record pfssnode := Pfssnode {
  psn_node_type : pfstype;
  psn_name : string;
  psn_base_node_id : Z;
  psn_flags : Z;
  psn_parent : option N;
  psn_children : list N;
  psn_node_size : Z;
  psn_getsize_fn : option procfs_node_size_fn;
  psn_read_data_fn : option procfs_read_data_fn;
}.

(** The statics of procfs_structure.c and the heap of layout objects.
    [sn_fresh] is the next pointer the allocator returns. *)
Record structure := Structure {
  sn_heap : gmap N pfssnode;
  sn_fresh : N;
  next_node_id : Z;
  root_node : option N;
}.

(** The state of the statics when the kext is loaded. *)
Definition structure_boot : structure :=
  Structure ∅ 0%N (PROCFS_ROOT_NODE_BASE_ID + 1) None.

(** ** A state monad with panic *)

Definition SM (A : Type) : Type := structure -> option (A * structure).
#[export] Instance SM_ret : MRet SM := λ A a s, Some (a, s).
#[export] Instance SM_bind : MBind SM := λ A B f m s,
  match m s with Some (a, s') => f a s' | None => None end.

Lemma SM_bind_Some {A B} (m : SM A) (f : A -> SM B) s r :
  (m ≫= f) s = Some r <-> ∃ a s', m s = Some (a, s') /\ f a s' = Some r.
Proof.
  unfold mbind, SM_bind. destruct (m s) as [[a s']|]; naive_solver.
Qed.

(** [next_node_id++] on a [uint16_t]. *)
Definition next_id : SM Z := λ s,
  Some (next_node_id s,
        Structure (sn_heap s) (sn_fresh s) (u16 (next_node_id s + 1)) (root_node s)).

Section Layout.
(** [osmalloc k] tells whether the allocation of object [k] succeeds. *)
Context (osmalloc : N -> bool).

(** Appends [c] to the child list of [p] (TAILQ_INSERT_TAIL). *)
Definition push_child (c : N) (p : pfssnode) : pfssnode :=
  Pfssnode (psn_node_type p) (psn_name p) (psn_base_node_id p) (psn_flags p) (psn_parent p)
    (psn_children p ++ [c]) (psn_node_size p) (psn_getsize_fn p) (psn_read_data_fn p).

(** Low-level creation of a node; the child inherits the process and thread
    flags of its parent. *)
Definition add_node (parent : option N) (name : string) (type : pfstype) (node_id flags size : Z)
    (size_fn : option procfs_node_size_fn) (read_fn : option procfs_read_data_fn) : SM N := λ s,
  let node := sn_fresh s in
  if osmalloc node then
    let obj pflags := Pfssnode type (strlcpy MAX_STRUCT_NODE_NAME_LEN name) node_id
                        (Z.lor flags pflags) parent [] size size_fn read_fn in
    match parent with
    | None =>
      Some (node, Structure (<[node := obj 0]> (sn_heap s)) (N.succ node) (next_node_id s)
                    (root_node s))
    | Some p =>
      pn ← sn_heap s !! p;
      Some (node, Structure (<[node := obj (Z.land (psn_flags pn) PSN_FLAGS_BOTH)]>
                               (<[p := push_child node pn]> (sn_heap s)))
                    (N.succ node) (next_node_id s) (root_node s))
    end
  else None.

(** The recursion of the C function has depth one: the entries for "." and ".."
    are created with [raw] set. *)
Definition add_directory_raw (parent : option N) (name : string) (type : pfstype)
    (node_id flags : Z) (size_fn : option procfs_node_size_fn)
    (read_fn : option procfs_read_data_fn) : SM N :=
  add_node parent name type node_id flags 0 size_fn read_fn.

Definition add_directory (parent : option N) (name : string) (type : pfstype)
    (node_id flags : Z) (raw : bool) (size_fn : option procfs_node_size_fn)
    (read_fn : option procfs_read_data_fn) : SM N :=
  snode ← add_directory_raw parent name type node_id flags size_fn read_fn;
  if raw then mret snode else
    id1 ← next_id;
    _ ← add_directory_raw (Some snode) "." PFSdirthis id1 (Z.land flags PSN_FLAGS_BOTH) None None;
    id2 ← next_id;
    _ ← add_directory_raw (Some snode) ".." PFSdirparent id2 (Z.land flags PSN_FLAGS_BOTH) None None;
    mret snode.

Definition add_file (parent : option N) (name : string) (node_id flags size : Z)
    (size_fn : option procfs_node_size_fn) (read_fn : option procfs_read_data_fn) : SM N :=
  add_node parent name PFSfile node_id flags size size_fn read_fn.

(** The [add_*] calls of [procfs_structure_init] take [next_node_id++] as id. *)
Definition new_node parent name type flags size_fn read_fn : SM N :=
  id ← next_id; add_node (Some parent) name type id flags 0 size_fn read_fn.
Definition new_directory parent name type flags size_fn : SM N :=
  id ← next_id; add_directory (Some parent) name type id flags false size_fn None.
Definition new_file parent name flags size read_fn : SM N :=
  id ← next_id; add_file (Some parent) name id flags size None (Some read_fn).

Definition set_root (r : option N) : SM unit := λ s,
  Some (tt, Structure (sn_heap s) (sn_fresh s) (next_node_id s) r).

(** The entries of the root directory that precede the processes. *)
Definition init_root_entries (root : N) : SM N :=
  byname ← new_directory root "byname" PFSdir 0 None;
  _ ← new_node root "cpuinfo" PFScpuinfo 0 None (Some procfs_docpuinfo);
  _ ← new_node root "curproc" PFScurproc 0 None None;
  _ ← new_node root "loadavg" PFSloadavg 0 None (Some procfs_doloadavg);
  _ ← new_node root "meminfo" PFSmeminfo 0 None (Some procfs_domeminfo);
  _ ← new_node root "mtab" PFSmtab 0 None (Some procfs_domtab);
  _ ← new_node root "mounts" PFSmtab 0 None (Some procfs_domtab);
  _ ← new_node root "stat" PFSstat 0 None (Some procfs_dostat);
  _ ← new_node root "vmstat" PFSvmstat 0 None (Some procfs_dovmstat);
  _ ← new_node root "partitions" PFSpartitions 0 None (Some procfs_dopartitions);
  _ ← new_node root "version" PFSversion 0 None (Some procfs_doversion);
  _ ← new_node root "uptime" PFSuptime 0 None (Some procfs_douptime);
  _ ← new_node root "swaps" PFSswaps 0 None (Some procfs_doswaps);
  _ ← new_node root "filesystems" PFSfilesystems 0 None (Some procfs_dofilesystems);
  _ ← new_node root "sys" PFSsysctl 0 None None;
  _ ← new_node root "self" PFScurproc 0 None None;
  mret byname.

(** The directories of a process: "fd", "threads" and "task". *)
Definition init_proc_dirs (one_proc_dir : N) : SM (N * N * N) :=
  fd_dir ← new_directory one_proc_dir "fd" PFSdir PSN_FLAG_PROCESS None;
  one_fd_dir ← new_directory fd_dir "__File__" PFSfd PSN_FLAG_PROCESS (Some procfs_fd_node_size_fn);
  threads_dir ← new_directory one_proc_dir "threads" PFSdir PSN_FLAG_PROCESS None;
  one_thread_dir ← new_directory threads_dir "__Thread__" PFSthread PSN_FLAGS_BOTH
                     (Some procfs_thread_node_size_fn);
  task_dir ← new_directory one_proc_dir "task" PFSdir PSN_FLAG_PROCESS None;
  one_task_dir ← new_directory task_dir "__Thread__" PFSthread PSN_FLAGS_BOTH
                   (Some procfs_thread_node_size_fn);
  mret (one_fd_dir, one_thread_dir, one_task_dir).

(** The files of a process. *)
Definition init_proc_files (p : N) : SM unit :=
  _ ← new_file p "cmdline" PSN_FLAG_PROCESS 0 procfs_doprocargs_fn;
  _ ← new_file p "pid" PSN_FLAG_PROCESS 0 procfs_read_pid_data_fn;
  _ ← new_file p "ppid" PSN_FLAG_PROCESS 0 procfs_read_ppid_data_fn;
  _ ← new_file p "pgid" PSN_FLAG_PROCESS 0 procfs_read_pgid_data_fn;
  _ ← new_file p "sid" PSN_FLAG_PROCESS 0 procfs_read_sid_data_fn;
  _ ← new_file p "tty" PSN_FLAG_PROCESS 0 procfs_read_tty_data_fn;
  _ ← new_file p "status" PSN_FLAG_PROCESS sizeof_proc_bsdshortinfo procfs_dostatus_fn;
  _ ← new_file p "taskinfo" PSN_FLAG_PROCESS sizeof_proc_taskinfo procfs_read_task_info_fn;
  _ ← new_file p "note" PSN_FLAG_PROCESS 0 procfs_donote_fn;
  _ ← new_file p "limit" PSN_FLAG_PROCESS 0 procfs_dolimit_fn;
  _ ← new_file p "mem" PSN_FLAG_PROCESS 0 procfs_domem_fn;
  _ ← new_file p "map" PSN_FLAG_PROCESS 0 procfs_domap_fn;
  _ ← new_file p "maps" PSN_FLAG_PROCESS 0 procfs_domaps_fn;
  _ ← new_node p "exe" PFSproclink PSN_FLAG_PROCESS None None;
  _ ← new_node p "cwd" PFSproclink PSN_FLAG_PROCESS None None;
  _ ← new_node p "root" PFSproclink PSN_FLAG_PROCESS None None;
  _ ← new_file p "comm" PSN_FLAG_PROCESS 0 procfs_docomm;
  _ ← new_file p "stat" PSN_FLAG_PROCESS 0 procfs_doprocstat;
  _ ← new_file p "statm" PSN_FLAG_PROCESS 0 procfs_dostatm;
  _ ← new_file p "environ" PSN_FLAG_PROCESS 0 procfs_doenviron_fn;
  _ ← new_file p "regs" PSN_FLAG_PROCESS 0 procfs_doregs_fn;
  _ ← new_file p "fpregs" PSN_FLAG_PROCESS 0 procfs_dofpregs_fn;
  _ ← new_file p "auxv" PSN_FLAG_PROCESS 0 procfs_doauxv_fn;
  mret tt.

(** The files of a thread (under "threads" and under "task") and of a file
    descriptor. *)
Definition init_object_files (one_fd_dir one_thread_dir one_task_dir : N) : SM unit :=
  _ ← new_file one_thread_dir "info" PSN_FLAGS_BOTH sizeof_proc_threadinfo procfs_read_thread_info_fn;
  _ ← new_file one_task_dir "info" PSN_FLAGS_BOTH sizeof_proc_threadinfo procfs_read_thread_info_fn;
  _ ← new_file one_task_dir "comm" PSN_FLAGS_BOTH 0 procfs_dothreadcomm;
  _ ← new_file one_task_dir "stat" PSN_FLAGS_BOTH 0 procfs_dothreadstat;
  _ ← new_file one_task_dir "status" PSN_FLAGS_BOTH 0 procfs_dothreadstatus;
  _ ← new_file one_task_dir "sched" PSN_FLAGS_BOTH 0 procfs_dothreadsched;
  _ ← new_file one_task_dir "maps" PSN_FLAGS_BOTH 0 procfs_domaps_fn;
  _ ← new_file one_fd_dir "details" PSN_FLAG_PROCESS sizeof_vnode_fdinfowithpath procfs_read_fd_data_fn;
  _ ← new_file one_fd_dir "socket" PSN_FLAG_PROCESS sizeof_socket_fdinfo procfs_read_socket_data_fn;
  mret tt.

(** Builds the layout on the first mount; does nothing when it exists. *)
Definition procfs_structure_init : SM unit := λ s,
  match root_node s with
  | Some _ => Some (tt, s)
  | None =>
    (root ← add_directory None "/" PFSroot PROCFS_ROOT_NODE_BASE_ID 0 false None None;
     _ ← set_root (Some root);
     byname ← init_root_entries root;
     _ ← new_directory byname "__Process_N__" PFSprocnamedir PSN_FLAG_PROCESS
           (Some procfs_process_node_size_fn);
     one_proc_dir ← new_directory root "__Process__" PFSproc PSN_FLAG_PROCESS
                      (Some procfs_process_node_size_fn);
     dirs ← init_proc_dirs one_proc_dir;
     _ ← init_proc_files one_proc_dir;
     init_object_files dirs.1.1 dirs.1.2 dirs.2) s
  end.

(** ** Release *)

(** TAILQ_REMOVE of [c] from the child list of [p]. *)
Definition remove_child (c : N) (p : pfssnode) : pfssnode :=
  Pfssnode (psn_node_type p) (psn_name p) (psn_base_node_id p) (psn_flags p) (psn_parent p)
    (filter (λ x, x ≠ c) (psn_children p)) (psn_node_size p) (psn_getsize_fn p)
    (psn_read_data_fn p).

(** One recursion frame per level; the inner loop takes the first child until
    the list is empty.  [None]: a freed object was used, or the fuel ran out. *)
Fixpoint release_node (fuel : nat) (n : N) (h : gmap N pfssnode) : option (gmap N pfssnode) :=
  match fuel with
  | O => None
  | S fuel' =>
    node ← h !! n;
    h1 ← match psn_parent node with
         | Some p => pn ← h !! p; Some (<[p := remove_child n pn]> h)
         | None => Some h
         end;
    (fix children (k : nat) (h : gmap N pfssnode) : option (gmap N pfssnode) :=
       node ← h !! n;
       match psn_children node with
       | [] => Some (delete n h)
       | c :: _ =>
         match k with
         | O => None
         | S k' =>
           h' ← release_node fuel' c (<[n := remove_child c node]> h);
           children k' h'
         end
       end) fuel' h1
  end.

Definition procfs_structure_free : SM unit := λ s,
  match root_node s with
  | None => Some (tt, s)
  | Some r =>
    match release_node (S (size (sn_heap s))) r (sn_heap s) with
    | Some h => Some (tt, Structure h (sn_fresh s) (next_node_id s) None)
    | None => None
    end
  end.

Definition procfs_structure_root_node (s : structure) : option N := root_node s.

End Layout.

(** ** Well-formedness of the arena *)

Record structure_wf (s : structure) : Prop := {
  wf_fresh n x : sn_heap s !! n = Some x -> (n < sn_fresh s)%N;
  wf_parent n x p : sn_heap s !! n = Some x -> psn_parent x = Some p ->
    exists px, sn_heap s !! p = Some px /\ n ∈ psn_children px /\ (p < n)%N /\
      Z.land (Z.land (psn_flags px) PSN_FLAGS_BOTH) (psn_flags x)
      = Z.land (psn_flags px) PSN_FLAGS_BOTH;
  wf_child p px c : sn_heap s !! p = Some px -> c ∈ psn_children px ->
    exists x, sn_heap s !! c = Some x /\ psn_parent x = Some p;
  wf_nodup p px : sn_heap s !! p = Some px -> NoDup (psn_children px);
  wf_root r : root_node s = Some r -> is_Some (sn_heap s !! r);
}.

(** An operation preserves a predicate on the statics. *)
Definition preserves {A} (I : structure -> Prop) (m : SM A) : Prop :=
  forall s a s', I s -> m s = Some (a, s') -> I s'.

(** [uses k m]: [m] draws exactly [k] ids from the counter and gives each new
    object an id of its own, as long as the counter does not wrap. *)
Definition ids_distinct (s : structure) : Prop :=
  (forall n x, sn_heap s !! n = Some x -> 0 < psn_base_node_id x < next_node_id s) /\
  (forall n m x y, sn_heap s !! n = Some x -> sn_heap s !! m = Some y ->
     psn_base_node_id x = psn_base_node_id y -> n = m).

Definition uses {A} (k : nat) (m : SM A) : Prop :=
  forall s a s', structure_wf s -> ids_distinct s -> 0 < next_node_id s ->
    next_node_id s + Z.of_nat k < 65536 -> m s = Some (a, s') ->
    ids_distinct s' /\ next_node_id s' = next_node_id s + Z.of_nat k.

Create HintDb structure.

Lemma preserves_ret {A} I (a : A) : preserves I (mret a : SM A).
Proof. intros s b s' HI [= <- <-]. done. Qed.

Lemma preserves_bind {A B} I (m : SM A) (f : A -> SM B) :
  preserves I m -> (forall a, preserves I (f a)) -> preserves I (m ≫= f).
Proof. intros Hm Hf s b s' HI (a & s1 & H1 & H2)%SM_bind_Some.
  exact (Hf a _ _ _ (Hm _ _ _ HI H1) H2).
Qed.

Lemma next_id_wf : preserves structure_wf next_id.
Proof. intros s a s' [] [= <- <-]. by constructor. Qed.

Lemma push_child_children c p : psn_children (push_child c p) = psn_children p ++ [c].
Proof. done. Qed.

Section LayoutFacts.
Context (osmalloc : N -> bool).
Local Abbreviation add_node := (add_node osmalloc).

(** What [add_node] returns and the two objects it writes. *)
Lemma add_node_inv parent name type id flags size sfn rfn s n s' :
  add_node parent name type id flags size sfn rfn s = Some (n, s') ->
  n = sn_fresh s /\ next_node_id s' = next_node_id s /\ root_node s' = root_node s /\
  sn_fresh s' = N.succ n /\
  exists obj, psn_base_node_id obj = id /\ psn_parent obj = parent /\ psn_children obj = [] /\
  match parent with
  | None => sn_heap s' = <[n := obj]> (sn_heap s)
  | Some p => exists pn, sn_heap s !! p = Some pn /\
      sn_heap s' = <[n := obj]> (<[p := push_child n pn]> (sn_heap s)) /\
      psn_flags obj = Z.lor flags (Z.land (psn_flags pn) PSN_FLAGS_BOTH)
  end.
Proof.
  unfold Structure.add_node. case_match; [|done]. destruct parent as [p|].
  - destruct (sn_heap s !! p) as [pn|] eqn:Hp; [|done]. simpl.
    intros [= <- <-]. do 4 (split; [done|]).
    exists (Pfssnode type (strlcpy MAX_STRUCT_NODE_NAME_LEN name) id
         (Z.lor flags (Z.land (psn_flags pn) PSN_FLAGS_BOTH)) (Some p) [] size sfn rfn).
    do 3 (split; [done|]). by exists pn.
  - intros [= <- <-]. do 4 (split; [done|]).
    by exists (Pfssnode type (strlcpy MAX_STRUCT_NODE_NAME_LEN name) id
         (Z.lor flags 0) None [] size sfn rfn).
Qed.

Lemma land_lor_absorb a b : Z.land b (Z.lor a b) = b.
Proof. apply Z.bits_inj'. intros i _. rewrite Z.land_spec, Z.lor_spec. by destruct (Z.testbit a i), (Z.testbit b i). Qed.

Lemma add_node_root_wf name type id flags size sfn rfn :
  preserves structure_wf (add_node None name type id flags size sfn rfn).
Proof.
  intros s n s' [F P C D R] (-> & Hid & Hr & Hf & obj & Hbid & Hpar & Hch & Hh)%add_node_inv.
  assert (Hnew : sn_heap s !! sn_fresh s = None).
  { destruct (sn_heap s !! sn_fresh s) eqn:E; [|done]. apply F in E. lia. }
  split; rewrite ?Hh, ?Hf, ?Hr; simpl.
  - intros m x [[<- <-]|[? Hm%F]]%lookup_insert_Some; lia.
  - intros m x p [[<- <-]|[? Hm]]%lookup_insert_Some Hp; [congruence|].
    destruct (P _ _ _ Hm Hp) as (px & ? & ?). exists px. rewrite lookup_insert_ne by congruence. done.
  - intros p px c [[<- <-]|[? Hm]]%lookup_insert_Some Hc; [rewrite Hch in Hc; set_solver|].
    destruct (C _ _ _ Hm Hc) as (x & ? & ?). exists x. rewrite lookup_insert_ne by congruence. done.
  - intros p px [[<- <-]|[? Hm]]%lookup_insert_Some; [rewrite Hch; constructor|eauto].
  - intros r [x Hx]%R. rewrite lookup_insert_ne by congruence. eauto.
Qed.

Lemma add_node_child_wf p name type id flags size sfn rfn :
  preserves structure_wf (add_node (Some p) name type id flags size sfn rfn).
Proof.
  intros s n s' [F P C D R]
    (-> & Hid & Hr & Hf & obj & Hbid & Hpar & Hch & pn & Hpn & Hh & Hfl)%add_node_inv.
  assert (Hnew : sn_heap s !! sn_fresh s = None).
  { destruct (sn_heap s !! sn_fresh s) eqn:E; [|done]. apply F in E. lia. }
  assert (Hne : p ≠ sn_fresh s) by congruence.
  split; rewrite ?Hh, ?Hf, ?Hr; simpl.
  - intros m x [[<- <-]|[? [[<- <-]|[? Hm%F]]%lookup_insert_Some]]%lookup_insert_Some; [lia| |lia].
    apply F in Hpn. lia.
  - intros m x q [[<- <-]|[Hm1 Hm]]%lookup_insert_Some Hp.
    + rewrite Hpar in Hp. injection Hp as <-. exists (push_child (sn_fresh s) pn).
      rewrite lookup_insert_ne, lookup_insert_eq by done. split; [done|]. split; [set_solver|].
      split; [by apply F in Hpn|]. rewrite Hfl. simpl. apply land_lor_absorb.
    + assert (Hm' : exists y, sn_heap s !! m = Some y /\ psn_parent y = Some q /\ psn_flags y = psn_flags x).
      { apply lookup_insert_Some in Hm as [[<- <-]|[? ?]]; eauto. }
      destruct Hm' as (y & Hy & Hyp & Hyf). destruct (P _ _ _ Hy Hyp) as (px & Hpx & ? & ? & Hl).
      assert (q ≠ sn_fresh s) by congruence.
      rewrite lookup_insert_ne by done. destruct (decide (q = p)) as [->|].
      * rewrite lookup_insert_eq. simplify_eq. eexists. split; [done|]. simpl.
        rewrite <- Hyf. split; [set_solver|done].
      * rewrite lookup_insert_ne by done. exists px. by rewrite <- Hyf.
  - intros q px c [[<- <-]|[Hq Hm]]%lookup_insert_Some Hc; [rewrite Hch in Hc; set_solver|].
    apply lookup_insert_Some in Hm as [[<- <-]|[Hqp Hm]]; simpl in *.
    + apply elem_of_app in Hc as [Hc|Hc]; [|apply list_elem_of_singleton in Hc as ->].
      * destruct (C _ _ _ Hpn Hc) as (x & Hx & Hxp). assert (c ≠ sn_fresh s) by congruence.
        rewrite lookup_insert_ne by done. destruct (decide (c = p)) as [->|].
        -- rewrite lookup_insert_eq. eexists. split; [done|]. simpl. congruence.
        -- rewrite lookup_insert_ne by done. eauto.
      * rewrite lookup_insert_eq. eauto.
    + destruct (C _ _ _ Hm Hc) as (x & Hx & Hxp). assert (c ≠ sn_fresh s) by congruence.
      rewrite lookup_insert_ne by done. destruct (decide (c = p)) as [->|].
      * rewrite lookup_insert_eq. eexists. split; [done|]. simpl. congruence.
      * rewrite lookup_insert_ne by done. eauto.
  - intros q px [[<- <-]|[Hq Hm]]%lookup_insert_Some; [rewrite Hch; constructor|].
    apply lookup_insert_Some in Hm as [[<- <-]|[Hqp Hm]]; simpl; [|eauto].
    apply NoDup_app. split; [eauto|]. split; [|apply NoDup_singleton].
    intros c Hc Hc2%list_elem_of_singleton. subst c. destruct (C _ _ _ Hpn Hc) as (x & Hx & _). congruence.
  - intros r Hrr. destruct (R _ Hrr) as [x Hx].
    rewrite lookup_insert_ne by congruence. destruct (decide (r = p)) as [->|].
    + rewrite lookup_insert_eq. eauto.
    + rewrite lookup_insert_ne by done. eauto.
Qed.

Lemma add_node_wf parent name type id flags size sfn rfn :
  preserves structure_wf (add_node parent name type id flags size sfn rfn).
Proof. destruct parent; [apply add_node_child_wf|apply add_node_root_wf]. Qed.

(** Operations that keep the arena well formed compose. *)
Ltac walk_preserves :=
  repeat match goal with |- preserves _ (mbind _ _) => apply preserves_bind; [|intros ?] end;
  auto using preserves_ret, next_id_wf, add_node_wf.

Lemma add_directory_wf parent name type id flags raw sfn rfn :
  preserves structure_wf (add_directory osmalloc parent name type id flags raw sfn rfn).
Proof. unfold add_directory, add_directory_raw. destruct raw; walk_preserves. Qed.

Lemma new_node_wf p name type flags sfn rfn :
  preserves structure_wf (new_node osmalloc p name type flags sfn rfn).
Proof. unfold new_node. walk_preserves. Qed.
Lemma new_file_wf p name flags size rfn :
  preserves structure_wf (new_file osmalloc p name flags size rfn).
Proof. unfold new_file, add_file. walk_preserves. Qed.
Lemma new_directory_wf p name type flags sfn :
  preserves structure_wf (new_directory osmalloc p name type flags sfn).
Proof. unfold new_directory. walk_preserves. apply add_directory_wf. Qed.

Lemma add_node_fresh parent name type id flags size sfn rfn s n s' :
  structure_wf s -> add_node parent name type id flags size sfn rfn s = Some (n, s') ->
  ids_distinct s -> id < next_node_id s' -> 0 < id ->
  (forall m x, sn_heap s !! m = Some x -> psn_base_node_id x ≠ id) ->
  ids_distinct s'.
Proof.
  intros [F _ _ _ _] (-> & Hid & Hr & Hf & obj & Hbid & Hpar & Hch & Hh)%add_node_inv [Hlt Hinj] Hb Hp Hn.
  assert (Hold : forall m x, sn_heap s' !! m = Some x -> m ≠ sn_fresh s ->
    exists y, sn_heap s !! m = Some y /\ psn_base_node_id y = psn_base_node_id x).
  { intros m x Hm Hne. destruct parent as [p|]; [destruct Hh as (pn & Hpn & Hh & _)|];
      rewrite Hh, lookup_insert_ne in Hm by done; [|eauto].
    apply lookup_insert_Some in Hm as [[<- <-]|[_ Hm]]; eauto. }
  assert (Hnew : sn_heap s' !! sn_fresh s = Some obj).
  { destruct parent as [p|]; [destruct Hh as (pn & Hpn & Hh & _)|]; rewrite Hh; apply lookup_insert_eq. }
  split.
  - intros m x Hm. destruct (decide (m = sn_fresh s)) as [->|Hne].
    + rewrite Hnew in Hm. simplify_eq. lia.
    + destruct (Hold _ _ Hm Hne) as (y & Hy & <-). apply Hlt in Hy. lia.
  - intros m m' x y Hx Hy Heq.
    destruct (decide (m = sn_fresh s)) as [->|Hne], (decide (m' = sn_fresh s)) as [->|Hne']; [done| | |].
    + destruct (Hold _ _ Hy Hne') as (y' & Hy' & E). rewrite Hnew in Hx. simplify_eq.
      exfalso. apply (Hn _ _ Hy'). congruence.
    + destruct (Hold _ _ Hx Hne) as (x' & Hx' & E). rewrite Hnew in Hy. simplify_eq.
      exfalso. apply (Hn _ _ Hx'). congruence.
    + destruct (Hold _ _ Hx Hne) as (x' & Hx' & Ex), (Hold _ _ Hy Hne') as (y' & Hy' & Ey).
      eapply Hinj; eauto. congruence.
Qed.

Lemma uses_bind {A B} k1 k2 (m : SM A) (f : A -> SM B) :
  preserves structure_wf m -> uses k1 m -> (forall a, uses k2 (f a)) ->
  uses (k1 + k2)%nat (m ≫= f).
Proof.
  intros Hw Hm Hf s b s' W D P Hk (a & s1 & H1 & H2)%SM_bind_Some.
  destruct (Hm _ _ _ W D P ltac:(lia) H1) as [D1 E1].
  destruct (Hf a _ _ _ (Hw _ _ _ W H1) D1 ltac:(lia) ltac:(lia) H2) as [D2 E2]. split; [done|lia].
Qed.

Lemma uses_ret {A} (a : A) : uses 0 (mret a : SM A).
Proof. intros s b s' W D P Hk [= <- <-]. split; [done|lia]. Qed.

(** Drawing an id and creating the object that carries it. *)
Lemma uses_new parent name type flags size sfn rfn :
  uses 1 (id ← next_id; add_node parent name type id flags size sfn rfn).
Proof.
  intros s n s' W D P Hk (id & s1 & [= <- <-] & H2)%SM_bind_Some.
  pose proof (add_node_inv _ _ _ _ _ _ _ _ _ _ _ H2) as (_ & Hid & _). simpl in Hid.
  rewrite u16_small in Hid, H2 by lia. split; [|lia].
  eapply (add_node_fresh _ _ _ _ _ _ _ _ (Structure _ _ _ _)); try exact H2; simpl; [| |lia|lia|].
  - destruct W. by constructor.
  - destruct D as [D1 D2]. split; simpl; [|done]. intros m x Hm%D1. lia.
  - intros m x Hm. apply D in Hm. lia.
Qed.

Lemma new_node_uses p name type flags sfn rfn : uses 1 (new_node osmalloc p name type flags sfn rfn).
Proof. apply uses_new. Qed.
Lemma new_file_uses p name flags size rfn : uses 1 (new_file osmalloc p name flags size rfn).
Proof. apply uses_new. Qed.

(** The entries "." and ".." of a new directory. *)
Lemma dots_uses d f1 f2 :
  uses 2 (id1 ← next_id; _ ← add_directory_raw osmalloc (Some d) "." PFSdirthis id1 f1 None None;
          id2 ← next_id; _ ← add_directory_raw osmalloc (Some d) ".." PFSdirparent id2 f2 None None;
          mret d).
Proof.
  intros s n s' W D P Hk H.
  assert (Hassoc : ((id ← next_id; add_node (Some d) "." PFSdirthis id f1 0 None None) ≫= λ _,
     ((id ← next_id; add_node (Some d) ".." PFSdirparent id f2 0 None None) ≫= λ _, mret d)) s
     = Some (n, s')).
  { revert H. clear. unfold mbind, SM_bind, add_directory_raw. simpl.
    destruct (add_node _ _ _ _ _ _ _ _ _) as [[]|]; [|done]. simpl. done. }
  revert Hassoc. apply (uses_bind 1 1); [ |apply uses_new| |done|done|done|done].
  - walk_preserves.
  - intros _. apply (uses_bind 1 0); [ |apply uses_new|intros; apply uses_ret]. walk_preserves.
Qed.

Lemma new_directory_uses p name type flags sfn : uses 3 (new_directory osmalloc p name type flags sfn).
Proof.
  intros s n s' W D P Hk H.
  assert (Hassoc : ((id ← next_id; add_node (Some p) name type id flags 0 sfn None) ≫= λ d,
    (id1 ← next_id; _ ← add_directory_raw osmalloc (Some d) "." PFSdirthis id1 (Z.land flags PSN_FLAGS_BOTH) None None;
     id2 ← next_id; _ ← add_directory_raw osmalloc (Some d) ".." PFSdirparent id2 (Z.land flags PSN_FLAGS_BOTH) None None;
     mret d)) s = Some (n, s')) by exact H.
  revert Hassoc. apply (uses_bind 1 2); [ |apply uses_new| |done|done|done|done].
  - walk_preserves.
  - intros d. apply dots_uses.
Qed.

End LayoutFacts.

(** Walks a block of creations, adding up the ids it draws. *)
Ltac walk_uses :=
  repeat match goal with
  | |- uses _ (mbind _ _) =>
    first [ apply (uses_bind 3); [apply new_directory_wf|apply new_directory_uses|intros ?]
          | apply (uses_bind 1); [first [apply new_node_wf|apply new_file_wf]
                                 |first [apply new_node_uses|apply new_file_uses]|intros ?] ]
  | |- uses _ (mret _) => apply uses_ret
  end.

Lemma uses_eq {A} k k' (m : SM A) : uses k' m -> k = k' -> uses k m.
Proof. by intros ? ->. Qed.

Ltac walk_block :=
  repeat match goal with |- preserves _ (mbind _ _) => apply preserves_bind; [|intros ?] end;
  auto using preserves_ret, new_node_wf, new_file_wf, new_directory_wf.

Section LayoutTheorems.
Context (osmalloc : N -> bool).

Lemma init_root_entries_wf r : preserves structure_wf (init_root_entries osmalloc r).
Proof. unfold init_root_entries. walk_block. Qed.
Lemma init_proc_dirs_wf p : preserves structure_wf (init_proc_dirs osmalloc p).
Proof. unfold init_proc_dirs. walk_block. Qed.
Lemma init_proc_files_wf p : preserves structure_wf (init_proc_files osmalloc p).
Proof. unfold init_proc_files. walk_block. Qed.
Lemma init_object_files_wf a b c : preserves structure_wf (init_object_files osmalloc a b c).
Proof. unfold init_object_files. walk_block. Qed.


(** The first directory is created in an arena that may hold nothing else. *)
Lemma add_directory_live parent name type id flags raw sfn rfn s n s' :
  structure_wf s ->
  add_directory osmalloc parent name type id flags raw sfn rfn s = Some (n, s') ->
  is_Some (sn_heap s' !! n).
Proof.
  intros W H.
  assert (Hin : forall p nm ty i f sz sf rf t m t', structure_wf t ->
     is_Some (sn_heap t !! n) \/ m = n ->
     add_node osmalloc p nm ty i f sz sf rf t = Some (m, t') -> is_Some (sn_heap t' !! n)).
  { intros p nm ty i f sz sf rf t m t' _ Hn (-> & _ & _ & _ & obj & _ & _ & _ & Hh)%add_node_inv.
    destruct p as [p|]; [destruct Hh as (pn & Hpn & Hh & _)|]; rewrite Hh, ?lookup_insert;
      repeat case_decide; eauto; destruct Hn; done. }
  revert H. unfold add_directory, add_directory_raw.
  intros (d & s1 & H1 & H2)%SM_bind_Some.
  pose proof (add_node_wf _ _ _ _ _ _ _ _ _ _ _ _ W H1) as W1.
  destruct raw; [injection H2 as -> ->; eauto|].
  apply SM_bind_Some in H2 as (i1 & s2 & E2 & H2). injection E2 as <- <-.
  apply SM_bind_Some in H2 as (n3 & s3 & E3 & H2).
  apply SM_bind_Some in H2 as (i4 & s4 & E4 & H2). injection E4 as <- <-.
  apply SM_bind_Some in H2 as (n5 & s5 & E5 & H2). injection H2 as -> ->.
  pose proof (next_id_wf s1 _ _ W1 eq_refl) as W2.
  pose proof (add_node_wf _ _ _ _ _ _ _ _ _ _ _ _ W2 E3) as W3.
  pose proof (next_id_wf s3 _ _ W3 eq_refl) as W4.
  eapply Hin; [exact W4| |exact E5]. left.
  eapply (Hin _ _ _ _ _ _ _ _ _ _ s3); [exact W2| |exact E3]. left. simpl. eauto.
Qed.

(** The part of [procfs_structure_init] after the root directory. *)
Definition init_rest (root : N) : SM unit :=
  byname ← init_root_entries osmalloc root;
  _ ← new_directory osmalloc byname "__Process_N__" PFSprocnamedir PSN_FLAG_PROCESS
        (Some procfs_process_node_size_fn);
  one_proc_dir ← new_directory osmalloc root "__Process__" PFSproc PSN_FLAG_PROCESS
                   (Some procfs_process_node_size_fn);
  dirs ← init_proc_dirs osmalloc one_proc_dir;
  _ ← init_proc_files osmalloc one_proc_dir;
  init_object_files osmalloc dirs.1.1 dirs.1.2 dirs.2.

Lemma init_rest_wf r : preserves structure_wf (init_rest r).
Proof.
  unfold init_rest.
  repeat match goal with |- preserves _ (mbind _ _) => apply preserves_bind; [|intros ?] end;
  auto using init_root_entries_wf, new_directory_wf, init_proc_dirs_wf, init_proc_files_wf,
    init_object_files_wf.
Qed.

Lemma init_rest_uses r : uses 74 (init_rest r).
Proof.
  unfold init_rest.
  apply (uses_bind 18 56); [apply init_root_entries_wf| |intros b].
  { unfold init_root_entries. eapply uses_eq; [walk_uses|done]. }
  apply (uses_bind 3 53); [apply new_directory_wf|apply new_directory_uses|intros _].
  apply (uses_bind 3 50); [apply new_directory_wf|apply new_directory_uses|intros p].
  apply (uses_bind 18 32); [apply init_proc_dirs_wf| |intros d].
  { unfold init_proc_dirs. eapply uses_eq; [walk_uses|done]. }
  apply (uses_bind 23 9); [apply init_proc_files_wf| |intros _].
  { unfold init_proc_files. eapply uses_eq; [walk_uses|done]. }
  unfold init_object_files. eapply uses_eq; [walk_uses|done].
Qed.

(** The two phases of a first initialisation. *)
Lemma structure_init_phases s u s' :
  root_node s = None -> procfs_structure_init osmalloc s = Some (u, s') ->
  exists root s1, add_directory osmalloc None "/" PFSroot PROCFS_ROOT_NODE_BASE_ID 0 false None None s
    = Some (root, s1) /\
  init_rest root (Structure (sn_heap s1) (sn_fresh s1) (next_node_id s1) (Some root)) = Some (u, s').
Proof.
  intros Hr. unfold procfs_structure_init. rewrite Hr.
  intros (root & s1 & H1 & H2)%SM_bind_Some.
  apply SM_bind_Some in H2 as ([] & s2 & [= <-] & H2). eauto.
Qed.

Lemma set_root_wf s r : structure_wf s -> is_Some (sn_heap s !! r) ->
  structure_wf (Structure (sn_heap s) (sn_fresh s) (next_node_id s) (Some r)).
Proof. intros [F P C D R] ?. constructor; simpl; [exact F|exact P|exact C|exact D|]. by intros ? [= <-]. Qed.

Lemma structure_init_preserves s u s' :
  structure_wf s -> procfs_structure_init osmalloc s = Some (u, s') -> structure_wf s'.
Proof.
  intros W H. destruct (root_node s) as [r|] eqn:Hr.
  - unfold procfs_structure_init in H. rewrite Hr in H. by simplify_eq.
  - destruct (structure_init_phases _ _ _ Hr H) as (root & s1 & H1 & H2).
    eapply init_rest_wf, H2. apply set_root_wf.
    + exact (add_directory_wf _ _ _ _ _ _ _ _ _ _ _ _ W H1).
    + exact (add_directory_live _ _ _ _ _ _ _ _ _ _ _ W H1).
Qed.

(** Building the layout keeps it a tree whatever state the statics are in:
    every pointer is live, a node is in the child list of its parent exactly
    once and carries the process and thread flags of its parent, and parents
    are older than children (so the tree has no cycle). *)
Theorem structure_init_wf s u s' :
  structure_wf s -> procfs_structure_init osmalloc s = Some (u, s') -> structure_wf s'.
Proof. apply structure_init_preserves. Qed.

(** As long as the 16-bit id counter does not wrap during the call, all
    nodes of a new layout have different base node ids (the property the
    composite node identifiers and the hash table rely on); a layout takes 76
    ids of the counter besides the root's. *)
Theorem structure_init_ids_distinct s u s' :
  structure_wf s -> sn_heap s = ∅ -> root_node s = None ->
  2 <= next_node_id s -> next_node_id s + 76 < 65536 ->
  procfs_structure_init osmalloc s = Some (u, s') ->
  ids_distinct s' /\ next_node_id s' = next_node_id s + 76.
Proof.
  intros W He Hr Hlo Hhi H.
  destruct (structure_init_phases _ _ _ Hr H) as (root & s1 & H1 & H2).
  assert (W1 : structure_wf s1) by exact (add_directory_wf _ _ _ _ _ _ _ _ _ _ _ _ W H1).
  assert (Hl : is_Some (sn_heap s1 !! root)) by exact (add_directory_live _ _ _ _ _ _ _ _ _ _ _ W H1).
  assert (Hd : ids_distinct s1 /\ next_node_id s1 = next_node_id s + 2).
  { unfold add_directory, add_directory_raw in H1.
    apply SM_bind_Some in H1 as (d & t & Ht & H1).
    pose proof (add_node_inv _ _ _ _ _ _ _ _ _ _ _ _ Ht) as (_ & Hid & _).
    pose proof (add_node_wf _ _ _ _ _ _ _ _ _ _ _ _ W Ht) as Wt.
    assert (Dt : ids_distinct t).
    { eapply add_node_fresh; [exact W|exact Ht| | | |].
      - split; rewrite He; intros *; by rewrite lookup_empty.
      - unfold PROCFS_ROOT_NODE_BASE_ID. lia.
      - done.
      - intros m x. by rewrite He, lookup_empty. }
    rewrite <- Hid.
    exact (dots_uses _ _ _ _ _ _ _ Wt Dt ltac:(lia) ltac:(lia) H1). }
  destruct Hd as [D1 E1].
  destruct (init_rest_uses _ _ _ _ (set_root_wf _ _ W1 Hl) D1 ltac:(simpl; lia) ltac:(simpl; lia) H2)
    as [D2 E2]. simpl in E2. split; [done|lia].
Qed.

End LayoutTheorems.

(** ** The layout that is built *)

(** The layout built on a first mount when the id counter stands at [n]. *)
Definition procfs_tree (n : Z) : structure :=
  match procfs_structure_init (λ _, true) (Structure ∅ 0%N n None) with
  | Some (_, s) => s
  | None => structure_boot
  end.

Lemma procfs_tree_wf n : structure_wf (procfs_tree n).
Proof.
  assert (W : structure_wf (Structure ∅ 0%N n None)) by (split; simpl; intros *; rewrite ?lookup_empty; done).
  unfold procfs_tree. destruct (procfs_structure_init (λ _, true) (Structure ∅ 0%N n None)) as [[[] s]|] eqn:E.
  - by eapply (structure_init_preserves (λ _, true)).
  - split; simpl; intros *; rewrite ?lookup_empty; done.
Qed.

(** Entries that are replaced by one entry per process, thread or descriptor. *)
Definition is_dynamic_type (t : pfstype) : bool :=
  match t with PFSproc | PFSprocnamedir | PFSthread | PFSfd => true | _ => false end.

(** The child objects of a node, in order. *)
Definition children_of (s : structure) (n : N) : list pfssnode :=
  match sn_heap s !! n with
  | Some x => omap (λ c, sn_heap s !! c) (psn_children x)
  | None => []
  end.

Definition starts_with_dots (l : list pfssnode) : bool :=
  match l with
  | a :: b :: _ =>
    bool_decide (psn_node_type a = PFSdirthis) && bool_decide (psn_name a = "."%string)
    && bool_decide (psn_node_type b = PFSdirparent) && bool_decide (psn_name b = ".."%string)
  | _ => false
  end.

(** What [procfs_vnop_lookup] and [procfs_vnop_readdir] need of a directory. *)
Definition directory_ok (l : list pfssnode) : bool :=
  starts_with_dots l
  && forallb (λ x, negb (bool_decide (psn_node_type x = PFSroot))) l
  && forallb (λ x, negb (is_dynamic_type (psn_node_type x))) (take (length l - 1) l)
  && bool_decide (NoDup (psn_name <$> l)).

Definition layout_ok (s : structure) : bool :=
  forallb (λ '(n, x),
      if (bool_decide (psn_children x = []))
      then true
      else directory_ok (children_of s n) && bool_decide (length (children_of s n) = length (psn_children x)))
    (map_to_list (sn_heap s)).

(** In the layout that is built, whatever the id counter: every directory
    starts with "." and "..", has no two entries of one name, has no entry of
    type [PFSroot] (on which readdir would loop for ever), and the entries that
    expand to processes, threads or descriptors come last in their directory. *)
Theorem structure_init_layout n : layout_ok (procfs_tree n) = true.
Proof. vm_compute. reflexivity. Qed.

(** Freeing the layout releases every object of it, each one while it is
    still live, and clears the root, so that the next mount builds a new one. *)
Theorem structure_free_complete n :
  (λ r, (sn_heap r.2, root_node r.2)) <$> procfs_structure_free (procfs_tree n) = Some (∅, None).
Proof. vm_compute. reflexivity. Qed.

(** Mounting and unmounting [k] times. *)
Fixpoint remount_cycles (k : nat) (s : structure) : option structure :=
  match k with
  | O => Some s
  | S k' =>
    match procfs_structure_init (λ _, true) s with
    | Some (_, s1) =>
      match procfs_structure_free s1 with
      | Some (_, s2) => remount_cycles k' s2
      | None => None
      end
    | None => None
    end
  end.

Definition base_ids (s : structure) : list Z :=
  (λ x : N * pfssnode, psn_base_node_id x.2) <$> map_to_list (sn_heap s).

Lemma remount_862 : next_node_id <$> remount_cycles 862 structure_boot = Some 65514.
Proof. vm_compute. reflexivity. Qed.

Lemma base_ids_wrapped : bool_decide (NoDup (base_ids (procfs_tree 65514))) = false.
Proof. vm_compute. reflexivity. Qed.

(** The counter is not reset when the layout is freed: after 862 mounts and
    unmounts it wraps in the next mount, which gives one base node id to
    several nodes. *)
Theorem structure_ids_wrap :
  match remount_cycles 862 structure_boot with
  | Some s => next_node_id s = 65514 /\ ~ NoDup (base_ids (procfs_tree (next_node_id s)))
  | None => False
  end.
Proof.
  pose proof remount_862 as H. destruct (remount_cycles 862 structure_boot) as [s|]; [|done].
  injection H as ->. split; [done|]. exact (bool_decide_eq_false_1 _ base_ids_wrapped).
Qed.

(** Witnesses *)

Lemma structure_boot_wf : structure_wf structure_boot.
Proof. split; simpl; intros *; rewrite ?lookup_empty; done. Qed.

Lemma structure_init_wf_witness : structure_wf (procfs_tree 2).
Proof.
  apply (structure_init_wf (λ _, true) structure_boot tt); [exact structure_boot_wf|].
  vm_compute. reflexivity.
Defined.

Lemma structure_init_ids_distinct_witness : ids_distinct (procfs_tree 2) /\ next_node_id (procfs_tree 2) = 2 + 76.
Proof.
  apply (structure_init_ids_distinct (λ _, true) structure_boot tt);
    [exact structure_boot_wf|reflexivity|reflexivity|by vm_compute|by vm_compute|].
  vm_compute. reflexivity.
Defined.
