(* ===== verification/Subr.v ===== *)
(** * Utility functions (kext/procfs_subr.c) and the node data types

    Node types and their vnode types, file ids, the decimal parser of path
    components, the process, thread and descriptor lists, the access checks and
    the copy-out routine every read handler ends with. *)

From S2P Require Import Prelude Kernel Structure.

(** ** Data of include/fs/procfs/procfs.h *)

(** The vnode types, in the order of the kernel's enumeration. *)
Inductive vtype : Set := VNON | VREG | VDIR | VBLK | VCHR | VLNK.
#[export] Instance vtype_eq_dec : EqDecision vtype.
Proof. solve_decision. Defined.

(** The value of a [vtype] used as a C integer. *)
Definition vtype_to_int (t : vtype) : Z :=
  match t with VNON => 0 | VREG => 1 | VDIR => 2 | VBLK => 3 | VCHR => 4 | VLNK => 5 end.

Record pfsid := Pfsid { nodeid_pid : Z; nodeid_objectid : Z; nodeid_base_id : Z }.
#[export] Instance pfsid_eq_dec : EqDecision pfsid.
Proof. solve_decision. Defined.

Definition PROCFS_ROOT_NODE_ID : pfsid :=
  Pfsid PRNODE_NO_PID PRNODE_NO_OBJECTID PROCFS_ROOT_NODE_BASE_ID.

(** The part of a mount the operations read. *)
Record pfsmount := Pfsmount { pmnt_id : Z; pmnt_flags : Z; pmnt_mount_time : Z * Z }.

Definition PROCFS_MOPT_NOPROCPERMS : Z := 1.

Definition procfs_should_access_check (pmp : pfsmount) : bool :=
  Z.land (pmnt_flags pmp) PROCFS_MOPT_NOPROCPERMS =? 0.

(** A node in use: its identifier and the layout entry it was made from. *)
Record pfsnode := Pfsnode { node_id : pfsid; node_structure_node : N }.

Definition procfsnode_to_pid (n : pfsnode) : Z := nodeid_pid (node_id n).

Definition procfs_is_directory_type (t : pfstype) : bool :=
  match t with
  | PFScurproc | PFSloadavg | PFSfile | PFScpuinfo | PFSpartitions | PFSversion | PFSmeminfo
  | PFSmtab | PFSstat | PFSvmstat | PFSuptime | PFSproclink | PFSswaps | PFSfilesystems
  | PFSsysctl => false
  | _ => true
  end.

(** ** Node types *)

Definition procfs_allocvp (t : pfstype) : vtype :=
  match t with
  | PFSroot | PFSproc | PFSthread | PFSdir | PFSdirthis | PFSdirparent | PFSfd | PFSsysctl => VDIR
  | PFSfile | PFScpuinfo | PFSloadavg | PFSpartitions | PFSversion | PFSmeminfo | PFSmtab
  | PFSstat | PFSvmstat | PFSuptime | PFSswaps | PFSfilesystems => VREG
  | PFSprocnamedir | PFScurproc | PFSproclink => VLNK
  end.

Definition procfs_node_type_has_pid (t : pfstype) : bool :=
  match t with
  | PFSroot | PFScurproc | PFSdir | PFScpuinfo | PFSversion | PFSmeminfo | PFSmtab | PFSstat
  | PFSvmstat | PFSuptime | PFSswaps | PFSfilesystems | PFSsysctl => false
  | _ => true
  end.

(** ** File ids *)

(** [pid << 8] is computed as an [int] and then converted to 64 bits. *)
Definition procfs_get_fileid (pid objectid base_id : Z) : Z :=
  let id := base_id in
  let id := if pid =? PRNODE_NO_PID then id else Z.lor id (u64 (s32 (Z.shiftl pid 8))) in
  Z.lor id (u64 (Z.shiftl objectid 24)).

Definition procfs_get_node_fileid (st : structure) (pnp : pfsnode) : option Z :=
  snode ← sn_heap st !! node_structure_node pnp;
  Some (procfs_get_fileid (nodeid_pid (node_id pnp)) (nodeid_objectid (node_id pnp))
          (psn_base_node_id snode)).

(** ** Decimal numbers in path components *)

Definition digit_of (c : Ascii.ascii) : option Z :=
  let n := Z.of_N (Ascii.N_of_ascii c) in
  if (48 <=? n) && (n <=? 57) then Some (n - 48) else None.

(** The loop: the value so far and the text from the first character that is
    not a digit. *)
Fixpoint atoi_loop (value : Z) (s : string) : Z * string :=
  match s with
  | EmptyString => (value, s)
  | String c s' =>
    match digit_of c with
    | Some d => atoi_loop (s32 (value * 10 + d)) s'
    | None => (value, s)
    end
  end.

(** The value, or -1 when the text does not start with a digit, and the text
    [*end_ptr] points to. *)
Definition procfs_atoi (s : string) : Z * string :=
  let r := atoi_loop 0 s in
  if String.eqb r.2 s then (-1, r.2) else r.

(** ** Access checks *)

Section Subr.
Context `{KernelOps}.

Definition procfs_check_can_access_process (creds : kauth_cred_t) (p : proc_t) : Z :=
  let proc_cred := kauth_cred_proc_ref p in
  let cred_euid := cr_uid creds in
  let error := if (cred_euid =? kauth_cred_getuid proc_cred)
                  || (cred_euid =? kauth_cred_getruid proc_cred) then 0 else EACCES in
  let cred_egid := cr_groups0 creds in
  if negb (error =? 0) && ((cred_egid =? kauth_cred_getgid proc_cred)
                           || (cred_egid =? kauth_cred_getrgid proc_cred))
  then 0 else error.

Definition procfs_check_can_access_proc_pid (creds : kauth_cred_t) (pid : Z) : K Z :=
  p ← proc_find pid;
  match p with
  | Some p => let error := procfs_check_can_access_process creds p in
              _ ← proc_rele p; mret error
  | None => mret ESRCH
  end.

Definition procfs_issuser (creds : kauth_cred_t) : Z :=
  if kauth_cred_getuid creds =? 0 then 0 else EPERM.

(** The process of a node: its pid and reference, or ENOENT when a node that
    must have a process has none. *)
Definition procfs_get_process_info (node_type : pfstype) (pnp : pfsnode) :
    K (Z * option (Z * option proc_t)) :=
  let pid := procfsnode_to_pid pnp in
  p ← (if pid =? PRNODE_NO_PID then mret None else proc_find pid);
  match p with
  | None => if procfs_node_type_has_pid node_type then mret (ENOENT, None)
            else mret (0, Some (pid, None))
  | Some _ => mret (0, Some (pid, p))
  end.

(** ** Process lists *)

Definition PROCFS_MAX_PID : Z := 99999.
Definition PROCFS_MAX_PROCS : Z := 1024.

(** Whether a process is shown to the credentials ([None]: no check). *)
Definition can_list (creds : option kauth_cred_t) (p : proc_t) : bool :=
  match creds with
  | None => true
  | Some c => procfs_check_can_access_process c p =? 0
  end.

(** The loop over the pid space; [fuel] iterations from [pid] on, [pids] in
    reverse order. *)
Fixpoint get_pids_loop (fuel : nat) (pid count : Z) (pids : list Z) (creds : option kauth_cred_t) :
    K (list Z) :=
  match fuel with
  | O => mret (rev pids)
  | S fuel' =>
    if (pid <=? PROCFS_MAX_PID) && (count <? PROCFS_MAX_PROCS) then
      p ← proc_find pid;
      match p with
      | None => get_pids_loop fuel' (pid + 1) count pids creds
      | Some p =>
        if can_list creds p then
          _ ← proc_rele p; get_pids_loop fuel' (pid + 1) (count + 1) (pid :: pids) creds
        else _ ← proc_rele p; get_pids_loop fuel' (pid + 1) count pids creds
      end
    else mret (rev pids)
  end.

(** The pids, and the size of the array that holds them; the loop makes at most
    [iterations] turns. *)
Definition get_pids_body (iterations : nat) (creds : option kauth_cred_t) : K (list Z * Z) :=
  let pidsize := PROCFS_MAX_PROCS * 4 in
  ok ← OSMalloc pidsize;
  if (ok : bool) then
    pids ← get_pids_loop iterations 0 0 [] creds;
    mret (pids, pidsize)
  else mret ([], 0).

Definition procfs_get_pids (creds : option kauth_cred_t) : K (list Z * Z) :=
  get_pids_body (Z.to_nat (PROCFS_MAX_PID + 1)) creds.

Definition procfs_release_pids (size : Z) : K unit := OSFree size.

Definition procfs_get_process_count (creds : kauth_cred_t) : K Z :=
  let is_suser := procfs_issuser creds =? 0 in
  r ← procfs_get_pids (if is_suser then None else Some creds);
  _ ← procfs_release_pids r.2;
  mret (Z.of_nat (length r.1)).

(** The callback of the older process iteration. *)
Record procfs_pidlist_data := PidlistData {
  num_procs : Z; max_procs : Z; pl_creds : option kauth_cred_t; pl_pids : list Z
}.
Definition procfs_get_pid (p : proc_t) (data : procfs_pidlist_data) : procfs_pidlist_data :=
  if can_list (pl_creds data) p then
    if max_procs data <=? num_procs data then data
    else PidlistData (num_procs data + 1) (max_procs data) (pl_creds data)
           (pl_pids data ++ [proc_pid p])
  else data.

(** ** Threads *)

Definition PROCFS_THREAD_SIZE_MAX : Z := 262144.
Definition PROCFS_MAX_THREADS : Z := 100000.
Definition PROCFS_KPTR_MIN : Z := 18446741874686296064.

Definition procfs_kptr_ok (va : Z) : bool :=
  if va <? PROCFS_KPTR_MIN then false else kernel_mapped va.

(** The lowest [uthread] address just above the current thread. *)
Fixpoint thread_size_loop (i th : Z) (best : option Z) (l : list Z) : option Z :=
  match l with
  | [] => best
  | u :: l' =>
    if i <? PROCFS_MAX_THREADS then
      if negb (procfs_kptr_ok u) then best else
      let better := (th <? u) && (u - th <? PROCFS_THREAD_SIZE_MAX)
                    && match best with Some b => u <? b | None => true end in
      thread_size_loop (i + 1) th (if better then Some u else best) l'
    else best
  end.

(** [g_thread_struct_size], [None] while [g_thread_size_known] is false. *)
Definition procfs_thread_size_init (known : option Z) : K (option Z) :=
  match known with
  | Some _ => mret known
  | None =>
    match current_proc with
    | None => mret None
    | Some cp =>
      if current_thread =? 0 then mret None else
      l ← uthlist cp;
      mret match thread_size_loop 0 current_thread None l with
           | Some best => Some (best - current_thread)
           | None => None
           end
    end
  end.

Fixpoint count_uthreads (count : Z) (l : list Z) : Z :=
  match l with
  | [] => count
  | u :: l' =>
    if count <? PROCFS_MAX_THREADS then
      if procfs_kptr_ok u then count_uthreads (count + 1) l' else count
    else count
  end.

(** The second pass: at most [count] ids. *)
Fixpoint collect_tids (size n count : Z) (l : list Z) : list Z :=
  match l with
  | [] => []
  | u :: l' =>
    if n <? count then
      if negb (procfs_kptr_ok u) then [] else
      let thread := u64 (u - size) in
      if procfs_kptr_ok thread then thread_tid thread :: collect_tids size (n + 1) count l'
      else collect_tids size n count l'
    else []
  end.

Definition KERN_SUCCESS : Z := 0.
Definition KERN_RESOURCE_SHORTAGE : Z := 6.
Definition KERN_NOT_SUPPORTED : Z := 46.

(** The error, the ids, and the remembered structure size. *)
Definition procfs_get_thread_ids_for_task (p : option proc_t) (known : option Z) :
    K (Z * list Z * option Z) :=
  known ← procfs_thread_size_init known;
  match known, p with
  | Some size, Some p =>
    l1 ← uthlist p;
    let count := count_uthreads 0 l1 in
    if count =? 0 then mret (KERN_SUCCESS, [], known) else
    ok ← OSMalloc (count * 8);
    if (ok : bool) then
      l2 ← uthlist p;
      mret (KERN_SUCCESS, collect_tids size 0 count l2, known)
    else mret (KERN_RESOURCE_SHORTAGE, [], known)
  | _, _ => mret (KERN_NOT_SUPPORTED, [], known)
  end.

Definition procfs_release_thread_ids (thread_count : Z) : K unit := OSFree (thread_count * 8).

Definition procfs_get_task_thread_count (p : option proc_t) (known : option Z) : K (Z * option Z) :=
  r ← procfs_get_thread_ids_for_task p known;
  let '(error, ids, known) := r in
  if error =? 0 then
    _ ← procfs_release_thread_ids (Z.of_nat (length ids));
    mret (Z.of_nat (length ids), known)
  else mret (0, known).

(** ** File descriptors *)

Definition sizeof_proc_fdinfo : Z := 8.

(** The error, the descriptors and the size of the array ([None]: NULL). *)
Definition procfs_get_fd_list (p : option proc_t) : K (Z * list Z * option Z) :=
  match p with
  | None => mret (EINVAL, [], None)
  | Some p =>
    b ← proc_fdlist_bound p;
    let '(error, capacity) := b in
    if negb (error =? 0) || (capacity =? 0) then mret (error, [], None) else
    ok ← OSMalloc (capacity * sizeof_proc_fdinfo);
    if (ok : bool) then
      r ← proc_fdlist p capacity;
      let '(error, fds) := r in
      if negb (error =? 0) then
        _ ← OSFree (capacity * sizeof_proc_fdinfo); mret (error, [], None)
      else mret (0, fds, Some (capacity * sizeof_proc_fdinfo))
    else mret (ENOMEM, [], None)
  end.

Definition procfs_release_fd_list (fdlist : option Z) : K unit :=
  match fdlist with Some size => OSFree size | None => mret tt end.

End Subr.

(** ** Copying out *)

Section CopyData.
Context `{UioOps}.

(** [uiomove(data + off, n, uio)] on a buffer; [None] when it would read bytes
    that are not in the buffer.  (The count is capped at the bytes the buffer
    has left; the test has made sure that this moves the same bytes.) *)
Definition uiomove_from (data : list Byte.byte) (off n : Z) (uio : uio_t) : option (Z * uio_t) :=
  if (0 <=? off) && (off + Z.min n (uio_resid uio) <=? Z.of_nat (length data))
  then Some (uiomove (drop (Z.to_nat off) data) (Z.min n (Z.of_nat (length data) - off)) uio)
  else None.

(** [data] is [None] for a NULL pointer; [data_len] is an [int]. *)
Definition procfs_copy_data (data : option (list Byte.byte)) (data_len : Z) (uio : uio_t) :
    option (Z * uio_t) :=
  let start_offset := uio_offset uio in
  let data_len := s32 (data_len - start_offset) in
  match data with
  | Some d => if 0 <=? data_len then uiomove_from d start_offset data_len uio else Some (EIO, uio)
  | None => if 0 <=? data_len then Some (EFAULT, uio) else Some (ENOTSUP, uio)
  end.

End CopyData.

(** ** Properties of file ids *)

Lemma fileid_packed pid obj base :
  0 <= base < 256 -> 0 <= pid < 65536 -> 0 <= obj < 2 ^ 40 ->
  procfs_get_fileid pid obj base = base + pid * 256 + obj * 2 ^ 24.
Proof.
  intros Hb Hp Ho. unfold procfs_get_fileid, PRNODE_NO_PID.
  destruct (Z.eqb_spec pid (-1)); [lia|].
  assert (Hs : Z.shiftl pid 8 = pid * 256) by (by rewrite Z.shiftl_mul_pow2).
  assert (Hso : Z.shiftl obj 24 = obj * 2 ^ 24) by (by rewrite Z.shiftl_mul_pow2).
  rewrite (s32_small (Z.shiftl pid 8)) by (unfold INT_MIN, INT_MAX; lia).
  rewrite (u64_small (Z.shiftl pid 8)), (u64_small (Z.shiftl obj 24)) by lia.
  rewrite (lor_shiftl base pid 8) by lia. change (2 ^ 8) with 256. by rewrite lor_shiftl by lia.
Qed.

(** File ids identify nodes: two nodes of one mount have the same file id
    only if they agree on pid, object and base id, for base ids below 256 (a
    layout has 77 nodes), pids below 65536 and object ids below 2^40. *)
Theorem fileid_injective pid obj base pid' obj' base' :
  0 <= base < 256 -> 0 <= base' < 256 -> 0 <= pid < 65536 -> 0 <= pid' < 65536 ->
  0 <= obj < 2 ^ 40 -> 0 <= obj' < 2 ^ 40 ->
  procfs_get_fileid pid obj base = procfs_get_fileid pid' obj' base' ->
  pid = pid' /\ obj = obj' /\ base = base'.
Proof.
  intros ?????? E. rewrite !fileid_packed in E by done. lia.
Qed.

Lemma fileid_injective_witness :
  procfs_get_fileid 501 3 24 = procfs_get_fileid 501 3 24 /\ (501 = 501 /\ 3 = 3 /\ 24 = 24).
Proof. split; [reflexivity|]. apply (fileid_injective 501 3 24 501 3 24); by vm_compute. Defined.

(** Above pid 65535 the pid reaches the bits of the object id: a process
    directory and an entry of another process get one file id (pids go up to
    99999). *)
Theorem fileid_large_pid_collision pid base :
  0 <= base < 256 -> 0 <= pid -> pid + 65536 <= PROCFS_MAX_PID ->
  procfs_get_fileid (pid + 65536) PRNODE_NO_OBJECTID base = procfs_get_fileid pid 1 base.
Proof.
  intros Hb Hp Hm. unfold PROCFS_MAX_PID in Hm. rewrite (fileid_packed pid 1) by lia.
  unfold procfs_get_fileid, PRNODE_NO_PID, PRNODE_NO_OBJECTID.
  destruct (Z.eqb_spec (pid + 65536) (-1)); [lia|].
  assert (Hs : Z.shiftl (pid + 65536) 8 = (pid + 65536) * 256) by (by rewrite Z.shiftl_mul_pow2).
  rewrite (s32_small (Z.shiftl _ 8)) by (unfold INT_MIN, INT_MAX; lia).
  rewrite (u64_small (Z.shiftl _ 8)) by lia. change (u64 (Z.shiftl 0 24)) with 0.
  rewrite Z.lor_0_r, lor_shiftl by lia. lia.
Qed.

Lemma fileid_large_pid_collision_witness :
  procfs_get_fileid 65546 PRNODE_NO_OBJECTID 24 = procfs_get_fileid 10 1 24.
Proof. apply (fileid_large_pid_collision 10 24); by vm_compute. Defined.

(** ** Properties of the decimal parser *)

(** The decimal value of a string of digits. *)
Fixpoint decimal_value (acc : Z) (s : string) : Z :=
  match s with
  | EmptyString => acc
  | String c s' => match digit_of c with Some d => decimal_value (acc * 10 + d) s' | None => acc end
  end.

Fixpoint span_digits (s : string) : string * string :=
  match s with
  | EmptyString => (""%string, s)
  | String c s' =>
    match digit_of c with
    | Some _ => let r := span_digits s' in (String c r.1, r.2)
    | None => (""%string, s)
    end
  end.

Lemma s32_mod a b : a mod 4294967296 = b mod 4294967296 -> s32 a = s32 b.
Proof.
  intros E. unfold s32. f_equal.
  rewrite (Z.add_mod a), (Z.add_mod b), E by lia. done.
Qed.

Lemma s32_step v d : s32 (s32 v * 10 + d) = s32 (v * 10 + d).
Proof.
  apply s32_mod. unfold s32.
  set (w := (v + 2147483648) mod 4294967296).
  assert (E : v + 2147483648 = 4294967296 * ((v + 2147483648) / 4294967296) + w)
    by (apply Z.div_mod; lia).
  replace (v * 10 + d) with ((w - 2147483648) * 10 + d
    + ((v + 2147483648) / 4294967296 * 10) * 4294967296) by lia.
  by rewrite Z.mod_add by lia.
Qed.

Lemma atoi_loop_value v s :
  atoi_loop (s32 v) s = (s32 (decimal_value v s), (span_digits s).2).
Proof.
  revert v. induction s as [|c s IH]; intros v; simpl; [done|].
  destruct (digit_of c) as [d|]; simpl; [|done]. rewrite s32_step. apply IH.
Qed.

Lemma span_digits_app s : s = ((span_digits s).1 +:+ (span_digits s).2)%string.
Proof. induction s as [|c s IH]; simpl; [done|]. destruct (digit_of c); simpl; [|done]. exact (f_equal (String c) IH). Qed.

Lemma string_app_cons_neq c d (r : string) : (String c d +:+ r)%string ≠ r.
Proof.
  intros E. apply (f_equal String.length) in E. rewrite string_length_app in E. simpl in E. lia.
Qed.

Lemma procfs_atoi_value_lemma s :
  procfs_atoi s = (if String.eqb (span_digits s).1 "" then -1 else s32 (decimal_value 0 s),
                   (span_digits s).2).
Proof.
  unfold procfs_atoi. pose proof (atoi_loop_value 0 s) as L. change (s32 0) with 0 in L.
  rewrite L. cbn [fst snd].
  pose proof (span_digits_app s) as A.
  destruct (String.eqb_spec (span_digits s).2 s) as [E|E];
    destruct (String.eqb_spec (span_digits s).1 "") as [E'|E'].
  - done.
  - rewrite E in A. destruct (span_digits s).1 as [|c d] eqn:Ed; [done|].
    symmetry in A. by apply string_app_cons_neq in A.
  - destruct E. rewrite E' in A. symmetry. exact A.
  - done.
Qed.

(** ** Printing and parsing numbers *)

Definition all_digits (s : string) : Prop := (span_digits s).2 = ""%string.

Lemma span_digits_app_l s t : all_digits s -> span_digits (s +:+ t) = (s +:+ (span_digits t).1, (span_digits t).2)%string.
Proof.
  unfold all_digits. induction s as [|c s IH]; [intros _; exact (surjective_pairing _)|].
  change ((String c s +:+ t))%string with (String c (s +:+ t)). simpl.
  destruct (digit_of c); simpl; [|done]. intros Hs. by rewrite (IH Hs).
Qed.

Lemma decimal_value_app acc s t : all_digits s ->
  decimal_value acc (s +:+ t)%string = decimal_value (decimal_value acc s) t.
Proof.
  unfold all_digits. revert acc. induction s as [|c s IH]; intros acc; [done|].
  change ((String c s +:+ t))%string with (String c (s +:+ t)). simpl.
  destruct (digit_of c); simpl; [|done]. intros Hs. by rewrite (IH _ Hs).
Qed.

Lemma digit_of_pretty x : (x < 10)%N -> digit_of (pretty_N_char x) = Some (Z.of_N x).
Proof.
  intros Hx. assert (x = 0 \/ x = 1 \/ x = 2 \/ x = 3 \/ x = 4 \/ x = 5 \/ x = 6 \/ x = 7
    \/ x = 8 \/ x = 9)%N as H by lia. naive_solver.
Qed.

(** The digits of a positive number, put before a string. *)
Lemma pretty_N_go_digits x :
  exists pre, (forall s, pretty_N_go x s = pre +:+ s)%string /\ all_digits pre /\ decimal_value 0 pre = Z.of_N x /\ ((0 < x)%N -> pre ≠ ""%string).
Proof.
  induction (N.lt_wf_0 x) as [x _ IH].
  assert (x = 0 \/ 0 < x)%N as [->|Hx] by lia.
  - exists ""%string. split; [done|]. split; [done|]. split; [done|lia].
  - destruct (IH (x `div` 10)%N) as (pre & Hp & Hd & Hv & _); [by apply N.div_lt|].
    pose proof (N.mod_lt x 10 ltac:(done)) as Hm.
    exists (pre +:+ String (pretty_N_char (x `mod` 10)) "")%string. split_and!.
    + intros s. rewrite pretty_N_go_step, Hp by done.
      clear. induction pre as [|c pre IHp]; [done|]. exact (f_equal (String c) IHp).
    + unfold all_digits. rewrite span_digits_app_l by done. simpl. by rewrite digit_of_pretty.
    + rewrite decimal_value_app, Hv by done. simpl. rewrite digit_of_pretty by done.
      pose proof (N.div_mod x 10). lia.
    + intros _ E. apply (f_equal String.length) in E. rewrite string_length_app in E. simpl in E. lia.
Qed.

Lemma fmt_d_digits z : 0 <= z ->
  all_digits (fmt_d z) /\ decimal_value 0 (fmt_d z) = z /\ fmt_d z ≠ ""%string.
Proof.
  intros Hz. destruct z as [|p|p]; [done| |lia].
  change (fmt_d (Z.pos p)) with (pretty_N_go (N.pos p) "").
  destruct (pretty_N_go_digits (N.pos p)) as (pre & -> & Hd & Hv & Hn).
  assert (E : (pre +:+ "" = pre)%string).
  { clear. induction pre as [|c pre IHp]; [done|]. exact (f_equal (String c) IHp). }
  rewrite E. split; [done|]. split; [done|]. by apply Hn.
Qed.

Lemma span_digits_all s : all_digits s -> span_digits s = (s, ""%string).
Proof.
  unfold all_digits. induction s as [|c s IH]; [done|]. simpl.
  destruct (digit_of c); [|done]. simpl. intros H. by rewrite (IH H).
Qed.

Lemma atoi_fmt_d z : 0 <= z <= INT_MAX -> procfs_atoi (fmt_d z) = (z, ""%string).
Proof.
  intros Hz. destruct (fmt_d_digits z) as (Hd & Hv & Hn); [lia|].
  rewrite procfs_atoi_value_lemma, (span_digits_all _ Hd), Hv. simpl.
  destruct (String.eqb_spec (fmt_d z) ""); [done|].
  by rewrite s32_small by (unfold INT_MIN, INT_MAX in *; lia).
Qed.

(** [procfs_atoi] splits the name at its first non-digit and returns the
    decimal value of the digits modulo 2^32 (as an [int]), or -1 when there are
    no digits. *)
Theorem procfs_atoi_value s :
  procfs_atoi s = (if String.eqb (span_digits s).1 "" then -1 else s32 (decimal_value 0 s),
                   (span_digits s).2).
Proof. apply procfs_atoi_value_lemma. Qed.

(** The name that readdir and readlink print for a pid, thread or
    descriptor is read back by lookup as the same number, with nothing left. *)
Theorem procfs_atoi_roundtrip z : 0 <= z <= INT_MAX -> procfs_atoi (fmt_d z) = (z, ""%string).
Proof. apply atoi_fmt_d. Qed.

Lemma procfs_atoi_roundtrip_witness : procfs_atoi (fmt_d 4711) = (4711, ""%string).
Proof. apply (procfs_atoi_roundtrip 4711). by vm_compute. Defined.

(** ** Access checks and process lists *)

Section SubrFacts.
Context `{KernelOps}.

Lemma check_access_iff creds p :
  procfs_check_can_access_process creds p = 0 <->
  (cr_uid creds = kauth_cred_getuid (kauth_cred_proc_ref p) \/
   cr_uid creds = kauth_cred_getruid (kauth_cred_proc_ref p) \/
   cr_groups0 creds = kauth_cred_getgid (kauth_cred_proc_ref p) \/
   cr_groups0 creds = kauth_cred_getrgid (kauth_cred_proc_ref p)).
Proof.
  unfold procfs_check_can_access_process, EACCES.
  repeat match goal with |- context [?a =? ?b] => destruct (Z.eqb_spec a b) end; simpl; intuition lia.
Qed.

(** Access to a process is granted exactly when the effective uid of the
    caller is the effective or real uid of the process, or its effective gid is
    the effective or real gid of the process; otherwise the error is EACCES. *)
Theorem check_can_access_process_spec creds p :
  (procfs_check_can_access_process creds p = 0 \/ procfs_check_can_access_process creds p = EACCES) /\
  (procfs_check_can_access_process creds p = 0 <->
   (cr_uid creds = kauth_cred_getuid (kauth_cred_proc_ref p) \/
    cr_uid creds = kauth_cred_getruid (kauth_cred_proc_ref p) \/
    cr_groups0 creds = kauth_cred_getgid (kauth_cred_proc_ref p) \/
    cr_groups0 creds = kauth_cred_getrgid (kauth_cred_proc_ref p))).
Proof.
  split; [|apply check_access_iff]. unfold procfs_check_can_access_process.
  repeat case_bool; auto.
Qed.

Lemma check_proc_pid_balanced creds pid : balanced (procfs_check_can_access_proc_pid creds pid).
Proof. apply balanced_proc_find; [intros p s; simpl; lia|apply balanced_ret]. Qed.

Lemma check_proc_pid_yields `{!KernelStable} creds pid :
  yields (procfs_check_can_access_proc_pid creds pid)
    match proc_find_at 0 pid with
    | Some p => procfs_check_can_access_process creds p
    | None => ESRCH
    end.
Proof.
  intros s. split; [|apply check_proc_pid_balanced].
  unfold procfs_check_can_access_proc_pid. rewrite K_bind_run, proc_find_stable. simpl.
  by destruct (proc_find_at 0 pid).
Qed.

Lemma get_pids_loop_balanced fuel pid count pids creds : balanced (get_pids_loop fuel pid count pids creds).
Proof.
  revert pid count pids. induction fuel as [|fuel IH]; intros pid count pids; simpl.
  { apply balanced_ret. }
  case_bool; [|apply balanced_ret]. apply balanced_proc_find; [|apply IH].
  intros p s. case_bool; rewrite K_bind_run; simpl.
  - destruct (IH (pid + 1) (count + 1) (pid :: pids) (Kstate (k_clock s) (k_procrefs s + -1) (k_mem s)))
      as [E1 E2]. simpl in *. lia.
  - destruct (IH (pid + 1) count pids (Kstate (k_clock s) (k_procrefs s + -1) (k_mem s)))
      as [E1 E2]. simpl in *. lia.
Qed.

(** The processes a caller sees. *)
Definition visible (creds : option kauth_cred_t) (pid : Z) : bool :=
  match proc_find_at 0 pid with Some p => can_list creds p | None => false end.

(** The reference definition of the process list: the first 1024 visible pids
    in increasing order. *)
Definition visible_pids (creds : option kauth_cred_t) : list Z :=
  take (Z.to_nat PROCFS_MAX_PROCS) (List.filter (visible creds) (seqZ 0 (PROCFS_MAX_PID + 1))).

Lemma get_pids_loop_spec `{!KernelStable} fuel pid count pids creds s :
  0 <= pid -> pid + Z.of_nat fuel = PROCFS_MAX_PID + 1 -> 0 <= count <= PROCFS_MAX_PROCS ->
  (get_pids_loop fuel pid count pids creds s).1 =
  rev pids ++ take (Z.to_nat (PROCFS_MAX_PROCS - count))
                (List.filter (visible creds) (seqZ pid (Z.of_nat fuel))).
Proof.
  revert pid count pids s. induction fuel as [|fuel IH]; intros pid count pids s Hp Hf Hc; simpl.
  { rewrite take_nil. by rewrite app_nil_r. }
  rewrite (proj2 (Z.leb_le pid PROCFS_MAX_PID)), andb_true_l by lia.
  destruct (Z.ltb_spec count PROCFS_MAX_PROCS) as [Hlt|Hge].
  2:{ replace (Z.to_nat (PROCFS_MAX_PROCS - count)) with 0%nat by lia. by rewrite take_0, app_nil_r. }
  rewrite K_bind_run, proc_find_stable. rewrite seqZ_cons by lia. simpl.
  unfold visible at 1. replace (Z.pred (Z.of_nat (S fuel))) with (Z.of_nat fuel) by lia.
  destruct (proc_find_at 0 pid) as [p|] eqn:Hpf; [|apply IH; lia].
  destruct (can_list creds p) eqn:Hcl; rewrite K_bind_run; simpl; [|apply IH; lia].
  rewrite IH by lia. simpl. rewrite <- app_assoc. simpl.
  replace (Z.to_nat (PROCFS_MAX_PROCS - count)) with (S (Z.to_nat (PROCFS_MAX_PROCS - (count + 1)))) by lia.
  done.
Qed.

Lemma get_pids_body_run `{!KernelStable} fuel creds s :
  Z.of_nat fuel = PROCFS_MAX_PID + 1 ->
  (get_pids_body fuel creds s).1 = (visible_pids creds, 4096) /\
  k_procrefs (get_pids_body fuel creds s).2 = k_procrefs s /\
  k_mem (get_pids_body fuel creds s).2 = k_mem s + 4096.
Proof.
  intros Hf. unfold get_pids_body, visible_pids, OSMalloc. rewrite <- Hf.
  rewrite !K_bind_run. cbn [fst snd now]. rewrite stable_malloc, K_bind_run.
  cbn [fst snd add_mem mret K_ret]. rewrite K_bind_run. cbn [fst snd mret K_ret].
  rewrite get_pids_loop_spec by (done || (unfold PROCFS_MAX_PROCS; lia)).
  match goal with |- context [(get_pids_loop ?a ?b ?c ?d creds ?s0).2] =>
    destruct (get_pids_loop_balanced a b c d creds s0) as [E1 E2] end.
  rewrite E1, E2. rewrite Z.sub_0_r. done.
Qed.

Lemma get_pids_run `{!KernelStable} creds s :
  (procfs_get_pids creds s).1 = (visible_pids creds, 4096) /\
  k_procrefs (procfs_get_pids creds s).2 = k_procrefs s /\
  k_mem (procfs_get_pids creds s).2 = k_mem s + 4096.
Proof. apply get_pids_body_run. apply Z2Nat.id. by vm_compute. Qed.

(** In a system that does not change during the call, [procfs_get_pids]
    returns the first 1024 pids, in increasing order, of the processes that the
    credentials may see (all processes without credentials); every process
    reference it takes is released and the array it allocates is the only
    memory it keeps. *)
Theorem get_pids_spec `{!KernelStable} creds s :
  (procfs_get_pids creds s).1 = (visible_pids creds, 4096) /\
  k_procrefs (procfs_get_pids creds s).2 = k_procrefs s /\
  k_mem (procfs_get_pids creds s).2 = k_mem s + 4096.
Proof. apply get_pids_run. Qed.

Lemma refs_kept_pids creds : refs_kept (procfs_get_pids creds).
Proof.
  unfold procfs_get_pids. generalize (Z.to_nat (PROCFS_MAX_PID + 1)). intros n.
  apply refs_kept_bind; [apply refs_kept_OSMalloc|]. intros [|]; [|apply refs_kept_ret].
  apply refs_kept_bind; [apply balanced_refs_kept, get_pids_loop_balanced|intros; apply refs_kept_ret].
Qed.

Lemma refs_kept_uthlist p : refs_kept (uthlist p).
Proof. intros s. done. Qed.

Lemma refs_kept_thread_ids p known : refs_kept (procfs_get_thread_ids_for_task p known).
Proof.
  apply refs_kept_bind.
  - unfold procfs_thread_size_init. repeat case_match; try apply refs_kept_ret.
    apply refs_kept_bind; [apply refs_kept_uthlist|intros; apply refs_kept_ret].
  - intros [size|]; [|apply refs_kept_ret]. destruct p as [p|]; [|apply refs_kept_ret].
    apply refs_kept_bind; [apply refs_kept_uthlist|]. intros l. cbv zeta. destruct (count_uthreads 0 l =? 0); [apply refs_kept_ret|].
    apply refs_kept_bind; [apply refs_kept_OSMalloc|]. intros [|]; [|apply refs_kept_ret].
    apply refs_kept_bind; [apply refs_kept_uthlist|intros; apply refs_kept_ret].
Qed.

Lemma refs_kept_thread_count p known : refs_kept (procfs_get_task_thread_count p known).
Proof.
  apply refs_kept_bind; [apply refs_kept_thread_ids|]. intros [[e ids] kn]. case_match; [|apply refs_kept_ret].
  apply refs_kept_bind; [apply refs_kept_OSFree|intros; apply refs_kept_ret].
Qed.

Lemma elem_of_take_filter {A} (f : A -> bool) n (l : list A) a :
  a ∈ take n (List.filter f l) -> a ∈ l ∧ f a = true.
Proof.
  intros Hin. assert (Hf : a ∈ List.filter f l).
  { rewrite <- (take_drop n (List.filter f l)). apply elem_of_app. by left. }
  apply list_elem_of_In, filter_In in Hf as [Hs Hv]. split; [by apply list_elem_of_In|done].
Qed.

Lemma filtered_pid_facts creds pid n m :
  pid ∈ take n (List.filter (visible creds) (seqZ 0 m)) ->
  0 <= pid < m ∧ exists p, proc_find_at 0 pid = Some p ∧ can_list creds p = true.
Proof.
  intros Hin. apply elem_of_take_filter in Hin as [Hs Hv]. apply elem_of_seqZ in Hs. split; [lia|].
  unfold visible in Hv. destruct (proc_find_at 0 pid) as [p|]; [by exists p|done].
Qed.

Lemma visible_pid_facts creds pid :
  pid ∈ visible_pids creds -> 0 <= pid < PROCFS_MAX_PID + 1 ∧
    exists p, proc_find_at 0 pid = Some p ∧ can_list creds p = true.
Proof. exact (filtered_pid_facts creds pid (Z.to_nat PROCFS_MAX_PROCS) (PROCFS_MAX_PID + 1)). Qed.

Lemma visible_pids_range creds : Forall (λ pid, 0 <= pid <= 99999) (visible_pids creds).
Proof.
  apply Forall_forall. intros pid Hp. destruct (visible_pid_facts creds pid Hp) as [Hr _].
  unfold PROCFS_MAX_PID in Hr. lia.
Qed.

Lemma visible_pids_length creds : Z.of_nat (length (visible_pids creds)) <= PROCFS_MAX_PROCS.
Proof. unfold visible_pids. rewrite length_take. unfold PROCFS_MAX_PROCS. lia. Qed.

End SubrFacts.

Definition example_procs : list simple_proc :=
  [ SimpleProc 501 "zsh" 501 20 [18446741874686296164; 18446741874686300000] [0; 1; 2];
    SimpleProc 1 "launchd" 0 0 [18446741874686310000] [];
    SimpleProc 77 "logd" 0 20 [] [5] ].

Lemma get_pids_spec_witness :
  let k := simple_kernel example_procs in
  let s := Kstate 0 0 0 in
  (@procfs_get_pids k (Some (SimpleCred 501 20)) s).1
    = (@visible_pids k (Some (SimpleCred 501 20)), 4096) /\
  k_procrefs (@procfs_get_pids k (Some (SimpleCred 501 20)) s).2 = k_procrefs s /\
  k_mem (@procfs_get_pids k (Some (SimpleCred 501 20)) s).2 = k_mem s + 4096.
Proof.
  exact (@get_pids_spec (simple_kernel example_procs) (simple_kernel_stable example_procs)
           (Some (SimpleCred 501 20)) (Kstate 0 0 0)).
Defined.

Example get_pids_example :
  (@procfs_get_pids (simple_kernel example_procs) (Some (SimpleCred 501 20)) (Kstate 0 0 0)).1
    = ([77; 501], 4096).
Proof. vm_compute. reflexivity. Qed.

(** ** Copying out *)

Section CopyFacts.
Context `{UioLaws}.

Lemma uiomove_from_spec data off n u : 0 <= off <= Z.of_nat (length data) ->
  0 <= n -> off + n <= Z.of_nat (length data) -> uio_writable u = true ->
  exists u', uiomove_from data off n u = Some (0, u') /\
    uio_out u' = uio_out u ++ take (Z.to_nat (Z.min n (uio_resid u))) (drop (Z.to_nat off) data) /\
    uio_offset u' = uio_offset u + Z.min n (uio_resid u) /\
    uio_resid u' = uio_resid u - Z.min n (uio_resid u) /\
    uio_is_read u' = uio_is_read u /\ uio_writable u' = true.
Proof.
  intros Hoff Hn Hlen Hw. unfold uiomove_from.
  pose proof (uio_resid_nonneg u) as Hr.
  rewrite (proj2 (Z.leb_le 0 off)), (proj2 (Z.leb_le (off + _) _)) by lia. simpl.
  rewrite (Z.min_l n) by lia.
  assert (Hb : 0 <= n <= Z.of_nat (length (drop (Z.to_nat off) data))) by (rewrite length_drop; lia).
  pose proof (uiomove_writable _ _ _ Hw Hb) as E0.
  destruct (uiomove_moved _ _ _ Hb E0) as (E1 & E2 & E3 & E4 & E5).
  destruct (uiomove (drop (Z.to_nat off) data) n u) as [e u'] eqn:Eu. simpl in *. subst e.
  exists u'. split; [done|]. rewrite E5, Hw. done.
Qed.

(** What a read of [data] returns: the window of the data that starts at the
    offset and has at most the requested length; EIO behind its end. *)
Definition read_window (data : list Byte.byte) (u : uio_t) : list Byte.byte :=
  take (Z.to_nat (uio_resid u)) (drop (Z.to_nat (uio_offset u)) data).

(** The operation returns the window of [data] at the reader's offset. *)
Definition shows (m : K (option (Z * uio_t))) (data : list Byte.byte) (u : uio_t) (st : kstate) : Prop :=
  0 <= uio_offset u <= Z.of_nat (length data) -> uio_writable u = true ->
  exists u', (m st).1 = Some (0, u') /\ uio_out u' = uio_out u ++ read_window data u.

(** The data is the first part of a buffer. *)
Lemma copy_data_buffer data pad u :
  Z.of_nat (length data) <= INT_MAX -> 0 <= uio_offset u <= Z.of_nat (length data) ->
  uio_writable u = true ->
  exists u', procfs_copy_data (Some (data ++ pad)) (Z.of_nat (length data)) u = Some (0, u') /\
    uio_out u' = uio_out u ++ read_window data u /\
    uio_offset u' = uio_offset u + Z.of_nat (length (read_window data u)).
Proof.
  intros Hlen Hoff Hw. pose proof (uio_resid_nonneg u). unfold procfs_copy_data, INT_MAX in *.
  rewrite s32_small by (unfold INT_MIN, INT_MAX; lia). rewrite (proj2 (Z.leb_le 0 _)) by lia.
  destruct (uiomove_from_spec (data ++ pad) (uio_offset u) (Z.of_nat (length data) - uio_offset u) u)
    as (u' & E & Eo & Ef & _); [rewrite length_app; lia|lia|rewrite length_app; lia|done|].
  assert (Hwin : read_window data u
    = take (Z.to_nat (Z.min (Z.of_nat (length data) - uio_offset u) (uio_resid u)))
        (drop (Z.to_nat (uio_offset u)) (data ++ pad))).
  { unfold read_window. rewrite drop_app_le by lia.
    rewrite take_app_le by (rewrite length_drop; lia).
    destruct (Z.le_ge_cases (uio_resid u) (Z.of_nat (length data) - uio_offset u)).
    - by rewrite Z.min_r by lia.
    - rewrite Z.min_l by lia. rewrite !take_ge; [done| |]; rewrite length_drop; lia. }
  exists u'. rewrite Hwin. split; [done|]. split; [done|].
  rewrite Ef, length_take, length_drop, length_app. lia.
Qed.

Lemma copy_data_run data u :
  Z.of_nat (length data) <= INT_MAX -> 0 <= uio_offset u <= Z.of_nat (length data) ->
  uio_writable u = true ->
  exists u', procfs_copy_data (Some data) (Z.of_nat (length data)) u = Some (0, u') /\
    uio_out u' = uio_out u ++ read_window data u /\
    uio_offset u' = uio_offset u + Z.of_nat (length (read_window data u)).
Proof. pose proof (copy_data_buffer data [] u) as H1. by rewrite app_nil_r in H1. Qed.

(** C34.  For read offsets below 2^31, a read handler that ends with
    [procfs_copy_data] returns exactly the part of its data that starts at the
    read offset and fits the caller's buffer, and advances the offset by what
    it returned; such an offset behind the end is answered with EIO and no
    data.  ([copy_data_offset_wraps] is about larger offsets.) *)
Theorem copy_data_window data u :
  Z.of_nat (length data) <= INT_MAX -> uio_writable u = true -> 0 <= uio_offset u <= INT_MAX ->
  if uio_offset u <=? Z.of_nat (length data) then
    exists u', procfs_copy_data (Some data) (Z.of_nat (length data)) u = Some (0, u') /\
      uio_out u' = uio_out u ++ read_window data u /\
      uio_offset u' = uio_offset u + Z.of_nat (length (read_window data u))
  else procfs_copy_data (Some data) (Z.of_nat (length data)) u = Some (EIO, u).
Proof.
  intros Hlen Hw Hoff. destruct (Z.leb_spec (uio_offset u) (Z.of_nat (length data))).
  - apply copy_data_run; [done|lia|done].
  - unfold procfs_copy_data, INT_MAX in *. rewrite s32_small by (unfold INT_MIN, INT_MAX; lia).
    by rewrite (proj2 (Z.leb_gt 0 _)) by lia.
Qed.

(** The length test of [procfs_copy_data] is done on an [int]: with a read
    offset of 4 GiB or a multiple, the truncated difference is again the length
    of the data, and the copy starts outside the buffer. *)
Theorem copy_data_offset_wraps data u k :
  0 < Z.of_nat (length data) <= INT_MAX -> 0 < k -> uio_offset u = k * 4294967296 ->
  0 < uio_resid u ->
  procfs_copy_data (Some data) (Z.of_nat (length data)) u = None.
Proof.
  intros Hlen Hk Hoff Hr. unfold procfs_copy_data. rewrite Hoff.
  assert (E : s32 (Z.of_nat (length data) - k * 4294967296) = Z.of_nat (length data)).
  { rewrite <- (s32_small (Z.of_nat (length data))) at 2 by (unfold INT_MIN, INT_MAX in *; lia).
    apply s32_mod. replace (Z.of_nat (length data) - k * 4294967296)
      with (Z.of_nat (length data) + (-k) * 4294967296) by lia. by rewrite Z.mod_add by lia. }
  rewrite E, (proj2 (Z.leb_le 0 _)) by lia. unfold uiomove_from. unfold INT_MAX in Hlen.
  rewrite (proj2 (Z.leb_gt (_ + _) _)) by lia. by rewrite andb_false_r.
Qed.

End CopyFacts.

Lemma copy_data_window_witness :
  let u := SimpleUio 1 2 true [] true in
  let data := bytes_of_string "abcd" in
  exists u', procfs_copy_data (Some data) 4 u = Some (0, u') /\
    uio_out u' = [] ++ read_window data u /\
    uio_offset u' = 1 + Z.of_nat (length (read_window data u)).
Proof.
  intros u data.
  exact (copy_data_window data u ltac:(by vm_compute) eq_refl ltac:(by vm_compute)).
Defined.

Lemma copy_data_offset_wraps_witness :
  procfs_copy_data (Some (bytes_of_string "abcd")) 4 (SimpleUio 4294967296 2 true [] true) = None.
Proof.
  exact (copy_data_offset_wraps (bytes_of_string "abcd") (SimpleUio 4294967296 2 true [] true) 1
           ltac:(by vm_compute) ltac:(by vm_compute) eq_refl ltac:(by vm_compute)).
Defined.

(** These range over the whole pid space: not to be unfolded by accident. *)
#[global] Opaque procfs_get_pids visible_pids.
