(* ===== verification/Node.v ===== *)
(** * The node table (kext/procfs_node.c, [procfs_vnop_reclaim])

    [procfsnode_find] looks a node up in a hash table, or creates it together
    with its vnode, while other threads do the same and the kernel reclaims
    vnodes.  The table is protected by [pfsnode_hash_mutex]; the routine drops
    the lock to allocate memory, to create the vnode and to validate an existing
    vnode.  Each stretch of code that runs under the lock is one atomic step of
    a thread, each call made without the lock is another one, and the model is
    the transition system of all interleavings of such steps. *)

From S2P Require Import Prelude Structure Kernel Subr.

(** ** State *)

(** A node of the table. *)
Record hnode := Hnode {
  hn_vnode : option N;
  hn_attaching : bool;
  hn_waiting : bool;
  hn_mnt : Z;
  hn_id : pfsid;
  hn_snode : N;
}.

(** A vnode of this file system: alive, being terminated by the kernel, or dead
    (its memory may be used again, with another id). *)
Inductive vstate : Set := VLive | VTerminating | VDead.
#[export] Instance vstate_eq_dec : EqDecision vstate.
Proof. solve_decision. Defined.

Record vnode := Vnode {
  v_id : Z;               (** [vnode_vid] *)
  v_state : vstate;
  v_iocount : gset N;     (** the calls that own an iocount on it *)
  v_fsnode : option N;
  v_fsref : bool;
}.

(** Where a thread is in [procfsnode_find]. *)
Inductive pc : Set :=
| Top                                     (** about to lock and search the bucket *)
| Alloc                                   (** unlocked, about to call OSMalloc *)
| Asleep (target : N)                     (** in msleep on the node *)
| Getvid (target v : N) (vid : Z)         (** unlocked, about to call vnode_getwithvid *)
| Create (target : N)                     (** unlocked, about to call create_vnode_func *)
| Attach (target : N) (result : Z + N)    (** back from it: error or vnode; about to relock *)
| Done (error : Z) (result : option (N * N)).

(** The arguments and locals of a call. *)
Record find_thread := FindThread {
  ft_mnt : Z; ft_id : pfsid; ft_snode : N;
  ft_new : option N;                      (** [new_pfsnode] *)
  ft_pc : pc;
}.

Definition HASH_BUCKET_COUNT : nat := 64.

Record nstate := Nstate {
  ns_nodes : gmap N hnode;                (** the nodes in the table *)
  ns_buckets : list (list N);             (** the hash buckets, first node first *)
  ns_raw : gset N;                        (** memory allocated but not in the table *)
  ns_vnodes : gmap N vnode;
  ns_threads : gmap N find_thread;
}.

Definition ns_init : nstate := Nstate ∅ (replicate HASH_BUCKET_COUNT []) ∅ ∅ ∅.

(** ** Hashing *)

(** The value is computed as a [uint64_t] (the type of the object id) and
    truncated to [int]. *)
Definition HASH_FOR_MOUNT_AND_ID (mount_id : Z) (id : pfsid) : Z :=
  s32 (Z.lxor (Z.lxor (Z.lxor (u64 (s32 (Z.shiftl mount_id 16))) (u64 (nodeid_pid id)))
         (nodeid_objectid id)) (nodeid_base_id id)).

Definition PROCFS_NODE_HASH_TO_BUCKET (hash : Z) : nat := Z.to_nat (Z.land hash 63).

Definition bucket_of (mnt : Z) (id : pfsid) : nat :=
  PROCFS_NODE_HASH_TO_BUCKET (HASH_FOR_MOUNT_AND_ID mnt id).

(** The LIST_FOREACH of the search. *)
Definition matches (s : nstate) (mnt : Z) (id : pfsid) (p : N) : bool :=
  match ns_nodes s !! p with
  | Some n => (hn_mnt n =? mnt) && (nodeid_pid (hn_id n) =? nodeid_pid id)
              && (nodeid_objectid (hn_id n) =? nodeid_objectid id)
              && (nodeid_base_id (hn_id n) =? nodeid_base_id id)
  | None => false
  end.

Definition bucket_search (s : nstate) (mnt : Z) (id : pfsid) : option N :=
  List.find (matches s mnt id) (default [] (ns_buckets s !! bucket_of mnt id)).

(** ** Updates *)

Definition set_thread (t : N) (th : find_thread) (s : nstate) : nstate :=
  Nstate (ns_nodes s) (ns_buckets s) (ns_raw s) (ns_vnodes s) (<[t := th]> (ns_threads s)).
Definition set_pc (th : find_thread) (p : pc) : find_thread :=
  FindThread (ft_mnt th) (ft_id th) (ft_snode th) (ft_new th) p.
Definition set_new (th : find_thread) (n : option N) : find_thread :=
  FindThread (ft_mnt th) (ft_id th) (ft_snode th) n (ft_pc th).
Definition set_node (p : N) (n : hnode) (s : nstate) : nstate :=
  Nstate (<[p := n]> (ns_nodes s)) (ns_buckets s) (ns_raw s) (ns_vnodes s) (ns_threads s).
Definition set_vnode (v : N) (vn : vnode) (s : nstate) : nstate :=
  Nstate (ns_nodes s) (ns_buckets s) (ns_raw s) (<[v := vn]> (ns_vnodes s)) (ns_threads s).

Definition end_call (t : N) (s : nstate) : nstate :=
  Nstate (ns_nodes s) (ns_buckets s) (ns_raw s) (ns_vnodes s) (delete t (ns_threads s)).

(** LIST_INSERT_HEAD of a new node, taken from the allocated memory. *)
Definition insert_node (p : N) (n : hnode) (s : nstate) : nstate :=
  let b := bucket_of (hn_mnt n) (hn_id n) in
  Nstate (<[p := n]> (ns_nodes s))
    (alter (λ l, p :: l) b (ns_buckets s)) (ns_raw s ∖ {[p]}) (ns_vnodes s) (ns_threads s).

(** LIST_REMOVE and OSFree. *)
Definition procfsnode_free_node (p : N) (s : nstate) : nstate :=
  match ns_nodes s !! p with
  | Some n =>
    Nstate (delete p (ns_nodes s))
      (alter (filter (λ q, q ≠ p)) (bucket_of (hn_mnt n) (hn_id n)) (ns_buckets s))
      (ns_raw s) (ns_vnodes s) (ns_threads s)
  | None => s
  end.

(** [wakeup(p)]: the sleepers on [p] go back to the top of the loop. *)
Definition wake_thread (p : N) (th : find_thread) : find_thread :=
  match ft_pc th with
  | Asleep q => if decide (q = p) then set_pc th Top else th
  | _ => th
  end.
Definition wakeup (p : N) (s : nstate) : nstate :=
  Nstate (ns_nodes s) (ns_buckets s) (ns_raw s) (ns_vnodes s)
    (wake_thread p <$> ns_threads s).

(** The epilogue: an allocated node that was not used is freed. *)
Definition finish (t : N) (th : find_thread) (error : Z) (result : option (N * N)) (s : nstate) : nstate :=
  let target := match result with Some (p, _) => Some p | None => None end in
  let s1 := match ft_new th with
            | Some p => if decide (Some p = target) then s else
                Nstate (ns_nodes s) (ns_buckets s) (ns_raw s ∖ {[p]}) (ns_vnodes s)
                  (ns_threads s)
            | None => s
            end in
  set_thread t (FindThread (ft_mnt th) (ft_id th) (ft_snode th) None
                  (Done error (if error =? 0 then result else None))) s1.

(** ** Steps of a thread *)

(** Under the lock: from the search of the bucket to the next unlock. *)
Definition find_locked (t : N) (th : find_thread) (s : nstate) : nstate :=
  let attach p n s := set_thread t (set_pc th (Create p))
    (set_node p (Hnode (hn_vnode n) true (hn_waiting n) (hn_mnt n) (hn_id n) (hn_snode n)) s) in
  match bucket_search s (ft_mnt th) (ft_id th) with
  | None =>
    match ft_new th with
    | None => set_thread t (set_pc th Alloc) s
    | Some p =>
      let n := Hnode None false false (ft_mnt th) (ft_id th) (ft_snode th) in
      attach p n (insert_node p n s)
    end
  | Some p =>
    match ns_nodes s !! p with
    | None => s
    | Some n =>
      if hn_attaching n then
        set_thread t (set_pc th (Asleep p))
          (set_node p (Hnode (hn_vnode n) (hn_attaching n) true (hn_mnt n) (hn_id n) (hn_snode n)) s)
      else
        match hn_vnode n with
        | Some v =>
          let vid := match ns_vnodes s !! v with Some vn => v_id vn | None => 0 end in
          set_thread t (set_pc th (Getvid p v vid)) s
        | None => attach p n s
        end
    end
  end.

(** OSMalloc, without the lock: it fails, or gives memory that is not in use. *)
Definition find_alloc (t : N) (th : find_thread) (mem : option N) (s : nstate) : option nstate :=
  match mem with
  | Some p =>
    if bool_decide (ns_nodes s !! p = None ∧ p ∉ ns_raw s) then
      Some (set_thread t (set_pc (set_new th (Some p)) Top)
        (Nstate (ns_nodes s) (ns_buckets s) ({[p]} ∪ ns_raw s) (ns_vnodes s) (ns_threads s)))
    else None
  | None => Some (finish t th ENOMEM None s)
  end.

(** [vnode_getwithvid]: fails when the vnode is going away or has another id. *)
Definition find_getvid (t : N) (th : find_thread) (p v : N) (vid : Z) (s : nstate) : nstate :=
  match ns_vnodes s !! v with
  | Some vn =>
    if bool_decide (v_state vn = VLive) && (v_id vn =? vid) then
      finish t th 0 (Some (p, v))
        (set_vnode v (Vnode (v_id vn) (v_state vn) ({[t]} ∪ v_iocount vn) (v_fsnode vn) (v_fsref vn)) s)
    else set_thread t (set_pc (set_new th None) Top) s
  | None => set_thread t (set_pc (set_new th None) Top) s
  end.

(** The callback: an error, or a vnode with an iocount, attached to the node.
    A dead vnode may be used again, with a new id. *)
Definition find_create (t : N) (th : find_thread) (p : N) (result : Z + N) (s : nstate) : option nstate :=
  match result with
  | inl e => if e =? 0 then None else Some (set_thread t (set_pc th (Attach p (inl e))) s)
  | inr v =>
    match ns_vnodes s !! v with
    | None => Some (set_thread t (set_pc th (Attach p (inr v)))
                      (set_vnode v (Vnode 0 VLive {[t]} (Some p) false) s))
    | Some vn =>
      if bool_decide (v_state vn = VDead) then
        Some (set_thread t (set_pc th (Attach p (inr v)))
                (set_vnode v (Vnode (v_id vn + 1) VLive {[t]} (Some p) false) s))
      else None
    end
  end.

(** Relocked after the callback: wake the waiters; free the node on failure,
    link it to the vnode and add the file system reference on success. *)
Definition find_attach (t : N) (th : find_thread) (p : N) (result : Z + N) (s : nstate) : nstate :=
  match ns_nodes s !! p with
  | None => s
  | Some n =>
    let n1 := Hnode (hn_vnode n) false false (hn_mnt n) (hn_id n) (hn_snode n) in
    let s1 := if hn_waiting n then wakeup p (set_node p n1 s) else set_node p n1 s in
    match result with
    | inl e => finish t (set_new th None) e None (procfsnode_free_node p s1)
    | inr v =>
      let s2 := set_node p (Hnode (Some v) false false (hn_mnt n) (hn_id n) (hn_snode n)) s1 in
      let s3 := match ns_vnodes s2 !! v with
                | Some vn => set_vnode v (Vnode (v_id vn) (v_state vn) (v_iocount vn) (v_fsnode vn) true) s2
                | None => s2
                end in
      finish t th 0 (Some (p, v)) s3
    end
  end.

(** [procfs_vnop_reclaim], called by the kernel on a terminating vnode. *)
Definition procfs_vnop_reclaim (v : N) (vn : vnode) (s : nstate) : nstate :=
  let s1 := match v_fsnode vn with Some p => procfsnode_free_node p s | None => s end in
  set_vnode v (Vnode (v_id vn) VDead (v_iocount vn) None false) s1.

(** ** The transition system *)

Inductive label : Set :=
| LCall (t : N) (mnt : Z) (id : pfsid) (snode : N)   (** a thread calls procfsnode_find *)
| LLocked (t : N)
| LAlloc (t : N) (mem : option N)
| LGetvid (t : N)
| LCreate (t : N) (result : Z + N)
| LAttach (t : N)
| LPut (t : N)                                       (** the caller is done: vnode_put on success *)
| LTerminate (v : N)                                 (** the kernel starts to terminate an unused vnode *)
| LReclaim (v : N).                                  (** and calls VNOP_RECLAIM *)

Definition step (l : label) (s : nstate) : option nstate :=
  match l with
  | LCall t mnt id snode =>
    match ns_threads s !! t with
    | None => Some (set_thread t (FindThread mnt id snode None Top) s)
    | Some _ => None
    end
  | LLocked t =>
    th ← ns_threads s !! t;
    match ft_pc th with Top => Some (find_locked t th s) | _ => None end
  | LAlloc t mem =>
    th ← ns_threads s !! t;
    match ft_pc th with Alloc => find_alloc t th mem s | _ => None end
  | LGetvid t =>
    th ← ns_threads s !! t;
    match ft_pc th with Getvid p v vid => Some (find_getvid t th p v vid s) | _ => None end
  | LCreate t result =>
    th ← ns_threads s !! t;
    match ft_pc th with Create p => find_create t th p result s | _ => None end
  | LAttach t =>
    th ← ns_threads s !! t;
    match ft_pc th with Attach p r => Some (find_attach t th p r s) | _ => None end
  | LPut t =>
    th ← ns_threads s !! t;
    match ft_pc th with
    | Done _ (Some (_, v)) =>
      vn ← ns_vnodes s !! v;
      Some (end_call t (set_vnode v (Vnode (v_id vn) (v_state vn) (v_iocount vn ∖ {[t]})
                                       (v_fsnode vn) (v_fsref vn)) s))
    | Done _ None => Some (end_call t s)
    | _ => None
    end
  | LTerminate v =>
    vn ← ns_vnodes s !! v;
    if bool_decide (v_state vn = VLive ∧ v_iocount vn = ∅)
    then Some (set_vnode v (Vnode (v_id vn) VTerminating ∅ (v_fsnode vn) (v_fsref vn)) s)
    else None
  | LReclaim v =>
    vn ← ns_vnodes s !! v;
    if bool_decide (v_state vn = VTerminating) then Some (procfs_vnop_reclaim v vn s) else None
  end.

(** A run of the system. *)
Fixpoint run (ls : list label) (s : nstate) : option nstate :=
  match ls with
  | [] => Some s
  | l :: ls' => s' ← step l s; run ls' s'
  end.

Inductive reachable : nstate -> Prop :=
| reachable_init : reachable ns_init
| reachable_step s l s' : reachable s -> step l s = Some s' -> reachable s'.

(** ** The table *)

Lemma bucket_of_bound mnt id : (bucket_of mnt id < HASH_BUCKET_COUNT)%nat.
Proof.
  unfold bucket_of, PROCFS_NODE_HASH_TO_BUCKET, HASH_BUCKET_COUNT.
  change 63 with (Z.ones 6). rewrite Z.land_ones by lia.
  pose proof (Z.mod_pos_bound (HASH_FOR_MOUNT_AND_ID mnt id) (2 ^ 6)). lia.
Qed.

#[local] Arguments bucket_of : simpl never.
#[local] Opaque bucket_of.

Definition has_key (n : hnode) (mnt : Z) (id : pfsid) : Prop := hn_mnt n = mnt ∧ hn_id n = id.

(** The buckets hold exactly the nodes, each in the bucket of its key, once; no
    two nodes have the same key. *)
Record table_ok (s : nstate) : Prop := TableOk {
  tb_length : length (ns_buckets s) = HASH_BUCKET_COUNT;
  tb_sound b l p : ns_buckets s !! b = Some l -> p ∈ l ->
    exists n, ns_nodes s !! p = Some n ∧ bucket_of (hn_mnt n) (hn_id n) = b;
  tb_complete p n : ns_nodes s !! p = Some n ->
    exists l, ns_buckets s !! bucket_of (hn_mnt n) (hn_id n) = Some l ∧ p ∈ l;
  tb_nodup b l : ns_buckets s !! b = Some l -> NoDup l;
  tb_unique p q n m : ns_nodes s !! p = Some n -> ns_nodes s !! q = Some m ->
    has_key n (hn_mnt m) (hn_id m) -> p = q;
}.

Lemma matches_iff s mnt id p :
  matches s mnt id p = true <-> exists n, ns_nodes s !! p = Some n ∧ has_key n mnt id.
Proof.
  unfold matches, has_key. destruct (ns_nodes s !! p) as [n|]; [|naive_solver].
  destruct (hn_id n) as [a b c] eqn:E, id as [a' b' c']. simpl.
  rewrite !andb_true_iff, !Z.eqb_eq. split.
  - intros [[[? ?] ?] ?]. exists n. split; [done|]. split; [done|]. rewrite E. congruence.
  - intros (m & [= <-] & ? & Hid). rewrite E in Hid. by injection Hid as -> -> ->.
Qed.

Lemma bucket_search_some s mnt id p :
  bucket_search s mnt id = Some p -> exists n, ns_nodes s !! p = Some n ∧ has_key n mnt id.
Proof. intros [_ H]%List.find_some. by apply matches_iff. Qed.

Lemma bucket_search_none s mnt id :
  table_ok s -> bucket_search s mnt id = None ->
  forall p n, ns_nodes s !! p = Some n -> ¬ has_key n mnt id.
Proof.
  intros Ht Hf p n Hp [<- <-]. destruct (tb_complete _ Ht _ _ Hp) as (l & Hl & Hin).
  assert (Hm : matches s (hn_mnt n) (hn_id n) p = true) by (apply matches_iff; by exists n).
  unfold bucket_search in Hf. rewrite Hl in Hf. simpl in Hf.
  rewrite (List.find_none _ _ Hf) in Hm; [done|]. by apply list_elem_of_In.
Qed.

(** Two states with the same keys in the same buckets. *)
Lemma table_ok_keys s s' :
  ns_buckets s' = ns_buckets s ->
  (forall p, (λ n, (hn_mnt n, hn_id n)) <$> ns_nodes s' !! p =
             (λ n, (hn_mnt n, hn_id n)) <$> ns_nodes s !! p) ->
  table_ok s -> table_ok s'.
Proof.
  intros Hb Hk [Hl Hs Hc Hn Hu].
  assert (Hto : forall p n, ns_nodes s' !! p = Some n ->
            exists m, ns_nodes s !! p = Some m ∧ hn_mnt m = hn_mnt n ∧ hn_id m = hn_id n).
  { intros p n H. specialize (Hk p). rewrite H in Hk. symmetry in Hk.
    apply fmap_Some in Hk as (m & Hm & [= -> ->]). eauto. }
  assert (Hfrom : forall p n, ns_nodes s !! p = Some n ->
            exists m, ns_nodes s' !! p = Some m ∧ hn_mnt m = hn_mnt n ∧ hn_id m = hn_id n).
  { intros p n H. specialize (Hk p). rewrite H in Hk.
    apply fmap_Some in Hk as (m & Hm & [= -> ->]). eauto. }
  split; rewrite ?Hb; eauto.
  - intros b l p Hbl Hp. destruct (Hs b l p Hbl Hp) as (n & Hpn & <-).
    destruct (Hfrom _ _ Hpn) as (m & Hm & E1 & E2). exists m. by rewrite E1, E2.
  - intros p n H. destruct (Hto _ _ H) as (m & Hm & <- & <-). eauto.
  - intros p q n m Hp Hq [E1 E2]. destruct (Hto _ _ Hp) as (n' & Hp' & ? & ?), (Hto _ _ Hq) as (m' & Hq' & ? & ?).
    apply (Hu _ _ _ _ Hp' Hq'). split; congruence.
Qed.

Lemma table_ok_insert s p n :
  table_ok s -> ns_nodes s !! p = None ->
  (forall q m, ns_nodes s !! q = Some m -> ¬ has_key m (hn_mnt n) (hn_id n)) ->
  table_ok (insert_node p n s).
Proof.
  intros [Hl Hs Hc Hn Hu] Hp Hnew.
  assert (Hout : forall b l, ns_buckets s !! b = Some l -> p ∉ l).
  { intros b l Hb Hin. destruct (Hs _ _ _ Hb Hin) as (? & ? & _). congruence. }
  pose proof (bucket_of_bound (hn_mnt n) (hn_id n)) as Hbound.
  destruct (lookup_lt_is_Some_2 (ns_buckets s) (bucket_of (hn_mnt n) (hn_id n))) as [l0 Hl0];
    [by rewrite Hl|].
  unfold insert_node. split; simpl.
  - by rewrite length_alter.
  - intros b l q Hb Hq. destruct (decide (bucket_of (hn_mnt n) (hn_id n) = b)) as [<-|Hne].
    + rewrite list_lookup_alter_eq, Hl0 in Hb. injection Hb as <-.
      apply elem_of_cons in Hq as [->|Hq].
      * exists n. by rewrite lookup_insert_eq.
      * destruct (Hs _ _ _ Hl0 Hq) as (m & Hm & ?). exists m. rewrite lookup_insert_ne; [done|].
        intros ->. congruence.
    + rewrite list_lookup_alter_ne in Hb by done.
      destruct (Hs _ _ _ Hb Hq) as (m & Hm & ?). exists m. rewrite lookup_insert_ne; [done|].
      intros ->. congruence.
  - intros q m [[<- <-]|[Hne Hq]]%lookup_insert_Some.
    + rewrite list_lookup_alter_eq, Hl0. eexists. split; [done|]. constructor.
    + destruct (Hc _ _ Hq) as (l & Hb & Hin).
      destruct (decide (bucket_of (hn_mnt n) (hn_id n) = bucket_of (hn_mnt m) (hn_id m))) as [E|E].
      * rewrite <- E in Hb |- *. rewrite list_lookup_alter_eq, Hb. eexists. split; [done|].
        by constructor.
      * rewrite list_lookup_alter_ne by done. eauto.
  - intros b l Hb. destruct (decide (bucket_of (hn_mnt n) (hn_id n) = b)) as [<-|Hne].
    + rewrite list_lookup_alter_eq, Hl0 in Hb. injection Hb as <-. constructor; eauto.
    + rewrite list_lookup_alter_ne in Hb by done. eauto.
  - intros q q' m m' [[<- <-]|[? Hq]]%lookup_insert_Some [[<- <-]|[? Hq']]%lookup_insert_Some Hk; eauto.
    + exfalso. apply (Hnew _ _ Hq'). destruct Hk. by split.
    + exfalso. by apply (Hnew _ _ Hq).
Qed.

Lemma table_ok_free s p : table_ok s -> table_ok (procfsnode_free_node p s).
Proof.
  intros Ht. unfold procfsnode_free_node. destruct (ns_nodes s !! p) as [n|] eqn:Hp; [|done].
  destruct Ht as [Hl Hs Hc Hn Hu].
  set (b0 := bucket_of (hn_mnt n) (hn_id n)). split; simpl.
  - by rewrite length_alter.
  - intros b l q Hb Hq. destruct (decide (b0 = b)) as [<-|Hne].
    + rewrite list_lookup_alter_eq in Hb. apply fmap_Some in Hb as (l' & Hb & ->).
      apply list_elem_of_filter in Hq as [Hqp Hq].
      destruct (Hs _ _ _ Hb Hq) as (m & Hm & ?). exists m. by rewrite lookup_delete_ne.
    + rewrite list_lookup_alter_ne in Hb by done. destruct (Hs _ _ _ Hb Hq) as (m & Hm & ?).
      exists m. rewrite lookup_delete_ne; [done|]. intros <-. apply Hne. unfold b0. congruence.
  - intros q m [Hne Hq]%lookup_delete_Some. destruct (Hc _ _ Hq) as (l & Hb & Hin).
    destruct (decide (b0 = bucket_of (hn_mnt m) (hn_id m))) as [E|E].
    + rewrite <- E in Hb |- *. rewrite list_lookup_alter_eq, Hb. eexists. split; [done|].
      by apply list_elem_of_filter.
    + rewrite list_lookup_alter_ne by done. eauto.
  - intros b l Hb. destruct (decide (b0 = b)) as [<-|Hne].
    + rewrite list_lookup_alter_eq in Hb. apply fmap_Some in Hb as (l' & Hb & ->).
      apply NoDup_filter. eauto.
    + rewrite list_lookup_alter_ne in Hb by done. eauto.
  - intros q q' m m' [_ Hq]%lookup_delete_Some [_ Hq']%lookup_delete_Some. eauto.
Qed.

(** ** The invariant *)

(** The node a thread is attaching a vnode to, and the vnode it owns an iocount on. *)
Definition attaches (th : find_thread) : option N :=
  match ft_pc th with Create p | Attach p _ => Some p | _ => None end.
Definition holds (th : find_thread) : option N :=
  match ft_pc th with Attach _ (inr v) => Some v | Done _ (Some (_, v)) => Some v | _ => None end.

(** Node [p] is in the table under the key of the call, with vnode [v]. *)
Definition node_for (s : nstate) (th : find_thread) (p v : N) : Prop :=
  exists n, ns_nodes s !! p = Some n ∧ hn_vnode n = Some v ∧ has_key n (ft_mnt th) (ft_id th).

(** What a thread relies on, at each point of the routine. *)
Definition thread_ok (s : nstate) (t : N) (th : find_thread) : Prop :=
  match ft_pc th with
  | Top | Alloc => True
  | Asleep p => exists n, ns_nodes s !! p = Some n ∧ hn_attaching n = true ∧ hn_waiting n = true
  | Getvid p v vid => exists vn, ns_vnodes s !! v = Some vn ∧ vid <= v_id vn
      ∧ (v_id vn = vid -> v_state vn ≠ VDead -> v_fsref vn = true ∧ v_fsnode vn = Some p ∧ node_for s th p v)
  | Create p => exists n, ns_nodes s !! p = Some n ∧ hn_attaching n = true ∧ has_key n (ft_mnt th) (ft_id th)
  | Attach p r => (exists n, ns_nodes s !! p = Some n ∧ hn_attaching n = true ∧ has_key n (ft_mnt th) (ft_id th))
      ∧ match r with
        | inl e => e ≠ 0
        | inr v => exists vn, ns_vnodes s !! v = Some vn ∧ v_state vn = VLive ∧ v_iocount vn = {[t]}
                     ∧ v_fsnode vn = Some p ∧ v_fsref vn = false
        end
  | Done e None => e ≠ 0
  | Done e (Some (p, v)) => e = 0 ∧ node_for s th p v
      ∧ exists vn, ns_vnodes s !! v = Some vn ∧ v_state vn = VLive ∧ t ∈ v_iocount vn
                     ∧ v_fsnode vn = Some p ∧ v_fsref vn = true
  end.

(** A node is being attached by a thread, or has a vnode that points back. *)
Definition node_ok (s : nstate) (p : N) (n : hnode) : Prop :=
  if hn_attaching n then hn_vnode n = None ∧ exists t th, ns_threads s !! t = Some th ∧ attaches th = Some p
  else hn_waiting n = false ∧ is_Some (hn_vnode n) ∧ forall v, hn_vnode n = Some v ->
    exists vn, ns_vnodes s !! v = Some vn ∧ v_state vn ≠ VDead ∧ v_fsnode vn = Some p ∧ v_fsref vn = true.

(** A vnode in use belongs to a node, or to the thread that creates it. *)
Definition vnode_ok (s : nstate) (v : N) (vn : vnode) : Prop :=
  (forall t, t ∈ v_iocount vn -> v_state vn = VLive ∧ exists th, ns_threads s !! t = Some th ∧ holds th = Some v)
  ∧ (v_state vn ≠ VDead -> is_Some (v_fsnode vn))
  ∧ (v_fsref vn = true -> forall p, v_fsnode vn = Some p ->
       exists n, ns_nodes s !! p = Some n ∧ hn_vnode n = Some v)
  ∧ (v_state vn ≠ VDead -> v_fsref vn = false -> exists t, v_iocount vn = {[t]}).

Record inv (s : nstate) : Prop := Inv {
  i_table : table_ok s;
  i_thread t th : ns_threads s !! t = Some th -> thread_ok s t th;
  i_node p n : ns_nodes s !! p = Some n -> node_ok s p n;
  i_vnode v vn : ns_vnodes s !! v = Some vn -> vnode_ok s v vn;
  i_owner t t' th th' p : ns_threads s !! t = Some th -> ns_threads s !! t' = Some th' ->
    attaches th = Some p -> attaches th' = Some p -> t = t';
  i_raw p : p ∈ ns_raw s -> ns_nodes s !! p = None;
  i_new t th p : ns_threads s !! t = Some th -> ft_new th = Some p ->
    p ∈ ns_raw s ∨ attaches th = Some p;
  i_new_own t t' th th' p : ns_threads s !! t = Some th -> ns_threads s !! t' = Some th' ->
    ft_new th = Some p -> ft_new th' = Some p -> t = t';
}.

(** ** Preservation *)

(** Case analysis on the lookups in updated maps. *)
Ltac map_hyps := repeat match goal with
  | H : <[_ := _]> _ !! _ = Some _ |- _ => apply lookup_insert_Some in H as [[? ?]|[? H]]; subst
  | H : delete _ _ !! _ = Some _ |- _ => apply lookup_delete_Some in H as [? H]
  | H : (wake_thread _ <$> _) !! _ = Some _ |- _ =>
      rewrite lookup_fmap in H; apply fmap_Some in H as (? & H & ?); subst
  end.
Ltac map_goal := repeat match goal with
  | |- context [<[?k := _]> ?m !! ?q] =>
      first [rewrite (lookup_insert_eq m k) | rewrite (lookup_insert_ne m k q) by done
            | destruct (decide (k = q)); subst]
  | |- context [delete ?k ?m !! ?q] =>
      first [rewrite (lookup_delete_eq m k) | rewrite (lookup_delete_ne m k q) by done
            | destruct (decide (k = q)); subst]
  end.

(** A thread's assertion only looks at the node it works on and at its vnode. *)
Lemma thread_ok_frame s s' t th :
  (forall p, ns_nodes s !! p = ns_nodes s' !! p) -> (forall v, ns_vnodes s !! v = ns_vnodes s' !! v) ->
  thread_ok s t th -> thread_ok s' t th.
Proof.
  intros Hn Hv. unfold thread_ok, node_for.
  destruct (ft_pc th) as [| | | | |? []|? [[]|]]; rewrite <- ?Hn, <- ?Hv; auto.
Qed.

(** Only thread [t] moves; it attaches to the same node, or to none, and owns the
    same iocount. *)
Lemma inv_move s t th th' :
  inv s -> ns_threads s !! t = Some th ->
  thread_ok (set_thread t th' s) t th' ->
  attaches th' = attaches th -> holds th' = holds th -> (ft_new th' = ft_new th ∨ ft_new th' = None) ->
  inv (set_thread t th' s).
Proof.
  intros [Ht Hth Hn Hv Ho Hr Hne Hno] Hlk Hok Ha Hh Hnew. split; simpl; auto.
  - by apply (table_ok_keys s).
  - intros t' th0 H. map_hyps; [done|]. apply (thread_ok_frame s); auto.
  - intros p n Hp. specialize (Hn p n Hp). unfold node_ok in *. destruct (hn_attaching n); [|done].
    destruct Hn as (? & t' & th0 & H & H'). split; [done|]. simpl.
    destruct (decide (t = t')) as [<-|].
    + exists t, th'. rewrite lookup_insert_eq. split; [done|]. congruence.
    + exists t', th0. by rewrite lookup_insert_ne.
  - intros v vn Hv'. specialize (Hv v vn Hv') as (H1 & H2 & H3 & H4). split; [|done].
    intros t' Hin. destruct (H1 t' Hin) as (? & th0 & H & H'). split; [done|]. simpl.
    destruct (decide (t = t')) as [<-|].
    + exists th'. rewrite lookup_insert_eq. split; [done|]. congruence.
    + exists th0. by rewrite lookup_insert_ne.
  - intros. map_hyps; [done| | |]; rewrite ?Ha in *; eauto.
  - intros. map_hyps; [|eauto]. rewrite Ha. destruct Hnew; [|congruence]. eapply Hne; [done|congruence].
  - intros. map_hyps; [done| | |eauto]; (destruct Hnew; [|congruence]); eapply Hno; eauto; congruence.
Qed.

Definition drop_raw (p : N) (s : nstate) : nstate :=
  Nstate (ns_nodes s) (ns_buckets s) (ns_raw s ∖ {[p]}) (ns_vnodes s) (ns_threads s).

Lemma inv_drop_raw s p :
  inv s -> (forall t th, ns_threads s !! t = Some th -> ft_new th ≠ Some p) -> inv (drop_raw p s).
Proof.
  intros [Ht Hth Hn Hv Ho Hr Hne Hno] Hp. split; simpl; eauto.
  - by apply (table_ok_keys s).
  - set_solver.
  - intros t th q Hl Hq. destruct (Hne _ _ _ Hl Hq); [left|by right].
    apply elem_of_difference. split; [done|]. rewrite elem_of_singleton. naive_solver.
Qed.

(** The epilogue, for a thread whose move to the end keeps the invariant. *)
Lemma inv_finish s t th e r :
  let th' := FindThread (ft_mnt th) (ft_id th) (ft_snode th) None
               (Done e (if e =? 0 then r else None)) in
  inv (set_thread t th' s) ->
  (forall q, ft_new th = Some q -> ns_nodes s !! q = None -> forall t' th0,
     ns_threads s !! t' = Some th0 -> t' ≠ t -> ft_new th0 ≠ Some q) ->
  (forall q, ft_new th = Some q -> is_Some (ns_nodes s !! q) -> exists v, r = Some (q, v)) ->
  inv (finish t th e r s).
Proof.
  intros th' Hi Hown Hused. unfold finish. fold th'.
  destruct (ft_new th) as [q|] eqn:Hq; [|exact Hi].
  destruct (decide _) as [|Hne]; [exact Hi|].
  destruct (ns_nodes s !! q) as [n|] eqn:Hn.
  { exfalso. destruct (Hused q) as [v ->]; [done|by eexists|]. by apply Hne. }
  apply (inv_drop_raw (set_thread t th' s) q); [done|]. simpl. intros t' th0 H. map_hyps; [done|].
  eapply Hown; eauto.
Qed.

Lemma inv_call s t mnt id snode :
  inv s -> ns_threads s !! t = None -> inv (set_thread t (FindThread mnt id snode None Top) s).
Proof.
  intros [Ht Hth Hn Hv Ho Hr Hne Hno] Hlk. split; simpl; auto.
  - by apply (table_ok_keys s).
  - intros t' th0 H. map_hyps; [done|]. apply (thread_ok_frame s); auto.
  - intros p n Hp. specialize (Hn p n Hp). unfold node_ok in *. destruct (hn_attaching n); [|done].
    destruct Hn as (? & t' & th0 & H & H'). split; [done|]. exists t', th0. simpl.
    rewrite lookup_insert_ne; [done|]. congruence.
  - intros v vn Hv'. specialize (Hv v vn Hv') as (H1 & H2 & H3 & H4). split; [|done].
    intros t' Hin. destruct (H1 t' Hin) as (? & th0 & H & H'). split; [done|]. exists th0. simpl.
    rewrite lookup_insert_ne; [done|]. congruence.
  - intros. map_hyps; try done. eauto.
  - intros. map_hyps; [done|eauto].
  - intros. map_hyps; try done. eauto.
Qed.

(** The call ends: the thread no longer owns its iocount. *)
Lemma inv_put_error s t th e :
  inv s -> ns_threads s !! t = Some th -> ft_pc th = Done e None -> inv (end_call t s).
Proof.
  intros [Ht Hth Hn Hv Ho Hr Hne Hno] Hlk Hpc. split; simpl; auto.
  - by apply (table_ok_keys s).
  - intros t' th0 H. map_hyps. apply (thread_ok_frame s); auto.
  - intros p n Hp. specialize (Hn p n Hp). unfold node_ok in *. destruct (hn_attaching n); [|done].
    destruct Hn as (? & t' & th0 & H & H'). split; [done|]. exists t', th0. simpl.
    rewrite lookup_delete_ne; [done|]. intros <-. unfold attaches in H'. simplify_eq. by rewrite Hpc in H'.
  - intros v vn Hv'. specialize (Hv v vn Hv') as (H1 & H2 & H3 & H4). split; [|done].
    intros t' Hin. destruct (H1 t' Hin) as (? & th0 & H & H'). split; [done|]. exists th0. simpl.
    rewrite lookup_delete_ne; [done|]. intros <-. unfold holds in H'. simplify_eq. by rewrite Hpc in H'.
  - intros. map_hyps. eauto.
  - intros. map_hyps. eauto.
  - intros. map_hyps. eauto.
Qed.

(** A vnode changes while its identity and its node stay: the threads that do not
    own it are not concerned. *)
Lemma thread_ok_vnode s t th v vn vn' :
  ns_vnodes s !! v = Some vn ->
  v_id vn' = v_id vn -> v_fsnode vn' = v_fsnode vn -> v_fsref vn' = v_fsref vn ->
  (v_state vn = VDead -> v_state vn' = VDead) ->
  (holds th = Some v -> v_state vn' = v_state vn ∧ (t ∈ v_iocount vn -> v_iocount vn = {[t]} -> v_iocount vn' = {[t]})
     ∧ (t ∈ v_iocount vn -> t ∈ v_iocount vn')) ->
  thread_ok s t th -> thread_ok (set_vnode v vn' s) t th.
Proof.
  intros Hlk Hid Hfs Href Hst Hh. unfold thread_ok, node_for, holds in *. simpl.
  destruct (ft_pc th) as [| | |p v0 vid| |p [e|v0]|e [[p v0]|]]; auto.
  - intros (vn0 & H & Hle & Hg). map_goal; [|eauto]. simplify_eq. exists vn'. rewrite Hid, Hfs, Href.
    split; [done|]. split; [done|]. intros Hv Hd. apply Hg; [done|]. naive_solver.
  - intros (Hn & vn0 & H & H1 & H2 & H3 & H4). split; [done|]. map_goal; [|eauto 10].
    simplify_eq. exists vn'. destruct (Hh eq_refl) as (E1 & E2 & E3). rewrite E1, Hfs, Href.
    repeat split; auto. apply E2; set_solver.
  - intros (He & Hn & vn0 & H & H1 & H2 & H3 & H4). split; [done|]. split; [done|].
    map_goal; [|eauto 10].
    simplify_eq. exists vn'. destruct (Hh eq_refl) as (E1 & E2 & E3). rewrite E1, Hfs, Href. auto.
Qed.

Lemma inv_put s t th e p v vn :
  inv s -> ns_threads s !! t = Some th -> ft_pc th = Done e (Some (p, v)) -> ns_vnodes s !! v = Some vn ->
  inv (end_call t (set_vnode v (Vnode (v_id vn) (v_state vn) (v_iocount vn ∖ {[t]})
                                  (v_fsnode vn) (v_fsref vn)) s)).
Proof.
  intros [Ht Hth Hn Hv Ho Hr Hne Hno] Hlk Hpc Hvn.
  pose proof (Hth _ _ Hlk) as Hok. unfold thread_ok in Hok. rewrite Hpc in Hok.
  destruct Hok as (-> & Hnf & vn' & E & Hlive & Hin & Hfs & Href). simplify_eq.
  split; simpl; auto.
  - by apply (table_ok_keys s).
  - intros t' th0 H. map_hyps.
    apply (thread_ok_frame (set_vnode v (Vnode (v_id vn) (v_state vn) (v_iocount vn ∖ {[t]})
             (v_fsnode vn) (v_fsref vn)) s)); [done..|].
    apply (thread_ok_vnode s t' th0 v vn); try done; [|by auto]. intros _. simpl. set_solver.
  - intros q n Hp. specialize (Hn q n Hp). unfold node_ok in *. simpl. destruct (hn_attaching n).
    + destruct Hn as (? & t' & th0 & H & H'). split; [done|]. exists t', th0.
      rewrite lookup_delete_ne; [done|]. intros <-. unfold attaches in H'. simplify_eq. by rewrite Hpc in H'.
    + destruct Hn as (? & ? & Hn). split; [done|]. split; [done|]. intros v0 Hv0.
      specialize (Hn v0 Hv0). map_goal; [|done]. destruct Hn as (? & ? & ?). simplify_eq. by eexists.
  - intros v0 vn0 H. map_hyps.
    + specialize (Hv _ _ Hvn) as (H1 & H2 & H3 & H4). split; [|split; [|split]]; simpl; auto.
      * intros t' [Hin' Hne']%elem_of_difference. destruct (H1 t' Hin') as (? & th0 & ? & ?).
        split; [done|]. exists th0. rewrite lookup_delete_ne by set_solver. done.
      * intros _. congruence.
    + specialize (Hv _ _ H) as (H1 & H2 & H3 & H4). split; [|split; [|split]]; simpl; auto.
      intros t' Hin'. destruct (H1 t' Hin') as (? & th0 & Hl & Hh). split; [done|]. exists th0.
      rewrite lookup_delete_ne; [done|]. intros <-. simplify_eq. unfold holds in Hh. rewrite Hpc in Hh. congruence.
  - intros. map_hyps. eauto.
  - intros. map_hyps. eauto.
  - intros. map_hyps. eauto.
Qed.

Lemma inv_terminate s v vn :
  inv s -> ns_vnodes s !! v = Some vn -> v_state vn = VLive -> v_iocount vn = ∅ ->
  inv (set_vnode v (Vnode (v_id vn) VTerminating ∅ (v_fsnode vn) (v_fsref vn)) s).
Proof.
  intros [Ht Hth Hn Hv Ho Hr Hne Hno] Hvn Hlive Hio.
  pose proof (Hv _ _ Hvn) as (H1 & H2 & H3 & H4).
  split; simpl; auto.
  - by apply (table_ok_keys s).
  - intros t th H. apply (thread_ok_vnode s t th v vn); try done; [simpl; congruence| |by auto].
    intros Hh. exfalso. specialize (Hth _ _ H). unfold thread_ok, holds in *.
    destruct (ft_pc th) as [| | | | |? []|? [[]|]]; naive_solver set_solver.
  - intros q n Hp. specialize (Hn q n Hp). unfold node_ok in *. simpl. destruct (hn_attaching n); [done|].
    destruct Hn as (? & ? & Hn). split; [done|]. split; [done|]. intros v0 Hv0.
    specialize (Hn v0 Hv0). map_goal; [|done]. destruct Hn as (? & ? & ? & ?). simplify_eq. by eexists.
  - intros v0 vn0 H. map_hyps; [|by apply Hv].
    split; [|split; [|split]]; simpl; auto; [set_solver| |].
    + intros _. apply H2. congruence.
    + intros _ Hf. destruct H4 as [t Ht']; [congruence|done|]. exfalso. set_solver.
Qed.

(** The kernel's reclaim: no thread relies on the node it frees. *)
Lemma thread_ok_free s t th p n :
  ns_nodes s !! p = Some n -> hn_attaching n = false ->
  (forall v, hn_vnode n = Some v -> forall vn, ns_vnodes s !! v = Some vn -> v_state vn = VDead) ->
  thread_ok s t th -> thread_ok (procfsnode_free_node p s) t th.
Proof.
  intros Hp Ha Hd. unfold thread_ok, procfsnode_free_node, node_for. rewrite Hp.
  destruct (ft_pc th) as [| |q|q v vid|q|q r|e [[q v]|]]; simpl; auto.
  - intros (m & Hq & ? & ?). map_goal; [|eauto]. congruence.
  - intros (vn & Hv & ? & H). exists vn. split; [done|]. split; [done|]. intros Hi Hs.
    destruct (H Hi Hs) as (? & ? & m & ? & ? & ?). split; [done|]. split; [done|]. map_goal; [|by eauto].
    simplify_eq. exfalso. eauto.
  - intros (m & Hq & ? & ?). map_goal; [|eauto]. congruence.
  - intros ((m & Hq & ? & ?) & Hr). split; [|done]. map_goal; [|eauto]. congruence.
  - intros (-> & (m & ? & ? & ?) & vn & Hv & Hl & ?). split; [done|]. split; [|eauto]. map_goal; [|by eauto].
    simplify_eq. exfalso. assert (v_state vn = VDead) by eauto. congruence.
Qed.

Lemma inv_reclaim s v vn :
  inv s -> ns_vnodes s !! v = Some vn -> v_state vn = VTerminating -> inv (procfs_vnop_reclaim v vn s).
Proof.
  intros Hi Hvn Hterm. pose proof (i_vnode _ Hi _ _ Hvn) as (H1 & H2 & H3 & H4).
  assert (Hio : v_iocount vn = ∅).
  { apply set_eq. intros t. split; [|set_solver]. intros Hin. destruct (H1 t Hin). congruence. }
  assert (Href : v_fsref vn = true).
  { destruct (v_fsref vn) eqn:E; [done|]. destruct H4 as [t Ht]; [congruence|done|]. set_solver. }
  destruct H2 as [p Hp]; [congruence|]. destruct (H3 Href p Hp) as (n & Hn & Hnv).
  assert (Ha : hn_attaching n = false).
  { pose proof (i_node _ Hi _ _ Hn) as Hno. unfold node_ok in Hno.
    destruct (hn_attaching n); [|done]. destruct Hno. congruence. }
  unfold procfs_vnop_reclaim. rewrite Hp. set (vd := Vnode _ _ _ _ _).
  assert (Hvd : forall t th, ns_threads s !! t = Some th -> thread_ok (set_vnode v vd s) t th).
  { intros t th Hl. pose proof (i_thread _ Hi _ _ Hl) as Hok. unfold thread_ok, node_for in *. simpl.
    destruct (ft_pc th) as [| | |q v0 vid| |q [e|v0]|e [[q v0]|]]; auto.
    - destruct Hok as (vn0 & ? & ? & ?). map_goal; [|by eauto]. simplify_eq. by exists vd.
    - destruct Hok as (? & vn0 & ? & ? & ?). split; [done|]. map_goal; [|by eauto]. congruence.
    - destruct Hok as (? & ? & vn0 & ? & ? & ?). split; [done|]. split; [done|]. map_goal; [|by eauto].
      congruence. }
  destruct Hi as [Ht Hth Hno Hv Ho Hr Hne Hnw].
  assert (E : set_vnode v vd (procfsnode_free_node p s) = procfsnode_free_node p (set_vnode v vd s)).
  { unfold procfsnode_free_node. simpl. by rewrite Hn. }
  rewrite E. unfold procfsnode_free_node at 1. simpl. rewrite Hn.
  assert (E' : procfsnode_free_node p (set_vnode v vd s) =
    Nstate (delete p (ns_nodes s)) (alter (filter (λ q, q ≠ p)) (bucket_of (hn_mnt n) (hn_id n)) (ns_buckets s))
      (ns_raw s) (<[v:=vd]> (ns_vnodes s)) (ns_threads s)).
  { unfold procfsnode_free_node. simpl. by rewrite Hn. }
  split; simpl; auto.
  - rewrite <- E'. apply table_ok_free. by apply (table_ok_keys s).
  - intros t th Hl. rewrite <- E'. apply (thread_ok_free _ _ _ _ n); auto.
    simpl. rewrite Hnv. intros ? [= <-]. rewrite lookup_insert_eq. by intros ? [= <-].
  - intros q m Hq. map_hyps. specialize (Hno q m Hq). unfold node_ok in *. simpl.
    destruct (hn_attaching m); [done|].
    destruct Hno as (? & ? & Hno). split; [done|]. split; [done|]. intros v0 Hv0.
    specialize (Hno v0 Hv0). map_goal; [|done]. destruct Hno as (? & ? & ? & ? & ?). congruence.
  - intros v0 vn0 H. map_hyps.
    + split; [|split; [|split]]; simpl; try done. rewrite Hio. set_solver.
    + destruct (Hv _ _ H) as (K1 & K2 & K3 & K4). split; [|split; [|split]]; simpl; auto.
      intros Hf q Hq. destruct (K3 Hf q Hq) as (m & Hm & ?). map_goal; [|eauto]. congruence.
  - intros q Hq. rewrite lookup_delete_None. auto.
Qed.

Lemma inv_alloc s t th p :
  inv s -> ns_threads s !! t = Some th -> ft_pc th = Alloc -> ns_nodes s !! p = None -> p ∉ ns_raw s ->
  inv (set_thread t (set_pc (set_new th (Some p)) Top)
        (Nstate (ns_nodes s) (ns_buckets s) ({[p]} ∪ ns_raw s) (ns_vnodes s) (ns_threads s))).
Proof.
  intros [Ht Hth Hn Hv Ho Hr Hne Hno] Hlk Hpc Hp Hraw.
  assert (Hnew : forall t' th0, ns_threads s !! t' = Some th0 -> ft_new th0 ≠ Some p).
  { intros t' th0 H E. destruct (Hne _ _ _ H E) as [|Ha]; [done|].
    specialize (Hth _ _ H). unfold thread_ok, attaches in *.
    destruct (ft_pc th0) as [| | | | | |]; naive_solver. }
  split; simpl; auto.
  - by apply (table_ok_keys s).
  - intros t' th0 H. map_hyps; [done|]. apply (thread_ok_frame s); auto.
  - intros q n Hq. specialize (Hn q n Hq). unfold node_ok in *. destruct (hn_attaching n); [|done].
    destruct Hn as (? & t' & th0 & H & H'). split; [done|]. exists t', th0. simpl.
    rewrite lookup_insert_ne; [done|]. intros <-. unfold attaches in H'. simplify_eq. by rewrite Hpc in H'.
  - intros v vn Hv'. specialize (Hv v vn Hv') as (H1 & H2 & H3 & H4). split; [|done].
    intros t' Hin. destruct (H1 t' Hin) as (? & th0 & H & H'). split; [done|]. exists th0. simpl.
    rewrite lookup_insert_ne; [done|]. intros <-. unfold holds in H'. simplify_eq. by rewrite Hpc in H'.
  - intros. map_hyps; try done. eauto.
  - set_solver.
  - intros t' th0 q Hl Hq. map_hyps.
    + simpl in Hq. simplify_eq. set_solver.
    + destruct (Hne _ _ _ Hl Hq); [set_solver|by right].
  - intros t1 t2 th1 th2 q Hl1 Hl2 Hq1 Hq2.
    map_hyps; [done| | |eauto]; simpl in *; simplify_eq; naive_solver.
Qed.

Definition with_flags (n : hnode) (attaching waiting : bool) : hnode :=
  Hnode (hn_vnode n) attaching waiting (hn_mnt n) (hn_id n) (hn_snode n).

(** Found a node whose vnode is being attached: ask for a wakeup and sleep. *)
Lemma inv_sleep s t th p n :
  inv s -> ns_threads s !! t = Some th -> ft_pc th = Top ->
  ns_nodes s !! p = Some n -> hn_attaching n = true ->
  inv (set_thread t (set_pc th (Asleep p)) (set_node p (with_flags n true true) s)).
Proof.
  intros Hi Hlk Hpc Hp Ha.
  assert (H1 : inv (set_node p (with_flags n true true) s)).
  { destruct Hi as [Ht Hth Hn Hv Ho Hr Hne Hno]. split; simpl; eauto.
    - apply (table_ok_keys s); simpl; [done| |done]. intros q. map_goal; [|done]. by rewrite Hp.
    - intros t' th' Hl. specialize (Hth _ _ Hl). unfold thread_ok, node_for, has_key in *. simpl.
      destruct (ft_pc th') as [| |q|q v vid|q|q r|e [[q v]|]]; auto.
      + map_goal; [by eexists|done].
      + destruct Hth as (vn & ? & ? & H). exists vn. split; [done|]. split; [done|]. intros Hid Hst.
        destruct (H Hid Hst) as (? & ? & m & Hm & ?). split; [done|]. split; [done|].
        map_goal; [|by eauto]. simplify_eq. by eexists.
      + destruct Hth as (m & ? & ? & ?). map_goal; [|by eauto]. simplify_eq. by eexists.
      + destruct Hth as ((m & ? & ? & ?) & ?). split; [|done]. map_goal; [|by eauto]. simplify_eq. by eexists.
      + destruct Hth as (? & (m & ? & ? & ?) & ?). split; [done|]. split; [|done]. map_goal; [|by eauto].
        simplify_eq. by eexists.
    - intros q m Hq. map_hyps; [|exact (Hn _ _ Hq)]. specialize (Hn _ _ Hp). unfold node_ok in *. simpl.
      by rewrite Ha in *.
    - intros v vn Hl. destruct (Hv _ _ Hl) as (? & ? & H3 & ?). split; [done|]. split; [done|]. split; [|done].
      intros Hf q Hq. destruct (H3 Hf q Hq) as (m & Hm & ?). simpl. map_goal; [|by eauto].
      simplify_eq. by eexists.
    - intros q Hq. simpl. map_goal; [|by auto]. rewrite Hr in Hp; [done|auto]. }
  apply (inv_move _ t th); auto.
  - unfold thread_ok. simpl. rewrite lookup_insert_eq. by eexists.
  - unfold attaches. simpl. by rewrite Hpc.
  - unfold holds. simpl. by rewrite Hpc.
Qed.

(** No node has the key: use the new one. *)
Lemma inv_new_node s t th p :
  inv s -> ns_threads s !! t = Some th -> ft_pc th = Top -> ft_new th = Some p ->
  bucket_search s (ft_mnt th) (ft_id th) = None ->
  let n := Hnode None true false (ft_mnt th) (ft_id th) (ft_snode th) in
  inv (set_thread t (set_pc th (Create p)) (insert_node p n s)).
Proof.
  intros [Ht Hth Hn Hv Ho Hr Hne Hno] Hlk Hpc Hnew Hs n.
  assert (Hraw : p ∈ ns_raw s).
  { destruct (Hne _ _ _ Hlk Hnew) as [|H]; [done|]. unfold attaches in H. by rewrite Hpc in H. }
  pose proof (Hr _ Hraw) as Hp.
  assert (Hatt : forall t' th', ns_threads s !! t' = Some th' -> attaches th' ≠ Some p).
  { intros t' th' H E. specialize (Hth _ _ H). unfold thread_ok, attaches in *.
    destruct (ft_pc th'); naive_solver. }
  split; simpl; auto.
  - apply (table_ok_keys (insert_node p n s)); [done..|]. apply table_ok_insert; auto.
    by apply bucket_search_none.
  - intros t' th' Hl. map_hyps.
    + unfold thread_ok. simpl. rewrite lookup_insert_eq. by eexists.
    + specialize (Hth _ _ Hl). unfold thread_ok, node_for in *. simpl.
      assert (Hf : forall (P : hnode -> Prop) q, (exists m, ns_nodes s !! q = Some m ∧ P m) ->
                exists m, <[p := n]> (ns_nodes s) !! q = Some m ∧ P m).
      { intros P q (m & Hm & HP). exists m. rewrite lookup_insert_ne; [done|]. congruence. }
      destruct (ft_pc th') as [| |q|q v vid|q|q r|e [[q v]|]]; auto.
      * destruct Hth as (vn & ? & ? & H'). exists vn. naive_solver.
      * naive_solver.
      * naive_solver.
  - intros q m Hq. map_hyps.
    + unfold node_ok. simpl. split; [done|]. exists t. rewrite lookup_insert_eq. by eexists.
    + specialize (Hn _ _ Hq). unfold node_ok in *. destruct (hn_attaching m); [|done].
      destruct Hn as (? & t' & th0 & H' & Ha). split; [done|]. exists t', th0. simpl.
      rewrite lookup_insert_ne; [done|]. intros <-. unfold attaches in Ha. simplify_eq. by rewrite Hpc in Ha.
  - intros v vn Hv'. specialize (Hv v vn Hv') as (H1 & H2 & H3 & H4).
    split; [|split; [done|split; [|done]]].
    + intros t' Hin. destruct (H1 t' Hin) as (? & th0 & H' & Hh). split; [done|]. exists th0. simpl.
      rewrite lookup_insert_ne; [done|]. intros <-. unfold holds in Hh. simplify_eq. by rewrite Hpc in Hh.
    + intros Hf q Hq. destruct (H3 Hf q Hq) as (m & Hm & ?). simpl. exists m.
      rewrite lookup_insert_ne; [done|]. congruence.
  - intros t1 t2 th1 th2 q Hl1 Hl2 Hq1 Hq2.
    map_hyps; [done| | |eauto]; unfold attaches in Hq1, Hq2; simpl in *; simplify_eq; exfalso; by eapply Hatt.
  - intros q [Hq Hqp]%elem_of_difference. rewrite lookup_insert_ne by set_solver. auto.
  - intros t' th' q Hl Hq. map_hyps.
    + simpl in Hq. right. unfold attaches. simpl. congruence.
    + destruct (Hne _ _ _ Hl Hq); [|by right]. left. apply elem_of_difference. split; [done|].
      rewrite elem_of_singleton. intros ->. naive_solver.
  - intros t1 t2 th1 th2 q Hl1 Hl2 Hq1 Hq2. map_hyps; [done| | |eauto]; simpl in *; eauto.
Qed.

(** [vnode_getwithvid] succeeded: the call owns one more iocount. *)
Lemma inv_getvid s t th p v vid vn :
  inv s -> ns_threads s !! t = Some th -> ft_pc th = Getvid p v vid ->
  ns_vnodes s !! v = Some vn -> v_state vn = VLive -> v_id vn = vid ->
  inv (finish t th 0 (Some (p, v))
         (set_vnode v (Vnode (v_id vn) (v_state vn) ({[t]} ∪ v_iocount vn) (v_fsnode vn) (v_fsref vn)) s)).
Proof.
  intros [Ht Hth Hn Hv Ho Hr Hne Hno] Hlk Hpc Hvn Hlive Hid.
  pose proof (Hth _ _ Hlk) as Hok. unfold thread_ok in Hok. rewrite Hpc in Hok.
  destruct Hok as (vn' & E & _ & Hok). simplify_eq.
  destruct Hok as (Href & Hfs & Hnf); [done|congruence|].
  set (vn2 := Vnode _ _ _ _ _). apply inv_finish; simpl.
  2: { intros q Hq _ t' th0 Hl Hne' Hq'. eauto. }
  2: { intros q Hq [m Hm]. destruct (Hne _ _ _ Hlk Hq) as [Hq'|Ha]; [rewrite Hr in Hm; done|].
       unfold attaches in Ha. by rewrite Hpc in Ha. }
  split; simpl; auto.
  - by apply (table_ok_keys s).
  - intros t' th' Hl. map_hyps.
    + unfold thread_ok. simpl. split; [done|]. split; [done|]. rewrite lookup_insert_eq.
      exists vn2. simpl. repeat split; auto. set_solver.
    + apply (thread_ok_frame (set_vnode v vn2 s)); [done..|].
      specialize (Hth _ _ Hl). unfold thread_ok, node_for in *. simpl.
      destruct (ft_pc th') as [| | |q v0 vid| |q [e|v0]|e [[q v0]|]]; auto.
      * destruct Hth as (vn0 & ? & ? & ?). map_goal; [|by eauto]. simplify_eq. by exists vn2.
      * destruct Hth as (? & vn0 & ? & ? & ? & ? & ?). split; [done|]. map_goal; [congruence|by eauto 10].
      * destruct Hth as (? & ? & vn0 & ? & ? & ? & ?). split; [done|]. split; [done|]. map_goal; [|by eauto 10].
        simplify_eq. exists vn2. simpl. repeat split; try done; set_solver.
  - intros q n Hq. specialize (Hn q n Hq). unfold node_ok in *. simpl. destruct (hn_attaching n).
    + destruct Hn as (? & t' & th0 & H & H'). split; [done|]. exists t', th0.
      rewrite lookup_insert_ne; [done|]. intros <-. unfold attaches in H'. simplify_eq. by rewrite Hpc in H'.
    + destruct Hn as (? & ? & Hn). split; [done|]. split; [done|]. intros v0 Hv0.
      specialize (Hn v0 Hv0). map_goal; [|done]. destruct Hn as (? & ? & ?). simplify_eq. by eexists.
  - assert (Hold : forall v0 t', t' ≠ t ->
      (exists th0, ns_threads s !! t' = Some th0 ∧ holds th0 = Some v0) -> forall x,
       exists th0, <[t := x]> (ns_threads s) !! t' = Some th0 ∧ holds th0 = Some v0).
    { intros v0 t' Hne' (th0 & ? & ?) x. exists th0. by rewrite lookup_insert_ne. }
    intros v0 vn0 H. map_hyps.
    + specialize (Hv _ _ Hvn) as (H1 & H2 & H3 & H4). split; [|split; [|split]]; simpl; auto; [|congruence].
      intros t' Hin. destruct (decide (t' = t)) as [->|Hne'].
      * split; [done|]. rewrite lookup_insert_eq. by eexists.
      * destruct (H1 t') as (? & ?); [set_solver|]. auto.
    + specialize (Hv _ _ H) as (H1 & H2 & H3 & H4). split; [|split; [|split]]; simpl; auto.
      intros t' Hin. destruct (H1 t' Hin) as (? & th0 & Hl & Hh). split; [done|]. apply Hold; [|by eauto].
      intros ->. simplify_eq. unfold holds in Hh. by rewrite Hpc in Hh.
  - intros. map_hyps; try done. eauto.
  - intros. map_hyps; [done|eauto].
  - intros. map_hyps; try done. eauto.
Qed.

(** The callback made a vnode, from memory that no node and no call uses. *)
Lemma inv_create s t th p v vid :
  inv s -> ns_threads s !! t = Some th -> ft_pc th = Create p ->
  (forall vn, ns_vnodes s !! v = Some vn -> v_state vn = VDead ∧ v_id vn < vid) ->
  inv (set_thread t (set_pc th (Attach p (inr v))) (set_vnode v (Vnode vid VLive {[t]} (Some p) false) s)).
Proof.
  intros [Ht Hth Hn Hv Ho Hr Hne Hno] Hlk Hpc Hdead.
  pose proof (Hth _ _ Hlk) as Hok. unfold thread_ok in Hok. rewrite Hpc in Hok.
  set (vn2 := Vnode _ _ _ _ _). split; simpl; auto.
  - by apply (table_ok_keys s).
  - intros t' th' Hl. map_hyps.
    + unfold thread_ok. simpl. split; [done|]. rewrite lookup_insert_eq. by exists vn2.
    + specialize (Hth _ _ Hl). unfold thread_ok, node_for in *. simpl.
      destruct (ft_pc th') as [| | |q v0 vid0| |q [e|v0]|e [[q v0]|]]; auto.
      * destruct Hth as (vn0 & Hv0 & ? & ?). map_goal; [|by eauto]. destruct (Hdead _ Hv0).
        exists vn2. simpl. split; [done|]. split; [lia|]. intros. lia.
      * destruct Hth as (? & vn0 & Hv0 & ? & ?). split; [done|]. map_goal; [|by eauto].
        destruct (Hdead _ Hv0). congruence.
      * destruct Hth as (? & ? & vn0 & Hv0 & ? & ?). split; [done|]. split; [done|].
        map_goal; [|by eauto]. destruct (Hdead _ Hv0). congruence.
  - intros q n Hq. specialize (Hn q n Hq). unfold node_ok in *. simpl. destruct (hn_attaching n).
    + destruct Hn as (? & t' & th0 & H & H'). split; [done|]. destruct (decide (t = t')) as [<-|].
      * exists t. rewrite lookup_insert_eq. eexists. split; [done|]. simplify_eq.
        unfold attaches in *. simpl. by rewrite Hpc in H'.
      * exists t', th0. by rewrite lookup_insert_ne.
    + destruct Hn as (? & ? & Hn). split; [done|]. split; [done|]. intros v0 Hv0.
      specialize (Hn v0 Hv0). map_goal; [|done]. destruct Hn as (vn0 & Hl & ? & ?).
      destruct (Hdead _ Hl). congruence.
  - intros v0 vn0 H. map_hyps.
    + split; [|split; [|split]]; simpl; try done; [|by eauto].
      intros t' ->%elem_of_singleton. split; [done|]. rewrite lookup_insert_eq. by eexists.
    + specialize (Hv _ _ H) as (H1 & H2 & H3 & H4). split; [|split; [|split]]; simpl; auto.
      intros t' Hin. destruct (H1 t' Hin) as (? & th0 & Hl & Hh). split; [done|]. exists th0.
      rewrite lookup_insert_ne; [done|]. intros ->. simplify_eq. unfold holds in Hh. by rewrite Hpc in Hh.
  - assert (Ha : attaches (set_pc th (Attach p (inr v))) = attaches th) by (unfold attaches; by rewrite Hpc).
    intros. map_hyps; [done| | |eauto]; rewrite ?Ha in *; eauto.
  - assert (Ha : attaches (set_pc th (Attach p (inr v))) = attaches th) by (unfold attaches; by rewrite Hpc).
    intros. map_hyps; [rewrite Ha|]; eauto.
  - intros. map_hyps; [done| | |eauto]; simpl in *; eauto.
Qed.

(** *** The end of an attachment *)

Lemma wake_thread_attaches p th : attaches (wake_thread p th) = attaches th.
Proof. unfold wake_thread, attaches. destruct (ft_pc th) eqn:E; rewrite ?E; try done. case_decide; simpl; by rewrite ?E. Qed.
Lemma wake_thread_holds p th : holds (wake_thread p th) = holds th.
Proof. unfold wake_thread, holds. destruct (ft_pc th) eqn:E; rewrite ?E; try done. case_decide; simpl; by rewrite ?E. Qed.
Lemma wake_thread_new p th : ft_new (wake_thread p th) = ft_new th.
Proof. unfold wake_thread. destruct (ft_pc th); try done. by case_decide. Qed.
Lemma wake_thread_awake p th : ft_pc (wake_thread p th) ≠ Asleep p.
Proof. unfold wake_thread. destruct (ft_pc th) eqn:E; rewrite ?E; try done. case_decide; simpl; congruence. Qed.
Lemma wake_thread_other p th : (forall q, ft_pc th ≠ Asleep q) -> wake_thread p th = th.
Proof. unfold wake_thread. destruct (ft_pc th); try done. intros H. by destruct (H target). Qed.

Lemma inv_wakeup s p : inv s -> inv (wakeup p s).
Proof.
  intros [Ht Hth Hn Hv Ho Hr Hne Hno]. split; simpl; auto.
  - by apply (table_ok_keys s).
  - intros t th Hl. map_hyps. apply (thread_ok_frame s); [done..|].
    specialize (Hth _ _ Hl). unfold wake_thread, thread_ok in *.
    destruct (ft_pc x) eqn:E; rewrite ?E; try done. case_decide; simpl; by rewrite ?E.
  - intros q n Hq. specialize (Hn q n Hq). unfold node_ok in *. destruct (hn_attaching n); [|done].
    destruct Hn as (? & t & th & H & Ha). split; [done|]. exists t, (wake_thread p th). simpl.
    by rewrite lookup_fmap, H, wake_thread_attaches.
  - intros v vn Hl. destruct (Hv _ _ Hl) as (H1 & H2). split; [|done].
    intros t Hin. destruct (H1 t Hin) as (? & th & H & Hh). split; [done|]. exists (wake_thread p th). simpl.
    by rewrite lookup_fmap, H, wake_thread_holds.
  - intros. map_hyps. rewrite wake_thread_attaches in *. eauto.
  - intros. map_hyps. rewrite wake_thread_attaches, wake_thread_new in *. eauto.
  - intros. map_hyps. rewrite wake_thread_new in *. eauto.
Qed.

(** The thread is done with the node: what the other threads rely on. *)
Lemma thread_ok_attached s s' t t' th' p n v :
  inv s -> ns_threads s !! t' = Some th' -> t' ≠ t -> ft_pc th' ≠ Asleep p ->
  ns_nodes s !! p = Some n -> hn_attaching n = true ->
  (forall u uth, ns_threads s !! u = Some uth -> attaches uth = Some p -> u = t) ->
  (forall q, q ≠ p -> ns_nodes s' !! q = ns_nodes s !! q) ->
  (forall w wn, ns_vnodes s !! w = Some wn -> v = Some w ->
     v_iocount wn = {[t]} ∧ v_fsref wn = false ∧ v_state wn = VLive ∧ v_fsnode wn = Some p
     ∧ exists wn', ns_vnodes s' !! w = Some wn' ∧ v_id wn' = v_id wn) ->
  (forall w, v ≠ Some w -> ns_vnodes s' !! w = ns_vnodes s !! w) ->
  thread_ok s' t' th'.
Proof.
  intros Hi Hl Hne Hpc Hp Ha Hown Hnodes Hv1 Hv2.
  pose proof (i_thread _ Hi _ _ Hl) as Hok.
  assert (Hnv : hn_vnode n = None).
  { pose proof (i_node _ Hi _ _ Hp) as Hno. unfold node_ok in Hno. rewrite Ha in Hno. naive_solver. }
  assert (Hat : attaches th' ≠ Some p) by eauto.
  unfold thread_ok, node_for, attaches in *.
  destruct (ft_pc th') as [| |q|q w vid|q|q r|e [[q w]|]]; auto.
  - rewrite Hnodes; [done|congruence].
  - destruct Hok as (wn & Hw & Hle & Hg). destruct (decide (v = Some w)) as [Hvw|Hvw].
    + destruct (Hv1 _ _ Hw Hvw) as (? & Hf & Hs & Hfs & wn' & Hw' & Hid). exists wn'.
      rewrite Hid. split; [done|]. split; [done|]. intros Hid'. exfalso.
      destruct (Hg Hid') as (? & ?); congruence.
    + exists wn. rewrite (Hv2 _ Hvw). split; [done|]. split; [done|]. intros Hid Hs.
      destruct (Hg Hid Hs) as (? & ? & m & Hm & ? & ?). split; [done|]. split; [done|].
      exists m. rewrite Hnodes; [done|congruence].
  - rewrite Hnodes; [done|congruence].
  - destruct Hok as (? & Hr). split; [rewrite Hnodes; [done|congruence]|]. destruct r as [e|w]; [done|].
    destruct Hr as (wn & Hw & ? & Hio & ?). destruct (decide (v = Some w)) as [Hvw|Hvw].
    + destruct (Hv1 _ _ Hw Hvw) as (? & ?). exfalso. set_solver.
    + exists wn. by rewrite (Hv2 _ Hvw).
  - destruct Hok as (-> & (m & Hm & ? & ?) & wn & Hw & ? & ? & ? & ?). split; [done|].
    destruct (decide (v = Some w)) as [Hvw|Hvw].
    + destruct (Hv1 _ _ Hw Hvw) as (? & ? & ?). congruence.
    + split; [exists m; rewrite Hnodes; [done|congruence]|]. exists wn. by rewrite (Hv2 _ Hvw).
Qed.

Lemma inv_attach_ok s t th p v n vn :
  inv s -> ns_threads s !! t = Some th -> ft_pc th = Attach p (inr v) ->
  (forall t' th', ns_threads s !! t' = Some th' -> ft_pc th' ≠ Asleep p) ->
  ns_nodes s !! p = Some n -> ns_vnodes s !! v = Some vn ->
  inv (finish t th 0 (Some (p, v))
    (set_vnode v (Vnode (v_id vn) (v_state vn) (v_iocount vn) (v_fsnode vn) true)
      (set_node p (Hnode (Some v) false false (hn_mnt n) (hn_id n) (hn_snode n)) s))).
Proof.
  intros Hi Hlk Hpc Hawake Hp Hvn.
  pose proof (i_thread _ Hi _ _ Hlk) as Hok. unfold thread_ok in Hok. rewrite Hpc in Hok.
  destruct Hok as ((n0 & E & Ha & Hkey) & vn0 & E' & Hlive & Hio & Hfs & Href). simplify_eq.
  assert (Hat : attaches th = Some p) by (unfold attaches; by rewrite Hpc).
  assert (Hown : forall u uth, ns_threads s !! u = Some uth -> attaches uth = Some p -> u = t).
  { intros u uth Hu Hua. by eapply (i_owner _ Hi). }
  set (n2 := Hnode _ _ _ _ _ _). set (vn2 := Vnode _ _ _ _ _).
  apply inv_finish; simpl.
  2: { intros q Hq _ t' th0 Hl Hne' Hq'. apply Hne'. by eapply (i_new_own _ Hi). }
  2: { intros q Hq [m Hm]. destruct (i_new _ Hi _ _ _ Hlk Hq) as [Hq'|Ha']; [|exists v; congruence].
       apply (i_raw _ Hi) in Hq'. exists v. map_hyps; [done|congruence]. }
  pose proof Hi as [Ht Hth Hn Hv Ho Hr Hne Hno].
  split; simpl; auto.
  - apply (table_ok_keys s); simpl; [done| |done]. intros q. map_goal; [|done]. by rewrite Hp.
  - intros t' th' Hl. map_hyps.
    + unfold thread_ok, node_for. simpl. split; [done|]. split.
      * rewrite lookup_insert_eq. by exists n2.
      * rewrite lookup_insert_eq. exists vn2. simpl. rewrite Hio. repeat split; auto. set_solver.
    + apply (thread_ok_attached s _ t t' th' p n (Some v)); eauto; simpl.
      * intros q Hq. by rewrite lookup_insert_ne.
      * intros w wn Hw [= <-]. simplify_eq. repeat split; auto. exists vn2. by rewrite lookup_insert_eq.
      * intros w Hw. rewrite lookup_insert_ne; [done|]. congruence.
  - intros q m Hq. map_hyps.
    + unfold node_ok. simpl. split; [done|]. split; [done|]. intros ? [= <-].
      rewrite lookup_insert_eq. exists vn2. simpl. repeat split; auto. congruence.
    + specialize (Hn _ _ Hq). unfold node_ok in *. simpl. destruct (hn_attaching m).
      * destruct Hn as (? & t' & th0 & H' & Ha'). split; [done|]. exists t', th0.
        rewrite lookup_insert_ne; [done|]. intros <-. congruence.
      * destruct Hn as (? & ? & Hn). split; [done|]. split; [done|]. intros w Hw. specialize (Hn w Hw).
        map_goal; [|done]. destruct Hn as (? & ? & ? & ? & ?). congruence.
  - intros w wn Hw. map_hyps.
    + split; [|split; [|split]]; simpl; try done.
      * rewrite Hio. intros t' ->%elem_of_singleton. split; [done|]. rewrite lookup_insert_eq. by eexists.
      * intros _ q Hq. rewrite Hfs in Hq. simplify_eq. rewrite lookup_insert_eq. by eexists.
    + specialize (Hv _ _ Hw) as (H1 & H2 & H3 & H4). split; [|split; [|split]]; simpl; auto.
      * intros t' Hin. destruct (H1 t' Hin) as (? & th0 & Hl & Hh). split; [done|]. exists th0.
        rewrite lookup_insert_ne; [done|]. intros <-. simplify_eq. unfold holds in Hh. rewrite Hpc in Hh. congruence.
      * intros Hf q Hq. destruct (H3 Hf q Hq) as (m & Hm & ?). map_goal; [|by eauto].
        specialize (Hn _ _ Hm). unfold node_ok in Hn. simplify_eq. rewrite Ha in Hn. destruct Hn. congruence.
  - intros. map_hyps; try done. eauto.
  - intros q Hq. rewrite lookup_insert_ne; [auto|]. intros <-. rewrite Hr in Hp; done.
  - intros. map_hyps; [done|eauto].
  - intros. map_hyps; try done. eauto.
Qed.

Lemma inv_attach_fail s t th p e n :
  inv s -> ns_threads s !! t = Some th -> ft_pc th = Attach p (inl e) ->
  (forall t' th', ns_threads s !! t' = Some th' -> ft_pc th' ≠ Asleep p) ->
  ns_nodes s !! p = Some n ->
  inv (finish t (set_new th None) e None (procfsnode_free_node p (set_node p (with_flags n false false) s))).
Proof.
  intros Hi Hlk Hpc Hawake Hp.
  pose proof (i_thread _ Hi _ _ Hlk) as Hok. unfold thread_ok in Hok. rewrite Hpc in Hok.
  destruct Hok as ((n0 & E & Ha & Hkey) & He). simplify_eq.
  assert (Hat : attaches th = Some p) by (unfold attaches; by rewrite Hpc).
  assert (Hown : forall u uth, ns_threads s !! u = Some uth -> attaches uth = Some p -> u = t).
  { intros u uth Hu Hua. by eapply (i_owner _ Hi). }
  apply inv_finish; simpl; [|done..].
  assert (Htab : table_ok (procfsnode_free_node p (set_node p (with_flags n false false) s))).
  { apply table_ok_free. apply (table_ok_keys s); simpl; [done| |by apply Hi]. intros q. map_goal; [|done].
    by rewrite Hp. }
  revert Htab. unfold procfsnode_free_node. simpl. rewrite lookup_insert_eq. simpl.
  rewrite delete_insert_eq. intros Htab.
  pose proof Hi as [Ht Hth Hn Hv Ho Hr Hne Hno].
  rewrite (proj2 (Z.eqb_neq e 0) He). split; simpl; auto.
  - by eapply table_ok_keys; [| |exact Htab].
  - intros t' th' Hl. map_hyps; [done|].
    apply (thread_ok_attached s _ t t' th' p n None); eauto; simpl; [|done].
    intros q Hq. by rewrite lookup_delete_ne.
  - intros q m Hq. map_hyps. specialize (Hn _ _ Hq). unfold node_ok in *. simpl. destruct (hn_attaching m); [|done].
    destruct Hn as (? & t' & th0 & H' & Ha'). split; [done|]. exists t', th0.
    rewrite lookup_insert_ne; [done|]. intros <-. congruence.
  - intros w wn Hw. specialize (Hv _ _ Hw) as (H1 & H2 & H3 & H4). split; [|split; [|split]]; simpl; auto.
    + intros t' Hin. destruct (H1 t' Hin) as (? & th0 & Hl & Hh). split; [done|]. exists th0.
      rewrite lookup_insert_ne; [done|]. intros <-. simplify_eq. unfold holds in Hh. by rewrite Hpc in Hh.
    + intros Hf q Hq. destruct (H3 Hf q Hq) as (m & Hm & ?). map_goal; [|by eauto].
      specialize (Hn _ _ Hm). unfold node_ok in Hn. simplify_eq. rewrite Ha in Hn. destruct Hn. congruence.
  - intros. map_hyps; try done. eauto.
  - intros q Hq. rewrite lookup_delete_None. auto.
  - intros. map_hyps; [done|eauto].
  - intros. map_hyps; try done. eauto.
Qed.

(** The attaching step first wakes all the sleepers on the node: if none asked,
    there is none. *)
Lemma wakeup_none s p :
  (forall t th, ns_threads s !! t = Some th -> ft_pc th ≠ Asleep p) -> wakeup p s = s.
Proof.
  intros H. destruct s as [nodes buckets raw vnodes threads]. unfold wakeup. simpl in *. f_equal.
  apply map_eq. intros t. rewrite lookup_fmap. destruct (threads !! t) as [th|] eqn:E; [|done].
  simpl. f_equal. specialize (H t th E). unfold wake_thread. destruct (ft_pc th); try done.
  case_decide; [congruence|done].
Qed.

Lemma inv_attach s t th p r :
  inv s -> ns_threads s !! t = Some th -> ft_pc th = Attach p r -> inv (find_attach t th p r s).
Proof.
  intros Hi Hlk Hpc. pose proof (i_thread _ Hi _ _ Hlk) as Hok. unfold thread_ok in Hok.
  rewrite Hpc in Hok. destruct Hok as ((n & Hp & Ha & Hkey) & Hr).
  assert (Hs1 : (if hn_waiting n then wakeup p (set_node p (with_flags n false false) s)
                 else set_node p (with_flags n false false) s)
                = set_node p (with_flags n false false) (wakeup p s)).
  { destruct (hn_waiting n) eqn:Hw; [done|]. rewrite wakeup_none; [done|]. intros t' th' Hl Hsl.
    pose proof (i_thread _ Hi _ _ Hl) as Hok. unfold thread_ok in Hok. rewrite Hsl in Hok. destruct Hok as (m & ? & ? & ?). congruence. }
  assert (Hlk' : ns_threads (wakeup p s) !! t = Some th).
  { simpl. rewrite lookup_fmap, Hlk. simpl. f_equal. apply wake_thread_other. intros q. congruence. }
  assert (Hawake : forall t' th', ns_threads (wakeup p s) !! t' = Some th' -> ft_pc th' ≠ Asleep p).
  { intros t' th' H. simpl in H. map_hyps. apply wake_thread_awake. }
  pose proof (inv_wakeup s p Hi) as Hi'.
  unfold find_attach. rewrite Hp. change (Hnode (hn_vnode n) false false _ _ _) with (with_flags n false false).
  rewrite Hs1. destruct r as [e|v].
  - by apply inv_attach_fail.
  - destruct Hr as (vn & Hv & ?). simpl. rewrite Hv.
    assert (E : set_node p (Hnode (Some v) false false (hn_mnt n) (hn_id n) (hn_snode n))
                  (set_node p (with_flags n false false) (wakeup p s))
                = set_node p (Hnode (Some v) false false (hn_mnt n) (hn_id n) (hn_snode n)) (wakeup p s)).
    { unfold set_node. simpl. by rewrite insert_insert_eq. }
    rewrite E. by apply inv_attach_ok.
Qed.

Lemma inv_locked s t th :
  inv s -> ns_threads s !! t = Some th -> ft_pc th = Top -> inv (find_locked t th s).
Proof.
  intros Hi Hlk Hpc. unfold find_locked.
  assert (Hmv : forall p', (match p' with Alloc | Getvid _ _ _ => True | _ => False end) ->
            attaches (set_pc th p') = attaches th ∧ holds (set_pc th p') = holds th).
  { intros p'. unfold attaches, holds. rewrite Hpc. by destruct p'. }
  destruct (bucket_search _ _ _) as [p|] eqn:Hs.
  - destruct (bucket_search_some _ _ _ _ Hs) as (n & Hp & Hkey). rewrite Hp.
    pose proof (i_node _ Hi _ _ Hp) as Hok. unfold node_ok in Hok.
    destruct (hn_attaching n) eqn:Ha.
    + by apply inv_sleep.
    + destruct Hok as (_ & [v Hv] & Hok). rewrite Hv. destruct (Hok v Hv) as (vn & Hvn & ? & ? & ?).
      destruct (Hmv (Getvid p v (v_id vn)) I). rewrite Hvn.
      apply (inv_move _ t th); auto. unfold thread_ok. simpl. exists vn. split; [done|]. split; [done|].
      intros _ _. split; [done|]. split; [done|]. by exists n.
  - destruct (ft_new th) as [p|] eqn:Hnew.
    + pose proof (inv_new_node s t th p Hi Hlk Hpc Hnew Hs) as H. simpl in H.
      assert (E : forall n m, set_node p m (insert_node p n s) =
                Nstate (<[p := m]> (ns_nodes s)) (ns_buckets (insert_node p n s)) (ns_raw s ∖ {[p]})
                  (ns_vnodes s) (ns_threads s)).
      { intros n m. unfold set_node, insert_node. simpl. by rewrite insert_insert_eq. }
      rewrite E. exact H.
    + destruct (Hmv Alloc I). apply (inv_move _ t th); auto; done.
Qed.

(** Every step preserves the invariant. *)
Lemma inv_step s l s' : inv s -> step l s = Some s' -> inv s'.
Proof.
  intros Hi. destruct l as [t mnt id snode|t|t mem|t|t r|t|t|v|v]; simpl.
  - destruct (ns_threads s !! t) eqn:E; [done|]. intros [= <-]. by apply inv_call.
  - destruct (ns_threads s !! t) as [th|] eqn:E; [|done]. simpl.
    destruct (ft_pc th) eqn:Hpc; try done. intros [= <-]. by apply inv_locked.
  - destruct (ns_threads s !! t) as [th|] eqn:E; [|done]. simpl.
    destruct (ft_pc th) eqn:Hpc; try done. unfold find_alloc. destruct mem as [p|].
    + case_bool_decide as Hd; [|done]. intros [= <-]. destruct Hd. by apply inv_alloc.
    + intros [= <-]. apply inv_finish.
      * apply (inv_move _ t th); try done; [unfold attaches|unfold holds|by right]; by rewrite Hpc.
      * intros q Hq _ t' th0 Hl Hne Hq'. apply Hne. by eapply (i_new_own _ Hi).
      * intros q Hq [m Hm]. destruct (i_new _ Hi _ _ _ E Hq) as [Hr|Ha].
        -- rewrite (i_raw _ Hi _ Hr) in Hm. done.
        -- unfold attaches in Ha. by rewrite Hpc in Ha.
  - destruct (ns_threads s !! t) as [th|] eqn:E; [|done]. simpl.
    destruct (ft_pc th) eqn:Hpc; try done. unfold find_getvid.
    assert (Hback : inv (set_thread t (set_pc (set_new th None) Top) s)).
    { apply (inv_move _ t th); try done; [unfold attaches|unfold holds|by right]; by rewrite Hpc. }
    destruct (ns_vnodes s !! v) as [vn|] eqn:Hv; [|by intros [= <-]].
    case_bool_decide as Hd; simpl; [|by intros [= <-]].
    destruct (Z.eqb_spec (v_id vn) vid) as [Hid|]; intros [= <-]; [|done].
    by eapply inv_getvid.
  - destruct (ns_threads s !! t) as [th|] eqn:E; [|done]. simpl.
    destruct (ft_pc th) eqn:Hpc; try done. unfold find_create. destruct r as [e|v].
    + destruct (Z.eqb_spec e 0) as [|He]; [done|]. intros [= <-].
      apply (inv_move _ t th); [done..| | | |by left]; unfold attaches, holds; rewrite ?Hpc; try done.
      pose proof (i_thread _ Hi _ _ E) as Hok. unfold thread_ok in *. rewrite Hpc in Hok. by split.
    + destruct (ns_vnodes s !! v) as [vn|] eqn:Hv.
      * case_bool_decide as Hd; [|done]. intros [= <-]. apply inv_create; try done.
        intros vn' H. simplify_eq. split; [done|lia].
      * intros [= <-]. apply inv_create; try done. intros vn' H. congruence.
  - destruct (ns_threads s !! t) as [th|] eqn:E; [|done]. simpl.
    destruct (ft_pc th) eqn:Hpc; try done. intros [= <-]. by apply inv_attach.
  - destruct (ns_threads s !! t) as [th|] eqn:E; [|done]. simpl.
    destruct (ft_pc th) as [| | | | | |e [[p v]|]] eqn:Hpc; try done.
    + destruct (ns_vnodes s !! v) as [vn|] eqn:Hv; [|done]. intros [= <-]. by eapply inv_put.
    + intros [= <-]. by eapply inv_put_error.
  - destruct (ns_vnodes s !! v) as [vn|] eqn:Hv; [|done]. simpl.
    case_bool_decide as Hd; [|done]. intros [= <-]. destruct Hd. by apply inv_terminate.
  - destruct (ns_vnodes s !! v) as [vn|] eqn:Hv; [|done]. simpl.
    case_bool_decide as Hd; [|done]. intros [= <-]. by apply inv_reclaim.
Qed.

Lemma inv_init : inv ns_init.
Proof.
  split; try done. split; try done.
  - intros b l p Hl. apply lookup_replicate in Hl as [-> _]. by intros ?%elem_of_nil.
  - intros b l Hl. apply lookup_replicate in Hl as [-> _]. constructor.
Qed.

Lemma inv_reachable s : reachable s -> inv s.
Proof. induction 1 as [|s l s' _ IH Hs]; [apply inv_init|]. by eapply inv_step. Qed.

(** ** Theorems *)

(** C1. In every state the interleaved calls can reach, the hash table is
    consistent: each bucket lists, once, exactly the nodes whose key hashes to
    it, and no two nodes have the same mount, process, object and base id. *)
Theorem node_table_consistent s : reachable s -> table_ok s.
Proof. intros H. apply i_table, inv_reachable, H. Qed.

(** C2. What procfsnode_find returns: with error 0 a node that is in the table
    under the requested mount and id, whose vnode is the returned one, alive,
    pointing back to the node and holding the file system reference, on which the
    call owns an iocount; with an error, neither.  It stays so until the caller
    calls vnode_put. *)
Theorem find_result_valid s t th e r :
  reachable s -> ns_threads s !! t = Some th -> ft_pc th = Done e r ->
  match r with
  | None => e ≠ 0
  | Some (p, v) => e = 0
      ∧ (exists n, ns_nodes s !! p = Some n ∧ hn_vnode n = Some v
           ∧ hn_mnt n = ft_mnt th ∧ hn_id n = ft_id th)
      ∧ exists vn, ns_vnodes s !! v = Some vn ∧ v_state vn = VLive ∧ t ∈ v_iocount vn
           ∧ v_fsnode vn = Some p ∧ v_fsref vn = true
  end.
Proof.
  intros Hr Hl Hpc. pose proof (i_thread _ (inv_reachable _ Hr) _ _ Hl) as H.
  unfold thread_ok in H. rewrite Hpc in H. destruct r as [[p v]|]; [|done]. exact H.
Qed.

(** C12. Memory safety of the unlocked stretches: while a thread runs the vnode
    callback and until it has relocked, its node is in the table, marked as being
    attached, and no other thread works on it; the memory a thread has allocated
    and not used yet is in no bucket and belongs to no other thread, so that
    freeing it at the end is not a double free. *)
Theorem find_memory_safe s t th :
  reachable s -> ns_threads s !! t = Some th ->
  (forall p, attaches th = Some p ->
     (exists n, ns_nodes s !! p = Some n ∧ hn_attaching n = true ∧ hn_vnode n = None)
     ∧ forall t' th', ns_threads s !! t' = Some th' -> attaches th' = Some p -> t' = t)
  ∧ (forall p, ft_new th = Some p -> attaches th ≠ Some p ->
     ns_nodes s !! p = None ∧ p ∈ ns_raw s
     ∧ forall t' th', ns_threads s !! t' = Some th' -> ft_new th' = Some p -> t' = t).
Proof.
  intros Hr Hl. pose proof (inv_reachable _ Hr) as Hi. split.
  - intros p Ha. split; [|intros; by eapply (i_owner _ Hi)].
    assert (H : exists n, ns_nodes s !! p = Some n ∧ hn_attaching n = true).
    { pose proof (i_thread _ Hi _ _ Hl) as H. unfold thread_ok, attaches in *.
      destruct (ft_pc th); naive_solver. }
    destruct H as (n & Hn & Hat). exists n. split; [done|]. split; [done|].
    pose proof (i_node _ Hi _ _ Hn) as H. unfold node_ok in H. rewrite Hat in H. naive_solver.
  - intros p Hn Ha. destruct (i_new _ Hi _ _ _ Hl Hn) as [Hraw|]; [|done].
    split; [by apply (i_raw _ Hi)|]. split; [done|]. intros. by eapply (i_new_own _ Hi).
Qed.

(** C21. No lost wakeup: a thread that sleeps on a node has its request for a
    wakeup recorded there, another thread is attaching a vnode to that node, and
    the step that ends the attachment, whether it succeeded or not, puts the
    sleeper back at the top of the loop. *)
Theorem no_lost_wakeup s t th p :
  reachable s -> ns_threads s !! t = Some th -> ft_pc th = Asleep p ->
  (exists n, ns_nodes s !! p = Some n ∧ hn_waiting n = true)
  ∧ exists t' th', ns_threads s !! t' = Some th' ∧ attaches th' = Some p
      ∧ forall r s', ft_pc th' = Attach p r -> step (LAttach t') s = Some s' ->
          ns_threads s' !! t = Some (set_pc th Top).
Proof.
  intros Hr Hl Hpc. pose proof (inv_reachable _ Hr) as Hi.
  pose proof (i_thread _ Hi _ _ Hl) as H. unfold thread_ok in H. rewrite Hpc in H.
  destruct H as (n & Hn & Ha & Hw). split; [by eauto|].
  pose proof (i_node _ Hi _ _ Hn) as Hok. unfold node_ok in Hok. rewrite Ha in Hok.
  destruct Hok as (_ & t' & th' & Hl' & Ha'). exists t', th'. split; [done|]. split; [done|].
  intros r s' Hpc'. simpl. rewrite Hl'. simpl. rewrite Hpc'. intros [= <-].
  unfold find_attach. rewrite Hn, Hw.
  assert (Hne : t' ≠ t) by (intros ->; congruence).
  assert (Hwk : wake_thread p th = set_pc th Top).
  { unfold wake_thread. rewrite Hpc. by rewrite decide_True. }
  assert (Hfin : forall u e r' s0, ns_threads s0 !! t = Some (set_pc th Top) ->
            ns_threads (finish t' u e r' s0) !! t = Some (set_pc th Top)).
  { intros u e r' s0 H0. unfold finish. simpl. rewrite lookup_insert_ne by done.
    destruct (ft_new u); [|done]. by case_decide. }
  destruct r as [e|v]; apply Hfin.
  - unfold procfsnode_free_node. simpl. rewrite lookup_insert_eq. simpl. by rewrite lookup_fmap, Hl; simpl; rewrite Hwk.
  - simpl. destruct (ns_vnodes s !! v); simpl; by rewrite lookup_fmap, Hl; simpl; rewrite Hwk.
Qed.

(** The steps a thread of procfsnode_find takes by itself. *)
Definition thread_label (t : N) (l : label) : Prop :=
  match l with
  | LLocked u | LAlloc u _ | LGetvid u | LCreate u _ | LAttach u => u = t
  | _ => False
  end.

(** C33. No deadlock: whenever a call has not returned, some call can take a step
    (the call itself, or, if it sleeps, the one it waits for). *)
Theorem find_no_deadlock s t th :
  reachable s -> ns_threads s !! t = Some th -> (forall e r, ft_pc th ≠ Done e r) ->
  exists t' l s', thread_label t' l ∧ step l s = Some s'
    ∧ (t' = t ∨ exists p th', ft_pc th = Asleep p ∧ ns_threads s !! t' = Some th' ∧ attaches th' = Some p).
Proof.
  intros Hr Hl Hnd. pose proof (inv_reachable _ Hr) as Hi.
  assert (Hown : forall u uth p, ns_threads s !! u = Some uth -> attaches uth = Some p ->
            exists l s', thread_label u l ∧ step l s = Some s').
  { intros u uth p Hu Ha. unfold attaches in Ha. destruct (ft_pc uth) eqn:E; try done.
    - exists (LCreate u (inl ENOMEM)). simpl. rewrite Hu. simpl. rewrite E. by eexists.
    - exists (LAttach u). simpl. rewrite Hu. simpl. rewrite E. by eexists. }
  destruct (ft_pc th) eqn:E.
  - exists t, (LLocked t). simpl. rewrite Hl. simpl. rewrite E. eauto 10.
  - exists t, (LAlloc t None). simpl. rewrite Hl. simpl. rewrite E. eauto 10.
  - pose proof (i_thread _ Hi _ _ Hl) as H. unfold thread_ok in H. rewrite E in H.
    destruct H as (n & Hn & Ha & Hw).
    pose proof (i_node _ Hi _ _ Hn) as Hok. unfold node_ok in Hok. rewrite Ha in Hok.
    destruct Hok as (_ & t' & th' & Hl' & Ha'). destruct (Hown _ _ _ Hl' Ha') as (l & s' & ? & ?).
    exists t', l, s'. split; [done|]. split; [done|]. right. eauto.
  - exists t, (LGetvid t). simpl. rewrite Hl. simpl. rewrite E. eauto 10.
  - destruct (Hown t th target) as (l & s' & ? & ?); [done|unfold attaches; by rewrite E|]. exists t, l, s'. auto.
  - destruct (Hown t th target) as (l & s' & ? & ?); [done|unfold attaches; by rewrite E|]. exists t, l, s'. auto.
  - by destruct (Hnd error result).
Qed.

(** *** A call that runs without interference *)

Lemma run_app ls1 ls2 s : run (ls1 ++ ls2) s = s' ← run ls1 s; run ls2 s'.
Proof. revert s. induction ls1 as [|l ls IH]; intros s; simpl; [done|]. destruct (step l s); simpl; auto. Qed.

Lemma run_reachable ls s s' : reachable s -> run ls s = Some s' -> reachable s'.
Proof.
  revert s. induction ls as [|l ls IH]; intros s Hr; simpl; [by intros [= <-]|].
  destruct (step l s) as [s1|] eqn:E; [|done]. simpl. apply IH. by eapply reachable_step.
Qed.

Lemma bucket_search_found s mnt id p n :
  table_ok s -> ns_nodes s !! p = Some n -> has_key n mnt id -> bucket_search s mnt id = Some p.
Proof.
  intros Ht Hp Hk. destruct (bucket_search s mnt id) as [q|] eqn:E.
  - destruct (bucket_search_some _ _ _ _ E) as (m & Hq & [<- <-]). f_equal. symmetry.
    by eapply (tb_unique _ Ht).
  - by destruct (bucket_search_none _ _ _ Ht E p n).
Qed.

Lemma bucket_search_absent s mnt id :
  (forall p n, ns_nodes s !! p = Some n -> ¬ has_key n mnt id) -> bucket_search s mnt id = None.
Proof.
  intros H. destruct (bucket_search s mnt id) as [p|] eqn:E; [|done].
  destruct (bucket_search_some _ _ _ _ E) as (n & ? & ?). exfalso. by eapply H.
Qed.

Lemma bucket_search_threads s s' mnt id :
  ns_nodes s' = ns_nodes s -> ns_buckets s' = ns_buckets s -> bucket_search s' mnt id = bucket_search s mnt id.
Proof.
  intros Hn Hb. unfold bucket_search. rewrite Hb. f_equal. unfold matches. by rewrite Hn.
Qed.

Lemma run_cons l ls s s1 : step l s = Some s1 -> run (l :: ls) s = run ls s1.
Proof. intros H. simpl. by rewrite H. Qed.

Lemma step_locked t s th :
  ns_threads s !! t = Some th -> ft_pc th = Top -> step (LLocked t) s = Some (find_locked t th s).
Proof. intros H1 H2. simpl. rewrite H1. simpl. by rewrite H2. Qed.

Lemma step_attach t s th p r :
  ns_threads s !! t = Some th -> ft_pc th = Attach p r -> step (LAttach t) s = Some (find_attach t th p r s).
Proof. intros H1 H2. simpl. rewrite H1. simpl. by rewrite H2. Qed.

Lemma find_locked_set_thread s t th th' : find_locked t th (set_thread t th' s) = find_locked t th s.
Proof.
  unfold find_locked. rewrite (bucket_search_threads s) by done.
  unfold set_thread, set_node, insert_node. simpl.
  destruct (bucket_search _ _ _) as [p|] eqn:E.
  - destruct (bucket_search_some _ _ _ _ E) as (n & -> & _).
    repeat (case_match; simpl); by rewrite ?insert_insert_eq.
  - case_match; simpl; by rewrite ?insert_insert_eq.
Qed.

Definition result_of (s : nstate) (t : N) : option (Z * option (N * N)) :=
  th ← ns_threads s !! t;
  match ft_pc th with Done e r => Some (e, r) | _ => None end.

(** A lookup of a node that exists and whose vnode is alive returns that node
    and that vnode, in three steps, and leaves the table as it is. *)
Theorem find_existing s t mnt id snode p n v vn :
  reachable s -> ns_threads s !! t = None ->
  ns_nodes s !! p = Some n -> hn_mnt n = mnt -> hn_id n = id ->
  hn_vnode n = Some v -> ns_vnodes s !! v = Some vn -> v_state vn = VLive ->
  hn_attaching n = false ->
  exists s', run [LCall t mnt id snode; LLocked t; LGetvid t] s = Some s'
    ∧ result_of s' t = Some (0, Some (p, v)) ∧ ns_nodes s' = ns_nodes s ∧ ns_buckets s' = ns_buckets s.
Proof.
  intros Hr Ht Hp Hm Hid Hv Hvn Hlive Ha. pose proof (i_table _ (inv_reachable _ Hr)) as Htab.
  set (th := FindThread mnt id snode None Top).
  assert (Hs : bucket_search s (ft_mnt th) (ft_id th) = Some p) by (by eapply bucket_search_found).
  rewrite (run_cons _ _ s (set_thread t th s)) by (simpl; by rewrite Ht).
  rewrite (run_cons _ _ _ (set_thread t (set_pc th (Getvid p v (v_id vn))) s)).
  2: { rewrite (step_locked _ _ th), (find_locked_set_thread s) by (simpl; by rewrite ?lookup_insert_eq).
       unfold find_locked. rewrite Hs, Hp, Ha, Hv, Hvn. done. }
  simpl. rewrite lookup_insert_eq. simpl. unfold find_getvid. simpl. rewrite Hvn.
  rewrite bool_decide_eq_true_2, Z.eqb_refl by done. eexists. split; [done|].
  unfold result_of. simpl. rewrite lookup_insert_eq. done.
Qed.

(** The first steps of a lookup of a node that does not exist. *)
Lemma missing_alloc s t mnt id snode :
  ns_threads s !! t = None -> bucket_search s mnt id = None ->
  run [LCall t mnt id snode; LLocked t] s = Some (set_thread t (FindThread mnt id snode None Alloc) s).
Proof.
  intros Ht Hs. set (th := FindThread mnt id snode None Top).
  rewrite (run_cons _ _ s (set_thread t th s)) by (simpl; by rewrite Ht).
  cbn [run]. rewrite (step_locked _ _ th), (find_locked_set_thread s) by (simpl; by rewrite ?lookup_insert_eq).
  unfold find_locked. simpl. by rewrite Hs.
Qed.

Lemma missing_insert s t mnt id snode p ls :
  ns_threads s !! t = None -> bucket_search s mnt id = None -> ns_nodes s !! p = None -> p ∉ ns_raw s ->
  run ([LCall t mnt id snode; LLocked t; LAlloc t (Some p); LLocked t] ++ ls) s =
  run ls (set_thread t (FindThread mnt id snode (Some p) (Create p))
            (insert_node p (Hnode None true false mnt id snode) s)).
Proof.
  intros Ht Hs Hp Hraw. rewrite run_app.
  change [LCall t mnt id snode; LLocked t; LAlloc t (Some p); LLocked t]
    with ([LCall t mnt id snode; LLocked t] ++ [LAlloc t (Some p); LLocked t]).
  rewrite run_app, (missing_alloc s t mnt id snode Ht Hs). set (s0 := set_thread _ _ s).
  set (th1 := FindThread mnt id snode (Some p) Top).
  set (s1 := set_thread t th1 (Nstate (ns_nodes s0) (ns_buckets s0) ({[p]} ∪ ns_raw s0) (ns_vnodes s0) (ns_threads s0))).
  match goal with |- ?x ≫= _ = _ => change x with (run [LAlloc t (Some p); LLocked t] s0) end.
  rewrite (run_cons _ _ _ s1).
  2: { simpl. rewrite lookup_insert_eq. simpl. by rewrite bool_decide_eq_true_2. }
  cbn [run]. rewrite (step_locked _ _ th1) by (simpl; by rewrite ?lookup_insert_eq). simpl.
  unfold find_locked. rewrite (bucket_search_threads s) by done. simpl. rewrite Hs. f_equal.
  unfold set_thread, set_node, insert_node. simpl. rewrite !insert_insert_eq. f_equal. set_solver.
Qed.

(** A lookup of a node that does not exist: when the vnode is created the table
    gains exactly the new node, for the requested mount, id and structure node,
    linked to the vnode; when the vnode cannot be created, or there is no memory,
    the error is returned, the table is as before and the memory is given back. *)
Theorem find_missing s t mnt id snode :
  reachable s -> ns_threads s !! t = None ->
  (forall p n, ns_nodes s !! p = Some n -> ¬ (hn_mnt n = mnt ∧ hn_id n = id)) ->
  (exists s', run [LCall t mnt id snode; LLocked t; LAlloc t None] s = Some s'
     ∧ result_of s' t = Some (ENOMEM, None) ∧ ns_nodes s' = ns_nodes s ∧ ns_raw s' = ns_raw s)
  ∧ forall p, ns_nodes s !! p = None -> p ∉ ns_raw s ->
    (forall e, e ≠ 0 -> exists s',
       run [LCall t mnt id snode; LLocked t; LAlloc t (Some p); LLocked t; LCreate t (inl e); LAttach t] s = Some s'
       ∧ result_of s' t = Some (e, None) ∧ ns_nodes s' = ns_nodes s ∧ ns_raw s' = ns_raw s)
    ∧ (forall v, ns_vnodes s !! v = None -> exists s',
       run [LCall t mnt id snode; LLocked t; LAlloc t (Some p); LLocked t; LCreate t (inr v); LAttach t] s = Some s'
       ∧ result_of s' t = Some (0, Some (p, v))
       ∧ ns_nodes s' = <[p := Hnode (Some v) false false mnt id snode]> (ns_nodes s) ∧ ns_raw s' = ns_raw s).
Proof.
  intros Hr Ht Hno.
  assert (Hs : bucket_search s mnt id = None) by (by apply bucket_search_absent).
  split.
  - rewrite (run_app [LCall t mnt id snode; LLocked t] [LAlloc t None]), missing_alloc by done.
    simpl. rewrite lookup_insert_eq. simpl. eexists. split; [done|].
    unfold result_of. simpl. by rewrite lookup_insert_eq.
  - intros p Hp Hraw. set (n := Hnode None true false mnt id snode).
    set (th2 := FindThread mnt id snode (Some p) (Create p)).
    pose proof (fun l1 l2 => missing_insert s t mnt id snode p [l1; l2] Ht Hs Hp Hraw) as Hsplit. simpl app in Hsplit.
    split.
    + intros e He. rewrite Hsplit.
      rewrite (run_cons _ _ _ (set_thread t (set_pc th2 (Attach p (inl e))) (set_thread t th2 (insert_node p n s)))).
      2: { simpl. rewrite lookup_insert_eq. simpl. by rewrite (proj2 (Z.eqb_neq e 0) He). }
      cbn [run]. rewrite (step_attach _ _ (set_pc th2 (Attach p (inl e))) p (inl e)) by (simpl; by rewrite ?lookup_insert_eq).
      unfold find_attach. simpl. rewrite lookup_insert_eq. simpl.
      eexists. split; [done|].
      unfold result_of, finish, procfsnode_free_node. simpl. rewrite lookup_insert_eq. simpl. rewrite lookup_insert_eq.
      simpl. rewrite (proj2 (Z.eqb_neq e 0) He). split; [done|]. rewrite !delete_insert_eq, delete_id by done.
      split; [done|]. set_solver.
    + intros v Hv. rewrite Hsplit.
      rewrite (run_cons _ _ _ (set_thread t (set_pc th2 (Attach p (inr v)))
                 (set_vnode v (Vnode 0 VLive {[t]} (Some p) false) (set_thread t th2 (insert_node p n s))))).
      2: { simpl. rewrite lookup_insert_eq. simpl. by rewrite Hv. }
      cbn [run]. rewrite (step_attach _ _ (set_pc th2 (Attach p (inr v))) p (inr v)) by (simpl; by rewrite ?lookup_insert_eq).
      unfold find_attach. simpl. rewrite lookup_insert_eq. simpl. rewrite lookup_insert_eq. eexists. split; [done|].
      unfold result_of, finish. simpl. rewrite lookup_insert_eq. simpl. split; [done|].
      rewrite decide_True by done. simpl. rewrite !insert_insert_eq. split; [done|]. set_solver.
Qed.

(** *** Memory that is lost *)

(** The state after a run from the start. *)
Definition after (ls : list label) : nstate := default ns_init (run ls ns_init).

Lemma reachable_after ls : reachable (after ls).
Proof.
  unfold after. destruct (run ls ns_init) as [s|] eqn:E; simpl; [|constructor].
  eapply run_reachable; [constructor|exact E].
Qed.

Definition in_use (s : nstate) (p : N) : Prop :=
  is_Some (ns_nodes s !! p) ∨ exists t th, ns_threads s !! t = Some th ∧ ft_new th = Some p.

Definition sample_id : pfsid := Pfsid 1 7 0.
Definition create_steps (t p v : N) : list label :=
  [LCall t 3 sample_id 0%N; LLocked t; LAlloc t (Some p); LLocked t; LCreate t (inr v); LAttach t].

(** Thread 2 allocates a node while thread 1 creates the same one; the vnode is then
    terminated before thread 2 has validated it. *)
Definition leak_run : list label :=
  [LCall 2 3 sample_id 0%N; LLocked 2; LAlloc 2 (Some 20%N)] ++ create_steps 1 10 30
  ++ [LLocked 2; LPut 1; LTerminate 30%N; LReclaim 30%N; LGetvid 2;
      LLocked 2; LAlloc 2 (Some 21%N); LLocked 2; LCreate 2 (inr 31%N); LAttach 2; LPut 2].

(** A memory leak: when the vnode of an existing node turns out to have been
    reclaimed, procfsnode_find clears new_pfsnode before it starts again; memory it
    had allocated for the node is then neither in the table, nor owned by a call,
    nor freed, also after all calls have returned. *)
Theorem find_leaks_allocation :
  exists s p, reachable s ∧ ns_threads s = ∅ ∧ p ∈ ns_raw s ∧ ¬ in_use s p.
Proof.
  exists (after leak_run), 20%N. split; [apply reachable_after|].
  assert (E : ns_threads (after leak_run) = ∅) by (vm_compute; reflexivity).
  split; [exact E|]. split.
  - apply (bool_decide_unpack _). vm_compute. exact I.
  - unfold in_use. rewrite E. intros [H|(t & th & H & _)]; [|by rewrite lookup_empty in H].
    revert H. vm_compute. by intros [? [=]].
Qed.

(** ** The id of the parent node *)

(** [procfs_get_parent_node_id]; [None] where the source would follow a NULL pointer. *)
Definition procfs_get_parent_node_id (st : structure) (snode : option N) (id : pfsid) : option pfsid :=
  n ← snode;
  x ← sn_heap st !! n;
  px ← match psn_parent x with Some p => sn_heap st !! p | None => Some x end;
  let pid_node := negb (Z.land (psn_flags px) PSN_FLAG_PROCESS =? 0) in
  let thread_node := negb (Z.land (psn_flags px) PSN_FLAG_THREAD =? 0) in
  Some (Pfsid (if pid_node then nodeid_pid id else PRNODE_NO_PID)
              (if thread_node then nodeid_objectid id else PRNODE_NO_OBJECTID)
              (psn_base_node_id px)).

(** A node id fits a layout entry: its base id is the entry's, and it has a process
    or an object id only if the entry's flags say so. *)
Definition id_fits (x : pfssnode) (id : pfsid) : Prop :=
  nodeid_base_id id = psn_base_node_id x
  ∧ (Z.land (psn_flags x) PSN_FLAG_PROCESS = 0 -> nodeid_pid id = PRNODE_NO_PID)
  ∧ (Z.land (psn_flags x) PSN_FLAG_THREAD = 0 -> nodeid_objectid id = PRNODE_NO_OBJECTID).

(** The id computed for the parent is that of the directory the node was found in. *)
Lemma parent_node_id_of_child st d dx c cx did cid :
  structure_wf st -> sn_heap st !! d = Some dx -> c ∈ psn_children dx -> sn_heap st !! c = Some cx ->
  id_fits dx did ->
  (Z.land (psn_flags dx) PSN_FLAG_PROCESS ≠ 0 -> nodeid_pid cid = nodeid_pid did) ->
  (Z.land (psn_flags dx) PSN_FLAG_THREAD ≠ 0 -> nodeid_objectid cid = nodeid_objectid did) ->
  procfs_get_parent_node_id st (Some c) cid = Some did.
Proof.
  intros Hwf Hd Hc Hcx (Hb & Hp & Ho) Hpid Hobj.
  destruct (wf_child _ Hwf _ _ _ Hd Hc) as (cx' & E & Hpar). simplify_eq.
  unfold procfs_get_parent_node_id. simpl. rewrite Hcx. simpl. rewrite Hpar, Hd. simpl. f_equal.
  destruct did as [dpid dobj dbase]. simpl in *.
  destruct (Z.eqb_spec (Z.land (psn_flags dx) PSN_FLAG_PROCESS) 0) as [E1|E1];
    destruct (Z.eqb_spec (Z.land (psn_flags dx) PSN_FLAG_THREAD) 0) as [E2|E2]; simpl;
    f_equal; auto; symmetry; auto.
Qed.

(** ** The theorems on concrete runs *)

(** Thread 1 runs the vnode callback for the node, thread 2 sleeps on it. *)
Definition sleep_run : list label :=
  [LCall 1 3 sample_id 0%N; LLocked 1; LAlloc 1 (Some 10%N); LLocked 1;
   LCall 2 3 sample_id 0%N; LLocked 2].
Definition sleeping : nstate := after sleep_run.
Definition creating_thread : find_thread := FindThread 3 sample_id 0%N (Some 10%N) (Create 10%N).
Definition sleeping_thread : find_thread := FindThread 3 sample_id 0%N None (Asleep 10%N).
Definition created : nstate := after (create_steps 1 10 30).

Lemma node_table_consistent_witness : table_ok sleeping.
Proof. exact (node_table_consistent _ (reachable_after _)). Defined.

Lemma find_result_valid_witness :
  exists vn, ns_vnodes created !! 30%N = Some vn ∧ v_state vn = VLive ∧ 1%N ∈ v_iocount vn
    ∧ v_fsnode vn = Some 10%N ∧ v_fsref vn = true.
Proof.
  exact (proj2 (proj2 (find_result_valid created 1%N (FindThread 3 sample_id 0%N None (Done 0 (Some (10, 30)%N)))
    0 (Some (10, 30)%N) (reachable_after _) ltac:(vm_compute; reflexivity) ltac:(reflexivity)))).
Defined.

Lemma find_memory_safe_witness :
  exists n, ns_nodes sleeping !! 10%N = Some n ∧ hn_attaching n = true ∧ hn_vnode n = None.
Proof.
  exact (proj1 (proj1 (find_memory_safe sleeping 1%N creating_thread (reachable_after _)
    ltac:(vm_compute; reflexivity)) 10%N ltac:(reflexivity))).
Defined.

Lemma no_lost_wakeup_witness : exists n, ns_nodes sleeping !! 10%N = Some n ∧ hn_waiting n = true.
Proof.
  exact (proj1 (no_lost_wakeup sleeping 2%N sleeping_thread 10%N (reachable_after _)
    ltac:(vm_compute; reflexivity) ltac:(reflexivity))).
Defined.

Lemma find_no_deadlock_witness : exists t' l s', thread_label t' l ∧ step l sleeping = Some s'.
Proof.
  destruct (find_no_deadlock sleeping 2%N sleeping_thread (reachable_after _)
    ltac:(vm_compute; reflexivity) ltac:(done)) as (t' & l & s' & H1 & H2 & _).
  by exists t', l, s'.
Defined.

Lemma find_existing_witness :
  exists s', run [LCall 2 3 sample_id 0%N; LLocked 2; LGetvid 2] created = Some s'
    ∧ result_of s' 2%N = Some (0, Some (10, 30)%N)
    ∧ ns_nodes s' = ns_nodes created ∧ ns_buckets s' = ns_buckets created.
Proof.
  apply (find_existing created 2%N 3 sample_id 0%N 10%N (Hnode (Some 30%N) false false 3 sample_id 0%N)
    30%N (Vnode 0 VLive {[1%N]} (Some 10%N) true) (reachable_after _)); vm_compute; reflexivity.
Defined.

Lemma find_missing_witness :
  exists s', run (create_steps 1 10 30) ns_init = Some s' ∧ result_of s' 1%N = Some (0, Some (10, 30)%N).
Proof.
  destruct (find_missing ns_init 1%N 3 sample_id 0%N reachable_init eq_refl ltac:(done)) as [_ H].
  destruct (H 10%N eq_refl ltac:(set_solver)) as [_ H2].
  destruct (H2 30%N eq_refl) as (s' & H3 & H4 & _). exists s'. by split.
Defined.
