(* ===== verification/Sysctl.v ===== *)
(** * The /proc/sys tree (kext/procfs_sysctl.c)

    Every node of /proc/sys is an instance of one layout entry; its object id is
    the address of the sysctl oid it stands for (0: the root of the tree).  The
    kernel's oids are a heap of records linked in lists; the value of a leaf
    comes from [sysctlbyname], a parameter. *)

From Stdlib Require Import Ascii.
From S2P Require Import Prelude Kernel Structure Subr.

(** ** The kernel's oids *)

Definition CTLTYPE : Z := 15.
Definition CTLTYPE_NODE : Z := 1.
Definition CTLTYPE_INT : Z := 2.
Definition CTLTYPE_STRING : Z := 3.
Definition CTLTYPE_QUAD : Z := 4.

(** [oid_arg1] of a NODE is the list of its children, as addresses in list order. *)
Record sysctl_oid := SysctlOid {
  oid_name : option string;
  oid_kind : Z;
  oid_arg1 : option (list Z);
  oid_fmt : option string;
}.

Record sysctl_tree := SysctlTree {
  sysctl_oids : gmap Z sysctl_oid;
  sysctl__children : list Z;
}.

Definition is_ctl_node (o : sysctl_oid) : bool := Z.land (oid_kind o) CTLTYPE =? CTLTYPE_NODE.

(** ** The tree as directories *)

Section Tree.
Variable tree : sysctl_tree.

Definition procfs_sysctl_children (objectid : Z) : option (list Z) :=
  if objectid =? 0 then Some (sysctl__children tree) else
  oid ← sysctl_oids tree !! objectid;
  if negb (is_ctl_node oid) then None else oid_arg1 oid.

Definition procfs_sysctl_is_node (objectid : Z) : bool :=
  if objectid =? 0 then true else
  match sysctl_oids tree !! objectid with Some oid => is_ctl_node oid | None => false end.

Definition has_name (a : Z) (name : string) : bool :=
  match sysctl_oids tree !! a with
  | Some oid => match oid_name oid with Some n => String.eqb n name | None => false end
  | None => false
  end.

Definition procfs_sysctl_find (dir_objectid : Z) (name : string) : option Z :=
  list ← procfs_sysctl_children dir_objectid;
  List.find (λ a, has_name a name) list.

(** The SLIST_FOREACH of [procfs_sysctl_child_at]: [i] named children seen. *)
Fixpoint child_at_loop (i index : Z) (l : list Z) : option (string * bool * Z) :=
  match l with
  | [] => None
  | a :: l' =>
    match sysctl_oids tree !! a with
    | Some oid =>
      match oid_name oid with
      | None => child_at_loop i index l'
      | Some n => if i =? index then Some (n, is_ctl_node oid, a) else child_at_loop (i + 1) index l'
      end
    | None => None
    end
  end.

Definition procfs_sysctl_child_at (dir_objectid index : Z) : option (string * bool * Z) :=
  list ← procfs_sysctl_children dir_objectid;
  child_at_loop 0 index list.

Definition PATH_SIZE : nat := 256.

(** The name of an oid below a node of that name. *)
Definition oid_path (prefix n : string) : string :=
  match prefix with
  | EmptyString => strlcpy PATH_SIZE n
  | _ => snprintf PATH_SIZE (prefix +:+ "." +:+ n)
  end.

(** The depth-first search; [fuel] bounds the depth of the recursion. *)
Fixpoint procfs_sysctl_build_name (fuel : nat) (l : list Z) (prefix : string) (target : Z) (outsz : nat) :
    option string :=
  match fuel with
  | O => None
  | S fuel' =>
    (fix loop (l : list Z) : option string :=
       match l with
       | [] => None
       | a :: l' =>
         match sysctl_oids tree !! a with
         | None => None
         | Some oid =>
           match oid_name oid with
           | None => loop l'
           | Some n =>
             let path := oid_path prefix n in
             if a =? target then Some (strlcpy outsz path) else
             match (if is_ctl_node oid then
                      match oid_arg1 oid with
                      | Some cl => procfs_sysctl_build_name fuel' cl path target outsz
                      | None => None
                      end
                    else None) with
             | Some r => Some r
             | None => loop l'
             end
           end
         end
       end) l
  end.

(** ** Reading a leaf *)

Context `{UioOps}.
(** [sysctlbyname]: the value, of at most the size of the buffer, or a failure. *)
Variable sysctlbyname : string -> Z -> option (list Byte.byte).

(** The characters up to the first NUL. *)
Fixpoint c_string (l : list Byte.byte) : string :=
  match l with
  | [] => EmptyString
  | b :: l' => if Byte.eqb b Byte.x00 then EmptyString
               else String (Ascii.ascii_of_byte b) (c_string l')
  end.

Definition fmt_is (fmt : option string) (c : Ascii.ascii) : bool :=
  match fmt with
  | Some (String a (String b _)) => Ascii.eqb a c && Ascii.eqb b "U"%char
  | _ => false
  end.

(** The text of a value, or [None] for the types that have none. *)
Definition sysctl_text (oid : sysctl_oid) (raw : list Byte.byte) : option string :=
  let type := Z.land (oid_kind oid) CTLTYPE in
  if type =? CTLTYPE_STRING then
    let raw := if bool_decide (last raw = Some Byte.x00) then take (length raw - 1) raw else raw in
    Some (c_string raw +:+ nl)
  else if type =? CTLTYPE_INT then
    if (4 <=? length raw)%nat then
      let v := s32 (le_value (take 4 raw)) in
      Some ((if fmt_is (oid_fmt oid) "I"%char then fmt_d (u32 v) else fmt_d v) +:+ nl)
    else Some EmptyString
  else if type =? CTLTYPE_QUAD then
    if (8 <=? length raw)%nat then
      let v := s64 (le_value (take 8 raw)) in
      Some ((if fmt_is (oid_fmt oid) "Q"%char then fmt_d (u64 v) else fmt_d v) +:+ nl)
    else Some EmptyString
  else None.

Definition RAW_SIZE : Z := 1024.
Definition OUT_SIZE : nat := 1100.

(** The buffer [out], of 1100 bytes, after [snprintf]. *)
Definition out_buffer (text : string) : list Byte.byte :=
  let kept := bytes_of_string (snprintf OUT_SIZE text) in
  kept ++ replicate (OUT_SIZE - length kept) Byte.x00.

Definition procfs_sysctl_read (fuel : nat) (objectid : Z) (uio : uio_t) : option (Z * uio_t) :=
  if procfs_sysctl_is_node objectid then Some (EISDIR, uio) else
  oid ← sysctl_oids tree !! objectid;
  match procfs_sysctl_build_name fuel (sysctl__children tree) EmptyString objectid PATH_SIZE with
  | None => Some (ENOENT, uio)
  | Some name =>
    match sysctlbyname name RAW_SIZE with
    | None | Some [] => procfs_copy_data (Some [Byte.x00]) 0 uio
    | Some raw =>
      match sysctl_text oid raw with
      | None => procfs_copy_data (Some [Byte.x00]) 0 uio
      | Some text => procfs_copy_data (Some (out_buffer text)) (Z.of_nat (String.length text)) uio
      end
    end
  end.

End Tree.

(** ** Names and enumeration *)

Section TreeTheorems.
Variable tree : sysctl_tree.

(** Every oid on the list exists. *)
Definition list_ok (l : list Z) : Prop := Forall (λ a, is_Some (sysctl_oids tree !! a)) l.

(** The named children of a list: name, whether it is a node, address. *)
Definition named_children (l : list Z) : list (string * bool * Z) :=
  omap (λ a, oid ← sysctl_oids tree !! a; n ← oid_name oid; Some (n, is_ctl_node oid, a)) l.

Lemma child_at_loop_spec l i index :
  list_ok l -> i <= index -> child_at_loop tree i index l = named_children l !! Z.to_nat (index - i).
Proof.
  revert i. induction l as [|a l IH]; intros i Hok Hi; [done|].
  inversion Hok as [|? ? [oid Ha] Hok']; subst. cbn. rewrite Ha. cbn.
  destruct (oid_name oid) as [n|]; cbn; [|by apply IH].
  destruct (Z.eqb_spec i index) as [->|Hne]; [by rewrite Z.sub_diag|].
  rewrite IH by (done || lia).
  by replace (Z.to_nat (index - i)) with (S (Z.to_nat (index - (i + 1)))) by lia.
Qed.

Lemma has_name_named l n b a : (n, b, a) ∈ named_children l -> has_name tree a n = true ∧ a ∈ l.
Proof.
  intros (a' & Hin & Heq)%list_elem_of_omap. unfold has_name.
  destruct (sysctl_oids tree !! a') as [oid|] eqn:E; simpl in Heq; [|done].
  destruct (oid_name oid) as [m|] eqn:E'; simpl in Heq; [|done]. injection Heq as <- <- <-.
  rewrite E, E'. split; [by apply String.eqb_eq|done].
Qed.

Lemma named_children_find l n a :
  NoDup ((λ c, c.1.1) <$> named_children l) ->
  (exists b, (n, b, a) ∈ named_children l) <-> List.find (λ a, has_name tree a n) l = Some a.
Proof.
  induction l as [|a0 l IH]; [intros _; split; [intros [b H]; by apply elem_of_nil in H|done]|].
  unfold named_children. cbn. unfold has_name at 1.
  destruct (sysctl_oids tree !! a0) as [oid|] eqn:E; cbn; [|by apply IH].
  destruct (oid_name oid) as [m|] eqn:E'; cbn; [|by apply IH].
  intros [Hnin Hnd]%NoDup_cons. specialize (IH Hnd). destruct (String.eqb_spec m n) as [->|Hne].
  - split.
    + intros [b [[= _ ->]|Hin]%elem_of_cons]; [done|]. exfalso. apply Hnin.
      apply list_elem_of_fmap. exists (n, b, a). done.
    + intros [= <-]. eexists. constructor.
  - rewrite <- IH. split; intros [b Hin]; exists b; [|by constructor].
    apply elem_of_cons in Hin as [[= -> _ _]|]; done.
Qed.

(** Lookup and enumeration of a /proc/sys directory agree: if its named
    children have distinct names, then a name is found, with address [a], exactly
    when the enumeration by index yields an entry of that name and address. *)
Theorem sysctl_find_child_at dir l name a :
  procfs_sysctl_children tree dir = Some l -> list_ok l ->
  NoDup ((λ c, c.1.1) <$> named_children l) ->
  procfs_sysctl_find tree dir name = Some a <->
  exists index b, 0 <= index ∧ procfs_sysctl_child_at tree dir index = Some (name, b, a).
Proof.
  intros Hl Hok Hnd. unfold procfs_sysctl_find, procfs_sysctl_child_at. rewrite Hl. simpl.
  rewrite <- named_children_find by done. split.
  - intros [b [i Hi]%list_elem_of_lookup]. exists (Z.of_nat i), b. split; [lia|].
    rewrite child_at_loop_spec by (done || lia). by replace (Z.to_nat (Z.of_nat i - 0)) with i by lia.
  - intros (index & b & Hi & Hc). exists b. rewrite child_at_loop_spec in Hc by done.
    by eapply list_elem_of_lookup_2.
Qed.

(** ** The name of an oid *)

(** [path_to l target names]: following [names] from list [l] leads to [target]. *)
Inductive path_to : list Z -> Z -> list string -> Prop :=
| path_here l a oid n : a ∈ l -> sysctl_oids tree !! a = Some oid -> oid_name oid = Some n -> path_to l a [n]
| path_below l a oid n cl target ns :
    a ∈ l -> sysctl_oids tree !! a = Some oid -> oid_name oid = Some n ->
    is_ctl_node oid = true -> oid_arg1 oid = Some cl -> path_to cl target ns -> path_to l target (n :: ns).

Fixpoint dotted (prefix : string) (ns : list string) : string :=
  match ns with
  | [] => prefix
  | n :: ns' => dotted (match prefix with EmptyString => n | _ => prefix +:+ "." +:+ n end) ns'
  end.

(** The lists of children hold existing oids. *)
Definition tree_ok : Prop := forall a oid cl,
  sysctl_oids tree !! a = Some oid -> oid_arg1 oid = Some cl -> list_ok cl.

Lemma substring_app n s t :
  String.substring 0 n (String.substring 0 n s +:+ t) = String.substring 0 n (s +:+ t).
Proof.
  revert s. induction n as [|n IH]; intros s; [by destruct s, t|].
  destruct s as [|c s]; [done|]. exact (f_equal (String c) (IH s)).
Qed.

Lemma oid_path_trunc p n :
  p ≠ EmptyString -> oid_path (strlcpy PATH_SIZE p) n = strlcpy PATH_SIZE (p +:+ "." +:+ n).
Proof.
  intros Hp. destruct p as [|c p]; [done|].
  assert (E : exists p', strlcpy PATH_SIZE (String c p) = String c p') by (by eexists).
  destruct E as [p' E]. unfold oid_path. rewrite E. rewrite <- E. apply substring_app.
Qed.

Lemma build_name_cons fuel a l prefix target sz :
  procfs_sysctl_build_name tree (S fuel) (a :: l) prefix target sz =
  match sysctl_oids tree !! a with
  | None => None
  | Some oid =>
    match oid_name oid with
    | None => procfs_sysctl_build_name tree (S fuel) l prefix target sz
    | Some n =>
      if a =? target then Some (strlcpy sz (oid_path prefix n)) else
      match (if is_ctl_node oid then
               match oid_arg1 oid with
               | Some cl => procfs_sysctl_build_name tree fuel cl (oid_path prefix n) target sz
               | None => None
               end
             else None) with
      | Some r => Some r
      | None => procfs_sysctl_build_name tree (S fuel) l prefix target sz
      end
    end
  end.
Proof. reflexivity. Qed.

Lemma oid_path_dotted p n ns :
  oid_path (strlcpy PATH_SIZE p) n = strlcpy PATH_SIZE (dotted p [n]) ∧
  dotted (dotted p [n]) ns = dotted p (n :: ns).
Proof.
  split; [|done]. destruct p as [|c p]; [done|]. by apply oid_path_trunc.
Qed.

Lemma path_to_cons a l target ns : path_to l target ns -> path_to (a :: l) target ns.
Proof. destruct 1; econstructor; eauto; by constructor. Qed.

Lemma build_name_sound fuel l p target sz r :
  procfs_sysctl_build_name tree fuel l (strlcpy PATH_SIZE p) target sz = Some r ->
  exists ns, path_to l target ns ∧ r = strlcpy sz (strlcpy PATH_SIZE (dotted p ns)).
Proof.
  revert l p. induction fuel as [|fuel IHf]; intros l p; [done|].
  induction l as [|a l IHl]; [done|]. rewrite build_name_cons.
  destruct (sysctl_oids tree !! a) as [oid|] eqn:Ha; [|done].
  assert (Hin : a ∈ a :: l) by constructor.
  assert (Hskip : procfs_sysctl_build_name tree (S fuel) l (strlcpy PATH_SIZE p) target sz = Some r ->
     exists ns, path_to (a :: l) target ns ∧ r = strlcpy sz (strlcpy PATH_SIZE (dotted p ns))).
  { intros H. destruct (IHl H) as (ns & Hns & ->). eauto using path_to_cons. }
  destruct (oid_name oid) as [n|] eqn:Hn; [|done].
  destruct (oid_path_dotted p n []) as [E _]. rewrite E.
  destruct (Z.eqb_spec a target) as [->|Hne].
  { intros [= <-]. exists [n]. split; [by eapply path_here|done]. }
  destruct (is_ctl_node oid) eqn:Hk; [|done].
  destruct (oid_arg1 oid) as [cl|] eqn:Hcl; [|done].
  destruct (procfs_sysctl_build_name tree fuel cl _ target sz) as [r'|] eqn:Hr; [|done].
  intros [= <-]. destruct (IHf _ _ Hr) as (ns & Hns & ->). exists (n :: ns).
  split; [by eapply path_below|done].
Qed.

Lemma build_name_complete fuel l prefix target sz ns :
  tree_ok -> list_ok l -> path_to l target ns -> (length ns <= fuel)%nat ->
  is_Some (procfs_sysctl_build_name tree fuel l prefix target sz).
Proof.
  intros Hok. revert l prefix ns. induction fuel as [|fuel IHf]; intros l prefix ns Hl Hp Hlen.
  { destruct Hp; simpl in Hlen; lia. }
  induction l as [|a l IHl]; [by inversion Hp as [? ? ? ? H|? ? ? ? ? ? ? H]; apply elem_of_nil in H|].
  inversion Hl as [|? ? [oid Ha] Hl']; subst. rewrite build_name_cons, Ha.
  assert (Hrest : path_to l target ns -> is_Some (procfs_sysctl_build_name tree (S fuel) l prefix target sz))
    by auto.
  destruct (oid_name oid) as [n|] eqn:Hn.
  2: { apply Hrest. inversion Hp as [? ? o ? Hin ? ?|? ? o ? ? ? ? Hin ? ?]; subst;
         apply elem_of_cons in Hin as [->|Hin]; try congruence; econstructor; eauto. }
  destruct (Z.eqb_spec a target) as [->|Hne]; [by eexists|].
  destruct (match (if is_ctl_node oid then _ else None) with Some r => Some r | None => _ end) eqn:Hm;
    [by eexists|].
  exfalso. destruct (if is_ctl_node oid then _ else None) eqn:Hsub in Hm; [done|].
  inversion Hp as [? ? o ? Hin Ho ?|? ? o ? cl ? ns' Hin Ho ? Hk Hcl Hns]; subst;
    apply elem_of_cons in Hin as [Heq|Hin].
  - congruence.
  - assert (is_Some (procfs_sysctl_build_name tree (S fuel) l prefix target sz)) as [? ?]
      by (apply Hrest; econstructor; eauto). congruence.
  - subst. simplify_eq. rewrite Hk, Hcl in Hsub.
    destruct (IHf cl (oid_path prefix n) ns') as [? ?]; auto; [|simpl in Hlen; lia|congruence].
    by eapply (Hok _ _ _ Ha).
  - assert (is_Some (procfs_sysctl_build_name tree (S fuel) l prefix target sz)) as [? ?]
      by (apply Hrest; eapply path_below; eauto). congruence.
Qed.

(** The search for the name of an oid: for an oid at depth at most [fuel] it
    returns the dotted path of a way to that oid, cut at 255 characters as the
    buffers are; for an oid that is not in the tree it returns nothing. *)
Theorem sysctl_build_name_spec fuel target :
  tree_ok -> list_ok (sysctl__children tree) ->
  (forall ns, path_to (sysctl__children tree) target ns -> (length ns <= fuel)%nat) ->
  match procfs_sysctl_build_name tree fuel (sysctl__children tree) EmptyString target PATH_SIZE with
  | Some r => exists ns, path_to (sysctl__children tree) target ns
                ∧ r = String.substring 0 255 (dotted EmptyString ns)
  | None => forall ns, ¬ path_to (sysctl__children tree) target ns
  end.
Proof.
  intros Hok Hl Hdepth. destruct (procfs_sysctl_build_name _ _ _ _ _ _) as [r|] eqn:E.
  - apply (build_name_sound fuel _ EmptyString) in E as (ns & Hns & ->). exists ns. split; [done|].
    pose proof (substring_app 255 (dotted EmptyString ns) EmptyString) as H.
    assert (Happ : forall s, s +:+ EmptyString = s).
    { intros s. induction s as [|c s IH]; [done|]. exact (f_equal (String c) IH). }
    rewrite !Happ in H. exact H.
  - intros ns Hns. pose proof (build_name_complete fuel _ EmptyString target PATH_SIZE ns Hok Hl Hns (Hdepth ns Hns)) as [r Hr].
    congruence.
Qed.

(** ** Reading a leaf *)

Context `{UioLaws}.
Variable sysctlbyname : string -> Z -> option (list Byte.byte).

Lemma c_string_length l : (String.length (c_string l) <= length l)%nat.
Proof. induction l as [|b l IH]; simpl; [lia|]. destruct (Byte.eqb b Byte.x00); simpl; lia. Qed.

Lemma sysctl_text_length oid raw text :
  (length raw <= 1024)%nat -> sysctl_text oid raw = Some text -> (String.length text <= 1025)%nat.
Proof.
  intros Hraw. unfold sysctl_text.
  assert (H32 : forall z, (String.length (fmt_d (s32 z) +:+ nl) <= 1025)%nat ∧
                          (String.length (fmt_d (u32 z) +:+ nl) <= 1025)%nat ∧
                          (String.length (fmt_d (s64 z) +:+ nl) <= 1025)%nat ∧
                          (String.length (fmt_d (u64 z) +:+ nl) <= 1025)%nat).
  { intros z. rewrite !string_length_app. simpl (String.length nl).
    pose proof (s32_range z). pose proof (u64_range z).
    assert (0 <= u32 z < 4294967296) by (unfold u32; apply Z.mod_pos_bound; lia).
    assert (-9223372036854775808 <= s64 z <= 9223372036854775807)
      by (unfold s64; pose proof (Z.mod_pos_bound (z + 9223372036854775808) 18446744073709551616); lia).
    unfold INT_MIN, INT_MAX in *.
    assert (forall x, Z.abs x < 10 ^ Z.of_nat 20 -> (String.length (fmt_d x) <= 21)%nat)
      by (intros; apply fmt_d_length; [lia|done]).
    change (10 ^ Z.of_nat 20) with 100000000000000000000 in *.
    split; [|split; [|split]]; match goal with H : forall _, _ |- context [fmt_d ?x] => specialize (H x); lia end. }
  repeat case_match; intros [= <-]; try (simpl; lia); try apply H32.
  all: rewrite string_length_app; simpl (String.length nl).
  - pose proof (c_string_length (take (length raw - 1) raw)). rewrite length_take in *. lia.
  - pose proof (c_string_length raw). lia.
Qed.

(** Reading a leaf of /proc/sys: when the kernel gives a value of a type that
    has a text form, the read returns the window of that text at the offset; the
    text never exceeds the buffer it is formatted into. *)
Theorem sysctl_read_text fuel objectid oid name raw text u :
  procfs_sysctl_is_node tree objectid = false -> sysctl_oids tree !! objectid = Some oid ->
  procfs_sysctl_build_name tree fuel (sysctl__children tree) EmptyString objectid PATH_SIZE = Some name ->
  sysctlbyname name RAW_SIZE = Some raw -> raw ≠ [] -> (length raw <= 1024)%nat ->
  sysctl_text oid raw = Some text ->
  uio_writable u = true -> 0 <= uio_offset u <= Z.of_nat (String.length text) ->
  (String.length text < OUT_SIZE)%nat ∧
  exists u', procfs_sysctl_read tree sysctlbyname fuel objectid u = Some (0, u')
    ∧ uio_out u' = uio_out u ++ read_window (bytes_of_string text) u.
Proof.
  intros Hn Ho Hname Hby Hne Hraw Htext Hw Hoff. pose proof (sysctl_text_length _ _ _ Hraw Htext) as Hl.
  split; [unfold OUT_SIZE; lia|]. unfold procfs_sysctl_read. rewrite Hn, Ho. simpl. rewrite Hname, Hby.
  destruct raw as [|b raw]; [done|]. rewrite Htext. unfold out_buffer, snprintf.
  rewrite strlcpy_fits by (unfold OUT_SIZE; lia). rewrite <- bytes_of_string_length.
  destruct (copy_data_buffer (bytes_of_string text)
    (replicate (OUT_SIZE - length (bytes_of_string text)) Byte.x00) u) as (u' & E & Eo & _);
    rewrite ?bytes_of_string_length; unfold INT_MAX in *; [lia|lia|done|].
  rewrite bytes_of_string_length in E. eauto.
Qed.

End TreeTheorems.

(** ** The theorems on a concrete tree *)

Definition sample_tree : sysctl_tree := SysctlTree
  (list_to_map [(100, SysctlOid (Some "kern"%string) 1 (Some [101; 102]) None);
                (101, SysctlOid (Some "maxproc"%string) 2 None (Some "I"%string));
                (102, SysctlOid (Some "ostype"%string) 3 None (Some "A"%string));
                (103, SysctlOid (Some "vm"%string) 1 (Some []) None)]) [100; 103].

Definition sample_byname (name : string) (size : Z) : option (list Byte.byte) :=
  if String.eqb name "kern.maxproc" then Some (le_bytes 4 2000) else None.

Lemma sample_oid a oid : sysctl_oids sample_tree !! a = Some oid ->
  (a, oid) ∈ map_to_list (sysctl_oids sample_tree).
Proof. apply elem_of_map_to_list. Qed.

Lemma sample_tree_ok : tree_ok sample_tree ∧ list_ok sample_tree (sysctl__children sample_tree).
Proof.
  split.
  - intros a oid cl Ha%sample_oid. revert Ha. vm_compute (map_to_list _). intros Ha.
    repeat (apply elem_of_cons in Ha as [[= -> ->]|Ha];
      [intros [= <-]; repeat constructor; by eexists|]).
    by apply elem_of_nil in Ha.
  - repeat constructor; by eexists.
Qed.

Lemma sysctl_find_child_at_witness :
  procfs_sysctl_find sample_tree 100 "ostype" = Some 102 <->
  exists index b, 0 <= index ∧ procfs_sysctl_child_at sample_tree 100 index = Some ("ostype"%string, b, 102).
Proof.
  apply (sysctl_find_child_at sample_tree 100 [101; 102]).
  - reflexivity.
  - repeat constructor; by eexists.
  - vm_compute. apply (bool_decide_unpack _). vm_compute. exact I.
Defined.

Lemma sysctl_build_name_spec_witness :
  exists ns, path_to sample_tree [100; 103] 101 ns ∧
    "kern.maxproc"%string = String.substring 0 255 (dotted EmptyString ns).
Proof.
  exact (sysctl_build_name_spec sample_tree 2 101 (proj1 sample_tree_ok) (proj2 sample_tree_ok)
    ltac:(intros ns Hp; inversion Hp as [? ? ? ? Hin Ha|? a ? ? ? ? ns' Hin Ha ? ? Hcl Hp']; subst; [simpl; lia|];
      repeat (apply elem_of_cons in Hin as [->|Hin]; [
        injection Ha as <-; injection Hcl as <-;
        inversion Hp' as [|? b ? ? ? ? ? Hin' Hb ? ? Hcl']; subst; [simpl; lia|];
        exfalso; repeat (apply elem_of_cons in Hin' as [->|Hin']; [injection Hb as <-; discriminate|]);
        by apply elem_of_nil in Hin'|]);
      by apply elem_of_nil in Hin)).
Defined.

Lemma sysctl_read_text_witness :
  (String.length ("2000" +:+ nl) < OUT_SIZE)%nat ∧
  exists u', procfs_sysctl_read sample_tree sample_byname 2 101 (SimpleUio 0 10 true [] true) = Some (0, u')
    ∧ su_out u' = bytes_of_string ("2000" +:+ nl).
Proof.
  exact (sysctl_read_text sample_tree sample_byname 2 101 (SysctlOid (Some "maxproc"%string) 2 None (Some "I"%string))
    "kern.maxproc"%string (le_bytes 4 2000) ("2000" +:+ nl)%string (SimpleUio 0 10 true [] true)
    ltac:(reflexivity) ltac:(reflexivity) ltac:(reflexivity) ltac:(reflexivity) ltac:(done)
    ltac:(vm_compute; lia) ltac:(vm_compute; reflexivity) ltac:(reflexivity) ltac:(vm_compute; done)).
Defined.
