(* ===== verification/Readdir.v ===== *)
(** * Directory listing (procfs_vnop_readdir and its helpers, kext/procfs_vnops.c)

    A listing always starts from the first entry; entries are copied out once the
    position has reached the offset of the call.  The entries of a directory are
    the children of its layout entry, or are made from the processes, threads,
    descriptors or sysctl oids that exist at the time of the call. *)

From S2P Require Import Prelude Kernel Structure Subr Node Sysctl.

(** ** Directory entries *)

Definition DT_CHR : Z := 2.
Definition DT_DIR : Z := 4.
Definition DT_REG : Z := 8.
Definition DT_LNK : Z := 10.

(** The part of an entry the callers choose. *)
Record dent := Dent { d_type : Z; d_ino : Z; d_name : string }.
#[export] Instance dent_eq_dec : EqDecision dent.
Proof. solve_decision. Defined.

Definition sizeof_direntry : Z := 1048.
Definition sizeof_d_name : Z := 1024.

Definition procfs_calc_dirent_size (name : string) : Z :=
  sizeof_direntry - sizeof_d_name + Z.land (Z.of_nat (String.length name) + 1 + 7) (Z.lnot 7).

(** The bytes of a [struct direntry] (names are shorter than the [d_name] field). *)
Definition direntry_bytes (e : dent) (seekoff reclen : Z) : list Byte.byte :=
  le_bytes 8 (u64 (d_ino e)) ++ le_bytes 8 (u64 seekoff) ++ le_bytes 2 (u16 reclen)
  ++ le_bytes 2 (u16 (Z.of_nat (String.length (d_name e)))) ++ le_bytes 1 (d_type e)
  ++ bytes_of_string (d_name e) ++ replicate (1027 - String.length (d_name e)) Byte.x00.

Section Copyout.
Context `{UioOps}.

(** The error, the size copied (0 when the entry does not fit) and the uio. *)
Definition procfs_copyout_dirent (e : dent) (uio : uio_t) (size seekoff : Z) : Z * Z * uio_t :=
  if size <=? uio_resid uio then
    let (error, uio') := uiomove (direntry_bytes e seekoff size) size uio in (error, size, uio')
  else (0, 0, uio).

(** The locals of a listing. *)
Record rdstate := Rd { rd_uio : uio_t; rd_nextpos : Z; rd_num : Z; rd_error : Z }.

(** One entry: [true] when the loop it is in is left. *)
Definition emit (startpos : Z) (e : dent) (rd : rdstate) : bool * rdstate :=
  let size := procfs_calc_dirent_size (d_name e) in
  if startpos <=? rd_nextpos rd then
    let '(error, size', uio') := procfs_copyout_dirent e (rd_uio rd) size (rd_nextpos rd + size) in
    if negb (error =? 0) || (size' =? 0) then (true, Rd uio' (rd_nextpos rd) (rd_num rd) error)
    else (false, Rd uio' (rd_nextpos rd + size') (rd_num rd + 1) error)
  else (false, Rd (rd_uio rd) (rd_nextpos rd + size) (rd_num rd) (rd_error rd)).

(** The loop over the objects a dynamic entry stands for; [mk] makes the entry of
    an object, if it has one. *)
Fixpoint emit_loop {A} (startpos : Z) (mk : A -> K (option dent)) (l : list A) (rd : rdstate) :
    K (bool * rdstate) :=
  match l with
  | [] => mret (false, rd)
  | a :: l' =>
    e ← mk a;
    match e with
    | None => emit_loop startpos mk l' rd
    | Some e =>
      let (stop, rd') := emit startpos e rd in
      if stop then mret (true, rd') else emit_loop startpos mk l' rd'
    end
  end.

End Copyout.

(** ** The listing of a directory *)

Section Readdir.
Context `{KernelOps} `{UioOps}.

(** The context of a call: whether the caller is the superuser, its credentials. *)
Record vfs_context := VfsContext { ctx_suser : bool; ctx_ucred : kauth_cred_t }.

Definition MAXCOMLEN : nat := 16.
Definition PROCESS_NAME_SIZE : nat := MAXCOMLEN + 16 + 8.

Definition procfs_construct_process_dir_name (p : proc_t) : string :=
  let pid := proc_pid p in
  snprintf PROCESS_NAME_SIZE (fmt_d pid +:+ " ") +:+ strlcpy (MAXCOMLEN + 1) (proc_name pid).

(** The entry of a process; [VDIR] is what the source passes as its type. *)
Definition pid_entry (named : bool) (base_node_id this_pid : Z) : K (option dent) :=
  let entry name := Dent (vtype_to_int VDIR)
                      (procfs_get_fileid this_pid PRNODE_NO_OBJECTID base_node_id) name in
  if named then
    p ← proc_find this_pid;
    match p with
    | None => mret None
    | Some p => let name := procfs_construct_process_dir_name p in
                _ ← proc_rele p; mret (Some (entry name))
    end
  else mret (Some (entry (snprintf PROCESS_NAME_SIZE (fmt_d this_pid)))).

(** The entry of a thread ([%lld]) and of a descriptor ([%d]). *)
Definition thread_entry (pid base_node_id tid : Z) : K (option dent) :=
  mret (Some (Dent (vtype_to_int VDIR) (procfs_get_fileid pid tid base_node_id)
                (snprintf PROCESS_NAME_SIZE (fmt_d (s64 tid))))).
Definition fd_entry (pid base_node_id fd : Z) : K (option dent) :=
  mret (Some (Dent (vtype_to_int VDIR) (procfs_get_fileid pid fd base_node_id)
                (snprintf PROCESS_NAME_SIZE (fmt_d fd)))).

(** [type] in the switch, for the entries that are not expanded. *)
Definition dirent_type (t : pfstype) : Z :=
  match t with
  | PFSdir | PFSdirthis | PFSdirparent | PFSsysctl => DT_DIR
  | PFScurproc | PFSproclink => DT_LNK
  | _ => DT_REG
  end.

Variable st : structure.
Variable pmp : pfsmount.
Variable ctx : vfs_context.
Variable dir : pfsnode.

Definition check_access : bool := negb (ctx_suser ctx) && procfs_should_access_check pmp.

(** The node an entry stands for: the directory, its parent, or the child. *)
Definition entry_node_id (x : pfssnode) : option pfsid :=
  match psn_node_type x with
  | PFSdirthis => Some (node_id dir)
  | PFSdirparent => procfs_get_parent_node_id st (Some (node_structure_node dir)) (node_id dir)
  | _ => Some (Pfsid (nodeid_pid (node_id dir)) (nodeid_objectid (node_id dir)) (psn_base_node_id x))
  end.

Definition static_entry (x : pfssnode) : option dent :=
  id ← entry_node_id x;
  Some (Dent (dirent_type (psn_node_type x))
          (procfs_get_fileid (nodeid_pid id) (nodeid_objectid id) (nodeid_base_id id)) (psn_name x)).

(** The loop over the children: whether [snode] is NULL at the end, the locals, and
    the remembered size of the thread structure.  [None]: the loop does not end
    (it does not advance past an entry of type [PFSroot]). *)
Fixpoint readdir_loop (startpos : Z) (children : list pfssnode) (known : option Z) (rd : rdstate) :
    K (option (bool * rdstate * option Z)) :=
  match children with
  | [] => mret (Some (true, rd, known))
  | x :: rest =>
    if negb (0 <? uio_resid (rd_uio rd)) then mret (Some (false, rd, known)) else
    let pid := nodeid_pid (node_id dir) in
    ok ← (if (pid =? PRNODE_NO_PID) || negb check_access then mret true
          else e ← procfs_check_can_access_proc_pid (ctx_ucred ctx) pid; mret (e =? 0));
    if negb ok then readdir_loop startpos rest known rd else
    match psn_node_type x with
    | PFSroot => mret None
    | PFSproc | PFSprocnamedir =>
      let named := bool_decide (psn_node_type x = PFSprocnamedir) in
      r ← procfs_get_pids (if check_access then Some (ctx_ucred ctx) else None);
      e ← emit_loop startpos (pid_entry named (psn_base_node_id x)) r.1 rd;
      _ ← procfs_release_pids r.2;
      mret (Some (if (e.1 : bool) then false else bool_decide (length rest = O), e.2, known))
    | PFSthread =>
      p ← proc_find pid;
      match p with
      | None => mret (Some (false, Rd (rd_uio rd) (rd_nextpos rd) (rd_num rd) ENOENT, known))
      | Some p =>
        r ← procfs_get_thread_ids_for_task (Some p) known;
        let '(error, thread_ids, known) := r in
        rd' ← (if error =? 0 then
                 e ← emit_loop startpos (thread_entry pid (psn_base_node_id x)) thread_ids
                       (Rd (rd_uio rd) (rd_nextpos rd) (rd_num rd) 0);
                 _ ← procfs_release_thread_ids (Z.of_nat (length thread_ids));
                 mret e.2
               else mret (Rd (rd_uio rd) (rd_nextpos rd) (rd_num rd) error));
        _ ← proc_rele p;
        mret (Some (false, rd', known))
      end
    | PFSfd =>
      p ← proc_find pid;
      match p with
      | None => mret (Some (false, Rd (rd_uio rd) (rd_nextpos rd) (rd_num rd) ENOENT, known))
      | Some p =>
        r ← procfs_get_fd_list (Some p);
        let '(_, fds, fdlist) := r in
        e ← emit_loop startpos (fd_entry pid (psn_base_node_id x)) fds rd;
        _ ← procfs_release_fd_list fdlist;
        _ ← proc_rele p;
        mret (Some (false, e.2, known))
      end
    | _ =>
      match static_entry x with
      | None => mret None
      | Some e =>
        let (stop, rd') := emit startpos e rd in
        if stop then mret (Some (false, rd', known)) else readdir_loop startpos rest known rd'
      end
    end
  end.

(** The result of a call: error, uio, and the end-of-directory flag and entry count
    when they are set. *)
Record readdir_result := ReaddirResult {
  rr_error : Z; rr_uio : uio_t; rr_out : option (bool * Z)
}.

(** ** /proc/sys *)

Variable tree : sysctl_tree.

Definition sysctl_entry (base : Z) (c : string * bool * Z) : dent :=
  let '(name, is_node, objid) := c in
  Dent (if is_node then DT_DIR else DT_REG) (procfs_get_fileid PRNODE_NO_PID objid base) name.

(** The loop over the index; [true]: the end of the list was reached. *)
Fixpoint sysctl_index_loop (fuel : nat) (startpos dir_objectid base index : Z) (rd : rdstate) :
    option (bool * rdstate) :=
  match fuel with
  | O => None
  | S fuel' =>
    if (rd_error rd =? 0) && (0 <? uio_resid (rd_uio rd)) then
      match procfs_sysctl_child_at tree dir_objectid index with
      | None => Some (true, rd)
      | Some c =>
        let (stop, rd') := emit startpos (sysctl_entry base c) rd in
        if stop then Some (false, rd')
        else sysctl_index_loop fuel' startpos dir_objectid base (index + 1) rd'
      end
    else Some (false, rd)
  end.

Fixpoint emit_dots (startpos self_fileid : Z) (dots : list string) (rd : rdstate) : bool * rdstate :=
  match dots with
  | [] => (false, rd)
  | d :: dots' =>
    let (stop, rd') := emit startpos (Dent DT_DIR self_fileid d) rd in
    if stop then (true, rd') else emit_dots startpos self_fileid dots' rd'
  end.

Definition procfs_sysctl_readdir (uio : uio_t) : option readdir_result :=
  let startpos := uio_offset uio in
  let dir_objectid := nodeid_objectid (node_id dir) in
  snode ← sn_heap st !! node_structure_node dir;
  self_fileid ← procfs_get_node_fileid st dir;
  let (stop, rd) := emit_dots startpos self_fileid ["."; ".."]%string (Rd uio 0 0 0) in
  r ← (if stop then Some (false, rd) else
         let fuel := S (length (default [] (procfs_sysctl_children tree dir_objectid))) in
         sysctl_index_loop fuel startpos dir_objectid (psn_base_node_id snode) 0 rd);
  let (at_end, rd') := (r : bool * rdstate) in
  Some (ReaddirResult (rd_error rd') (uio_setoffset (rd_uio rd') (rd_nextpos rd'))
          (Some ((rd_error rd' =? 0) && at_end, rd_num rd'))).

(** ** The operation *)

Definition procfs_vnop_readdir (vtype : vtype) (known : option Z) (uio : uio_t) :
    K (option (readdir_result * option Z)) :=
  if negb (bool_decide (vtype = VDIR)) then mret (Some (ReaddirResult ENOTDIR uio None, known)) else
  match sn_heap st !! node_structure_node dir with
  | None => mret None
  | Some dir_snode =>
    if bool_decide (psn_node_type dir_snode = PFSsysctl) then
      mret (r ← procfs_sysctl_readdir uio; Some (r, known))
    else
      r ← readdir_loop (uio_offset uio) (children_of st (node_structure_node dir)) known (Rd uio 0 0 0);
      match r with
      | None => mret None
      | Some (eof, rd, known') =>
        mret (Some (ReaddirResult (rd_error rd) (uio_setoffset (rd_uio rd) (rd_nextpos rd))
                      (Some (eof, rd_num rd)), known'))
      end
  end.

End Readdir.

(** ** Entries and their sizes *)

Definition entry_size (e : dent) : Z := procfs_calc_dirent_size (d_name e).
Definition entry_ok (e : dent) : Prop := (String.length (d_name e) < 1024)%nat.

Lemma calc_dirent_size name :
  procfs_calc_dirent_size name = 24 + 8 * ((Z.of_nat (String.length name) + 8) / 8).
Proof.
  unfold procfs_calc_dirent_size, sizeof_direntry, sizeof_d_name.
  rewrite <- Z.ldiff_land. change 7 with (Z.ones 3) at 2. rewrite Z.ldiff_ones_r by lia.
  rewrite Z.shiftl_mul_pow2, Z.shiftr_div_pow2 by lia. change (2 ^ 3) with 8.
  replace (Z.of_nat (String.length name) + 1 + 7) with (Z.of_nat (String.length name) + 8) by lia. lia.
Qed.

Lemma entry_size_bounds e : 32 <= entry_size e ∧ (entry_ok e -> entry_size e <= 1048).
Proof.
  unfold entry_size, entry_ok. rewrite calc_dirent_size.
  pose proof (Z.div_mod (Z.of_nat (String.length (d_name e)) + 8) 8).
  pose proof (Z.mod_pos_bound (Z.of_nat (String.length (d_name e)) + 8) 8). lia.
Qed.

(** The size of a directory entry is a multiple of 8, holds the fixed part of
    the structure, the name and its terminator, and is at most the size of the
    structure, so that copying it out stays inside the entry. *)
Theorem dirent_size_fits e :
  entry_ok e ->
  entry_size e mod 8 = 0 ∧ 21 + Z.of_nat (String.length (d_name e)) + 1 <= entry_size e <= sizeof_direntry
  ∧ forall seekoff, Z.of_nat (length (direntry_bytes e seekoff (entry_size e))) = sizeof_direntry.
Proof.
  intros Hok. pose proof (entry_size_bounds e) as [? Hb]. specialize (Hb Hok).
  unfold entry_size in *. rewrite calc_dirent_size in *.
  split; [|split].
  - rewrite Z.add_mod, (Z.mul_comm 8), Z.mod_mul by lia. done.
  - pose proof (Z.div_mod (Z.of_nat (String.length (d_name e)) + 8) 8).
    pose proof (Z.mod_pos_bound (Z.of_nat (String.length (d_name e)) + 8) 8). unfold sizeof_direntry. lia.
  - intros seekoff. unfold direntry_bytes, sizeof_direntry, entry_ok in *.
    rewrite !length_app, !le_bytes_length, bytes_of_string_length, length_replicate. lia.
Qed.

Lemma direntry_bytes_length e so rl : entry_ok e -> length (direntry_bytes e so rl) = 1048%nat.
Proof.
  unfold entry_ok, direntry_bytes. intros Hok.
  rewrite !length_app, !le_bytes_length, bytes_of_string_length, length_replicate. lia.
Qed.

(** What is copied out for an entry at a position. *)
Definition encode (pos : Z) (e : dent) : list Byte.byte :=
  take (Z.to_nat (entry_size e)) (direntry_bytes e (pos + entry_size e) (entry_size e)).

Fixpoint encode_from (pos : Z) (l : list dent) : list Byte.byte :=
  match l with [] => [] | e :: l' => encode pos e ++ encode_from (pos + entry_size e) l' end.

Fixpoint sum_size (l : list dent) : Z :=
  match l with [] => 0 | e :: l' => entry_size e + sum_size l' end.

(** How many entries fit in a buffer. *)
Fixpoint fit (room : Z) (l : list dent) : nat :=
  match l with
  | [] => 0
  | e :: l' => if entry_size e <=? room then S (fit (room - entry_size e) l') else 0
  end.

Lemma sum_size_nonneg l : 0 <= sum_size l.
Proof. induction l as [|e l IH]; simpl; [lia|]. pose proof (entry_size_bounds e). lia. Qed.

Lemma fit_length room l : (fit room l <= length l)%nat.
Proof. revert room. induction l as [|e l IH]; intros room; simpl; [lia|]. case_match; [specialize (IH (room - entry_size e))|]; lia. Qed.

(** A buffer of the largest size takes at least one entry. *)
Lemma fit_progress room l j : Forall entry_ok l -> 1048 <= room -> (j < length l)%nat -> (1 <= fit room (drop j l))%nat.
Proof.
  intros Hok Hr Hlt. destruct (drop j l) as [|e rest] eqn:Ed.
  - apply (f_equal length) in Ed. rewrite length_drop in Ed. simpl in Ed. lia.
  - assert (entry_ok e) as Hoke by (eapply (Forall_forall entry_ok (drop j l)); [by apply Forall_drop|rewrite Ed; constructor]).
    pose proof (entry_size_bounds e) as [_ Hb]. specialize (Hb Hoke). simpl.
    rewrite (proj2 (Z.leb_le _ _)) by lia. lia.
Qed.

Lemma encode_length pos e : entry_ok e -> Z.of_nat (length (encode pos e)) = entry_size e.
Proof.
  intros Hok. pose proof (entry_size_bounds e) as [? Hb]. specialize (Hb Hok). unfold encode.
  rewrite length_take, direntry_bytes_length by done. lia.
Qed.

Lemma sum_size_app l1 l2 : sum_size (l1 ++ l2) = sum_size l1 + sum_size l2.
Proof. induction l1 as [|e l IH]; simpl; [done|]. rewrite IH. lia. Qed.

Lemma encode_from_app pos l1 l2 : encode_from pos (l1 ++ l2) = encode_from pos l1 ++ encode_from (pos + sum_size l1) l2.
Proof.
  revert pos. induction l1 as [|e l IH]; intros pos; simpl; [by rewrite Z.add_0_r|].
  rewrite IH, app_assoc. do 2 f_equal. lia.
Qed.

(** ** Copying entries out *)

Section EmitFacts.
Context `{UioLaws}.

(** [u'] is [u] after [out] was copied. *)
Definition advanced (u u' : uio_t) (out : list Byte.byte) : Prop :=
  uio_out u' = uio_out u ++ out ∧ uio_resid u' = uio_resid u - Z.of_nat (length out)
  ∧ uio_writable u' = uio_writable u.

Lemma advanced_refl u : advanced u u [].
Proof. split; [by rewrite app_nil_r|]. split; [simpl; lia|done]. Qed.

Lemma advanced_trans u u' u'' o o' : advanced u u' o -> advanced u' u'' o' -> advanced u u'' (o ++ o').
Proof.
  intros (E1 & E2 & E3) (E1' & E2' & E3'). split; [by rewrite E1', E1, app_assoc|].
  split; [rewrite length_app; lia|congruence].
Qed.

Lemma emit_fits startpos e rd :
  entry_ok e -> uio_writable (rd_uio rd) = true -> startpos <= rd_nextpos rd ->
  entry_size e <= uio_resid (rd_uio rd) ->
  exists u', emit startpos e rd = (false, Rd u' (rd_nextpos rd + entry_size e) (rd_num rd + 1) 0)
    ∧ advanced (rd_uio rd) u' (encode (rd_nextpos rd) e).
Proof.
  intros Hok Hw Hpos Hfit. pose proof (entry_size_bounds e) as [Hlo Hhi]. specialize (Hhi Hok).
  unfold emit. rewrite (proj2 (Z.leb_le _ _) Hpos). fold (entry_size e). unfold procfs_copyout_dirent.
  rewrite (proj2 (Z.leb_le _ _) Hfit).
  set (data := direntry_bytes e (rd_nextpos rd + entry_size e) (entry_size e)).
  assert (Hlen : 0 <= entry_size e <= Z.of_nat (length data))
    by (unfold data; rewrite direntry_bytes_length by done; lia).
  pose proof (uiomove_writable data _ _ Hw Hlen) as E0.
  destruct (uiomove_moved data _ _ Hlen E0) as (E1 & _ & E3 & _ & E5).
  destruct (uiomove data (entry_size e) (rd_uio rd)) as [err u']. simpl in *. subst err.
  rewrite (proj2 (Z.eqb_neq (entry_size e) 0)) by lia. simpl. exists u'. split; [done|].
  rewrite Z.min_l in E1, E3 by lia. split; [done|]. split; [|done].
  rewrite encode_length by done. lia.
Qed.

Lemma emit_full startpos e rd :
  startpos <= rd_nextpos rd -> uio_resid (rd_uio rd) < entry_size e -> rd_error rd = 0 ->
  emit startpos e rd = (true, rd).
Proof.
  intros Hpos Hfull He. unfold emit, procfs_copyout_dirent. fold (entry_size e).
  rewrite (proj2 (Z.leb_le _ _) Hpos), (proj2 (Z.leb_gt _ _) Hfull). simpl.
  destruct rd. simpl in *. by subst.
Qed.

Lemma emit_skip startpos e rd :
  rd_nextpos rd < startpos ->
  emit startpos e rd = (false, Rd (rd_uio rd) (rd_nextpos rd + entry_size e) (rd_num rd) (rd_error rd)).
Proof. intros Hpos. unfold emit. by rewrite (proj2 (Z.leb_gt _ _) Hpos). Qed.

(** A list of entries. *)
Fixpoint emit_list (startpos : Z) (l : list dent) (rd : rdstate) : bool * rdstate :=
  match l with
  | [] => (false, rd)
  | e :: l' => let (stop, rd') := emit startpos e rd in if stop then (true, rd') else emit_list startpos l' rd'
  end.

Lemma emit_list_spec startpos l rd :
  Forall entry_ok l -> uio_writable (rd_uio rd) = true -> startpos <= rd_nextpos rd -> rd_error rd = 0 ->
  let k := fit (uio_resid (rd_uio rd)) l in
  exists u', emit_list startpos l rd =
      (bool_decide (k < length l)%nat, Rd u' (rd_nextpos rd + sum_size (take k l)) (rd_num rd + Z.of_nat k) 0)
    ∧ advanced (rd_uio rd) u' (encode_from (rd_nextpos rd) (take k l)).
Proof.
  revert rd. induction l as [|e l IH]; intros rd Hok Hw Hpos He; simpl.
  { exists (rd_uio rd). split; [|apply advanced_refl]. destruct rd; simpl in *. subst. by rewrite !Z.add_0_r. }
  apply Forall_cons in Hok as [Hoke Hok].
  destruct (Z.leb_spec (entry_size e) (uio_resid (rd_uio rd))) as [Hfit|Hfull].
  - destruct (emit_fits startpos e rd) as (u1 & -> & Hadv); [done..|].
    destruct Hadv as (A1 & A2 & A3). rewrite encode_length in A2 by done.
    pose proof (entry_size_bounds e).
    destruct (IH (Rd u1 (rd_nextpos rd + entry_size e) (rd_num rd + 1) 0)) as (u' & -> & Hadv');
      simpl; [done|congruence|lia|done|]. simpl in Hadv'. rewrite <- A2. exists u'. split.
    + f_equal; [|f_equal; [lia|]].
      * apply bool_decide_ext. lia.
      * lia.
    + eapply advanced_trans; [|exact Hadv']. split; [done|]. split; [|done]. rewrite encode_length by done. lia.
  - rewrite emit_full by done. exists (rd_uio rd). split; [|apply advanced_refl].
    rewrite bool_decide_eq_true_2 by (simpl; lia). destruct rd; simpl in *. subst. by rewrite !Z.add_0_r.
Qed.

Lemma emit_list_skip startpos l rd j :
  (j <= length l)%nat -> startpos = rd_nextpos rd + sum_size (take j l) ->
  emit_list startpos l rd = emit_list startpos (drop j l) (Rd (rd_uio rd) startpos (rd_num rd) (rd_error rd)).
Proof.
  revert rd l. induction j as [|j IH]; intros rd l Hj Hs.
  { destruct rd; simpl in *. rewrite drop_0. do 2 f_equal. lia. }
  destruct l as [|e l]; [simpl in Hj; lia|]. simpl in Hs, Hj |- *.
  pose proof (entry_size_bounds e). pose proof (sum_size_nonneg (take j l)).
  rewrite emit_skip by lia. rewrite IH; simpl; [done|lia|lia].
Qed.

End EmitFacts.

(** ** The entries of a directory, in a system that does not change *)

Section Listing.
Context `{KernelOps}.
Variable st : structure.
Variable pmp : pfsmount.
Variable ctx : vfs_context.
Variable dir : pfsnode.

Definition pid_dent (named : bool) (base pid : Z) : option dent :=
  name ← (if named then procfs_construct_process_dir_name <$> proc_find_at 0 pid
          else Some (snprintf PROCESS_NAME_SIZE (fmt_d pid)));
  Some (Dent (vtype_to_int VDIR) (procfs_get_fileid pid PRNODE_NO_OBJECTID base) name).

Definition pid_dents (named : bool) (base : Z) : list dent :=
  omap (pid_dent named base) (visible_pids (if check_access pmp ctx then Some (ctx_ucred ctx) else None)).

Definition thread_dent (pid base tid : Z) : dent :=
  Dent (vtype_to_int VDIR) (procfs_get_fileid pid tid base) (snprintf PROCESS_NAME_SIZE (fmt_d (s64 tid))).
Definition fd_dent (pid base fd : Z) : dent :=
  Dent (vtype_to_int VDIR) (procfs_get_fileid pid fd base) (snprintf PROCESS_NAME_SIZE (fmt_d fd)).

(** The thread ids and the descriptors of a process. *)
Definition thread_size (known : option Z) : option Z :=
  match known with
  | Some _ => known
  | None => cp ← current_proc;
    if current_thread =? 0 then None else
    best ← thread_size_loop 0 current_thread None (p_uthlist_at 0 cp);
    Some (best - current_thread)
  end.

Definition thread_ids_of (known : option Z) (p : proc_t) : option (list Z) :=
  size ← thread_size known;
  let l := p_uthlist_at 0 p in
  let count := count_uthreads 0 l in
  Some (if count =? 0 then [] else collect_tids size 0 count l).

Definition fds_of (p : proc_t) : list Z :=
  let (error, capacity) := proc_fdlist_bound_at 0 p in
  if negb (error =? 0) || (capacity =? 0) then [] else
  let (error', fds) := proc_fdlist_at 0 p capacity in
  if negb (error' =? 0) then [] else fds.

(** The entries a dynamic child stands for; [None] when they cannot be had. *)
Definition dynamic_entries (known : option Z) (x : pfssnode) : option (list dent) :=
  let pid := nodeid_pid (node_id dir) in
  match psn_node_type x with
  | PFSproc | PFSprocnamedir =>
    Some (pid_dents (bool_decide (psn_node_type x = PFSprocnamedir)) (psn_base_node_id x))
  | PFSthread => p ← proc_find_at 0 pid; ids ← thread_ids_of known p;
                 Some (List.map (thread_dent pid (psn_base_node_id x)) ids)
  | PFSfd => p ← proc_find_at 0 pid; Some (List.map (fd_dent pid (psn_base_node_id x)) (fds_of p))
  | _ => None
  end.

(** The entries of a directory: one for each static child, then those of the first
    dynamic one. *)
Fixpoint listing (known : option Z) (children : list pfssnode) : option (list dent) :=
  match children with
  | [] => Some []
  | x :: rest =>
    if is_dynamic_type (psn_node_type x) then dynamic_entries known x
    else if bool_decide (psn_node_type x = PFSroot) then None
    else e ← static_entry st dir x; l ← listing known rest; Some (e :: l)
  end.

(** Whether the caller may see the directory's process. *)
Definition dir_accessible : bool :=
  (nodeid_pid (node_id dir) =? PRNODE_NO_PID) || negb (check_access pmp ctx)
  || match proc_find_at 0 (nodeid_pid (node_id dir)) with
     | Some p => procfs_check_can_access_process (ctx_ucred ctx) p =? 0
     | None => false
     end.

Definition directory_listing (known : option Z) : option (list dent) :=
  if dir_accessible then listing known (children_of st (node_structure_node dir)) else Some [].

(** Whether the end of the directory is reported: not when it ends with the
    threads or the descriptors of a process. *)
Fixpoint reports_eof (children : list pfssnode) : bool :=
  match children with
  | [] => true
  | x :: rest =>
    match psn_node_type x with
    | PFSproc | PFSprocnamedir => bool_decide (length rest = O)
    | PFSthread | PFSfd => false
    | _ => reports_eof rest
    end
  end.

(** ** The values of the kernel-dependent parts *)

Context `{!KernelStable}.

Lemma value_pid_entry named base pid : value (pid_entry named base pid) (pid_dent named base pid).
Proof.
  unfold pid_entry, pid_dent. destruct named; [|done].
  eapply value_bind; [apply value_proc_find|]. destruct (proc_find_at 0 pid); [|done].
  by apply value_unit.
Qed.

Lemma value_get_pids creds : value (procfs_get_pids creds) (visible_pids creds, 4096).
Proof. intros s. exact (proj1 (get_pids_run creds s)). Qed.

Lemma value_thread_ids known p :
  value (procfs_get_thread_ids_for_task (Some p) known)
    match thread_ids_of known p with
    | Some ids => (KERN_SUCCESS, ids, thread_size known)
    | None => (KERN_NOT_SUPPORTED, [], None)
    end.
Proof.
  unfold procfs_get_thread_ids_for_task, thread_ids_of.
  eapply (value_bind _ _ (thread_size known)).
  - unfold procfs_thread_size_init, thread_size. destruct known; [done|].
    destruct current_proc as [cp|]; [|done]. destruct (current_thread =? 0); [done|].
    eapply value_bind; [apply value_uthlist|]. simpl. destruct (thread_size_loop _ _ _ _); done.
  - destruct (thread_size known) as [size|]; [|done]. simpl.
    eapply value_bind; [apply value_uthlist|].
    destruct (count_uthreads 0 _ =? 0); [done|]. eapply value_bind; [apply value_OSMalloc|].
    eapply value_bind; [apply value_uthlist|done].
Qed.

Lemma value_fd_list p :
  exists e sz, value (procfs_get_fd_list (Some p)) (e, fds_of p, sz) ∧ (fds_of p ≠ [] -> e = 0).
Proof.
  unfold procfs_get_fd_list, fds_of.
  pose proof (value_fdlist_bound p) as Hb. destruct (proc_fdlist_bound_at 0 p) as [error capacity].
  pose proof (value_fdlist p capacity) as Hl. destruct (proc_fdlist_at 0 p capacity) as [error' fds].
  destruct (negb (error =? 0) || (capacity =? 0)) eqn:E1.
  { exists error, None. split; [|done]. eapply value_bind; [exact Hb|]. simpl. rewrite E1. apply value_ret. }
  assert (Hv : forall r, value (let '(error', fds) := (error', fds) in
      if negb (error' =? 0) then _ ← OSFree (capacity * sizeof_proc_fdinfo); mret (error', [], None)
      else mret (0, fds, Some (capacity * sizeof_proc_fdinfo))) r ->
    value (procfs_get_fd_list (Some p)) r).
  { intros r Hr. unfold procfs_get_fd_list. eapply value_bind; [exact Hb|]. simpl. rewrite E1.
    eapply value_bind; [apply value_OSMalloc|]. eapply value_bind; [exact Hl|exact Hr]. }
  destruct (negb (error' =? 0)) eqn:E2.
  - exists error', None. split; [|done]. apply Hv. simpl. rewrite E2. apply value_unit, value_ret.
  - exists 0, (Some (capacity * sizeof_proc_fdinfo)). split; [|done]. apply Hv. simpl. rewrite E2. apply value_ret.
Qed.

End Listing.

Section Resume.
Context `{KernelOps} `{!KernelStable} `{UioLaws}.

Lemma emit_loop_value {A} startpos (mk : A -> K (option dent)) f l rd :
  (forall a, value (mk a) (f a)) -> value (emit_loop startpos mk l rd) (emit_list startpos (omap f l) rd).
Proof.
  intros Hf. revert rd. induction l as [|a l IH]; intros rd; [apply value_ret|]. simpl.
  eapply value_bind; [apply Hf|]. destruct (f a) as [e|]; simpl; [|apply IH].
  destruct (emit startpos e rd) as [[] rd']; [apply value_ret|apply IH].
Qed.

Lemma emit_error startpos e rd : rd_error rd = 0 -> (emit startpos e rd).1 = false ->
  rd_error (emit startpos e rd).2 = 0 ∧ rd_nextpos rd < rd_nextpos (emit startpos e rd).2
  ∧ (startpos <= rd_nextpos (emit startpos e rd).2 ∨
     rd_nextpos rd < startpos ∧ rd_uio (emit startpos e rd).2 = rd_uio rd).
Proof.
  intros He. pose proof (entry_size_bounds e) as [Hs _]. unfold entry_size in Hs.
  unfold emit, procfs_copyout_dirent. destruct (Z.leb_spec startpos (rd_nextpos rd)) as [Hp|Hp].
  - destruct (Z.leb_spec (procfs_calc_dirent_size (d_name e)) (uio_resid (rd_uio rd))); [|done].
    destruct (uiomove _ _ _) as [err u']. destruct (Z.eqb_spec err 0); [|done].
    rewrite (proj2 (Z.eqb_neq _ 0)) by lia. simpl. intros _. split; [done|]. split; [lia|]. left. lia.
  - simpl. intros _. split; [done|]. split; [lia|]. right. split; [lia|done].
Qed.

Variable st : structure.
Variable pmp : pfsmount.
Variable ctx : vfs_context.
Variable dir : pfsnode.

Lemma access_value :
  value (if (nodeid_pid (node_id dir) =? PRNODE_NO_PID) || negb (check_access pmp ctx) then mret true
         else e ← procfs_check_can_access_proc_pid (ctx_ucred ctx) (nodeid_pid (node_id dir)); mret (e =? 0))
    (dir_accessible pmp ctx dir).
Proof.
  unfold dir_accessible. destruct (_ || _); [done|]. simpl.
  eapply value_bind; [apply yields_value, check_proc_pid_yields|]. by destruct (proc_find_at 0 _).
Qed.

(** The loop copies the entries of the listing out. *)
Lemma readdir_loop_value startpos children known rd l :
  dir_accessible pmp ctx dir = true -> listing st pmp ctx dir known children = Some l -> rd_error rd = 0 ->
  (0 < uio_resid (rd_uio rd) ∨ startpos <= rd_nextpos rd) ->
  exists eof known',
    value (readdir_loop st pmp ctx dir startpos children known rd)
      (Some (eof, (emit_list startpos l rd).2, known'))
    ∧ (known' = known ∨ known' = thread_size known)
    ∧ (eof = true -> (emit_list startpos l rd).1 = false ∧ reports_eof children = true)
    ∧ ((emit_list startpos l rd).1 = false -> 0 < uio_resid (rd_uio (emit_list startpos l rd).2) ->
       reports_eof children = true -> eof = true).
Proof.
  intros Hacc. revert rd l. induction children as [|x rest IH]; intros rd l Hl He Hr.
  { simpl in Hl. injection Hl as <-. exists true, known. split; [apply value_ret|auto]. }
  simpl. destruct (Z.ltb_spec 0 (uio_resid (rd_uio rd))) as [Hpos|Hzero]; simpl.
  2: { exists false, known. assert (Hst : startpos <= rd_nextpos rd) by lia.
       destruct l as [|e l]; simpl; [split; [apply value_ret|]; split; [by left|]; split; [done|]; intros; lia|].
       pose proof (entry_size_bounds e). rewrite emit_full by (done || lia).
       split; [apply value_ret|]. split; [by left|]. done. }
  assert (Hstart : forall (m : bool -> K (option (bool * rdstate * option Z))) r, value (m true) r ->
    value ((if (nodeid_pid (node_id dir) =? PRNODE_NO_PID) || negb (check_access pmp ctx) then mret true
            else e ← procfs_check_can_access_proc_pid (ctx_ucred ctx) (nodeid_pid (node_id dir)); mret (e =? 0)) ≫= m) r).
  { intros m r Hm. eapply value_bind; [apply access_value|]. by rewrite Hacc. }
  assert (Hstatic : is_dynamic_type (psn_node_type x) = false -> psn_node_type x ≠ PFSroot ->
    exists e l', static_entry st dir x = Some e ∧ listing st pmp ctx dir known rest = Some l' ∧ l = e :: l').
  { intros Hd1 Hd2. simpl in Hl. rewrite Hd1, bool_decide_eq_false_2 in Hl by done.
    destruct (static_entry st dir x) as [e|]; simpl in Hl; [|done].
    destruct (listing st pmp ctx dir known rest) as [l'|] eqn:E'; simpl in Hl; [|done]. injection Hl as <-. eauto. }
  simpl in Hl. unfold dynamic_entries in Hl. destruct (psn_node_type x) eqn:Hty; simpl in Hl;
    try (destruct Hstatic as (e & l' & He' & Hl' & ->); [done|done|]; simpl;
         pose proof (emit_error startpos e rd He) as Hem;
         destruct (emit startpos e rd) as [stop rd'] eqn:Eem; simpl in Hem; destruct stop;
         [exists false, known; split; [apply Hstart; simpl; rewrite He', Eem; apply value_ret|split; [by left|done]]
         |destruct Hem as (Hem1 & Hem2 & Hem3); [done|];
          destruct (IH rd' l' Hl' Hem1) as (eof & known' & Hv & Hrest);
          [destruct Hem3 as [|[? ->]]; [by right|by left]|];
          exists eof, known'; split; [apply Hstart; simpl; rewrite He', Eem; exact Hv|exact Hrest]]).
  - done.
  - injection Hl as <-. eexists _, _. split.
    { apply Hstart. simpl. eapply value_bind; [apply value_get_pids|]. simpl.
      eapply value_bind; [apply emit_loop_value; intros; apply value_pid_entry|]. apply value_unit, value_ret. }
    destruct (emit_list _ _ _) as [[] rd']; simpl; split; (by left) || done.
  - destruct (proc_find_at 0 (nodeid_pid (node_id dir))) as [p|] eqn:Ep; simpl in Hl; [|done].
    destruct (thread_ids_of known p) as [ids|] eqn:Ei; simpl in Hl; [|done]. injection Hl as <-.
    eexists _, _. split.
    { apply Hstart. simpl. eapply value_bind; [apply value_proc_find|]. rewrite Ep.
      eapply value_bind; [apply value_thread_ids|]. rewrite Ei. simpl.
      eapply value_bind; [|apply value_unit, value_ret].
      eapply value_bind; [apply (emit_loop_value _ _ (λ a, Some (thread_dent (nodeid_pid (node_id dir)) (psn_base_node_id x) a))); intros; apply value_ret|].
      apply value_unit. rewrite list_omap_some.
      destruct rd as [u np num err]. simpl in He. subst err. apply value_ret. }
    split; [by right|done].
  - injection Hl as <-. eexists _, _. split.
    { apply Hstart. simpl. eapply value_bind; [apply value_get_pids|]. simpl.
      eapply value_bind; [apply emit_loop_value; intros; apply value_pid_entry|]. apply value_unit, value_ret. }
    destruct (emit_list _ _ _) as [[] rd']; simpl; split; (by left) || done.
  - destruct (proc_find_at 0 (nodeid_pid (node_id dir))) as [p|] eqn:Ep; simpl in Hl; [|done].
    injection Hl as <-. destruct (value_fd_list p) as (e & sz & Hfd & _).
    eexists _, _. split.
    { apply Hstart. simpl. eapply value_bind; [apply value_proc_find|]. rewrite Ep.
      eapply value_bind; [exact Hfd|]. simpl.
      eapply value_bind; [apply (emit_loop_value _ _ (λ a, Some (fd_dent (nodeid_pid (node_id dir)) (psn_base_node_id x) a))); intros; apply value_ret|].
      apply value_unit, value_unit. rewrite list_omap_some. apply value_ret. }
    split; [by left|done].
Qed.

(** A directory of a process the caller may not see is empty. *)
Lemma readdir_loop_denied startpos children known rd :
  dir_accessible pmp ctx dir = false -> 0 < uio_resid (rd_uio rd) ->
  value (readdir_loop st pmp ctx dir startpos children known rd) (Some (true, rd, known)).
Proof.
  intros Hacc Hr. induction children as [|x rest IH]; [apply value_ret|]. simpl.
  rewrite (proj2 (Z.ltb_lt _ _) Hr). simpl. eapply value_bind; [apply access_value|]. by rewrite Hacc.
Qed.

Lemma thread_size_idem known : thread_size (thread_size known) = thread_size known.
Proof. destruct (thread_size known) as [z|] eqn:E; [done|]. by destruct known. Qed.

Lemma listing_known known known' :
  known' = known ∨ known' = thread_size known ->
  directory_listing st pmp ctx dir known' = directory_listing st pmp ctx dir known.
Proof.
  intros Hk. unfold directory_listing. destruct (dir_accessible _ _ _); [|done].
  assert (Ht : forall p, thread_ids_of known' p = thread_ids_of known p).
  { intros p. unfold thread_ids_of. destruct Hk as [->| ->]; [done|]. by rewrite thread_size_idem. }
  induction (children_of st _) as [|x rest IH]; [done|]. simpl. rewrite IH. unfold dynamic_entries.
  destruct (psn_node_type x); try done. destruct (proc_find_at 0 _); simpl; [|done]. by rewrite Ht.
Qed.

Variable tree : sysctl_tree.

(** One call, with the offset at the start of entry [j]. *)
Lemma readdir_call dir_snode known l j u :
  sn_heap st !! node_structure_node dir = Some dir_snode -> psn_node_type dir_snode ≠ PFSsysctl ->
  directory_listing st pmp ctx dir known = Some l -> Forall entry_ok l ->
  uio_writable u = true -> 0 < uio_resid u ->
  (j <= length l)%nat -> uio_offset u = sum_size (take j l) ->
  let k := fit (uio_resid u) (drop j l) in
  exists u' eof known',
    value (procfs_vnop_readdir st pmp ctx dir tree VDIR known u)
      (Some (ReaddirResult 0 u' (Some (eof, Z.of_nat k)), known'))
    ∧ uio_out u' = uio_out u ++ encode_from (uio_offset u) (take k (drop j l))
    ∧ uio_offset u' = sum_size (take (j + k) l)
    ∧ (known' = known ∨ known' = thread_size known)
    ∧ (eof = true -> (j + k = length l)%nat)
    ∧ ((j + k = length l)%nat -> 0 < uio_resid u' ->
       reports_eof (children_of st (node_structure_node dir)) = true -> eof = true)
    ∧ (dir_accessible pmp ctx dir = true ->
       reports_eof (children_of st (node_structure_node dir)) = false -> eof = false).
Proof.
  intros Hsn Hty Hl Hok Hw Hr Hj Hoff k. unfold procfs_vnop_readdir. rewrite Hsn.
  rewrite bool_decide_eq_true_2 by done. simpl. rewrite bool_decide_eq_false_2 by done.
  pose proof (fit_length (uio_resid u) (drop j l)) as Hk. fold k in Hk. rewrite length_drop in Hk.
  unfold directory_listing in Hl. destruct (dir_accessible pmp ctx dir) eqn:Hacc.
  - destruct (readdir_loop_value (uio_offset u) _ known (Rd u 0 0 0) l Hacc Hl eq_refl (or_introl Hr))
      as (eof & known' & Hv & Hkn & He1 & He2).
    rewrite (emit_list_skip _ l (Rd u 0 0 0) j) in Hv, He1, He2 by (simpl; lia). simpl in Hv, He1, He2.
    destruct (emit_list_spec (uio_offset u) (drop j l) (Rd u (uio_offset u) 0 0)) as (u' & E & Hadv);
      [by apply Forall_drop|done|simpl; lia|done|]. simpl in E, Hadv. fold k in E, Hadv. rewrite E in Hv, He1, He2.
    simpl in Hv, He1, He2. destruct Hadv as (A1 & A2 & A3).
    exists (uio_setoffset u' (uio_offset u + sum_size (take k (drop j l)))), eof, known'.
    destruct (uio_setoffset_spec u' (uio_offset u + sum_size (take k (drop j l)))) as (S1 & S2 & S3 & _).
    split; [eapply value_bind; [exact Hv|]; apply value_ret|].
    rewrite S1, S2, S3. split; [done|]. split; [|split; [done|split; [|split]]].
    + by rewrite Hoff, <- sum_size_app, take_take_drop.
    + intros Heof. destruct (He1 Heof) as [Hb _]. apply bool_decide_eq_false in Hb. rewrite length_drop in Hb. lia.
    + intros Hall Hres Hrep. apply He2; [|done|done]. apply bool_decide_eq_false. rewrite length_drop. lia.
    + intros _ Hrep. destruct eof; [|done]. destruct (He1 eq_refl). congruence.
  - injection Hl as <-. simpl in Hj. assert (j = 0%nat) as -> by lia. simpl in Hoff.
    exists (uio_setoffset u 0), true, known. destruct (uio_setoffset_spec u 0) as (S1 & S2 & S3 & _).
    split; [eapply value_bind; [by apply readdir_loop_denied|]; apply value_ret|].
    unfold k. simpl. rewrite S3, app_nil_r. split; [done|]. split; [done|]. split; [by left|]. done.
Qed.

(** One readdir call, in a system that does not change during the call: with
    the offset at the start of entry [j] of the directory, exactly the next entries
    that fit the caller's buffer are returned, in order; the offset moves to the
    entry that follows, the count is the number of entries, no error is reported,
    and the end of the directory is reported only when its last entry has been
    returned. *)
Theorem readdir_window dir_snode known l j u :
  sn_heap st !! node_structure_node dir = Some dir_snode -> psn_node_type dir_snode ≠ PFSsysctl ->
  directory_listing st pmp ctx dir known = Some l -> Forall entry_ok l ->
  uio_writable u = true -> 0 < uio_resid u ->
  (j <= length l)%nat -> uio_offset u = sum_size (take j l) ->
  let k := fit (uio_resid u) (drop j l) in
  exists u' eof known',
    value (procfs_vnop_readdir st pmp ctx dir tree VDIR known u)
      (Some (ReaddirResult 0 u' (Some (eof, Z.of_nat k)), known'))
    ∧ uio_out u' = uio_out u ++ encode_from (uio_offset u) (take k (drop j l))
    ∧ uio_offset u' = sum_size (take (j + k) l)
    ∧ (eof = true -> (j + k = length l)%nat)
    ∧ ((j + k = length l)%nat -> 0 < uio_resid u' ->
       reports_eof (children_of st (node_structure_node dir)) = true -> eof = true).
Proof.
  intros Hsn Hty Hl Hok Hw Hr Hj Hoff k.
  destruct (readdir_call dir_snode known l j u) as (u' & eof & known' & H1' & H2' & H3' & _ & H4' & H5' & _); [done..|].
  by exists u', eof, known'.
Qed.

(** The listings of threads and of descriptors never report the end of the
    directory, not even on the call that finds nothing left to return. *)
Theorem readdir_objects_no_eof dir_snode known l u :
  sn_heap st !! node_structure_node dir = Some dir_snode -> psn_node_type dir_snode ≠ PFSsysctl ->
  dir_accessible pmp ctx dir = true ->
  directory_listing st pmp ctx dir known = Some l -> Forall entry_ok l ->
  reports_eof (children_of st (node_structure_node dir)) = false ->
  uio_writable u = true -> 0 < uio_resid u -> uio_offset u = sum_size l ->
  exists u' known', value (procfs_vnop_readdir st pmp ctx dir tree VDIR known u)
    (Some (ReaddirResult 0 u' (Some (false, 0)), known')) ∧ uio_out u' = uio_out u.
Proof.
  intros Hsn Hty Hacc Hl Hok Hrep Hw Hr Hoff.
  destruct (readdir_call dir_snode known l (length l) u) as (u' & eof & known' & Hv & Ho & _ & _ & _ & _ & He);
    [done..|by rewrite take_ge|].
  rewrite drop_ge in Hv, Ho by done. simpl in Hv, Ho. rewrite app_nil_r in Ho.
  exists u', known'. by rewrite <- (He Hacc Hrep).
Qed.

End Resume.

(** ** Reading a whole directory *)

Section ReadAll.
Context `{KernelOps} `{!KernelStable}.
Variable st : structure.
Variable pmp : pfsmount.
Variable ctx : vfs_context.
Variable dir : pfsnode.
Variable tree : sysctl_tree.

(** Successive calls, each with a buffer of its own and the offset the one before
    left. *)
Fixpoint readdir_calls (rooms : list nat) (offset : Z) (known : option Z) (s : kstate) :
    list Byte.byte * Z :=
  match rooms with
  | [] => ([], offset)
  | r :: rooms' =>
    let (res, s') := procfs_vnop_readdir st pmp ctx dir tree VDIR known (SimpleUio offset r true [] true) s in
    match res with
    | Some (rr, known') =>
      let (out, offset') := readdir_calls rooms' (uio_offset (rr_uio rr)) known' s' in
      (uio_out (rr_uio rr) ++ out, offset')
    | None => ([], offset)
    end
  end.

Lemma readdir_calls_from dir_snode l rooms j known s :
  sn_heap st !! node_structure_node dir = Some dir_snode -> psn_node_type dir_snode ≠ PFSsysctl ->
  directory_listing st pmp ctx dir known = Some l -> Forall entry_ok l ->
  Forall (λ r, 1048 <= r)%nat rooms -> (j <= length l)%nat -> (length l <= j + length rooms)%nat ->
  readdir_calls rooms (sum_size (take j l)) known s = (encode_from (sum_size (take j l)) (drop j l), sum_size l).
Proof.
  intros Hsn Hty Hl Hok. revert j known s Hl. induction rooms as [|r rooms IH]; intros j known s Hl Hr Hj Hlen.
  { simpl in Hlen |- *. by rewrite drop_ge, take_ge by lia. }
  apply Forall_cons in Hr as [Hr Hrs]. simpl.
  destruct (readdir_call st pmp ctx dir tree dir_snode known l j
    (SimpleUio (sum_size (take j l)) r true [] true : @uio_t simple_uio_ops))
    as (u' & eof & known' & Hv & Ho & Hoff & Hk & _); simpl in *; [done..|lia|done|done|].
  specialize (Hv s). destruct (procfs_vnop_readdir _ _ _ _ _ _ _ _ s) as [res s'] eqn:E. simpl in Hv. subst res.
  simpl. rewrite Hoff, Ho. set (k := fit (Z.of_nat r) (drop j l)).
  pose proof (fit_progress (Z.of_nat r) l j Hok ltac:(lia)) as Hprog. fold k in Hprog.
  pose proof (fit_length (Z.of_nat r) (drop j l)) as Hkl. rewrite length_drop in Hkl. fold k in Hkl.
  rewrite (IH (j + k)%nat known' s'); [|by rewrite (listing_known st pmp ctx dir known)|done|lia|lia].
  f_equal. rewrite <- (take_drop k (drop j l)) at 2. rewrite encode_from_app, drop_drop. f_equal.
  by rewrite <- sum_size_app, take_take_drop.
Qed.

(** ** Parsing what was read *)

(** A program that walks over the entries of its buffer. *)
Fixpoint decode (fuel : nat) (b : list Byte.byte) : option (list dent) :=
  match fuel, b with
  | _, [] => Some []
  | O, _ => None
  | S fuel', _ =>
    let field off n := le_value (take n (drop off b)) in
    let reclen := Z.to_nat (field 16 2)%nat in
    let namlen := Z.to_nat (field 18 2)%nat in
    rest ← decode fuel' (drop reclen b);
    Some (Dent (field 20 1)%nat (field 0 8)%nat (String.string_of_list_byte (take namlen (drop 21 b))) :: rest)
  end.

Definition entry_valid (e : dent) : Prop :=
  entry_ok e ∧ 0 <= d_ino e < 18446744073709551616 ∧ 0 <= d_type e < 256.

Lemma encode_split pos e :
  entry_ok e ->
  encode pos e = le_bytes 8 (u64 (d_ino e)) ++ le_bytes 8 (u64 (pos + entry_size e))
    ++ le_bytes 2 (u16 (entry_size e)) ++ le_bytes 2 (u16 (Z.of_nat (String.length (d_name e))))
    ++ le_bytes 1 (d_type e) ++ bytes_of_string (d_name e)
    ++ replicate (Z.to_nat (entry_size e) - 21 - String.length (d_name e)) Byte.x00.
Proof.
  intros Hok. pose proof (entry_size_bounds e) as [_ Hb]. specialize (Hb Hok).
  assert (Hlo : 21 + Z.of_nat (String.length (d_name e)) + 1 <= entry_size e).
  { unfold entry_size. rewrite calc_dirent_size.
    pose proof (Z.div_mod (Z.of_nat (String.length (d_name e)) + 8) 8).
    pose proof (Z.mod_pos_bound (Z.of_nat (String.length (d_name e)) + 8) 8). lia. }
  unfold encode, direntry_bytes.
  rewrite !take_app_ge by (rewrite ?le_bytes_length, ?bytes_of_string_length; lia).
  rewrite !le_bytes_length, bytes_of_string_length, take_replicate.
  do 6 f_equal. f_equal. unfold entry_ok in Hok. lia.
Qed.

(** A field of a buffer that starts with the field's neighbours. *)
Lemma field_app (a b c : list Byte.byte) off n :
  length a = off -> length b = n -> take n (drop off (a ++ b ++ c)) = b.
Proof. intros <- <-. by rewrite drop_app_length, take_app_length. Qed.

(** The fields of an entry at the front of a buffer. *)
Lemma encode_fields pos e rest :
  entry_ok e -> let b := encode pos e ++ rest in
  take 8 (drop 0 b) = le_bytes 8 (u64 (d_ino e)) ∧ take 2 (drop 16 b) = le_bytes 2 (u16 (entry_size e))
  ∧ take 2 (drop 18 b) = le_bytes 2 (u16 (Z.of_nat (String.length (d_name e)))) ∧ take 1 (drop 20 b) = le_bytes 1 (d_type e)
  ∧ (exists k, drop 21 b = bytes_of_string (d_name e) ++ replicate (S k) Byte.x00 ++ rest)
  ∧ drop (Z.to_nat (entry_size e)) b = rest ∧ (21 <= length b)%nat.
Proof.
  intros Hok b. pose proof (entry_size_bounds e) as [Hlo Hb]. specialize (Hb Hok).
  pose proof (encode_length pos e Hok) as Hlen. pose proof (encode_split pos e Hok) as Hs.
  assert (Hpad : 21 + Z.of_nat (String.length (d_name e)) + 1 <= entry_size e).
  { unfold entry_size. rewrite calc_dirent_size.
    pose proof (Z.div_mod (Z.of_nat (String.length (d_name e)) + 8) 8).
    pose proof (Z.mod_pos_bound (Z.of_nat (String.length (d_name e)) + 8) 8). lia. }
  set (f0 := le_bytes 8 (u64 (d_ino e))) in *. set (f1 := le_bytes 8 (u64 (pos + entry_size e))) in *.
  set (f2 := le_bytes 2 (u16 (entry_size e))) in *. set (f3 := le_bytes 2 (u16 (Z.of_nat (String.length (d_name e))))) in *.
  set (f4 := le_bytes 1 (d_type e)) in *. set (f5 := bytes_of_string (d_name e)) in *. set (f6 := replicate _ _) in Hs.
  assert (L0 : length f0 = 8%nat) by apply le_bytes_length. assert (L1 : length f1 = 8%nat) by apply le_bytes_length.
  assert (L2 : length f2 = 2%nat) by apply le_bytes_length. assert (L3 : length f3 = 2%nat) by apply le_bytes_length.
  assert (L4 : length f4 = 1%nat) by apply le_bytes_length.
  assert (E : b = f0 ++ f1 ++ f2 ++ f3 ++ f4 ++ (f5 ++ (f6 ++ rest))) by (unfold b; rewrite Hs; by rewrite <- !app_assoc).
  assert (Hd : drop (Z.to_nat (entry_size e)) b = rest).
  { unfold b. rewrite drop_app_ge by lia. by replace (Z.to_nat (entry_size e) - length (encode pos e))%nat with 0%nat by lia. }
  split_and!; [rewrite E; by apply (field_app [])| | | | |exact Hd|unfold b; rewrite length_app; lia]; rewrite E.
  - rewrite (app_assoc f0). apply field_app; [|done]. rewrite length_app. lia.
  - rewrite !(app_assoc f0), (app_assoc (f0 ++ f1)). apply field_app; [|done]. rewrite !length_app. lia.
  - rewrite !(app_assoc f0), (app_assoc (f0 ++ f1)), (app_assoc ((f0 ++ f1) ++ f2)).
    apply field_app; [|done]. rewrite !length_app. lia.
  - exists (Z.to_nat (entry_size e) - 22 - String.length (d_name e))%nat.
    rewrite !(app_assoc f0), (app_assoc (f0 ++ f1)), (app_assoc ((f0 ++ f1) ++ f2)), (app_assoc (((f0 ++ f1) ++ f2) ++ f3)).
    rewrite drop_app_ge by (rewrite !length_app; lia). rewrite !length_app, L0, L1, L2, L3, L4. unfold f6.
    by replace (Z.to_nat (entry_size e) - 21 - String.length (d_name e))%nat
      with (S (Z.to_nat (entry_size e) - 22 - String.length (d_name e))) by lia.
Qed.

(** The values of these fields. *)
Lemma entry_values e :
  entry_valid e -> le_value (le_bytes 8 (u64 (d_ino e))) = d_ino e ∧ le_value (le_bytes 2 (u16 (entry_size e))) = entry_size e
  ∧ le_value (le_bytes 2 (u16 (Z.of_nat (String.length (d_name e))))) = Z.of_nat (String.length (d_name e))
  ∧ le_value (le_bytes 1 (d_type e)) = d_type e.
Proof.
  intros (Hok & Hino & Hty). pose proof (entry_size_bounds e) as [Hlo Hb]. specialize (Hb Hok). unfold entry_ok in Hok.
  rewrite !le_bytes_value; rewrite ?u64_small, ?u16_small by lia; try (simpl; lia); done.
Qed.

Lemma decode_cons fuel pos e rest l :
  entry_valid e -> decode fuel rest = Some l -> decode (S fuel) (encode pos e ++ rest) = Some (e :: l).
Proof.
  intros Hv Hrest. destruct (encode_fields pos e rest) as (F0 & F2 & F3 & F4 & (k & F5) & Hd & Hlen); [apply Hv|].
  destruct (entry_values e Hv) as (V0 & V2 & V3 & V4).
  remember (encode pos e ++ rest) as b eqn:Eb. cbn [decode]. destruct b as [|b0 b']; [simpl in Hlen; lia|].
  rewrite F0, F2, F3, F4, V0, V2, V3, V4, Hd, Hrest, Nat2Z.id, F5, take_app_le by (rewrite bytes_of_string_length; lia).
  rewrite take_ge by (rewrite bytes_of_string_length; lia). unfold bytes_of_string.
  rewrite String.string_of_list_byte_of_string. simpl. by destruct e.
Qed.

Lemma decode_encode pos l : Forall entry_valid l -> decode (length l) (encode_from pos l) = Some l.
Proof.
  revert pos. induction l as [|e l IH]; intros pos Hv; [done|].
  apply Forall_cons in Hv as [He Hv]. simpl length. simpl encode_from. apply decode_cons; auto.
Qed.

(** C3. Reading a directory to its end: in a system that does not change, successive
    readdir calls, each with room for at least one entry of the largest size and each
    starting where the one before ended, return bytes that decode to exactly the
    entries of the directory, each once and in order, whatever the sizes of the
    buffers; as many calls as there are entries are enough. *)
Theorem readdir_complete dir_snode l rooms known s :
  sn_heap st !! node_structure_node dir = Some dir_snode -> psn_node_type dir_snode ≠ PFSsysctl ->
  directory_listing st pmp ctx dir known = Some l -> Forall entry_valid l ->
  Forall (λ r, 1048 <= r)%nat rooms -> (length l <= length rooms)%nat ->
  decode (length l) (readdir_calls rooms 0 known s).1 = Some l
  ∧ (readdir_calls rooms 0 known s).2 = sum_size l.
Proof.
  intros Hsn Hty Hl Hv Hr Hlen.
  assert (Hok : Forall entry_ok l) by (eapply Forall_impl; [exact Hv|]; intros e [? _]; done).
  pose proof (readdir_calls_from dir_snode l rooms 0 known s Hsn Hty Hl Hok Hr ltac:(lia) Hlen) as E.
  change (sum_size (take 0 l)) with 0 in E. rewrite E. simpl. split; [|done]. by apply decode_encode.
Qed.

End ReadAll.

(** ** Process references *)

Section Refs.
Context `{KernelOps} `{UioOps}.

Lemma refs_kept_fd_list p : refs_kept (procfs_get_fd_list p).
Proof.
  destruct p as [p|]; [|apply refs_kept_ret]. apply refs_kept_bind; [intros s; done|]. intros [e c].
  case_match; [apply refs_kept_ret|]. apply refs_kept_bind; [apply refs_kept_OSMalloc|].
  intros [|]; [|apply refs_kept_ret]. apply refs_kept_bind; [intros s; done|]. intros [e' fds].
  case_match; [|apply refs_kept_ret]. apply refs_kept_bind; [apply refs_kept_OSFree|intros; apply refs_kept_ret].
Qed.

Lemma refs_kept_emit_loop {A} startpos (mk : A -> K (option dent)) l rd :
  (forall a, refs_kept (mk a)) -> refs_kept (emit_loop startpos mk l rd).
Proof.
  intros Hm. revert rd. induction l as [|a l IH]; intros rd; [apply refs_kept_ret|]. simpl.
  apply refs_kept_bind; [apply Hm|]. intros [e|]; [|apply IH].
  destruct (emit startpos e rd) as [[] rd']; [apply refs_kept_ret|apply IH].
Qed.

Lemma refs_kept_pid_entry named base pid : refs_kept (pid_entry named base pid).
Proof.
  unfold pid_entry. destruct named; [|apply refs_kept_ret].
  apply refs_kept_proc_find; [|apply refs_kept_ret]. intros p s. by apply refs_rele.
Qed.

#[local] Opaque procfs_get_fd_list.

Lemma refs_kept_readdir_loop st pmp ctx dir startpos children known rd :
  refs_kept (readdir_loop st pmp ctx dir startpos children known rd).
Proof.
  revert known rd. induction children as [|x rest IH]; intros known rd; [apply refs_kept_ret|]. simpl.
  case_match; [apply refs_kept_ret|]. apply refs_kept_bind.
  { case_match; [apply refs_kept_ret|].
    apply refs_kept_bind; [apply balanced_refs_kept, check_proc_pid_balanced|intros; apply refs_kept_ret]. }
  intros ok. case_match; [apply IH|].
  assert (Hstatic : refs_kept match static_entry st dir x with
    | None => mret None
    | Some e => let (stop, rd') := emit startpos e rd in
        if stop then mret (Some (false, rd', known)) else readdir_loop st pmp ctx dir startpos rest known rd' end).
  { destruct (static_entry st dir x) as [e|]; [|apply refs_kept_ret].
    destruct (emit startpos e rd) as [[] rd']; [apply refs_kept_ret|apply IH]. }
  assert (Hprocs : forall named, refs_kept (
      r ← procfs_get_pids (if check_access pmp ctx then Some (ctx_ucred ctx) else None);
      e ← emit_loop startpos (pid_entry named (psn_base_node_id x)) r.1 rd;
      _ ← procfs_release_pids r.2;
      mret (Some (if (e.1 : bool) then false else bool_decide (length rest = O), e.2, known)))).
  { intros named. apply refs_kept_bind; [apply refs_kept_pids|]. intros r.
    apply refs_kept_bind; [apply refs_kept_emit_loop, refs_kept_pid_entry|]. intros e.
    apply refs_kept_bind; [apply refs_kept_OSFree|intros; apply refs_kept_ret]. }
  destruct (psn_node_type x); try apply Hstatic; try apply Hprocs; [apply refs_kept_ret| |].
  - apply refs_kept_proc_find; [|apply refs_kept_ret]. intros p s. rewrite K_bind_run.
    rewrite <- (refs_kept_thread_ids (Some p) known s). destruct (procfs_get_thread_ids_for_task (Some p) known s) as [[[error ids] kn] s1]. simpl.
    rewrite K_bind_run. rewrite refs_rele by apply refs_kept_ret. f_equal. destruct (error =? 0); [|done].
    rewrite K_bind_run. simpl. rewrite refs_kept_emit_loop; [done|]. intros a. apply refs_kept_ret.
  - apply refs_kept_proc_find; [|apply refs_kept_ret]. intros p s. rewrite K_bind_run.
    rewrite <- (refs_kept_fd_list (Some p) s). destruct (procfs_get_fd_list (Some p) s) as [[[error fds] fdlist] s1]. cbn [fst snd].
    assert (Hrel : refs_kept (procfs_release_fd_list fdlist)) by (destruct fdlist; [apply refs_kept_OSFree|apply refs_kept_ret]).
    rewrite K_bind_run, K_bind_run, refs_rele, Hrel, refs_kept_emit_loop; [done| |apply refs_kept_ret].
    intros a. apply refs_kept_ret.
Qed.

(** Whatever the processes do meanwhile and on every path, including the errors,
    a readdir call releases each process reference it takes. *)
Theorem readdir_releases_processes st pmp ctx dir tree vtype known u s :
  k_procrefs (procfs_vnop_readdir st pmp ctx dir tree vtype known u s).2 = k_procrefs s.
Proof.
  revert s. change (refs_kept (procfs_vnop_readdir st pmp ctx dir tree vtype known u)).
  unfold procfs_vnop_readdir. repeat (case_match; try apply refs_kept_ret).
  apply refs_kept_bind; [apply refs_kept_readdir_loop|]. intros [[[eof rd] kn]|]; apply refs_kept_ret.
Qed.

End Refs.

(** ** The theorems on a concrete directory *)

#[export] Instance entry_valid_dec e : Decision (entry_valid e).
Proof. unfold entry_valid, entry_ok. apply _. Defined.
#[export] Instance entry_ok_dec e : Decision (entry_ok e).
Proof. unfold entry_ok. apply _. Defined.

(** /proc/501 and /proc/501/fd, as seen by the owner of the process. *)
Definition sample_kernel : KernelOps := simple_kernel example_procs.
Definition sample_mount : pfsmount := Pfsmount 3 0 (0, 0).
Definition sample_ctx : @vfs_context sample_kernel := @VfsContext sample_kernel false (SimpleCred 501 20).
Definition sample_st : structure := procfs_tree 2.
Definition proc_dir : pfsnode := Pfsnode (Pfsid 501 0 25) 24%N.
Definition fd_dir : pfsnode := Pfsnode (Pfsid 501 0 28) 27%N.
Definition sample_listing (dir : pfsnode) : list dent :=
  default [] (@directory_listing sample_kernel sample_st sample_mount sample_ctx dir None).
Definition snode_at (n : N) : pfssnode :=
  default (Pfssnode PFSroot EmptyString 0 0 None [] 0 None None) (sn_heap sample_st !! n).

Lemma dirent_size_fits_witness : entry_size (Dent 8 1 "cmdline") mod 8 = 0.
Proof. apply (dirent_size_fits (Dent 8 1 "cmdline")). vm_compute. lia. Defined.

Lemma readdir_window_witness :
  exists u' eof known',
    value (@procfs_vnop_readdir sample_kernel _ sample_st sample_mount sample_ctx proc_dir sample_tree VDIR None
             (SimpleUio 64 100 true [] true))
      (Some (@ReaddirResult simple_uio_ops 0 u' (Some (eof, 3)), known'))
    ∧ su_offset u' = sum_size (take 5 (sample_listing proc_dir)).
Proof.
  destruct (@readdir_window sample_kernel (simple_kernel_stable _) _ simple_uio_laws sample_st sample_mount sample_ctx
    proc_dir sample_tree (snode_at 24) None (sample_listing proc_dir) 2 (SimpleUio 64 100 true [] true))
    as (u' & eof & known' & Hv & _ & Ho & _).
  - vm_compute. reflexivity.
  - vm_compute. discriminate.
  - vm_compute. reflexivity.
  - apply (bool_decide_unpack _). vm_compute. exact I.
  - reflexivity.
  - vm_compute. reflexivity.
  - apply Nat.leb_le. vm_compute. reflexivity.
  - vm_compute. reflexivity.
  - exists u', eof, known'. split; [|exact Ho]. exact Hv.
Defined.

Lemma readdir_objects_no_eof_witness :
  exists u' known', value (@procfs_vnop_readdir sample_kernel _ sample_st sample_mount sample_ctx fd_dir sample_tree VDIR None
       (SimpleUio (sum_size (sample_listing fd_dir)) 4096 true [] true))
    (Some (@ReaddirResult simple_uio_ops 0 u' (Some (false, 0)), known')) ∧ su_out u' = [].
Proof.
  apply (@readdir_objects_no_eof sample_kernel (simple_kernel_stable _) _ simple_uio_laws sample_st sample_mount sample_ctx
    fd_dir sample_tree (snode_at 27) None (sample_listing fd_dir)
    (SimpleUio (sum_size (sample_listing fd_dir)) 4096 true [] true)).
  - vm_compute. reflexivity.
  - vm_compute. discriminate.
  - vm_compute. reflexivity.
  - vm_compute. reflexivity.
  - apply (bool_decide_unpack _). vm_compute. exact I.
  - vm_compute. reflexivity.
  - reflexivity.
  - vm_compute. reflexivity.
  - reflexivity.
Defined.

Lemma readdir_complete_witness :
  let r := @readdir_calls sample_kernel sample_st sample_mount sample_ctx fd_dir sample_tree
             (replicate 5 1048%nat) 0 None (Kstate 0 0 0) in
  decode 5 r.1 = Some (sample_listing fd_dir) ∧ r.2 = sum_size (sample_listing fd_dir)
  ∧ (d_name <$> sample_listing fd_dir) = ["."; ".."; "0"; "1"; "2"]%string.
Proof.
  destruct (@readdir_complete sample_kernel (simple_kernel_stable _) sample_st sample_mount sample_ctx
    fd_dir sample_tree (snode_at 27) (sample_listing fd_dir) (replicate 5 1048%nat) None (Kstate 0 0 0))
    as [H1 H2].
  - vm_compute. reflexivity.
  - vm_compute. discriminate.
  - vm_compute. reflexivity.
  - apply (bool_decide_unpack _). vm_compute. exact I.
  - repeat constructor.
  - apply Nat.leb_le. vm_compute. reflexivity.
  - split; [exact H1|]. split; [exact H2|]. vm_compute. reflexivity.
Defined.

(** ** /proc/sys directories *)

Section SysctlListing.
Context `{UioLaws}.
Variable st : structure.
Variable dir : pfsnode.
Variable tree : sysctl_tree.

Lemma sysctl_index_loop_spec startpos dir_objectid base l fuel i rd :
  procfs_sysctl_children tree dir_objectid = Some l -> list_ok tree l ->
  let entries := List.map (sysctl_entry base) (named_children tree l) in
  (length entries - i < fuel)%nat -> rd_error rd = 0 ->
  (0 < uio_resid (rd_uio rd) ∨ startpos <= rd_nextpos rd) ->
  exists at_end, sysctl_index_loop tree fuel startpos dir_objectid base (Z.of_nat i) rd =
      Some (at_end, (emit_list startpos (drop i entries) rd).2)
    ∧ (at_end = true -> (emit_list startpos (drop i entries) rd).1 = false)
    ∧ ((emit_list startpos (drop i entries) rd).1 = false ->
       0 < uio_resid (rd_uio (emit_list startpos (drop i entries) rd).2) -> at_end = true).
Proof.
  intros Hl Hok entries. revert i rd. induction fuel as [|fuel IH]; intros i rd Hf He Hr; [lia|].
  cbn [sysctl_index_loop]. rewrite He. simpl (0 =? 0).
  destruct (Z.ltb_spec 0 (uio_resid (rd_uio rd))) as [Hpos|Hzero]; simpl andb.
  2: { exists false. destruct (drop i entries) as [|e rest]; simpl; [repeat split; intros; try done; lia|].
       pose proof (entry_size_bounds e). rewrite emit_full by (done || lia). done. }
  unfold procfs_sysctl_child_at. rewrite Hl. cbn [mbind option_bind].
  rewrite child_at_loop_spec, Z.sub_0_r, Nat2Z.id by (done || lia).
  destruct (named_children tree l !! i) as [c|] eqn:Hc.
  - assert (Hd : drop i entries = sysctl_entry base c :: drop (S i) entries).
    { apply drop_S. unfold entries. rewrite list_lookup_fmap, Hc. done. }
    rewrite Hd. cbn [emit_list]. pose proof (emit_error startpos (sysctl_entry base c) rd He) as Hem.
    destruct (emit startpos (sysctl_entry base c) rd) as [[] rd']; [by exists false|].
    destruct Hem as (Hem1 & _ & Hem3); [done|].
    replace (Z.of_nat i + 1) with (Z.of_nat (S i)) by lia. simpl in Hem1, Hem3. apply IH; [|done|].
    + apply lookup_lt_Some in Hc. unfold entries in *. rewrite List.length_map in *. lia.
    + destruct Hem3 as [|[? ->]]; [by right|by left].
  - apply lookup_ge_None in Hc. rewrite drop_ge by (unfold entries; rewrite List.length_map; lia).
    by exists true.
Qed.

Lemma named_children_length l : (length (named_children tree l) <= length l)%nat.
Proof.
  unfold named_children. induction l as [|a l IH]; [done|]. cbn.
  destruct (sysctl_oids tree !! a) as [oid|]; cbn; [|lia]. destruct (oid_name oid); cbn; lia.
Qed.

Lemma emit_list_app startpos l1 l2 rd :
  emit_list startpos (l1 ++ l2) rd =
  let (stop, rd') := emit_list startpos l1 rd in if stop then (true, rd') else emit_list startpos l2 rd'.
Proof.
  revert rd. induction l1 as [|e l IH]; intros rd; simpl; [done|].
  destruct (emit startpos e rd) as [[] rd']; [done|]. apply IH.
Qed.

Lemma emit_list_inv startpos l rd :
  rd_error rd = 0 -> (0 < uio_resid (rd_uio rd) ∨ startpos <= rd_nextpos rd) ->
  (emit_list startpos l rd).1 = false ->
  rd_error (emit_list startpos l rd).2 = 0 ∧
  (0 < uio_resid (rd_uio (emit_list startpos l rd).2) ∨ startpos <= rd_nextpos (emit_list startpos l rd).2).
Proof.
  revert rd. induction l as [|e l IH]; intros rd He Hr; simpl; [done|].
  pose proof (emit_error startpos e rd He) as Hem. destruct (emit startpos e rd) as [[] rd']; [done|].
  destruct Hem as (Hem1 & Hem2 & Hem3); [done|]. simpl in *. apply IH; [done|].
  destruct Hem3 as [|[? ->]]; [by right|]. destruct Hr; [by left|lia].
Qed.

(** The entries of a /proc/sys directory. *)
Definition sysctl_listing (self_fileid base : Z) (l : list Z) : list dent :=
  [Dent DT_DIR self_fileid "."%string; Dent DT_DIR self_fileid ".."%string]
  ++ List.map (sysctl_entry base) (named_children tree l).

(** Listing a /proc/sys directory ends, and one call at the start of entry [j]
    returns exactly the next entries that fit: ".", ".." and the named oids, in the
    order of the kernel's list; the end is reported only after the last one. *)
Theorem sysctl_readdir_window snode l j u :
  sn_heap st !! node_structure_node dir = Some snode ->
  procfs_sysctl_children tree (nodeid_objectid (node_id dir)) = Some l -> list_ok tree l ->
  let self := procfs_get_fileid (nodeid_pid (node_id dir)) (nodeid_objectid (node_id dir)) (psn_base_node_id snode) in
  let entries := sysctl_listing self (psn_base_node_id snode) l in
  Forall entry_ok entries -> uio_writable u = true -> 0 < uio_resid u ->
  (j <= length entries)%nat -> uio_offset u = sum_size (take j entries) ->
  let k := fit (uio_resid u) (drop j entries) in
  exists u' eof, procfs_sysctl_readdir st dir tree u = Some (ReaddirResult 0 u' (Some (eof, Z.of_nat k)))
    ∧ uio_out u' = uio_out u ++ encode_from (uio_offset u) (take k (drop j entries))
    ∧ uio_offset u' = sum_size (take (j + k) entries)
    ∧ (eof = true -> (j + k = length entries)%nat)
    ∧ ((j + k = length entries)%nat -> 0 < uio_resid u' -> eof = true).
Proof.
  intros Hsn Hl Hok self entries Hent Hw Hr Hj Hoff k.
  assert (Hloop : exists at_end,
    (let (stop, rd) := emit_dots (uio_offset u) self ["."; ".."]%string (Rd u 0 0 0) in
     if stop then Some (false, rd) else
     sysctl_index_loop tree (S (length l)) (uio_offset u) (nodeid_objectid (node_id dir)) (psn_base_node_id snode) 0 rd)
      = Some (at_end, (emit_list (uio_offset u) entries (Rd u 0 0 0)).2)
    ∧ (at_end = true -> (emit_list (uio_offset u) entries (Rd u 0 0 0)).1 = false)
    ∧ ((emit_list (uio_offset u) entries (Rd u 0 0 0)).1 = false ->
       0 < uio_resid (rd_uio (emit_list (uio_offset u) entries (Rd u 0 0 0)).2) -> at_end = true)).
  { set (dots := [Dent DT_DIR self "."%string; Dent DT_DIR self ".."%string]).
    assert (Ed : emit_dots (uio_offset u) self ["."; ".."]%string (Rd u 0 0 0) = emit_list (uio_offset u) dots (Rd u 0 0 0)) by done.
    rewrite Ed. unfold entries, sysctl_listing. fold dots. rewrite emit_list_app.
    pose proof (emit_list_inv (uio_offset u) dots (Rd u 0 0 0) eq_refl (or_introl Hr)) as Hinv.
    destruct (emit_list (uio_offset u) dots (Rd u 0 0 0)) as [[] rd]; [by exists false|].
    destruct Hinv as [Hi1 Hi2]; [done|]. simpl in Hi1, Hi2.
    destruct (sysctl_index_loop_spec (uio_offset u) _ (psn_base_node_id snode) l (S (length l)) 0 rd Hl Hok)
      as (at_end & E & Hrest); [|done|done|by exists at_end].
    rewrite List.length_map. pose proof (named_children_length l). lia. }
  destruct Hloop as (at_end & E & He1 & He2).
  rewrite (emit_list_skip _ entries (Rd u 0 0 0) j) in E, He1, He2 by (done || (simpl; lia)).
  cbn [rd_uio rd_num rd_error] in E, He1, He2.
  destruct (emit_list_spec (uio_offset u) (drop j entries) (Rd u (uio_offset u) 0 0)) as (u' & Es & Hadv);
    [by apply Forall_drop|done|simpl; lia|done|]. simpl in Es, Hadv. fold k in Es, Hadv.
  rewrite Es in E, He1, He2. cbn [fst snd rd_uio] in E, He1, He2. destruct Hadv as (A1 & A2 & A3).
  pose proof (fit_length (uio_resid u) (drop j entries)) as Hk. fold k in Hk. rewrite length_drop in Hk.
  exists (uio_setoffset u' (uio_offset u + sum_size (take k (drop j entries)))), at_end.
  destruct (uio_setoffset_spec u' (uio_offset u + sum_size (take k (drop j entries)))) as (S1 & S2 & S3 & _).
  split.
  { unfold procfs_sysctl_readdir, procfs_get_node_fileid. rewrite Hsn. cbn [mbind option_bind]. fold self.
    rewrite Hl. change (length (default [] (Some l))) with (length l). destruct (emit_dots _ _ _ _) as [stop rd]. cbn [mbind option_bind] in E |- *. rewrite E. done. }
  rewrite S1, S2, S3. split; [done|]. split; [by rewrite Hoff, <- sum_size_app, take_take_drop|]. split.
  - intros Heof. specialize (He1 Heof). apply bool_decide_eq_false in He1. rewrite length_drop in He1. lia.
  - intros Hall Hres. apply He2; [|done]. apply bool_decide_eq_false. rewrite length_drop. lia.
Qed.

End SysctlListing.

Lemma sysctl_readdir_window_witness :
  exists u' eof, @procfs_sysctl_readdir _ sample_st (Pfsnode (Pfsid (-1) 100 20) 19%N) sample_tree (SimpleUio 0 200 true [] true)
    = Some (@ReaddirResult simple_uio_ops 0 u' (Some (eof, 4)))
    ∧ su_offset u' = sum_size (sysctl_listing sample_tree (procfs_get_fileid (-1) 100 20) 20 [101; 102]).
Proof.
  destruct (@sysctl_readdir_window _ simple_uio_laws sample_st (Pfsnode (Pfsid (-1) 100 20) 19%N) sample_tree
    (snode_at 19) [101; 102] 0 (SimpleUio 0 200 true [] true)) as (u' & eof & E & _ & Ho & _).
  - vm_compute. reflexivity.
  - vm_compute. reflexivity.
  - repeat constructor; by eexists.
  - apply (bool_decide_unpack _). vm_compute. exact I.
  - reflexivity.
  - reflexivity.
  - apply Nat.leb_le. vm_compute. reflexivity.
  - reflexivity.
  - exists u', eof. split; [exact E|]. etrans; [exact Ho|]. vm_compute. reflexivity.
Defined.
