(* ===== verification/Lookup.v ===== *)
(** * Name lookup (procfs_vnop_lookup, kext/procfs_vnops.c)

    A name is matched against the children of the directory's layout entry, in
    order; the entries that stand for processes, threads and descriptors match
    numbers.  The result is the request made to the node table
    ([procfsnode_find], module Node), with which the operation ends. *)

From S2P Require Import Prelude Kernel Structure Subr Node Sysctl Readdir.

(** ** The operation *)

(** The component looked up: its text, of [cn_namelen] characters, and whether the
    kernel has marked it as the parent directory. *)
Record componentname := Componentname { cn_name : string; cn_isdotdot : bool }.

Definition NAME_MAX : nat := 255.

(** How a lookup ends. *)
Inductive lookup_result : Set :=
| LookupError (error : Z)
| LookupSelf                                        (** the directory, with a new iocount *)
| LookupFind (id : pfsid) (snode : option N) (with_parent : bool).  (** procfsnode_find *)

(** The match of a name with the children. *)
Inductive lookup_match : Set :=
| Match (snode : N) (id : pfsid)
| NoMatch
| MatchError (error : Z).

Section Lookup.
Context `{KernelOps}.
Variable st : structure.
Variable pmp : pfsmount.
Variable ctx : vfs_context.
Variable dir : pfsnode.

(** An entry of type [PFSfd]: an open descriptor of the directory's process. *)
Definition match_fd (c : N) (x : pfssnode) (name : string) : K lookup_match :=
  let pid := nodeid_pid (node_id dir) in
  let id := (procfs_atoi name).1 in
  if id =? -1 then mret (MatchError ENOENT) else
  p ← proc_find pid;
  match p with
  | None => mret (MatchError ENOENT)
  | Some p =>
    r ← procfs_get_fd_list (Some p);
    let '(error, fds, fdlist) := r in
    let valid := (error =? 0) && existsb (λ fd, fd =? id) fds in
    _ ← procfs_release_fd_list fdlist;
    _ ← proc_rele p;
    mret (if valid then Match c (Pfsid pid (u64 id) (psn_base_node_id x)) else MatchError ENOENT)
  end.

(** The checks on a process that was found: its full name, the caller's rights, the
    thread.  The remembered thread structure size is returned too. *)
Definition match_process (c : N) (x : pfssnode) (name : string) (id : pfsid) (known : option Z) (p : proc_t) :
    K (lookup_match * option Z) :=
  let t := psn_node_type x in
  if bool_decide (t = PFSprocnamedir) && negb (String.eqb name (procfs_construct_process_dir_name p))
  then mret (MatchError ENOENT, known)
  else if check_access pmp ctx && negb (procfs_check_can_access_process (ctx_ucred ctx) p =? 0)
  then mret (MatchError ENOENT, known)
  else if bool_decide (t = PFSthread) then
    r ← procfs_get_thread_ids_for_task (Some p) known;
    let '(result, thread_ids, known) := r in
    if result =? KERN_SUCCESS then
      let found := existsb (λ tid, tid =? nodeid_objectid id) thread_ids in
      _ ← procfs_release_thread_ids (Z.of_nat (length thread_ids));
      mret (if found then Match c id else MatchError ENOENT, known)
    else mret (MatchError ENOENT, known)
  else mret (Match c id, known).

(** The TAILQ_FOREACH over the children. *)
Fixpoint lookup_loop (name : string) (children : list N) (known : option Z) : K (lookup_match * option Z) :=
  match children with
  | [] => mret (NoMatch, known)
  | c :: rest =>
    match sn_heap st !! c with
    | None => mret (NoMatch, known)
    | Some x =>
      let dir_pid := nodeid_pid (node_id dir) in
      let dir_objectid := nodeid_objectid (node_id dir) in
      if String.eqb name (psn_name x) then
        mret (Match c (Pfsid dir_pid dir_objectid (psn_base_node_id x)), known)
      else
        match psn_node_type x with
        | PFSfd => m ← match_fd c x name; mret (m, known)
        | PFSproc | PFSprocnamedir | PFSthread =>
          let t := psn_node_type x in
          let '(id, endp) := procfs_atoi name in
          if negb (bool_decide (t = PFSprocnamedir)) && negb (String.eqb endp EmptyString)
          then lookup_loop name rest known
          else if id =? -1 then lookup_loop name rest known
          else
            let match_id := Pfsid (if bool_decide (t = PFSthread) then dir_pid else id)
                                  (if bool_decide (t = PFSthread) then u64 id else dir_objectid)
                                  (psn_base_node_id x) in
            p ← proc_find (nodeid_pid match_id);
            match p with
            | None => mret (MatchError ENOENT, known)
            | Some p => r ← match_process c x name match_id known p; _ ← proc_rele p; mret r
            end
        | _ => lookup_loop name rest known
        end
    end
  end.

Variable tree : sysctl_tree.

Definition lookup_children (dir_snode : pfssnode) (name : string) (known : option Z) :
    K (lookup_match * option Z) :=
  if bool_decide (psn_node_type dir_snode = PFSsysctl) then
    mret (match procfs_sysctl_find tree (nodeid_objectid (node_id dir)) name with
          | Some child => Match (node_structure_node dir)
                            (Pfsid PRNODE_NO_PID child (psn_base_node_id dir_snode))
          | None => NoMatch
          end, known)
  else lookup_loop name (psn_children dir_snode) known.

(** [None] where the source would follow a NULL pointer. *)
Definition procfs_vnop_lookup (vtype : vtype) (cnp : componentname) (known : option Z) :
    K (option (lookup_result * option Z)) :=
  if negb (bool_decide (vtype = VDIR)) || (String.length (cn_name cnp) <? 1)%nat
  then mret (Some (LookupError EINVAL, known)) else
  let name := strlcpy (Nat.min (NAME_MAX + 1) (String.length (cn_name cnp) + 1)) (cn_name cnp) in
  match sn_heap st !! node_structure_node dir with
  | None => mret None
  | Some dir_snode =>
    if cn_isdotdot cnp then
      mret (id ← procfs_get_parent_node_id st (Some (node_structure_node dir)) (node_id dir);
            Some (LookupFind id (psn_parent dir_snode) false, known))
    else if (String.length (cn_name cnp) =? 1)%nat && String.prefix "." name then
      mret (Some (LookupSelf, known))
    else
      r ← lookup_children dir_snode name known;
      mret (Some (match r.1 with
                  | Match c id => LookupFind id (Some c) true
                  | NoMatch => LookupError ENOENT
                  | MatchError e => LookupError e
                  end, r.2))
  end.

End Lookup.

(** ** Process references and access *)

Section LookupSafety.
Context `{KernelOps}.
Variable st : structure.
Variable pmp : pfsmount.
Variable ctx : vfs_context.
Variable dir : pfsnode.
Variable tree : sysctl_tree.

Lemma refs_kept_match_process c x name id known p :
  refs_kept (match_process pmp ctx c x name id known p).
Proof.
  unfold match_process. repeat (case_match; try apply refs_kept_ret).
  apply refs_kept_bind; [apply refs_kept_thread_ids|]. intros [[result ids] kn].
  case_match; [|apply refs_kept_ret].
  apply refs_kept_bind; [apply refs_kept_OSFree|intros; apply refs_kept_ret].
Qed.

Lemma refs_kept_match_fd c x name : refs_kept (match_fd dir c x name).
Proof.
  unfold match_fd. case_match; [apply refs_kept_ret|].
  apply refs_kept_proc_find; [|apply refs_kept_ret]. intros p s. rewrite K_bind_run.
  rewrite <- (refs_kept_fd_list (Some p) s). destruct (procfs_get_fd_list (Some p) s) as [[[e fds] fdlist] s1].
  cbn [fst snd]. rewrite K_bind_run, refs_rele by apply refs_kept_ret. f_equal.
  destruct fdlist; [apply refs_kept_OSFree|apply refs_kept_ret].
Qed.

Lemma refs_kept_lookup_loop name children known :
  refs_kept (lookup_loop st pmp ctx dir name children known).
Proof.
  induction children as [|c rest IH]; [apply refs_kept_ret|]. cbn [lookup_loop].
  destruct (sn_heap st !! c) as [x|]; [|apply refs_kept_ret]. case_match; [apply refs_kept_ret|].
  assert (Hproc : refs_kept (let '(id, endp) := procfs_atoi name in
    if negb (bool_decide (psn_node_type x = PFSprocnamedir)) && negb (String.eqb endp EmptyString)
    then lookup_loop st pmp ctx dir name rest known
    else if id =? -1 then lookup_loop st pmp ctx dir name rest known else
    let match_id := Pfsid (if bool_decide (psn_node_type x = PFSthread) then nodeid_pid (node_id dir) else id)
      (if bool_decide (psn_node_type x = PFSthread) then u64 id else nodeid_objectid (node_id dir)) (psn_base_node_id x) in
    p ← proc_find (nodeid_pid match_id);
    match p with
    | None => mret (MatchError ENOENT, known)
    | Some p => r ← match_process pmp ctx c x name match_id known p; _ ← proc_rele p; mret r
    end)).
  { destruct (procfs_atoi name) as [id endp]. case_match; [apply IH|]. case_match; [apply IH|].
    apply refs_kept_proc_find; [|apply refs_kept_ret]. intros p s.
    rewrite K_bind_run, refs_rele by apply refs_kept_ret. by rewrite refs_kept_match_process. }
  destruct (psn_node_type x) eqn:Hty; try apply IH; try apply Hproc.
  apply refs_kept_bind; [apply refs_kept_match_fd|intros; apply refs_kept_ret].
Qed.

(** Whatever happens meanwhile and on every path, including the errors, a lookup
    releases each process reference it takes. *)
Theorem lookup_releases_processes vtype cnp known s :
  k_procrefs (procfs_vnop_lookup st pmp ctx dir tree vtype cnp known s).2 = k_procrefs s.
Proof.
  revert s. change (refs_kept (procfs_vnop_lookup st pmp ctx dir tree vtype cnp known)).
  unfold procfs_vnop_lookup, lookup_children. repeat (case_match; try apply refs_kept_ret).
  apply refs_kept_bind; [apply refs_kept_lookup_loop|intros; apply refs_kept_ret].
Qed.

(** A process the caller is allowed to see. *)
Definition may_see (pid : Z) : Prop :=
  exists t p, proc_find_at t pid = Some p
    ∧ (check_access pmp ctx = true -> procfs_check_can_access_process (ctx_ucred ctx) p = 0).

Lemma match_process_access c x name id known p s c' id' known' :
  (match_process pmp ctx c x name id known p s).1 = (Match c' id', known') ->
  c' = c ∧ id' = id ∧ (check_access pmp ctx = true -> procfs_check_can_access_process (ctx_ucred ctx) p = 0).
Proof.
  unfold match_process. case_match; [done|].
  destruct (check_access pmp ctx) eqn:Ec; simpl.
  - destruct (Z.eqb_spec (procfs_check_can_access_process (ctx_ucred ctx) p) 0) as [E|E]; simpl; [|done].
    case_match; [|intros [= <- <- _]; done]. rewrite K_bind_run.
    destruct (procfs_get_thread_ids_for_task (Some p) known s) as [[[r ids] kn] s1]. cbn [fst snd].
    case_match; [|done]. rewrite K_bind_run. simpl. case_match; [|done]. by intros [= <- <- _].
  - case_match; [|intros [= <- <- _]; done]. rewrite K_bind_run.
    destruct (procfs_get_thread_ids_for_task (Some p) known s) as [[[r ids] kn] s1]. cbn [fst snd].
    case_match; [|done]. rewrite K_bind_run. simpl. case_match; [|done]. by intros [= <- <- _].
Qed.

Lemma process_step c x name id known s c' id' known' :
  ((p ← proc_find (nodeid_pid id);
    match p with
    | None => mret (MatchError ENOENT, known)
    | Some p => r ← match_process pmp ctx c x name id known p; _ ← proc_rele p; mret r
    end) s).1 = (Match c' id', known') ->
  c' = c ∧ id' = id ∧ may_see (nodeid_pid id).
Proof.
  rewrite K_bind_run. destruct (proc_find (nodeid_pid id) s) as [[p|] s1] eqn:E; cbn [fst snd]; [|done].
  apply proc_find_some in E. rewrite !K_bind_run. intros Hm.
  apply match_process_access in Hm as (-> & -> & Ha). split; [done|]. split; [done|]. by eexists _, p.
Qed.

Lemma match_fd_id c x name s c' id :
  (match_fd dir c x name s).1 = Match c' id ->
  c' = c ∧ nodeid_pid id = nodeid_pid (node_id dir) ∧ nodeid_base_id id = psn_base_node_id x
  ∧ nodeid_objectid id = u64 (procfs_atoi name).1.
Proof.
  unfold match_fd. case_match; [done|]. rewrite K_bind_run. destruct (proc_find _ s) as [[p|] s1]; cbn [fst snd]; [|done].
  rewrite K_bind_run. destruct (procfs_get_fd_list (Some p) s1) as [[[e fds] fdlist] s2]. cbn [fst snd].
  rewrite !K_bind_run. simpl. case_match; [|done]. by intros [= <- <-].
Qed.

(** What a match stands for. *)
Lemma lookup_loop_match name children known s c id known' :
  (lookup_loop st pmp ctx dir name children known s).1 = (Match c id, known') ->
  exists x, c ∈ children ∧ sn_heap st !! c = Some x ∧ nodeid_base_id id = psn_base_node_id x
    ∧ (nodeid_pid id = nodeid_pid (node_id dir)
       ∨ (psn_node_type x = PFSproc ∨ psn_node_type x = PFSprocnamedir) ∧ may_see (nodeid_pid id))
    ∧ (nodeid_objectid id = nodeid_objectid (node_id dir)
       ∨ (psn_node_type x = PFSthread ∨ psn_node_type x = PFSfd)).
Proof.
  revert s. induction children as [|c0 rest IH]; intros s; [done|]. cbn [lookup_loop].
  destruct (sn_heap st !! c0) as [x|] eqn:Hx; [|done].
  assert (Hin : c0 ∈ c0 :: rest) by constructor.
  assert (Hrest : forall s0, (lookup_loop st pmp ctx dir name rest known s0).1 = (Match c id, known') ->
    exists x, c ∈ c0 :: rest ∧ sn_heap st !! c = Some x ∧ nodeid_base_id id = psn_base_node_id x
    ∧ (nodeid_pid id = nodeid_pid (node_id dir)
       ∨ (psn_node_type x = PFSproc ∨ psn_node_type x = PFSprocnamedir) ∧ may_see (nodeid_pid id))
    ∧ (nodeid_objectid id = nodeid_objectid (node_id dir)
       ∨ (psn_node_type x = PFSthread ∨ psn_node_type x = PFSfd))).
  { intros s0 Hm. destruct (IH s0 Hm) as (x0 & ? & ?). exists x0. split; [by constructor|done]. }
  case_match.
  { intros [= <- <- _]. exists x. simpl. auto 10. }
  destruct (psn_node_type x) eqn:Hty; try apply Hrest.
  - destruct (procfs_atoi name) as [i endp]. case_match; [apply Hrest|]. case_match; [apply Hrest|].
    intros Hm. apply process_step in Hm as (-> & -> & Hsee). exists x. simpl in *. auto 10.
  - destruct (procfs_atoi name) as [i endp]. case_match; [apply Hrest|]. case_match; [apply Hrest|].
    intros Hm. apply process_step in Hm as (-> & -> & Hsee). exists x. simpl in *. auto 10.
  - destruct (procfs_atoi name) as [i endp]. case_match; [apply Hrest|]. case_match; [apply Hrest|].
    intros Hm. apply process_step in Hm as (-> & -> & Hsee). exists x. simpl in *. auto 10.
  - rewrite K_bind_run. cbn. intros [= Hm _]. apply match_fd_id in Hm as (-> & ? & ? & ?). exists x. auto 10.
Qed.

(** No lookup leads to a process that the caller may not see: if a name resolves to
    a node of another process than the directory's, then a process of that pid
    existed during the call and, unless the caller is the superuser or the mount has
    the noprocperms option, the caller's credentials give access to it. *)
Theorem lookup_process_accessible vtype cnp known s id sn wp known' dir_snode :
  sn_heap st !! node_structure_node dir = Some dir_snode -> psn_node_type dir_snode ≠ PFSsysctl ->
  cn_isdotdot cnp = false ->
  (procfs_vnop_lookup st pmp ctx dir tree vtype cnp known s).1 = Some (LookupFind id sn wp, known') ->
  nodeid_pid id ≠ nodeid_pid (node_id dir) -> may_see (nodeid_pid id).
Proof.
  intros Hsn Hty Hdd. unfold procfs_vnop_lookup. case_match; [done|]. rewrite Hsn, Hdd. case_match; [done|].
  rewrite K_bind_run. unfold lookup_children. rewrite bool_decide_eq_false_2 by done. cbn [fst snd mret K_ret].
  destruct (lookup_loop st pmp ctx dir _ _ known s) as [[m kn] s1] eqn:E. cbn [fst snd].
  destruct m as [c i| |e]; [|done..]. intros [= <- _ _] Hne.
  destruct (lookup_loop_match (strlcpy (Nat.min (NAME_MAX + 1) (String.length (cn_name cnp) + 1)) (cn_name cnp))
    (psn_children dir_snode) known s c i kn) as (x & _ & _ & _ & Hp & _); [by rewrite E|]. naive_solver.
Qed.

End LookupSafety.

(** ** The parent directory *)

(** Processes are listed outside of processes, threads and descriptors outside of
    threads. *)
Definition children_flags_ok (st : structure) (dx : pfssnode) : bool :=
  forallb (λ c, match sn_heap st !! c with
                | None => true
                | Some x =>
                  match psn_node_type x with
                  | PFSproc | PFSprocnamedir => Z.land (psn_flags dx) PSN_FLAG_PROCESS =? 0
                  | PFSthread | PFSfd => Z.land (psn_flags dx) PSN_FLAG_THREAD =? 0
                  | _ => true
                  end
                end) (psn_children dx).

Section Parent.
Context `{KernelOps}.

(** The parent directory: if a name is found in a directory, then looking up ".." in
    what was found asks the node table for that directory again, with the id and the
    layout entry it was reached with. *)
Theorem lookup_dotdot st pmp ctx dir tree vtype cnp known s id c wp known' dx :
  structure_wf st -> sn_heap st !! node_structure_node dir = Some dx -> psn_node_type dx ≠ PFSsysctl ->
  id_fits dx (node_id dir) -> children_flags_ok st dx = true -> cn_isdotdot cnp = false ->
  (procfs_vnop_lookup st pmp ctx dir tree vtype cnp known s).1 = Some (LookupFind id (Some c) wp, known') ->
  forall s' known0,
  (procfs_vnop_lookup st pmp ctx (Pfsnode id c) tree VDIR (Componentname ".." true) known0 s').1 =
  Some (LookupFind (node_id dir) (Some (node_structure_node dir)) false, known0).
Proof.
  intros Hwf Hsn Hty Hfit Hflags Hdd. unfold procfs_vnop_lookup at 1. case_match; [done|]. rewrite Hsn, Hdd.
  case_match; [done|]. rewrite K_bind_run. unfold lookup_children.
  rewrite bool_decide_eq_false_2 by done. cbn [fst snd mret K_ret].
  destruct (lookup_loop st pmp ctx dir _ _ known s) as [[m kn] s1] eqn:E. cbn [fst snd].
  destruct m as [c' i| |e]; [|done..]. intros [= -> -> _ _] s' known0.
  destruct (lookup_loop_match st pmp ctx dir (strlcpy (Nat.min (NAME_MAX + 1) (String.length (cn_name cnp) + 1)) (cn_name cnp))
    (psn_children dx) known s c id kn) as (x & Hin & Hx & Hb & Hp & Ho); [by rewrite E|].
  destruct (wf_child _ Hwf _ _ _ Hsn Hin) as (x' & Ex & Hpar). simplify_eq.
  assert (Hfl : match psn_node_type x with
                | PFSproc | PFSprocnamedir => Z.land (psn_flags dx) PSN_FLAG_PROCESS = 0
                | PFSthread | PFSfd => Z.land (psn_flags dx) PSN_FLAG_THREAD = 0
                | _ => True end).
  { unfold children_flags_ok in Hflags. rewrite forallb_forall in Hflags.
    specialize (Hflags c (proj1 (list_elem_of_In _ _) Hin)). rewrite Hx in Hflags.
    destruct (psn_node_type x); try done; by apply Z.eqb_eq. }
  unfold procfs_vnop_lookup. simpl. rewrite Hx. simpl.
  assert (Hid : procfs_get_parent_node_id st (Some c) id = Some (node_id dir)).
  { apply (parent_node_id_of_child st (node_structure_node dir) dx c x (node_id dir) id); try done.
    - intros Hn. destruct Hp as [|[[Ht|Ht] _]]; [done|rewrite Ht in Hfl; done..].
    - intros Hn. destruct Ho as [|[Ht|Ht]]; [done|rewrite Ht in Hfl; done..]. }
  unfold procfs_get_parent_node_id in Hid. simpl in Hid. rewrite Hx in Hid. simpl in Hid. rewrite Hid. simpl.
  by rewrite Hpar.
Qed.

End Parent.

(** ** Names that are listed *)

Definition starts_digit (s : string) : bool :=
  match s with String c _ => match digit_of c with Some _ => true | None => false end | EmptyString => false end.

(** What lookup needs of the children of a directory: the names are distinct and do not
    start with a digit; "." and ".." are the entries of their types; the entry that
    stands for other objects, if any, is the last one. *)
Fixpoint dir_ok (st : structure) (seen : list string) (cs : list N) : bool :=
  match cs with
  | [] => true
  | c :: rest =>
    match sn_heap st !! c with
    | None => false
    | Some x =>
      negb (bool_decide (psn_name x ∈ seen)) && negb (starts_digit (psn_name x))
      && match psn_node_type x with
         | PFSdirthis => String.eqb (psn_name x) "."
         | PFSdirparent => String.eqb (psn_name x) ".."
         | _ => true
         end
      && (if is_dynamic_type (psn_node_type x) then bool_decide (length rest = O)
          else negb (bool_decide (psn_node_type x = PFSroot)) && dir_ok st (psn_name x :: seen) rest)
    end
  end.

(** Every directory of the layout is of that form. *)
Definition dirs_ok (st : structure) : bool :=
  forallb (λ '(_, x), dir_ok st [] (psn_children x) && children_flags_ok st x) (map_to_list (sn_heap st)).

Lemma procfs_tree_dirs_ok n : dirs_ok (procfs_tree n) = true.
Proof. vm_compute. reflexivity. Qed.

Section Listed.
Context `{KernelOps} `{!KernelStable}.
Variable st : structure.
Variable pmp : pfsmount.
Variable ctx : vfs_context.
Variable dir : pfsnode.

(** Object ids that fit the [int] a name is parsed into. *)
Definition objects_small (known : option Z) : Prop :=
  forall p, proc_find_at 0 (nodeid_pid (node_id dir)) = Some p ->
    (forall ids, thread_ids_of known p = Some ids -> Forall (λ t, 0 <= t <= INT_MAX) ids)
    ∧ Forall (λ fd, 0 <= fd <= INT_MAX) (fds_of p).

Lemma fmt_d_starts_digit z t : 0 <= z -> starts_digit (fmt_d z +:+ t) = true.
Proof.
  intros Hz. destruct (fmt_d_digits z Hz) as (Hd & _ & Hn). unfold all_digits in Hd.
  destruct (fmt_d z) as [|c s]; [done|]. change ((String c s +:+ t)) with (String c (s +:+ t)).
  simpl in Hd |- *. by destruct (digit_of c).
Qed.

Lemma string_app_empty (s : string) : s +:+ "" = s.
Proof. induction s as [|c s IH]; [done|]. exact (f_equal (String c) IH). Qed.

Lemma string_app_assoc (a b c : string) : a +:+ (b +:+ c) = (a +:+ b) +:+ c.
Proof. induction a as [|x a IH]; [done|]. exact (f_equal (String x) IH). Qed.

(** A number followed by something that is not a digit. *)
Lemma atoi_fmt_d_suffix z t :
  0 <= z <= INT_MAX -> starts_digit t = false -> procfs_atoi (fmt_d z +:+ t) = (z, t).
Proof.
  intros Hz Ht. destruct (fmt_d_digits z) as (Hd & Hv & Hn); [lia|].
  rewrite procfs_atoi_value_lemma, span_digits_app_l by done.
  assert (Hs : span_digits t = (EmptyString, t)).
  { destruct t as [|c t]; [done|]. simpl in Ht |- *. by destruct (digit_of c). }
  assert (Hval : decimal_value z t = z).
  { destruct t as [|c t]; [done|]. simpl in Ht |- *. by destruct (digit_of c). }
  rewrite Hs. simpl. rewrite string_app_empty, decimal_value_app, Hv, Hval by done.
  destruct (String.eqb_spec (fmt_d z) ""); [done|].
  by rewrite s32_small by (unfold INT_MIN, INT_MAX in *; lia).
Qed.

Lemma pid_dent_name named base pid e :
  0 <= pid <= 99999 -> pid_dent named base pid = Some e ->
  exists t, d_name e = fmt_d pid +:+ t ∧ starts_digit t = false ∧ (named = false -> t = EmptyString).
Proof.
  intros Hr Hd. unfold pid_dent in Hd.
  pose proof (fmt_d_length 5 pid ltac:(lia) ltac:(change (10 ^ Z.of_nat 5) with 100000; lia)) as Hlen.
  destruct named; simpl in Hd.
  - destruct (proc_find_at 0 pid) as [p|] eqn:Hf; simpl in Hd; [|done]. injection Hd as <-. simpl.
    unfold procfs_construct_process_dir_name. rewrite (stable_pid 0 pid p Hf). unfold snprintf. rewrite strlcpy_fits.
    + rewrite <- string_app_assoc. eexists. split; [reflexivity|]. done.
    + rewrite string_length_app. unfold PROCESS_NAME_SIZE, MAXCOMLEN. simpl (String.length " "). lia.
  - injection Hd as <-. exists EmptyString. simpl. rewrite string_app_empty. split; [|done].
    apply strlcpy_fits. unfold PROCESS_NAME_SIZE, MAXCOMLEN. lia.
Qed.

Lemma fd_dent_name pid base fd : 0 <= fd <= INT_MAX -> d_name (fd_dent pid base fd) = fmt_d fd.
Proof.
  intros Hr. apply strlcpy_fits. unfold INT_MAX in Hr.
  pose proof (fmt_d_length 10 fd ltac:(lia) ltac:(change (10 ^ Z.of_nat 10) with 10000000000; lia)).
  unfold PROCESS_NAME_SIZE, MAXCOMLEN. lia.
Qed.

Lemma thread_dent_name pid base tid : 0 <= tid <= INT_MAX -> d_name (thread_dent pid base tid) = fmt_d tid.
Proof.
  intros Hr. unfold INT_MAX in Hr. unfold thread_dent. cbn [d_name]. rewrite s64_small by lia. by apply (fd_dent_name 0 0).
Qed.

Lemma pid_list_names named base l e :
  Forall (λ pid, 0 <= pid <= 99999) l -> e ∈ omap (pid_dent named base) l -> starts_digit (d_name e) = true.
Proof.
  intros Hl (pid & Hp & Hd)%list_elem_of_omap. pose proof (proj1 (Forall_forall _ _) Hl pid Hp) as Hr.
  destruct (pid_dent_name named base pid e Hr Hd) as (t & -> & _). apply fmt_d_starts_digit, Hr.
Qed.

Lemma pid_dents_name named base e : e ∈ pid_dents pmp ctx named base -> starts_digit (d_name e) = true.
Proof. exact (pid_list_names named base _ e (visible_pids_range _)). Qed.

Lemma dynamic_names known x l e :
  objects_small known -> dynamic_entries pmp ctx dir known x = Some l -> e ∈ l -> starts_digit (d_name e) = true.
Proof.
  intros Hsm Hl He. unfold dynamic_entries in Hl.
  pose proof (fun named base => pid_dents_name named base e) as Hpid.
  destruct (psn_node_type x); try done.
  - injection Hl as <-. eauto.
  - destruct (proc_find_at 0 _) as [p|] eqn:Hp; simpl in Hl; [|done].
    destruct (thread_ids_of known p) as [ids|] eqn:Hi; simpl in Hl; [|done]. injection Hl as <-.
    apply list_elem_of_In, in_map_iff in He as (t & <- & Ht%list_elem_of_In).
    destruct (Hsm p Hp) as [Hs _]. pose proof (proj1 (Forall_forall _ _) (Hs ids Hi) t Ht) as Hr.
    rewrite thread_dent_name, <- (string_app_empty (fmt_d t)) by done. apply fmt_d_starts_digit, Hr.
  - injection Hl as <-. eauto.
  - destruct (proc_find_at 0 _) as [p|] eqn:Hp; simpl in Hl; [|done]. injection Hl as <-.
    apply list_elem_of_In, in_map_iff in He as (t & <- & Ht%list_elem_of_In).
    destruct (Hsm p Hp) as [_ Hs]. pose proof (proj1 (Forall_forall _ _) Hs t Ht) as Hr.
    rewrite fd_dent_name, <- (string_app_empty (fmt_d t)) by done. apply fmt_d_starts_digit, Hr.
Qed.

Lemma listing_names known seen cs l e :
  objects_small known -> dir_ok st seen cs = true -> Forall (λ s, starts_digit s = false) seen ->
  listing st pmp ctx dir known (omap (λ c, sn_heap st !! c) cs) = Some l -> e ∈ l -> d_name e ∉ seen.
Proof.
  intros Hsm. revert seen l. induction cs as [|c cs IH]; intros seen l Hd Hseen Hl He.
  { simpl in Hl. injection Hl as <-. by apply elem_of_nil in He. }
  cbn in Hd, Hl. destruct (sn_heap st !! c) as [x|]; [|done]. cbn in Hl.
  apply andb_true_iff in Hd as [[[Hd1 Hd2]%andb_true_iff Hd3]%andb_true_iff Hd4].
  apply negb_true_iff, bool_decide_eq_false in Hd1. apply negb_true_iff in Hd2.
  destruct (is_dynamic_type (psn_node_type x)).
  - pose proof (dynamic_names known x l e Hsm Hl He) as Hdig. intros Hin.
    rewrite (proj1 (Forall_forall _ _) Hseen _ Hin) in Hdig. done.
  - apply andb_true_iff in Hd4 as [Hd4 Hd5]. rewrite bool_decide_eq_false_2 in Hl
      by (by apply negb_true_iff, bool_decide_eq_false in Hd4).
    unfold static_entry in Hl. destruct (entry_node_id st dir x) as [i|]; cbn in Hl; [|done].
    destruct (listing st pmp ctx dir known _) as [l'|] eqn:El; cbn in Hl; [|done]. injection Hl as <-.
    apply elem_of_cons in He as [->|He]; [done|].
    intros Hin. eapply (IH (psn_name x :: seen) l'); eauto; by constructor.
Qed.

Definition fileid_of (id : pfsid) : Z := procfs_get_fileid (nodeid_pid id) (nodeid_objectid id) (nodeid_base_id id).

Lemma lookup_skip name c x rest known :
  sn_heap st !! c = Some x -> name ≠ psn_name x -> is_dynamic_type (psn_node_type x) = false ->
  lookup_loop st pmp ctx dir name (c :: rest) known = lookup_loop st pmp ctx dir name rest known.
Proof.
  intros Hx Hne Hdyn. cbn [lookup_loop]. rewrite Hx. destruct (String.eqb_spec name (psn_name x)); [done|].
  by destruct (psn_node_type x).
Qed.

(** A numeric name at an entry for processes or threads. *)
Lemma lookup_number name c x rest known z t p m :
  sn_heap st !! c = Some x -> name ≠ psn_name x -> 0 <= z -> procfs_atoi name = (z, t) ->
  (psn_node_type x = PFSprocnamedir ∨ (psn_node_type x = PFSproc ∨ psn_node_type x = PFSthread) ∧ t = EmptyString) ->
  let thread := bool_decide (psn_node_type x = PFSthread) in
  let id := Pfsid (if thread then nodeid_pid (node_id dir) else z)
                  (if thread then u64 z else nodeid_objectid (node_id dir)) (psn_base_node_id x) in
  proc_find_at 0 (nodeid_pid id) = Some p ->
  value (match_process pmp ctx c x name id known p) m ->
  value (lookup_loop st pmp ctx dir name (c :: rest) known) m.
Proof.
  intros Hx Hne Hz Hat Hty thread id Hp Hm. cbn [lookup_loop]. rewrite Hx.
  destruct (String.eqb_spec name (psn_name x)); [done|]. rewrite Hat.
  assert (Hgo : value (p ← proc_find (nodeid_pid id);
     match p with
     | None => mret (MatchError ENOENT, known)
     | Some p => r ← match_process pmp ctx c x name id known p; _ ← proc_rele p; mret r
     end) m).
  { eapply value_bind; [apply value_proc_find|]. rewrite Hp.
    eapply value_bind; [exact Hm|]. apply value_unit, value_ret. }
  assert (Hneg : (z =? -1) = false) by (apply Z.eqb_neq; lia).
  subst id thread. destruct Hty as [Hty|[[Hty|Hty] ->]]; rewrite Hty in *; simpl in *; rewrite Hneg; exact Hgo.
Qed.

Lemma lookup_pid (named : bool) (base : Z) (e : dent) (c : N) (x : pfssnode) rest known creds :
  sn_heap st !! c = Some x -> psn_name x ≠ d_name e -> psn_base_node_id x = base ->
  psn_node_type x = (if named then PFSprocnamedir else PFSproc) ->
  creds = (if check_access pmp ctx then Some (ctx_ucred ctx) else None) ->
  nodeid_objectid (node_id dir) = PRNODE_NO_OBJECTID ->
  e ∈ omap (pid_dent named base) (visible_pids creds) ->
  exists id, value (lookup_loop st pmp ctx dir (d_name e) (c :: rest) known) (Match c id, known)
    ∧ fileid_of id = d_ino e ∧ is_Some (proc_find_at 0 (nodeid_pid id)).
Proof.
  intros Hx Hne Hbase Hty Hcreds Hobj (pid & Hp & Hd)%list_elem_of_omap.
  pose proof (proj1 (Forall_forall _ _) (visible_pids_range creds) pid Hp) as Hr. cbv beta in Hr.
  destruct (visible_pid_facts creds pid Hp) as (_ & p & Hf & Hcan).
  destruct (pid_dent_name named base pid e Hr Hd) as (t & Hname & Ht & Ht0).
  assert (Hat : procfs_atoi (d_name e) = (pid, t)).
  { rewrite Hname. apply atoi_fmt_d_suffix; [unfold INT_MAX; lia|done]. }
  assert (Hdent : d_ino e = procfs_get_fileid pid PRNODE_NO_OBJECTID base
                  ∧ (named = true -> d_name e = procfs_construct_process_dir_name p)).
  { unfold pid_dent in Hd. rewrite Hf in Hd. destruct named; simpl in Hd; injection Hd as <-; done. }
  destruct Hdent as [Hino Hfull].
  assert (Hacc : check_access pmp ctx && negb (procfs_check_can_access_process (ctx_ucred ctx) p =? 0) = false).
  { destruct (check_access pmp ctx) eqn:Hc; [|done]. subst creds. simpl in Hcan |- *. by rewrite Hcan. }
  exists (Pfsid pid PRNODE_NO_OBJECTID base). split; [|split; [done|by exists p]].
  eapply (lookup_number _ _ _ _ _ pid t p); try done; [lia| | |].
  - destruct named; [by left|right]. split; [by left|]. by apply Ht0.
  - rewrite Hty. destruct named; simpl; exact Hf.
  - unfold match_process. rewrite Hty, Hbase, Hacc, Hobj.
    destruct named; simpl; [rewrite <- Hfull by done; rewrite String.eqb_refl|]; apply value_ret.
Qed.

Lemma lookup_thread (e : dent) c (x : pfssnode) rest known p ids :
  sn_heap st !! c = Some x -> psn_name x ≠ d_name e -> psn_node_type x = PFSthread ->
  proc_find_at 0 (nodeid_pid (node_id dir)) = Some p -> thread_ids_of known p = Some ids ->
  Forall (λ t, 0 <= t <= INT_MAX) ids ->
  (check_access pmp ctx = true -> procfs_check_can_access_process (ctx_ucred ctx) p = 0) ->
  e ∈ List.map (thread_dent (nodeid_pid (node_id dir)) (psn_base_node_id x)) ids ->
  exists id, value (lookup_loop st pmp ctx dir (d_name e) (c :: rest) known) (Match c id, thread_size known)
    ∧ fileid_of id = d_ino e.
Proof.
  intros Hx Hne Hty Hp Hids Hsm Hacc (t & <- & Ht)%list_elem_of_In%in_map_iff.
  pose proof (proj1 (Forall_forall _ _) Hsm t (proj2 (list_elem_of_In _ _) Ht)) as Hr. cbv beta in Hr.
  assert (Hu : u64 t = t) by (apply u64_small; unfold INT_MAX in Hr; lia).
  exists (Pfsid (nodeid_pid (node_id dir)) t (psn_base_node_id x)). split; [|done].
  eapply (lookup_number _ _ _ _ _ t EmptyString p); try done; [lia| | | |].
  - rewrite thread_dent_name by done. by apply atoi_fmt_d.
  - right. split; [by right|done].
  - rewrite bool_decide_eq_true_2 by done. exact Hp.
  - unfold match_process. rewrite Hty. simpl. rewrite Hu.
    assert (Hc : check_access pmp ctx && negb (procfs_check_can_access_process (ctx_ucred ctx) p =? 0) = false).
    { destruct (check_access pmp ctx); [|done]. by rewrite Hacc. }
    rewrite Hc. eapply value_bind; [apply value_thread_ids|]. rewrite Hids. simpl.
    apply value_unit.
    assert (Hex : existsb (λ tid : Z, tid =? t) ids = true) by (apply existsb_exists; exists t; split; [done|apply Z.eqb_refl]).
    rewrite Hex. apply value_ret.
Qed.

Lemma lookup_fd (e : dent) c (x : pfssnode) rest known p :
  sn_heap st !! c = Some x -> psn_name x ≠ d_name e -> psn_node_type x = PFSfd ->
  proc_find_at 0 (nodeid_pid (node_id dir)) = Some p -> Forall (λ fd, 0 <= fd <= INT_MAX) (fds_of p) ->
  e ∈ List.map (fd_dent (nodeid_pid (node_id dir)) (psn_base_node_id x)) (fds_of p) ->
  exists id, value (lookup_loop st pmp ctx dir (d_name e) (c :: rest) known) (Match c id, known)
    ∧ fileid_of id = d_ino e.
Proof.
  intros Hx Hne Hty Hp Hsm (fd & <- & Hfd)%list_elem_of_In%in_map_iff.
  pose proof (proj1 (Forall_forall _ _) Hsm fd (proj2 (list_elem_of_In _ _) Hfd)) as Hr. cbv beta in Hr.
  assert (Hu : u64 fd = fd) by (apply u64_small; unfold INT_MAX in Hr; lia).
  exists (Pfsid (nodeid_pid (node_id dir)) fd (psn_base_node_id x)). split; [|done].
  cbn [lookup_loop]. rewrite Hx, Hty. rewrite fd_dent_name in Hne |- * by done.
  destruct (String.eqb_spec (fmt_d fd) (psn_name x)) as [E|_]; [by rewrite E in Hne|].
  eapply value_bind; [|apply value_ret]. unfold match_fd. rewrite atoi_fmt_d by done. cbn [fst].
  rewrite (proj2 (Z.eqb_neq fd (-1))) by lia.
  eapply value_bind; [apply value_proc_find|]. rewrite Hp.
  destruct (value_fd_list p) as (err & sz & Hv & Hzero). eapply value_bind; [exact Hv|]. simpl.
  assert (Hex : existsb (λ fd0 : Z, fd0 =? fd) (fds_of p) = true) by (apply existsb_exists; exists fd; split; [done|apply Z.eqb_refl]).
  rewrite Hzero by (intros E; rewrite E in Hfd; done). rewrite Hex. simpl. rewrite Hu.
  apply value_unit, value_unit, value_ret.
Qed.

Definition is_procs (t : pfstype) : bool := match t with PFSproc | PFSprocnamedir => true | _ => false end.

(** "." and "..". *)
Definition is_dots (t : pfstype) : bool := match t with PFSdirthis | PFSdirparent => true | _ => false end.

(** [d_type] of the entries of a child. *)
Definition entry_type (x : pfssnode) : Z :=
  if is_dynamic_type (psn_node_type x) then vtype_to_int VDIR else dirent_type (psn_node_type x).

Lemma dynamic_entry_type known x l (e : dent) :
  dynamic_entries pmp ctx dir known x = Some l -> e ∈ l -> d_type e = vtype_to_int VDIR.
Proof.
  unfold dynamic_entries, pid_dents. intros Hl He.
  assert (Hpid : forall b base (pids : list Z), e ∈ omap (M:=list) (pid_dent b base) pids -> d_type e = vtype_to_int VDIR).
  { intros b base pids (pid & _ & Hd)%list_elem_of_omap. unfold pid_dent in Hd.
    destruct (if b then _ else _) as [nm|]; [|done]. by injection Hd as <-. }
  destruct (psn_node_type x); try done.
  1, 3: injection Hl as <-; by eapply Hpid.
  all: destruct (proc_find_at 0 _) as [p|]; [|done]; cbn in Hl.
  - destruct (thread_ids_of known p) as [ids|]; [|done]. injection Hl as <-.
    apply list_elem_of_In, in_map_iff in He as (? & <- & _). done.
  - injection Hl as <-. apply list_elem_of_In, in_map_iff in He as (? & <- & _). done.
Qed.

Lemma lookup_dynamic known c x rest l (e : dent) :
  sn_heap st !! c = Some x -> starts_digit (psn_name x) = false ->
  dir_accessible pmp ctx dir = true -> objects_small known ->
  (nodeid_pid (node_id dir) = PRNODE_NO_PID -> proc_find_at 0 PRNODE_NO_PID = None) ->
  (is_procs (psn_node_type x) = true -> nodeid_objectid (node_id dir) = PRNODE_NO_OBJECTID) ->
  dynamic_entries pmp ctx dir known x = Some l -> e ∈ l ->
  exists id known', value (lookup_loop st pmp ctx dir (d_name e) (c :: rest) known) (Match c id, known')
    ∧ fileid_of id = d_ino e ∧ (is_procs (psn_node_type x) = true -> is_Some (proc_find_at 0 (nodeid_pid id))).
Proof.
  intros Hx Hnd Hacc Hsm Hnone Hobj Hl He. pose proof (dynamic_names known x l e Hsm Hl He) as Hdig.
  assert (Hne : psn_name x ≠ d_name e) by congruence.
  unfold dynamic_entries in Hl. destruct (psn_node_type x) eqn:Hty; try done.
  - injection Hl as <-. destruct (lookup_pid false (psn_base_node_id x) e c x rest known _ Hx Hne eq_refl Hty eq_refl (Hobj eq_refl) He)
      as (id & ? & ? & ?). eauto 6.
  - destruct (proc_find_at 0 (nodeid_pid (node_id dir))) as [p|] eqn:Hp; simpl in Hl; [|done].
    destruct (thread_ids_of known p) as [ids|] eqn:Hids; simpl in Hl; [|done]. injection Hl as <-.
    destruct (lookup_thread e c x rest known p ids) as (id & ? & ?); eauto 6.
    + by apply (Hsm p Hp).
    + intros Hc. unfold dir_accessible in Hacc. rewrite Hc, Hp in Hacc. simpl in Hacc.
      rewrite orb_false_r in Hacc. destruct (Z.eqb_spec (nodeid_pid (node_id dir)) PRNODE_NO_PID) as [E|E].
      * rewrite E, Hnone in Hp; done.
      * by apply Z.eqb_eq.
    + by exists id, (thread_size known).
  - injection Hl as <-. destruct (lookup_pid true (psn_base_node_id x) e c x rest known _ Hx Hne eq_refl Hty eq_refl (Hobj eq_refl) He)
      as (id & ? & ? & ?). eauto 6.
  - destruct (proc_find_at 0 (nodeid_pid (node_id dir))) as [p|] eqn:Hp; simpl in Hl; [|done]. injection Hl as <-.
    destruct (lookup_fd e c x rest known p) as (id & ? & ?); eauto 6; [by apply (Hsm p Hp)|].
    by exists id, known.
Qed.

Lemma lookup_listed_loop known seen cs l (e : dent) :
  dir_ok st seen cs = true -> Forall (λ s, starts_digit s = false) seen ->
  dir_accessible pmp ctx dir = true -> objects_small known ->
  (nodeid_pid (node_id dir) = PRNODE_NO_PID -> proc_find_at 0 PRNODE_NO_PID = None) ->
  (forall c x, c ∈ cs -> sn_heap st !! c = Some x -> is_procs (psn_node_type x) = true ->
     nodeid_objectid (node_id dir) = PRNODE_NO_OBJECTID) ->
  listing st pmp ctx dir known (omap (λ c, sn_heap st !! c) cs) = Some l -> e ∈ l ->
  d_name e ≠ "."%string -> d_name e ≠ ".."%string ->
  exists c id known', value (lookup_loop st pmp ctx dir (d_name e) cs known) (Match c id, known')
    ∧ fileid_of id = d_ino e ∧ exists x, sn_heap st !! c = Some x ∧ d_type e = entry_type x ∧ is_dots (psn_node_type x) = false
      ∧ (is_procs (psn_node_type x) = true -> is_Some (proc_find_at 0 (nodeid_pid id))).
Proof.
  intros Hd Hseen Hacc Hsm Hnone Hobj Hl He Hdot Hdd. revert seen l Hd Hseen Hobj Hl He.
  induction cs as [|c cs IH]; intros seen l Hd Hseen Hobj Hl He.
  { simpl in Hl. injection Hl as <-. by apply elem_of_nil in He. }
  pose proof Hd as Hd0. cbn in Hd, Hl. destruct (sn_heap st !! c) as [x|] eqn:Hx; [|done]. cbn in Hl.
  apply andb_true_iff in Hd as [[[Hd1 Hd2]%andb_true_iff Hd3]%andb_true_iff Hd4].
  apply negb_true_iff in Hd2.
  destruct (is_dynamic_type (psn_node_type x)) eqn:Hdyn.
  - destruct (lookup_dynamic known c x cs l e) as (id & known' & Hv & Hid & Hpr); eauto.
    { intros Hpr. apply (Hobj c x); [constructor|done|done]. }
    exists c, id, known'. split; [exact Hv|]. split; [exact Hid|]. exists x. split; [done|].
    split; [unfold entry_type; rewrite Hdyn; by eapply dynamic_entry_type|]. split; [by destruct (psn_node_type x)|exact Hpr].
  - apply andb_true_iff in Hd4 as [Hd4 Hd5]. rewrite bool_decide_eq_false_2 in Hl
      by (by apply negb_true_iff, bool_decide_eq_false in Hd4).
    unfold static_entry in Hl. destruct (entry_node_id st dir x) as [i|] eqn:Hi; cbn in Hl; [|done].
    destruct (listing st pmp ctx dir known _) as [l'|] eqn:El; cbn in Hl; [|done]. injection Hl as <-.
    apply elem_of_cons in He as [->|He].
    + simpl in Hdot, Hdd |- *. eexists c, _, known. split.
      { rewrite Hx, String.eqb_refl. apply value_ret. }
      assert (Hnd : is_dots (psn_node_type x) = false).
      { destruct (psn_node_type x); try done; apply String.eqb_eq in Hd3; congruence. }
      split; [|exists x; unfold entry_type; rewrite Hdyn; split_and!; try done; by destruct (psn_node_type x)].
      unfold entry_node_id in Hi. unfold fileid_of. simpl.
      destruct (psn_node_type x); try done; by injection Hi as <-.
    + assert (Hfresh : d_name e ∉ psn_name x :: seen).
      { eapply (listing_names known (psn_name x :: seen) cs l'); eauto. }
      rewrite (lookup_skip _ c x) by (done || set_solver).
      apply (IH (psn_name x :: seen) l'); auto.
      intros c' x' Hc'. apply Hobj. by constructor.
Qed.

(** The operation on a name that the children of the directory decide. *)
Lemma lookup_value tree dx name known m :
  sn_heap st !! node_structure_node dir = Some dx -> psn_node_type dx ≠ PFSsysctl ->
  name ≠ "."%string -> (0 < String.length name <= NAME_MAX)%nat ->
  value (lookup_loop st pmp ctx dir name (psn_children dx) known) m ->
  value (procfs_vnop_lookup st pmp ctx dir tree VDIR (Componentname name false) known)
    (Some (match m.1 with
           | Match c id => LookupFind id (Some c) true
           | NoMatch => LookupError ENOENT
           | MatchError e => LookupError e
           end, m.2)).
Proof.
  intros Hsn Hty Hdot Hlen Hv.
  assert (Hname : strlcpy (Nat.min (NAME_MAX + 1) (String.length name + 1)) name = name) by (apply strlcpy_fits; lia).
  unfold procfs_vnop_lookup. cbn [cn_name cn_isdotdot].
  rewrite bool_decide_eq_true_2, Hname by done.
  rewrite (proj2 (Nat.ltb_ge (String.length name) 1)) by lia. simpl negb. rewrite Hsn.
  assert (Hnodot : (String.length name =? 1)%nat && String.prefix "." name = false).
  { destruct (Nat.eqb_spec (String.length name) 1) as [E1|]; [|done]. simpl.
    destruct name as [|a [|b s]]; try done. simpl in Hdot |- *. case_match; [|done]. by subst. }
  simpl orb. rewrite Hnodot. unfold lookup_children. rewrite bool_decide_eq_false_2 by done.
  eapply value_bind; [exact Hv|]. apply value_ret.
Qed.

(** Names that are listed can be looked up: in a system that does not change, each
    entry of a directory other than "." and "..", whose name fits a path component,
    is found by its name, and the node that is found has the file id of the entry
    (for thread and descriptor numbers that fit an [int]). *)
Theorem lookup_listed tree dx known l (e : dent) :
  sn_heap st !! node_structure_node dir = Some dx -> psn_node_type dx ≠ PFSsysctl ->
  dir_ok st [] (psn_children dx) = true -> dir_accessible pmp ctx dir = true -> objects_small known ->
  (nodeid_pid (node_id dir) = PRNODE_NO_PID -> proc_find_at 0 PRNODE_NO_PID = None) ->
  (forall c x, c ∈ psn_children dx -> sn_heap st !! c = Some x -> is_procs (psn_node_type x) = true ->
     nodeid_objectid (node_id dir) = PRNODE_NO_OBJECTID) ->
  directory_listing st pmp ctx dir known = Some l -> e ∈ l ->
  d_name e ≠ "."%string -> d_name e ≠ ".."%string -> (0 < String.length (d_name e) <= NAME_MAX)%nat ->
  exists c id known',
    value (procfs_vnop_lookup st pmp ctx dir tree VDIR (Componentname (d_name e) false) known)
      (Some (LookupFind id (Some c) true, known'))
    ∧ procfs_get_fileid (nodeid_pid id) (nodeid_objectid id) (nodeid_base_id id) = d_ino e.
Proof.
  intros Hsn Hty Hd Hacc Hsm Hnone Hobj Hl He Hdot Hdd Hlen.
  unfold directory_listing in Hl. rewrite Hacc in Hl. unfold children_of in Hl. rewrite Hsn in Hl.
  destruct (lookup_listed_loop known [] (psn_children dx) l e Hd (Forall_nil_2 _) Hacc Hsm Hnone Hobj Hl He Hdot Hdd)
    as (c & id & known' & Hv & Hid & _).
  exists c, id, known'. split; [|exact Hid]. exact (lookup_value tree dx (d_name e) known (Match c id, known') Hsn Hty Hdot Hlen Hv).
Qed.

(** The descriptor directory parses the leading digits of a name and ignores what
    follows them: a descriptor is also found under its number with any suffix. *)
Theorem lookup_fd_suffix c x rest known fd p suffix :
  sn_heap st !! c = Some x -> psn_node_type x = PFSfd -> starts_digit (psn_name x) = false ->
  proc_find_at 0 (nodeid_pid (node_id dir)) = Some p -> fd ∈ fds_of p -> 0 <= fd <= INT_MAX ->
  starts_digit suffix = false ->
  value (lookup_loop st pmp ctx dir (fmt_d fd +:+ suffix) (c :: rest) known)
    (Match c (Pfsid (nodeid_pid (node_id dir)) fd (psn_base_node_id x)), known).
Proof.
  intros Hx Hty Hnd Hp Hfd Hr Hsuf. cbn [lookup_loop]. rewrite Hx, Hty.
  pose proof (fmt_d_starts_digit fd suffix ltac:(lia)) as Hdig.
  destruct (String.eqb_spec (fmt_d fd +:+ suffix) (psn_name x)) as [E|_]; [congruence|].
  eapply value_bind; [|apply value_ret]. unfold match_fd. rewrite atoi_fmt_d_suffix by done. cbn [fst].
  rewrite (proj2 (Z.eqb_neq fd (-1))) by lia.
  eapply value_bind; [apply value_proc_find|]. rewrite Hp.
  destruct (value_fd_list p) as (err & sz & Hv & Hzero). eapply value_bind; [exact Hv|]. simpl.
  assert (Hex : existsb (λ fd0 : Z, fd0 =? fd) (fds_of p) = true)
    by (apply existsb_exists; exists fd; split; [by apply list_elem_of_In|apply Z.eqb_refl]).
  rewrite Hzero by (intros E; rewrite E in Hfd; by apply elem_of_nil in Hfd).
  rewrite Hex, u64_small by (unfold INT_MAX in Hr; lia). simpl.
  apply value_unit, value_unit, value_ret.
Qed.

End Listed.

(** ** The theorems on concrete names *)

Definition root_dir : pfsnode := Pfsnode PROCFS_ROOT_NODE_ID 0%N.
Definition lookup_sample (dir : pfsnode) (name : string) : option (lookup_result * option Z) :=
  (@procfs_vnop_lookup sample_kernel sample_st sample_mount sample_ctx dir sample_tree VDIR
     (Componentname name false) None (Kstate 0 0 0)).1.

(** The names that stand for all processes or all descriptors in the layout are
    themselves accepted, and lead to nodes that belong to no process or to
    descriptor 0. *)
Example lookup_placeholder_names :
  lookup_sample root_dir "__Process__" = Some (LookupFind (Pfsid (-1) 0 25) (Some 24%N) true, None) ∧
  lookup_sample fd_dir "__File__" = Some (LookupFind (Pfsid 501 0 31) (Some 30%N) true, None).
Proof. vm_compute. split; reflexivity. Qed.

Lemma lookup_process_accessible_witness : @may_see sample_kernel sample_mount sample_ctx 501.
Proof.
  apply (@lookup_process_accessible sample_kernel sample_st sample_mount sample_ctx root_dir sample_tree VDIR
    (Componentname "501" false) None (Kstate 0 0 0) (Pfsid 501 0 25) (Some 24%N) true None (snode_at 0)).
  - vm_compute. reflexivity.
  - vm_compute. discriminate.
  - reflexivity.
  - vm_compute. reflexivity.
  - vm_compute. discriminate.
Defined.

Lemma lookup_dotdot_witness :
  (@procfs_vnop_lookup sample_kernel sample_st sample_mount sample_ctx fd_dir sample_tree VDIR
     (Componentname ".." true) None (Kstate 0 0 0)).1 =
  Some (LookupFind (Pfsid 501 0 25) (Some 24%N) false, None).
Proof.
  apply (@lookup_dotdot sample_kernel sample_st sample_mount sample_ctx proc_dir sample_tree VDIR
    (Componentname "fd" false) None (Kstate 0 0 0) (Pfsid 501 0 28) 27%N true None (snode_at 24)).
  - exact (procfs_tree_wf 2).
  - vm_compute. reflexivity.
  - vm_compute. discriminate.
  - split; [vm_compute; reflexivity|]. split; [vm_compute; discriminate|]. intros _. reflexivity.
  - vm_compute. reflexivity.
  - reflexivity.
  - vm_compute. reflexivity.
Defined.

Lemma lookup_listed_witness :
  exists c id known',
    value (@procfs_vnop_lookup sample_kernel sample_st sample_mount sample_ctx fd_dir sample_tree VDIR
             (Componentname "2" false) None) (Some (LookupFind id (Some c) true, known'))
    ∧ procfs_get_fileid (nodeid_pid id) (nodeid_objectid id) (nodeid_base_id id) = 33682719.
Proof.
  apply (@lookup_listed sample_kernel (simple_kernel_stable _) sample_st sample_mount sample_ctx fd_dir sample_tree
    (snode_at 27) None (sample_listing fd_dir) (Dent 2 33682719 "2")).
  - vm_compute. reflexivity.
  - vm_compute. discriminate.
  - vm_compute. reflexivity.
  - vm_compute. reflexivity.
  - intros p Hp. vm_compute in Hp. injection Hp as <-. split.
    + intros ids Hids. vm_compute in Hids. injection Hids as <-. apply (bool_decide_unpack _). vm_compute. exact I.
    + apply (bool_decide_unpack _). vm_compute. exact I.
  - discriminate.
  - intros c x _ _ _. reflexivity.
  - vm_compute. reflexivity.
  - apply (bool_decide_unpack _). vm_compute. exact I.
  - discriminate.
  - discriminate.
  - vm_compute. lia.
Defined.

Lemma lookup_fd_suffix_witness :
  value (@lookup_loop sample_kernel sample_st sample_mount sample_ctx fd_dir "2.txt" [30%N] None)
    (Match 30%N (Pfsid 501 2 31), None).
Proof.
  apply (@lookup_fd_suffix sample_kernel (simple_kernel_stable _) sample_st sample_mount sample_ctx fd_dir 30%N
    (snode_at 30) [] None 2 (SimpleProc 501 "zsh" 501 20 [18446741874686296164; 18446741874686300000] [0; 1; 2])
    ".txt"%string); try (vm_compute; reflexivity).
  - apply (bool_decide_unpack _). vm_compute. exact I.
  - vm_compute. split; discriminate.
Defined.
