(* ===== verification/Attr.v ===== *)
(** * Attributes, symbolic links and reads (kext/procfs_vnops.c, procfs_status.c, procfs_fd.c)

    The attributes stat(2) shows, with the node sizes they are computed from, the
    targets of symbolic links, and the dispatch of reads to the handlers. *)

From S2P Require Import Prelude Kernel Structure Subr Node Sysctl Readdir Lookup.

(** ** Modes *)

Definition S_IRUSR := 256.
Definition S_IWUSR := 128.
Definition S_IXUSR := 64.
Definition S_IRGRP := 32.
Definition S_IWGRP := 16.
Definition S_IXGRP := 8.
Definition S_IROTH := 4.
Definition S_IWOTH := 2.
Definition S_IXOTH := 1.

Definition READ_EXECUTE_ALL : Z := S_IRUSR + S_IXUSR + S_IRGRP + S_IXGRP + S_IROTH + S_IXOTH.
Definition RWX_OWNER_RX_ALL : Z := S_IRUSR + S_IWUSR + S_IXUSR + S_IRGRP + S_IXGRP + S_IROTH + S_IXOTH.
Definition ALL_ACCESS_OWNER_GROUP_ONLY : Z := S_IRUSR + S_IWUSR + S_IXUSR + S_IRGRP + S_IWGRP + S_IXGRP.
Definition ALL_ACCESS_ALL : Z :=
  S_IRUSR + S_IWUSR + S_IXUSR + S_IRGRP + S_IWGRP + S_IXGRP + S_IROTH + S_IWOTH + S_IXOTH.

Definition modemask (pmp : pfsmount) : Z :=
  if Z.land (pmnt_flags pmp) PROCFS_MOPT_NOPROCPERMS =? 0 then ALL_ACCESS_OWNER_GROUP_ONLY else RWX_OWNER_RX_ALL.

(** The switch on the node type. *)
Definition node_mode (pmp : pfsmount) (t : pfstype) : Z :=
  match t with
  | PFSroot | PFSfd => READ_EXECUTE_ALL
  | PFScurproc | PFSprocnamedir | PFSproclink => ALL_ACCESS_ALL
  | _ => Z.land READ_EXECUTE_ALL (modemask pmp)
  end.

(** The types for which no process is looked up. *)
Definition getattr_no_process (t : pfstype) : bool :=
  match t with
  | PFScpuinfo | PFSloadavg | PFSpartitions | PFSversion | PFSmeminfo | PFSmtab | PFSstat | PFSvmstat
  | PFSuptime | PFSswaps | PFSfilesystems | PFSsysctl => true
  | _ => false
  end.

(** ** Node sizes *)

Section Attr.
Context `{KernelOps}.
Variable st : structure.
Variable tree : sysctl_tree.

Definition procfs_fd_node_size (pnp : pfsnode) : K Z :=
  p ← proc_find (procfsnode_to_pid pnp);
  match p with
  | None => mret 0
  | Some p =>
    r ← procfs_get_fd_list (Some p);
    let '(error, fds, fdlist) := r in
    _ ← procfs_release_fd_list fdlist;
    _ ← proc_rele p;
    mret (if error =? 0 then Z.of_nat (length fds) else 0)
  end.

(** [sizeof(procfs_get_process_count(creds))] is the size of an [int]; the call is not
    made. *)
Definition procfs_process_node_size (pnp : pfsnode) : K Z :=
  p ← proc_find (procfsnode_to_pid pnp);
  match p with
  | None => mret 0
  | Some p => _ ← proc_rele p; mret 4
  end.

Definition procfs_thread_node_size (pnp : pfsnode) (known : option Z) : K (Z * option Z) :=
  p ← proc_find (procfsnode_to_pid pnp);
  match p with
  | None => mret (0, known)
  | Some p =>
    r ← procfs_get_task_thread_count (Some p) known;
    let '(tcount, known) := r in
    _ ← proc_rele p;
    mret (if 0 <? tcount then tcount else 1, known)
  end.

Definition node_size (f : procfs_node_size_fn) (pnp : pfsnode) (known : option Z) : K (Z * option Z) :=
  match f with
  | procfs_fd_node_size_fn => n ← procfs_fd_node_size pnp; mret (n, known)
  | procfs_process_node_size_fn => n ← procfs_process_node_size pnp; mret (n, known)
  | procfs_thread_node_size_fn => procfs_thread_node_size pnp known
  end.

Fixpoint dir_size_loop (children : list pfssnode) (pnp : pfsnode) (size : Z) (known : option Z) : K (Z * option Z) :=
  match children with
  | [] => mret (size, known)
  | x :: rest =>
    match psn_getsize_fn x with
    | None => dir_size_loop rest pnp (u64 (size + 1)) known
    | Some f => r ← node_size f pnp known; dir_size_loop rest pnp (u64 (size + r.1)) r.2
    end
  end.

(** The structure node whose size is taken: "." and ".." stand for their parent and
    grandparent.  [None]: NULL. *)
Definition size_snode (n : N) : option N :=
  x ← sn_heap st !! n;
  match psn_node_type x with
  | PFSdirthis => psn_parent x
  | PFSdirparent =>
    p ← psn_parent x;
    px ← sn_heap st !! p;
    if bool_decide (psn_node_type px = PFSroot) then Some p else psn_parent px
  | _ => Some n
  end.

Definition procfs_get_node_size_attr (pnp : pfsnode) (known : option Z) : K (option (Z * option Z)) :=
  match sn_heap st !! node_structure_node pnp, size_snode (node_structure_node pnp) with
  | Some x, Some n =>
    if procfs_is_directory_type (psn_node_type x) then
      r ← dir_size_loop (children_of st n) pnp 0 known; mret (Some r)
    else
      match sn_heap st !! n with
      | None => mret None
      | Some sx =>
        match psn_getsize_fn sx with
        | None => mret (Some (psn_node_size sx, known))
        | Some f => r ← node_size f pnp known; mret (Some r)
        end
      end
  | _, _ => mret None
  end.

(** ** Attributes *)

(** [p_start] of a process: seconds and microseconds. *)
Variable p_start : proc_t -> Z * Z.

Record vnode_attr := VnodeAttr {
  va_mode : Z; va_type : vtype; va_fsid : Z; va_fileid : Z; va_data_size : Z;
  va_times : Z * Z; va_uid : Z; va_gid : Z
}.

(** The type of the vnode of a node ([procfs_create_vnode] gives it the same one). *)
Definition node_vtype (x : pfssnode) (pnp : pfsnode) : vtype :=
  if bool_decide (psn_node_type x = PFSsysctl)
  then (if procfs_sysctl_is_node tree (nodeid_objectid (node_id pnp)) then VDIR else VREG)
  else procfs_allocvp (psn_node_type x).

(** The process of the node, for the types that have one. *)
Definition getattr_process (t : pfstype) (pnp : pfsnode) : K (Z * option (Z * option proc_t)) :=
  if getattr_no_process t then mret (0, Some (0, None)) else procfs_get_process_info t pnp.

Definition procfs_vnop_getattr (pmp : pfsmount) (pnp : pfsnode) (known : option Z) :
    K (option (Z * option vnode_attr * option Z)) :=
  match sn_heap st !! node_structure_node pnp with
  | None => mret None
  | Some x =>
    let t := psn_node_type x in
    i ← getattr_process t pnp;
    match i with
    | (error, None) => mret (Some (error, None, known))
    | (_, Some (_, p)) =>
      r ← procfs_get_node_size_attr pnp known;
      let create_time := match p with
                         | Some p => ((p_start p).1, (p_start p).2 * 1000)
                         | None => pmnt_mount_time pmp
                         end in
      let uid := match current_proc with Some c => kauth_cred_getruid (kauth_cred_proc_ref c) | None => 0 end in
      let gid := match current_proc with Some c => kauth_cred_getgid (kauth_cred_proc_ref c) | None => 0 end in
      (* with a process: the effective ids, of the same credentials *)
      let '(uid, gid) := match p, current_proc with
                         | Some _, Some c => (kauth_cred_getuid (kauth_cred_proc_ref c),
                                              kauth_cred_getgid (kauth_cred_proc_ref c))
                         | _, _ => (uid, gid)
                         end in
      _ ← (match p with Some p => proc_rele p | None => mret tt end);
      match r, procfs_get_node_fileid st pnp with
      | Some (size, known), Some fileid =>
        mret (Some (0, Some (VnodeAttr (node_mode pmp t) (node_vtype x pnp) (pmnt_id pmp) fileid size
                               create_time uid gid), known))
      | _, _ => mret None
      end
    end
  end.

(** ** Links *)

Context `{UioOps}.
(** The vnodes [p_textvp], [p_fd.fd_cdir] and [p_fd.fd_rdir] of a process, as the path
    vn_getpath gives for them: [None] for NULLVP, [Some None] when vnode_get or
    vn_getpath fails. *)
Variable p_textvp fd_cdir fd_rdir : proc_t -> option (option string).
Variable vnode_get_ok : proc_t -> string -> bool.

Definition MAXPATHLEN : nat := 1024.

Definition procfs_proclink_path (pid : Z) (name : string) : K (Z * string) :=
  p ← proc_find pid;
  match p with
  | None => mret (ESRCH, EmptyString)
  | Some p =>
    let vp := if String.eqb name "exe" then p_textvp p
              else if String.eqb name "cwd" then fd_cdir p
              else if String.eqb name "root" then fd_rdir p else None in
    let is_root := negb (String.eqb name "exe") && negb (String.eqb name "cwd") && String.eqb name "root" in
    let r := match vp with
             | Some path =>
               if vnode_get_ok p name then
                 match path with Some s => (0, strlcpy MAXPATHLEN s) | None => (ENOENT, EmptyString) end
               else if is_root then (0, "/"%string) else (ENOENT, EmptyString)
             | None => if is_root then (0, "/"%string) else (ENOENT, EmptyString)
             end in
    _ ← proc_rele p;
    mret r
  end.

(** [uiomove] of the characters of a string. *)
Definition move_string (s : string) (uio : uio_t) : Z * uio_t :=
  uiomove (bytes_of_string s) (Z.of_nat (String.length s)) uio.

Definition procfs_vnop_readlink (pnp : pfsnode) (uio : uio_t) : K (option (Z * uio_t)) :=
  match sn_heap st !! node_structure_node pnp with
  | None => mret None
  | Some x =>
    match psn_node_type x with
    | PFScurproc =>
      let pid := match current_proc with Some p => proc_pid p | None => 0 end in
      mret (Some (move_string (snprintf PROCESS_NAME_SIZE (fmt_d pid)) uio))
    | PFSprocnamedir =>
      mret (Some (move_string (snprintf PROCESS_NAME_SIZE ("../" +:+ fmt_d (procfsnode_to_pid pnp))) uio))
    | PFSproclink =>
      r ← procfs_proclink_path (procfsnode_to_pid pnp) (psn_name x);
      mret (Some (if r.1 =? 0 then move_string r.2 uio else (r.1, uio)))
    | _ => mret (Some (EINVAL, uio))
    end
  end.

(** ** Reads *)

(** The handlers the layout names, and the reader of sysctl values. *)
Variable read_data : procfs_read_data_fn -> pfsnode -> uio_t -> K (option (Z * uio_t)).
Variable sysctl_read : Z -> uio_t -> option (Z * uio_t).

Definition procfs_vnop_read (pnp : pfsnode) (uio : uio_t) : K (option (Z * uio_t)) :=
  match sn_heap st !! node_structure_node pnp with
  | None => mret None
  | Some x =>
    if bool_decide (psn_node_type x = PFSsysctl) then mret (sysctl_read (nodeid_objectid (node_id pnp)) uio)
    else if procfs_is_directory_type (psn_node_type x) then mret (Some (EISDIR, uio))
    else match psn_read_data_fn x with
         | Some f => read_data f pnp uio
         | None => mret (Some (EINVAL, uio))
         end
  end.

End Attr.

(** ** Operations that do nothing *)

Definition procfs_vnop_open : Z := 0.
Definition procfs_vnop_access : Z := 0.
Definition procfs_vnop_close : Z := 0.
Definition procfs_vnop_inactive : Z := 0.
Definition procfs_vnop_default : Z := 0.
Definition procfs_vnop_getattrlistbulk : Z := ENOTSUP.

(** ** Types and modes *)

(** The directory entry type of a vnode type (IFTODT). *)
Definition vtype_dirent (t : vtype) : Z :=
  match t with VNON => 0 | VREG => DT_REG | VDIR => DT_DIR | VBLK => 6 | VCHR => DT_CHR | VLNK => DT_LNK end.

(** The entries of the layout are listed with the type stat shows for them; the
    entries made for processes, threads and descriptors are not: they are listed with
    the number of the vnode type VDIR, which as a directory entry type means a
    character device. *)
Theorem dirent_types :
  (forall t, is_dynamic_type t = false -> t ≠ PFSroot -> dirent_type t = vtype_dirent (procfs_allocvp t))
  ∧ (forall `{KernelOps} pmp ctx dir known x l,
       dynamic_entries pmp ctx dir known x = Some l ->
       Forall (λ e, d_type e = DT_CHR ∧ d_type e ≠ vtype_dirent (procfs_allocvp (psn_node_type x))) l).
Proof.
  split; [by intros []|].
  intros K pmp ctx dir known x l Hl. unfold dynamic_entries in Hl.
  assert (Hpid : forall named base (Q : vtype), Q ≠ VCHR ->
    Forall (λ e, d_type e = DT_CHR ∧ d_type e ≠ vtype_dirent Q) (pid_dents pmp ctx named base)).
  { intros named base Q HQ. apply Forall_forall. intros e (pid & _ & Hd)%list_elem_of_omap. unfold pid_dent in Hd.
    destruct (if named then _ else _); simpl in Hd; [|done]. injection Hd as <-. split; [done|]. by destruct Q. }
  assert (Hobj : forall (f : Z -> dent) ids (Q : vtype), Q ≠ VCHR -> (forall a, d_type (f a) = DT_CHR) ->
    Forall (λ e, d_type e = DT_CHR ∧ d_type e ≠ vtype_dirent Q) (List.map f ids)).
  { intros f ids Q HQ Hf. apply Forall_forall. intros e (a & <- & _)%list_elem_of_In%in_map_iff.
    rewrite Hf. split; [done|]. by destruct Q. }
  destruct (psn_node_type x); try done; simpl in Hl.
  - injection Hl as <-. by apply Hpid.
  - destruct (proc_find_at 0 _) as [p|]; simpl in Hl; [|done].
    destruct (thread_ids_of known p); simpl in Hl; [|done]. injection Hl as <-. by apply Hobj.
  - injection Hl as <-. by apply Hpid.
  - destruct (proc_find_at 0 _) as [p|]; simpl in Hl; [|done]. injection Hl as <-. by apply Hobj.
Qed.

(** Modes: only symbolic links have write permission; without the noprocperms option
    users other than owner and group have no permission at all, except on the root
    directory, on symbolic links and on descriptor directories; with it they can read
    everything. *)
Theorem node_modes pmp t :
  (procfs_allocvp t ≠ VLNK -> Z.land (node_mode pmp t) (S_IWUSR + S_IWGRP + S_IWOTH) = 0)
  ∧ (procfs_should_access_check pmp = true ->
     Z.land (node_mode pmp t) (S_IROTH + S_IWOTH + S_IXOTH) = 0 <->
     (t ≠ PFSroot ∧ t ≠ PFSfd ∧ procfs_allocvp t ≠ VLNK))
  ∧ (procfs_should_access_check pmp = false ->
     Z.land (node_mode pmp t) (S_IROTH + S_IXOTH) = S_IROTH + S_IXOTH).
Proof.
  unfold node_mode, modemask, procfs_should_access_check.
  destruct (Z.land (pmnt_flags pmp) PROCFS_MOPT_NOPROCPERMS =? 0); destruct t; vm_compute;
    intuition (discriminate || congruence).
Qed.

(** ** Attributes *)

Section AttrFacts.
Context `{KernelOps}.
Variable st : structure.
Variable tree : sysctl_tree.
Variable p_start : proc_t -> Z * Z.

Lemma refs_kept_node_size f pnp known : refs_kept (node_size f pnp known).
Proof.
  destruct f; simpl.
  - apply refs_kept_bind; [|intros; apply refs_kept_ret].
    apply refs_kept_proc_find; [|apply refs_kept_ret]. intros p s. by apply refs_rele.
  - apply refs_kept_proc_find; [|apply refs_kept_ret]. intros p s.
    rewrite K_bind_run, <- (refs_kept_thread_count (Some p) known s). destruct (procfs_get_task_thread_count (Some p) known s) as [[n kn] s1].
    cbn [fst snd]. apply refs_rele. apply refs_kept_ret.
  - apply refs_kept_bind; [|intros; apply refs_kept_ret].
    apply refs_kept_proc_find; [|apply refs_kept_ret]. intros p s. rewrite K_bind_run.
    rewrite <- (refs_kept_fd_list (Some p) s). destruct (procfs_get_fd_list (Some p) s) as [[[e fds] fdlist] s1].
    cbn [fst snd]. rewrite K_bind_run, refs_rele by apply refs_kept_ret. f_equal.
    destruct fdlist; [apply refs_kept_OSFree|apply refs_kept_ret].
Qed.

Lemma refs_kept_size_attr pnp known : refs_kept (procfs_get_node_size_attr st pnp known).
Proof.
  unfold procfs_get_node_size_attr. repeat (case_match; try apply refs_kept_ret).
  - apply refs_kept_bind; [|intros; apply refs_kept_ret]. generalize 0 known.
    induction (children_of st n) as [|x rest IH]; intros size kn; [apply refs_kept_ret|]. simpl.
    case_match; [|apply IH]. apply refs_kept_bind; [apply refs_kept_node_size|intros r; apply IH].
  - apply refs_kept_bind; [apply refs_kept_node_size|intros; apply refs_kept_ret].
Qed.

Lemma getattr_process_refs t pnp s i s1 :
  getattr_process t pnp s = (i, s1) ->
  k_procrefs s1 = k_procrefs s + match i with (_, Some (_, Some _)) => 1 | _ => 0 end.
Proof.
  unfold getattr_process. destruct (getattr_no_process t); [intros [= <- <-]; lia|].
  unfold procfs_get_process_info. rewrite K_bind_run. destruct (procfsnode_to_pid pnp =? PRNODE_NO_PID).
  - simpl. destruct (procfs_node_type_has_pid t); intros [= <- <-]; lia.
  - unfold proc_find. rewrite K_bind_run. simpl. destruct (proc_find_at _ _) as [p|]; simpl.
    + intros [= <- <-]. simpl. lia.
    + destruct (procfs_node_type_has_pid t); intros [= <- <-]; simpl; lia.
Qed.

(** Getting attributes releases the process reference it takes, on every path on which
    it returns. *)
Theorem getattr_releases_process pmp pnp known s r :
  (procfs_vnop_getattr st tree p_start pmp pnp known s).1 = Some r ->
  k_procrefs (procfs_vnop_getattr st tree p_start pmp pnp known s).2 = k_procrefs s.
Proof.
  unfold procfs_vnop_getattr. destruct (sn_heap st !! node_structure_node pnp) as [x|]; [|done].
  rewrite K_bind_run.
  destruct (getattr_process (psn_node_type x) pnp s) as [i s1] eqn:Ei.
  pose proof (getattr_process_refs (psn_node_type x) pnp s i s1 Ei) as Hinfo.
  cbn [fst snd]. destruct i as [error [[pid p]|]]; [|intros _; simpl; lia].
  rewrite K_bind_run. pose proof (refs_kept_size_attr pnp known s1) as Hsz.
  destruct (procfs_get_node_size_attr st pnp known s1) as [sz s2]. cbn [fst snd] in Hsz |- *.
  destruct p as [p|]; [destruct current_proc|]; rewrite K_bind_run; simpl;
    repeat case_match; simpl; intros; simplify_eq/=; lia.
Qed.

(** The size of a node that is not "." or "..". *)
Lemma size_attr_total d known s x :
  sn_heap st !! node_structure_node d = Some x -> is_dots (psn_node_type x) = false ->
  exists r, (procfs_get_node_size_attr st d known s).1 = Some r.
Proof.
  intros Hx Hdots. unfold procfs_get_node_size_attr. rewrite Hx.
  assert (Hn : size_snode st (node_structure_node d) = Some (node_structure_node d)).
  { unfold size_snode. rewrite Hx. simpl. by destruct (psn_node_type x). }
  rewrite Hn. case_match; [rewrite K_bind_run; cbn; eauto|]. rewrite Hx.
  case_match; [rewrite K_bind_run|]; cbn; eauto.
Qed.

(** stat succeeds on a node whose type needs no process, or whose process exists. *)
Lemma getattr_succeeds `{!KernelStable} pmp d x :
  sn_heap st !! node_structure_node d = Some x -> is_dots (psn_node_type x) = false ->
  getattr_no_process (psn_node_type x) = true ∨ procfs_node_type_has_pid (psn_node_type x) = false
    ∨ nodeid_pid (node_id d) ≠ PRNODE_NO_PID ∧ is_Some (proc_find_at 0 (nodeid_pid (node_id d))) ->
  forall known s, exists a known', (procfs_vnop_getattr st tree p_start pmp d known s).1 = Some (0, Some a, known')
    ∧ va_fileid a = procfs_get_fileid (nodeid_pid (node_id d)) (nodeid_objectid (node_id d)) (psn_base_node_id x)
    ∧ va_type a = node_vtype tree x d.
Proof.
  intros Hx Hdots Hproc known s. unfold procfs_vnop_getattr. rewrite Hx, K_bind_run.
  assert (Hp : exists e pid p, (getattr_process (psn_node_type x) d s).1 = (e, Some (pid, p))).
  { unfold getattr_process, procfs_get_process_info, procfsnode_to_pid. destruct (getattr_no_process _) eqn:Eno; [by eexists _, _, _|].
    rewrite K_bind_run. destruct Hproc as [?|[Hh|[Hne [p Hp]]]]; [done| |].
    - destruct ((if nodeid_pid (node_id d) =? PRNODE_NO_PID then mret None else proc_find _) s) as [[p|] s1];
        cbn; rewrite ?Hh; by eexists _, _, _.
    - rewrite (proj2 (Z.eqb_neq _ _) Hne). destruct (proc_find _ s) as [q s1] eqn:E.
      rewrite proc_find_stable, Hp in E. injection E as <- <-. by eexists _, _, _. }
  destruct Hp as (e & pid & p & ->). rewrite K_bind_run.
  destruct (size_attr_total d known (getattr_process (psn_node_type x) d s).2 x Hx Hdots) as [[sz kn] ->].
  destruct (match p with Some _ => _ | None => _ end) as [uid gid]. rewrite K_bind_run.
  unfold procfs_get_node_fileid. rewrite Hx. cbn. by eexists _, _.
Qed.

(** Ownership: the owner and group reported for a node are those of the calling
    process, also for the nodes of other processes. *)
Theorem getattr_owner_is_caller pmp pnp known s e a known' c :
  current_proc = Some c ->
  (procfs_vnop_getattr st tree p_start pmp pnp known s).1 = Some (e, Some a, known') ->
  (va_uid a = kauth_cred_getuid (kauth_cred_proc_ref c) ∨ va_uid a = kauth_cred_getruid (kauth_cred_proc_ref c))
  ∧ va_gid a = kauth_cred_getgid (kauth_cred_proc_ref c).
Proof.
  intros Hc. unfold procfs_vnop_getattr. destruct (sn_heap st !! node_structure_node pnp) as [x|]; [|done].
  rewrite K_bind_run. destruct (getattr_process (psn_node_type x) pnp s) as [i s1].
  cbn [fst snd]. destruct i as [error [[pid p]|]]; [|done].
  rewrite K_bind_run. destruct (procfs_get_node_size_attr st pnp known s1) as [sz s2]. cbn [fst snd].
  rewrite Hc. destruct p as [p|]; rewrite K_bind_run; simpl; repeat case_match; simpl; intros; simplify_eq/=; auto.
Qed.

(** The size an entry for all processes adds to its directory is not their number:
    whatever processes exist, it is 0 or the size of an integer. *)
Theorem process_node_size_constant pnp s :
  let n := (procfs_process_node_size pnp s).1 in n = 0 ∨ n = 4.
Proof.
  unfold procfs_process_node_size. rewrite K_bind_run.
  destruct (proc_find (procfsnode_to_pid pnp) s) as [[p|] s1]; simpl; auto.
Qed.

End AttrFacts.

(** ** Directory sizes and link targets *)

Section AttrStable.
Context `{KernelOps} `{!KernelStable} `{UioLaws}.
Variable st : structure.

Lemma static_size_loop cs rest pnp size known :
  Forall (λ x, psn_getsize_fn x = None) cs -> 0 <= size -> size + Z.of_nat (length cs) < 18446744073709551616 ->
  dir_size_loop (cs ++ rest) pnp size known = dir_size_loop rest pnp (size + Z.of_nat (length cs)) known.
Proof.
  revert size. induction cs as [|x cs IH]; intros size Hcs Hlo Hhi; simpl; [by rewrite Z.add_0_r|].
  apply Forall_cons in Hcs as [Hx Hcs]. simpl in Hhi. rewrite Hx, u64_small by lia.
  rewrite IH by (done || lia). f_equal. lia.
Qed.

Lemma static_listing_length pmp ctx dir known cs x l :
  Forall (λ y, is_dynamic_type (psn_node_type y) = false) cs ->
  listing st pmp ctx dir known (cs ++ [x]) = Some l ->
  exists l', listing st pmp ctx dir known [x] = Some l' ∧ length l = (length cs + length l')%nat.
Proof.
  revert l. induction cs as [|y cs IH]; intros l Hcs Hl; [by exists l|].
  apply Forall_cons in Hcs as [Hy Hcs]. cbn [app listing] in Hl. rewrite Hy in Hl.
  case_bool_decide; [done|]. destruct (static_entry st dir y); cbn in Hl; [|done].
  destruct (listing st pmp ctx dir known (cs ++ [x])) as [l0|] eqn:E; cbn in Hl; [|done]. injection Hl as <-.
  destruct (IH l0 Hcs eq_refl) as (l' & ? & Hlen). exists l'. split; [done|]. simpl. lia.
Qed.

(** The size stat shows for the directory of a process's descriptors is the number of
    entries readdir lists in it, "." and ".." included. *)
Theorem fd_directory_size pmp ctx dir dx cs x p known l :
  sn_heap st !! node_structure_node dir = Some dx -> psn_node_type dx = PFSdir ->
  children_of st (node_structure_node dir) = cs ++ [x] ->
  Forall (λ y, is_dynamic_type (psn_node_type y) = false) cs -> Forall (λ y, psn_getsize_fn y = None) cs ->
  psn_node_type x = PFSfd -> psn_getsize_fn x = Some procfs_fd_node_size_fn ->
  proc_find_at 0 (nodeid_pid (node_id dir)) = Some p ->
  dir_accessible pmp ctx dir = true -> directory_listing st pmp ctx dir known = Some l ->
  Z.of_nat (length l) < 18446744073709551616 ->
  value (procfs_get_node_size_attr st dir known) (Some (Z.of_nat (length l), known)).
Proof.
  intros Hdx Hty Hch Hdyn Hsz Hxt Hxs Hp Hacc Hl Hsmall.
  unfold directory_listing in Hl. rewrite Hacc, Hch in Hl.
  destruct (static_listing_length pmp ctx dir known cs x l Hdyn Hl) as (l' & Hl' & Hlen).
  simpl in Hl'. rewrite Hxt in Hl'. simpl in Hl'. unfold dynamic_entries in Hl'. rewrite Hxt, Hp in Hl'. simpl in Hl'.
  injection Hl' as <-. rewrite List.length_map in Hlen.
  unfold procfs_get_node_size_attr, size_snode. rewrite Hdx. simpl. rewrite Hty. simpl. rewrite Hch.
  rewrite static_size_loop by (done || lia). rewrite Z.add_0_l.
  eapply value_bind; [|apply value_ret]. simpl. rewrite Hxs.
  destruct (value_fd_list p) as (e & sz & Hv & He).
  assert (Hn : value (procfs_fd_node_size dir) (Z.of_nat (length (fds_of p)))).
  { unfold procfs_fd_node_size. eapply value_bind; [apply value_proc_find|]. unfold procfsnode_to_pid. rewrite Hp.
    eapply value_bind; [exact Hv|]. simpl. apply value_unit, value_unit.
    destruct (Z.eqb_spec e 0) as [_|Hne]; [apply value_ret|]. destruct (fds_of p); [apply value_ret|].
    by rewrite He in Hne. }
  eapply value_bind; [eapply value_bind; [exact Hn|apply value_ret]|]. simpl.
  rewrite u64_small by lia. replace (Z.of_nat (length cs) + Z.of_nat (length (fds_of p))) with (Z.of_nat (length l)) by lia.
  apply value_ret.
Qed.

Lemma move_string_out s u :
  uio_writable u = true -> Z.of_nat (String.length s) <= uio_resid u ->
  (move_string s u).1 = 0 ∧ uio_out (move_string s u).2 = uio_out u ++ bytes_of_string s.
Proof.
  intros Hw Hr. unfold move_string.
  assert (Hb : 0 <= Z.of_nat (String.length s) <= Z.of_nat (length (bytes_of_string s)))
    by (rewrite bytes_of_string_length; lia).
  pose proof (uiomove_writable _ _ _ Hw Hb) as E0. split; [done|].
  destruct (uiomove_moved _ _ _ Hb E0) as (E1 & _). rewrite E1, Z.min_l, Nat2Z.id by lia.
  by rewrite take_ge by (rewrite bytes_of_string_length; lia).
Qed.

(** Link targets: the link of a process under byname reads "../" and the pid in
    decimal, the links to the calling process read its pid, which name lookup parses
    back to that pid. *)
Theorem readlink_targets p_textvp fd_cdir fd_rdir vnode_get_ok pnp x u c :
  sn_heap st !! node_structure_node pnp = Some x -> current_proc = Some c ->
  0 <= procfsnode_to_pid pnp <= INT_MAX -> 0 <= proc_pid c <= INT_MAX ->
  uio_writable u = true -> 40 <= uio_resid u ->
  forall pid prefix,
  (psn_node_type x = PFScurproc ∧ pid = proc_pid c ∧ prefix = EmptyString
   ∨ psn_node_type x = PFSprocnamedir ∧ pid = procfsnode_to_pid pnp ∧ prefix = "../"%string) ->
  procfs_atoi (fmt_d pid) = (pid, EmptyString) ∧
  exists u', value (procfs_vnop_readlink st p_textvp fd_cdir fd_rdir vnode_get_ok pnp u) (Some (0, u'))
    ∧ uio_out u' = uio_out u ++ bytes_of_string (prefix +:+ fmt_d pid).
Proof.
  intros Hx Hc Hpid Hcur Hw Hr pid prefix Hcase.
  assert (Hrange : 0 <= pid <= INT_MAX) by (destruct Hcase as [(_ & -> & _)|(_ & -> & _)]; done).
  split; [by apply atoi_fmt_d|].
  assert (Hlen : (String.length (prefix +:+ fmt_d pid) < PROCESS_NAME_SIZE)%nat).
  { pose proof (fmt_d_length 10 pid ltac:(lia) ltac:(unfold INT_MAX in Hrange; change (10 ^ Z.of_nat 10) with 10000000000; lia)).
    rewrite string_length_app. unfold PROCESS_NAME_SIZE, MAXCOMLEN.
    destruct Hcase as [(_ & _ & ->)|(_ & _ & ->)]; simpl (String.length _); lia. }
  destruct (move_string_out (prefix +:+ fmt_d pid) u Hw) as [E1 E2];
    [unfold PROCESS_NAME_SIZE, MAXCOMLEN in Hlen; lia|].
  destruct (move_string (prefix +:+ fmt_d pid) u) as [err u'] eqn:E. simpl in E1, E2. subst err.
  exists u'. split; [|done]. unfold procfs_vnop_readlink. rewrite Hx, Hc.
  destruct Hcase as [(-> & -> & ->)|(-> & -> & ->)]; unfold snprintf; rewrite strlcpy_fits by done;
    [change (EmptyString +:+ fmt_d (proc_pid c)) with (fmt_d (proc_pid c)) in E|]; rewrite E; apply value_ret.
Qed.

End AttrStable.

(** ** The theorems on concrete nodes *)

Lemma getattr_releases_process_witness :
  k_procrefs (@procfs_vnop_getattr sample_kernel sample_st sample_tree (λ _, (7, 0)) sample_mount proc_dir None
                (Kstate 0 0 0)).2 = 0.
Proof.
  eapply (@getattr_releases_process sample_kernel sample_st sample_tree (λ _, (7, 0)) sample_mount proc_dir None (Kstate 0 0 0)).
  vm_compute. reflexivity.
Defined.

(** A caller with uid 501 that looks at the directory of process 1, which is owned by 0. *)
Lemma getattr_owner_is_caller_witness :
  exists e a known', (@procfs_vnop_getattr sample_kernel sample_st sample_tree (λ _, (7, 0)) sample_mount
     (Pfsnode (Pfsid 1 0 25) 24%N) None (Kstate 0 0 0)).1 = Some (e, Some a, known')
  ∧ (va_uid a = 501 ∨ va_uid a = 501) ∧ va_gid a = 20.
Proof.
  eexists _, _, _. split; [vm_compute; reflexivity|].
  eapply (@getattr_owner_is_caller sample_kernel sample_st sample_tree (λ _, (7, 0)) sample_mount
    (Pfsnode (Pfsid 1 0 25) 24%N) None (Kstate 0 0 0) _ _ _
    (SimpleProc 501 "zsh" 501 20 [18446741874686296164; 18446741874686300000] [0; 1; 2])); vm_compute; reflexivity.
Defined.

Lemma fd_directory_size_witness :
  value (@procfs_get_node_size_attr sample_kernel sample_st fd_dir None) (Some (5, None)).
Proof.
  apply (@fd_directory_size sample_kernel (simple_kernel_stable _) sample_st sample_mount sample_ctx fd_dir
    (snode_at 27) [snode_at 28; snode_at 29] (snode_at 30)
    (SimpleProc 501 "zsh" 501 20 [18446741874686296164; 18446741874686300000] [0; 1; 2]) None (sample_listing fd_dir)).
  - vm_compute. reflexivity.
  - vm_compute. reflexivity.
  - vm_compute. reflexivity.
  - repeat constructor.
  - repeat constructor.
  - vm_compute. reflexivity.
  - vm_compute. reflexivity.
  - vm_compute. reflexivity.
  - vm_compute. reflexivity.
  - vm_compute. reflexivity.
  - vm_compute. reflexivity.
Defined.

Lemma readlink_targets_witness :
  exists u', value (@procfs_vnop_readlink sample_kernel sample_st _ (λ _, None) (λ _, None) (λ _, None) (λ _ _, true)
      (Pfsnode (Pfsid 501 0 22) 21%N) (SimpleUio 0 100 true [] true)) (Some (0, u'))
    ∧ su_out u' = bytes_of_string "../501".
Proof.
  destruct (@readlink_targets sample_kernel _ simple_uio_laws sample_st (λ _, None) (λ _, None) (λ _, None)
    (λ _ _, true) (Pfsnode (Pfsid 501 0 22) 21%N) (snode_at 21) (SimpleUio 0 100 true [] true)
    (SimpleProc 501 "zsh" 501 20 [18446741874686296164; 18446741874686300000] [0; 1; 2])
    ltac:(vm_compute; reflexivity) ltac:(vm_compute; reflexivity) ltac:(vm_compute; split; discriminate)
    ltac:(vm_compute; split; discriminate) ltac:(reflexivity) ltac:(vm_compute; discriminate)
    501 "../"%string ltac:(right; vm_compute; repeat split; reflexivity)) as (_ & u' & H1 & H2).
  exists u'. split; [exact H1|exact H2].
Defined.
