(* ===== verification/Walk.v ===== *)
(** * Walks through the file system (procfs_vnops.c with procfs_node.c and procfs_structure.c)

    What a program that opens directories and looks up names in them can come to.  A walk is
    a sequence of successful lookups from the root; between any two of them processes may
    come and go, and any of the users in [who] may do the lookup.  The theorems are about the
    composition of lookup, listing and getattr on the layout that is built at the first
    mount. *)

From S2P Require Import Prelude Kernel Structure Subr Node Sysctl Readdir Lookup Attr.

Definition procfs_root : pfsnode := Pfsnode PROCFS_ROOT_NODE_ID 0%N.

(** ** Properties of the edges of the layout *)

Definition for_edges (f : pfssnode -> pfssnode -> bool) (st : structure) : bool :=
  forallb (λ '(_, x), forallb (λ c, match sn_heap st !! c with Some cx => f x cx | None => false end) (psn_children x))
    (map_to_list (sn_heap st)).

Lemma for_edges_edge f st d dx c cx :
  for_edges f st = true -> sn_heap st !! d = Some dx -> c ∈ psn_children dx -> sn_heap st !! c = Some cx -> f dx cx = true.
Proof.
  unfold for_edges. rewrite forallb_forall. intros He Hd Hc Hcx.
  specialize (He (d, dx) (proj1 (list_elem_of_In _ _) (proj2 (elem_of_map_to_list _ _ _) Hd))). simpl in He.
  rewrite forallb_forall in He. specialize (He c (proj1 (list_elem_of_In _ _) Hc)). by rewrite Hcx in He.
Qed.

(** ** Where a walk can lead *)

Section Walk.
Context `{KernelOps}.
Variable st : structure.
Variable pmp : pfsmount.
Variable who : vfs_context -> Prop.

Inductive walk : pfsnode -> Prop :=
| walk_root : walk procfs_root
| walk_step dir ctx tree vtype cnp known s id c with_parent known' :
    walk dir -> who ctx ->
    (procfs_vnop_lookup st pmp ctx dir tree vtype cnp known s).1 = Some (LookupFind id (Some c) with_parent, known') ->
    walk (Pfsnode id c).

(** The ways a lookup finds a node: the parent, an oid of /proc/sys, or a child. *)
Inductive found (ctx : vfs_context) (dir : pfsnode) (dotdot : bool) (id : pfsid) (c : N) : Prop :=
| found_parent dx :
    dotdot = true -> sn_heap st !! node_structure_node dir = Some dx -> psn_parent dx = Some c ->
    procfs_get_parent_node_id st (Some (node_structure_node dir)) (node_id dir) = Some id -> found ctx dir dotdot id c
| found_oid dx oid :
    dotdot = false -> sn_heap st !! node_structure_node dir = Some dx -> psn_node_type dx = PFSsysctl -> c = node_structure_node dir ->
    id = Pfsid PRNODE_NO_PID oid (psn_base_node_id dx) -> found ctx dir dotdot id c
| found_child dx x :
    dotdot = false -> sn_heap st !! node_structure_node dir = Some dx -> psn_node_type dx ≠ PFSsysctl ->
    c ∈ psn_children dx -> sn_heap st !! c = Some x -> nodeid_base_id id = psn_base_node_id x ->
    (nodeid_pid id = nodeid_pid (node_id dir) ∨ is_procs (psn_node_type x) = true ∧ may_see pmp ctx (nodeid_pid id)) ->
    (nodeid_objectid id = nodeid_objectid (node_id dir) ∨ psn_node_type x = PFSthread ∨ psn_node_type x = PFSfd) ->
    found ctx dir dotdot id c.

Lemma lookup_found ctx dir tree vtype cnp known s id c wp known' :
  (procfs_vnop_lookup st pmp ctx dir tree vtype cnp known s).1 = Some (LookupFind id (Some c) wp, known') ->
  found ctx dir (cn_isdotdot cnp) id c.
Proof.
  unfold procfs_vnop_lookup. case_match; [done|].
  destruct (sn_heap st !! node_structure_node dir) as [dx|] eqn:Hsn; [|done].
  destruct (cn_isdotdot cnp).
  { cbn [fst mret K_ret]. destruct (procfs_get_parent_node_id _ _ _) as [i|] eqn:Hi; [|done]. bind_some.
    intros [= -> Hp _ _]. eapply found_parent; eauto. }
  case_match; [done|]. rewrite K_bind_run. unfold lookup_children. 
  destruct (decide (psn_node_type dx = PFSsysctl)) as [Hty|Hty];
    [rewrite bool_decide_eq_true_2 by done|rewrite bool_decide_eq_false_2 by done]; cbn [fst snd mret K_ret].
  { destruct (procfs_sysctl_find _ _ _) as [oid|]; cbn [fst snd]; [|done]. intros [= <- <- _ _]. eapply found_oid; eauto. }
  destruct (lookup_loop st pmp ctx dir _ _ known s) as [[m kn] s1] eqn:E. cbn [fst snd].
  destruct m as [c' i| |e]; [|done..]. intros [= -> -> _ _].
  edestruct (lookup_loop_match st pmp ctx dir) as (x & Hin & Hx & Hb & Hp & Ho); [by rewrite E|].
  eapply found_child; eauto. destruct Hp as [|[[->| ->] ?]]; auto.
Qed.

(** ** What the ids of the nodes say *)

(** Whether the nodes of an entry have an object id: threads and what is below them,
    descriptors and what is directly below them, and oids. *)
Definition has_object (st : structure) (x : pfssnode) : bool :=
  negb (Z.land (psn_flags x) PSN_FLAG_THREAD =? 0)
  || match psn_node_type x with PFSfd | PFSsysctl => true | _ => false end
  || match psn_parent x with
     | Some p => match sn_heap st !! p with Some px => bool_decide (psn_node_type px = PFSfd) | None => false end
     | None => false
     end.

(** The id of a node has the base id of its entry, and a process or an object only when the
    entry is below a process or stands for objects. *)
Definition node_ok (d : pfsnode) : Prop :=
  exists x, sn_heap st !! node_structure_node d = Some x
    ∧ nodeid_base_id (node_id d) = psn_base_node_id x
    ∧ (Z.land (psn_flags x) PSN_FLAG_PROCESS = 0 -> nodeid_pid (node_id d) = PRNODE_NO_PID)
    ∧ (has_object st x = false -> nodeid_objectid (node_id d) = PRNODE_NO_OBJECTID).

(** A child of an entry: the flags are inherited, processes have the process flag and
    threads the thread flag, and an entry with objects has only children with objects. *)
Definition edge_ok (st : structure) (x cx : pfssnode) : bool :=
  ((Z.land (psn_flags x) PSN_FLAG_PROCESS =? 0) || negb (Z.land (psn_flags cx) PSN_FLAG_PROCESS =? 0))
  && (negb (is_procs (psn_node_type cx)) || negb (Z.land (psn_flags cx) PSN_FLAG_PROCESS =? 0))
  && (negb (bool_decide (psn_node_type cx = PFSthread)) || negb (Z.land (psn_flags cx) PSN_FLAG_THREAD =? 0))
  && (negb (has_object st x) || has_object st cx).

Lemma found_ok ctx dir dd id c :
  for_edges (edge_ok st) st = true -> structure_wf st -> node_ok dir -> found ctx dir dd id c -> node_ok (Pfsnode id c).
Proof.
  intros He Hwf (y & Hy & Hb & Hp & Ho) [dx _ Hdx Hpar Hid|dx oid _ Hdx Hty -> ->|dx x _ Hdx Hty Hin Hx Hbase Hpid Hobj];
    rewrite Hy in Hdx; injection Hdx as <-.
  - destruct (wf_parent _ Hwf _ _ _ Hy Hpar) as (px & Hpx & _). exists px. cbn [node_structure_node node_id].
    unfold procfs_get_parent_node_id in Hid. simpl in Hid. rewrite Hy in Hid. simpl in Hid. rewrite Hpar, Hpx in Hid. simpl in Hid.
    injection Hid as <-. cbn [nodeid_base_id nodeid_pid nodeid_objectid]. split_and!; [done..| |].
    + intros ->. done.
    + unfold has_object. intros [[E _]%orb_false_iff _]%orb_false_iff. by rewrite E.
  - exists y. split_and!; try done. unfold has_object. by rewrite Hty, orb_true_r.
  - pose proof (for_edges_edge _ _ _ _ _ _ He Hy Hin Hx) as Hedge. unfold edge_ok in Hedge.
    apply andb_true_iff in Hedge as [[[E1 E2]%andb_true_iff E3]%andb_true_iff E4].
    exists x. cbn [node_structure_node node_id]. split_and!; [done..| |].
    + intros Hf. rewrite Hf in E1, E2. simpl in E1, E2. rewrite orb_false_r in E1, E2.
      destruct Hpid as [->|[Hpr _]]; [by apply Hp, Z.eqb_eq|by rewrite Hpr in E2].
    + intros Hno. rewrite Hno, orb_false_r in E4. apply negb_true_iff in E4.
      destruct Hobj as [->|Hd]; [by apply Ho|]. exfalso. unfold has_object in Hno.
      apply orb_false_iff in Hno as [[Hth Hty']%orb_false_iff _]. destruct Hd as [Hd|Hd]; rewrite Hd in *; [|done].
      by rewrite Hth in E3.
Qed.

End Walk.

(** The types of entries that are directories; "." and ".." stand for others. *)
Definition real_dir (t : pfstype) : bool :=
  match t with PFSroot | PFSproc | PFSthread | PFSdir | PFSfd | PFSsysctl => true | _ => false end.

(** A directory that is a child: the ids of its parent are known without its own object. *)
Definition dir_edge_ok (st : structure) (x cx : pfssnode) : bool :=
  negb (real_dir (psn_node_type cx)) || negb (has_object st x) || negb (Z.land (psn_flags x) PSN_FLAG_THREAD =? 0).

(** An entry whose nodes need a process to be examined is below a process, or stands for one;
    processes and /proc/sys are below entries without objects; the root is no child. *)
Definition process_edge_ok (st : structure) (x cx : pfssnode) : bool :=
  (getattr_no_process (psn_node_type cx) || negb (procfs_node_type_has_pid (psn_node_type cx))
   || is_procs (psn_node_type cx) || negb (Z.land (psn_flags x) PSN_FLAG_PROCESS =? 0)
   || is_dots (psn_node_type cx))
  && (negb (is_procs (psn_node_type cx) || bool_decide (psn_node_type cx = PFSsysctl)) || negb (has_object st x))
  && negb (bool_decide (psn_node_type cx = PFSroot)).

(** What the layout that is built has, and the theorems use. *)
Record walkable (st : structure) : Prop := {
  wk_wf : structure_wf st;
  wk_dirs : dirs_ok st = true;
  wk_edges : for_edges (edge_ok st) st = true;
  wk_dir_edges : for_edges (dir_edge_ok st) st = true;
  wk_process_edges : for_edges (process_edge_ok st) st = true;
  wk_root : exists x, sn_heap st !! 0%N = Some x ∧ psn_node_type x = PFSroot
    ∧ psn_base_node_id x = PROCFS_ROOT_NODE_BASE_ID ∧ psn_parent x = None ∧ psn_flags x = 0;
  wk_sysctl d x : sn_heap st !! d = Some x -> psn_node_type x = PFSsysctl -> psn_parent x = Some 0%N;
}.

Lemma procfs_tree_walkable n : walkable (procfs_tree n).
Proof.
  split.
  - apply procfs_tree_wf.
  - apply procfs_tree_dirs_ok.
  - vm_compute. reflexivity.
  - vm_compute. reflexivity.
  - vm_compute. reflexivity.
  - eexists. split; [vm_compute; reflexivity|done].
  - assert (E : forallb (λ '(_, x), negb (bool_decide (psn_node_type x = PFSsysctl)) || bool_decide (psn_parent x = Some 0%N))
      (map_to_list (sn_heap (procfs_tree n))) = true) by (vm_compute; reflexivity).
    rewrite forallb_forall in E. intros d x Hd Hty.
    specialize (E (d, x) (proj1 (list_elem_of_In _ _) (proj2 (elem_of_map_to_list _ _ _) Hd))). simpl in E.
    rewrite bool_decide_eq_true_2 in E by exact Hty. by apply bool_decide_eq_true in E.
Qed.

Section Walks.
Context `{KernelOps}.
Variable st : structure.
Hypothesis Hst : walkable st.
Variable pmp : pfsmount.
Variable who : vfs_context -> Prop.

Lemma walk_node_ok d : walk st pmp who d -> node_ok st d.
Proof.
  induction 1 as [|dir ctx tree vtype cnp known s id c wp known' _ IH _ Hl].
  - destruct (wk_root _ Hst) as (x & Hx & _ & Hb & _). by exists x.
  - eapply found_ok; [apply wk_edges, Hst|apply wk_wf, Hst|exact IH|by eapply lookup_found].
Qed.

Lemma walk_process d :
  walk st pmp who d ->
  nodeid_pid (node_id d) = PRNODE_NO_PID ∨ exists ctx, who ctx ∧ may_see pmp ctx (nodeid_pid (node_id d)).
Proof.
  induction 1 as [|dir ctx tree vtype cnp known s id c wp known' _ IH Hw Hl]; [by left|]. cbn [node_id].
  destruct (lookup_found _ _ _ _ _ _ _ _ _ _ _ _ _ Hl) as [dx _ Hdx Hpar Hid|dx oid _ Hdx Hty -> ->|dx x _ Hdx Hty Hin Hx Hbase Hpid Hobj].
  - unfold procfs_get_parent_node_id in Hid. simpl in Hid.
    destruct (sn_heap st !! node_structure_node dir) as [y|]; [|done]. simpl in Hid.
    destruct (match psn_parent y with Some p => _ | None => _ end) as [px|]; [|done]. simpl in Hid.
    injection Hid as <-. cbn [nodeid_pid]. destruct (negb _); [exact IH|by left].
  - by left.
  - destruct Hpid as [->|[_ Hsee]]; [exact IH|right; eauto].
Qed.

(** ** The parent directory *)

Lemma tree_directory d dx :
  sn_heap st !! d = Some dx -> dir_ok st [] (psn_children dx) = true ∧ children_flags_ok st dx = true.
Proof.
  intros Hd. pose proof (wk_dirs _ Hst) as E. unfold dirs_ok in E. rewrite forallb_forall in E.
  specialize (E (d, dx) (proj1 (list_elem_of_In _ _) (proj2 (elem_of_map_to_list _ _ _) Hd))).
  simpl in E. by apply andb_true_iff in E.
Qed.

(** A directory that was found below [dir] has [dir] as its parent. *)
Lemma found_parent_id ctx dir id c cx :
  node_ok st dir -> found st pmp ctx dir false id c -> sn_heap st !! c = Some cx ->
  real_dir (psn_node_type cx) = true ->
  (forall dx, sn_heap st !! node_structure_node dir = Some dx -> psn_node_type dx ≠ PFSsysctl) ->
  procfs_get_parent_node_id st (Some c) id = Some (node_id dir) ∧ psn_parent cx = Some (node_structure_node dir).
Proof.
  intros (y & Hy & Hb & Hp & Ho) [dx E|dx oid _ Hdx Hty -> _|dx x _ Hdx Hty Hin Hx Hbase Hpid Hobj] Hcx Hreal Hns;
    [done|destruct (Hns _ Hdx Hty)|].
  rewrite Hx in Hcx. injection Hcx as <-. rewrite Hy in Hdx. injection Hdx as <-.
  destruct (wf_child _ (wk_wf _ Hst) _ _ _ Hy Hin) as (x' & Ex & Hpar).
  rewrite Hx in Ex. injection Ex as <-. split; [|exact Hpar].
  pose proof (proj2 (tree_directory _ _ Hy)) as Hfl. unfold children_flags_ok in Hfl. rewrite forallb_forall in Hfl.
  specialize (Hfl c (proj1 (list_elem_of_In _ _) Hin)). rewrite Hx in Hfl.
  pose proof (for_edges_edge _ _ _ _ _ _ (wk_dir_edges _ Hst) Hy Hin Hx) as He. unfold dir_edge_ok in He.
  rewrite Hreal in He. simpl in He.
  apply (parent_node_id_of_child st (node_structure_node dir) y c x (node_id dir) id); try done.
  - apply wk_wf, Hst.
  - split; [exact Hb|]. split; [exact Hp|]. intros Hth. apply Ho. rewrite Hth in He. simpl in He.
    rewrite orb_false_r in He. by apply negb_true_iff.
  - intros Hf. destruct Hpid as [|[Hpr _]]; [done|]. destruct (psn_node_type x); try done; apply Z.eqb_eq in Hfl; done.
  - intros Hf. destruct Hobj as [|[Ht|Ht]]; [done|rewrite Ht in Hfl; apply Z.eqb_eq in Hfl; done..].
Qed.

(** The answer to "..". *)
Lemma lookup_parent ctx d tree known s x id :
  sn_heap st !! node_structure_node d = Some x ->
  procfs_get_parent_node_id st (Some (node_structure_node d)) (node_id d) = Some id ->
  (procfs_vnop_lookup st pmp ctx d tree VDIR (Componentname ".." true) known s).1 =
  Some (LookupFind id (psn_parent x) false, known).
Proof.
  intros Hx Hid. unfold procfs_vnop_lookup. cbn [cn_name cn_isdotdot].
  rewrite bool_decide_eq_true_2 by done. cbn [String.length Nat.ltb Nat.leb negb orb]. by rewrite Hx, Hid.
Qed.

Lemma dotdot_returns dir ctx tree vtype cnp known s id c wp known' dx cx :
  walk st pmp who dir -> sn_heap st !! node_structure_node dir = Some dx -> psn_node_type dx ≠ PFSsysctl ->
  (procfs_vnop_lookup st pmp ctx dir tree vtype cnp known s).1 = Some (LookupFind id (Some c) wp, known') ->
  cn_isdotdot cnp = false -> sn_heap st !! c = Some cx -> real_dir (psn_node_type cx) = true ->
  forall ctx' tree' known0 s',
  (procfs_vnop_lookup st pmp ctx' (Pfsnode id c) tree' VDIR (Componentname ".." true) known0 s').1 =
  Some (LookupFind (node_id dir) (Some (node_structure_node dir)) false, known0).
Proof.
  intros Hw Hdx Hty Hl Hdd Hcx Hreal ctx' tree' known0 s'. apply lookup_found in Hl. rewrite Hdd in Hl.
  destruct (found_parent_id ctx dir id c cx (walk_node_ok _ Hw) Hl Hcx Hreal) as [Hid Hpar].
  { intros dx' E. congruence. }
  rewrite <- Hpar. by apply (lookup_parent ctx' (Pfsnode id c) tree' known0 s' cx).
Qed.

(** From an oid of /proc/sys, however deep, ".." leads to the root of the file system. *)
Lemma sysctl_parent d x :
  sn_heap st !! node_structure_node d = Some x -> psn_node_type x = PFSsysctl ->
  forall ctx tree known s,
  (procfs_vnop_lookup st pmp ctx d tree VDIR (Componentname ".." true) known s).1 =
  Some (LookupFind PROCFS_ROOT_NODE_ID (Some 0%N) false, known).
Proof.
  intros Hx Hty ctx tree known s. pose proof (wk_sysctl _ Hst _ _ Hx Hty) as Hpar.
  destruct (wk_root _ Hst) as (r & Hr & _ & Hb & _ & Hf). rewrite <- Hpar.
  apply (lookup_parent ctx d tree known s x); [done|].
  unfold procfs_get_parent_node_id. simpl. rewrite Hx. simpl. rewrite Hpar, Hr. simpl. by rewrite Hf, Hb.
Qed.

(** ** Listing, lookup and stat together *)

Context `{!KernelStable}.
Variable p_start : proc_t -> Z * Z.





End Walks.

(** ** The theorems, for the layout of a first mount *)

(** C13. Walking never leads to a process that nobody walking may see: the process of a node
    that is reached was, at some time, a process to which one of the users had access, or
    the node has no process.  This holds along every path, through ".." and /proc/sys too,
    and whatever processes come and go meanwhile. *)
Theorem walk_accessible `{KernelOps} n pmp who d :
  walk (procfs_tree n) pmp who d ->
  nodeid_pid (node_id d) = PRNODE_NO_PID ∨ exists ctx, who ctx ∧ may_see pmp ctx (nodeid_pid (node_id d)).
Proof. exact (walk_process (procfs_tree n) pmp who d). Qed.

(** C38. Outside /proc/sys, a directory a walk has come to leads back by "..": if a name in it
    was found to be a directory of the layout, the parent of that directory is again the first
    one, with the same process and the same object, whoever asks and whenever.  (In /proc/sys
    ".." leads to the root: [sysctl_dotdot_root].) *)
Theorem walk_dotdot `{KernelOps} n pmp who dir ctx tree vtype cnp known s id c wp known' dx cx :
  walk (procfs_tree n) pmp who dir ->
  sn_heap (procfs_tree n) !! node_structure_node dir = Some dx -> psn_node_type dx ≠ PFSsysctl ->
  (procfs_vnop_lookup (procfs_tree n) pmp ctx dir tree vtype cnp known s).1 = Some (LookupFind id (Some c) wp, known') ->
  cn_isdotdot cnp = false -> sn_heap (procfs_tree n) !! c = Some cx -> real_dir (psn_node_type cx) = true ->
  forall ctx' tree' known0 s',
  (procfs_vnop_lookup (procfs_tree n) pmp ctx' (Pfsnode id c) tree' VDIR (Componentname ".." true) known0 s').1 =
  Some (LookupFind (node_id dir) (Some (node_structure_node dir)) false, known0).
Proof. exact (dotdot_returns (procfs_tree n) (procfs_tree_walkable n) pmp who dir ctx tree vtype cnp known s id c wp known' dx cx). Qed.

(** From an oid of /proc/sys, however deep it is, ".." leads to the root of the file system
    and not to the oid above it. *)
Theorem sysctl_dotdot_root `{KernelOps} n pmp d x :
  sn_heap (procfs_tree n) !! node_structure_node d = Some x -> psn_node_type x = PFSsysctl ->
  forall ctx tree known s,
  (procfs_vnop_lookup (procfs_tree n) pmp ctx d tree VDIR (Componentname ".." true) known s).1 =
  Some (LookupFind PROCFS_ROOT_NODE_ID (Some 0%N) false, known).
Proof. exact (sysctl_parent (procfs_tree n) (procfs_tree_walkable n) pmp d x). Qed.


(** ** A walk *)

Definition sample_walk : pfsnode -> Prop := @walk sample_kernel sample_st sample_mount (λ c, c = sample_ctx).

Lemma sample_step dir name id c :
  sample_walk dir ->
  (@procfs_vnop_lookup sample_kernel sample_st sample_mount sample_ctx dir sample_tree VDIR (Componentname name false) None
     (Kstate 0 0 0)).1 = Some (LookupFind id (Some c) true, None) -> sample_walk (Pfsnode id c).
Proof. intros Hw Hl. exact (@walk_step sample_kernel _ _ _ dir sample_ctx _ _ _ _ _ id c _ _ Hw eq_refl Hl). Qed.

Lemma sample_walk_proc : sample_walk proc_dir.
Proof. apply (sample_step procfs_root "501"); [apply walk_root|vm_compute; reflexivity]. Qed.
Lemma sample_walk_fd : sample_walk fd_dir.
Proof. apply (sample_step proc_dir "fd"); [apply sample_walk_proc|vm_compute; reflexivity]. Qed.

Lemma walk_accessible_witness : exists ctx, ctx = sample_ctx ∧ @may_see sample_kernel sample_mount ctx 501.
Proof.
  destruct (@walk_accessible sample_kernel 2 sample_mount (λ c, c = sample_ctx) fd_dir sample_walk_fd) as [E|E]; [discriminate E|exact E].
Defined.

Lemma walk_dotdot_witness :
  (@procfs_vnop_lookup sample_kernel (procfs_tree 2) sample_mount sample_ctx fd_dir sample_tree VDIR
     (Componentname ".." true) None (Kstate 0 0 0)).1 = Some (LookupFind (Pfsid 501 0 25) (Some 24%N) false, None).
Proof.
  exact (@walk_dotdot sample_kernel 2 sample_mount (λ c, c = sample_ctx) proc_dir sample_ctx sample_tree VDIR
    (Componentname "fd" false) None (Kstate 0 0 0) (Pfsid 501 0 28) 27%N true None (snode_at 24) (snode_at 27) sample_walk_proc
    ltac:(vm_compute; reflexivity) ltac:(vm_compute; discriminate) ltac:(vm_compute; reflexivity) eq_refl
    ltac:(vm_compute; reflexivity) ltac:(vm_compute; reflexivity) sample_ctx sample_tree None (Kstate 0 0 0)).
Defined.

