(* ===== verification/Getdents.v ===== *)
(** * Programs that list a directory (test/test_getdents.c, test/test_getdents_multi.c)

    The two test programs read a directory with getdirentries64 and walk over the entries in
    their buffer.  The system call is a parameter; what they rely on of it is that it makes
    one call of the readdir operation, with the offset the descriptor has. *)

From S2P Require Import Prelude Kernel Structure Subr Node Sysctl Readdir.

(** ** The loop over a buffer *)

Record dirent_line := DirentLine { dl_ino : Z; dl_type : Z; dl_reclen : Z; dl_name : string }.

(** [while (p < end) { ... if (de->d_reclen == 0) break; ... p += de->d_reclen; }]; the fuel is
    the number of bytes.  [None]: a field or a name outside the buffer is read. *)
Fixpoint walk_entries (fuel : nat) (b : list Byte.byte) : option (list dirent_line) :=
  match b with
  | [] => Some []
  | _ =>
    match fuel with
    | O => None
    | S fuel' =>
      if (length b <? 21)%nat then None else
      let reclen := le_value (take 2 (drop 16 b)) in
      if reclen =? 0 then Some [] else
      if bool_decide (Byte.x00 ∈ drop 21 b) then
        rest ← walk_entries fuel' (drop (Z.to_nat reclen) b);
        Some (DirentLine (le_value (take 8 b)) (le_value (take 1 (drop 20 b))) reclen (c_string (drop 21 b)) :: rest)
      else None
    end
  end.

Section Programs.
Context `{KernelOps}.

(** What getdirentries64 returns: the error, or the bytes; and the new offset.  The remembered
    size of the thread structure is state of the kext. *)
Record call_result := CallResult { cr_errno : Z; cr_bytes : list Byte.byte; cr_offset : Z; cr_known : option Z }.

Variable getdirentries64 : Z -> Z -> option Z -> K call_result.

(** The result of a program: its exit code and what it printed. *)
Inductive exit_status (A : Type) : Type := Exit (code : Z) (printed : A).
#[global] Arguments Exit {A} _ _.

(** test_getdents.c, once the directory is open: the entries printed, each with its number.  The fuel is the number of
    calls; [None]: it has not ended, or reads outside its buffer. *)
Fixpoint getdents_loop (fuel : nat) (offset : Z) (known : option Z) (printed : list dirent_line) :
    K (option (exit_status (list dirent_line))) :=
  match fuel with
  | O => mret None
  | S fuel' =>
    r ← getdirentries64 8192 offset known;
    if negb (cr_errno r =? 0) then mret (Some (Exit 1 printed)) else
    match cr_bytes r with
    | [] => mret (Some (Exit 0 printed))
    | b =>
      match walk_entries (length b) b with
      | None => mret None
      | Some l => getdents_loop fuel' (cr_offset r) (cr_known r) (printed ++ l)
      end
    end
  end.

Definition test_getdents (fuel : nat) (known : option Z) : K (option (exit_status (list dirent_line))) :=
  getdents_loop fuel 0 known [].

(** test_getdents_multi.c: the entries are counted; after 50 calls it gives up. *)
Fixpoint multi_loop (fuel : nat) (bufsize offset : Z) (known : option Z) (call total : nat) :
    K (option (exit_status (nat * nat))) :=
  match fuel with
  | O => mret None
  | S fuel' =>
    r ← getdirentries64 bufsize offset known;
    if negb (cr_errno r =? 0) then mret (Some (Exit 1 (total, call))) else
    match walk_entries (length (cr_bytes r)) (cr_bytes r) with
    | None => mret None
    | Some l =>
      let total := (total + length l)%nat in
      if bool_decide (cr_bytes r = []) then mret (Some (Exit 0 (total, call)))
      else if (50 <? S call)%nat then mret (Some (Exit 0 (total, S call)))
      else multi_loop fuel' bufsize (cr_offset r) (cr_known r) (S call) total
    end
  end.

(** [arg] is the value of the first argument, or 4096; the buffer has 131072 bytes. *)
Definition test_getdents_multi (fuel : nat) (arg : Z) (known : option Z) : K (option (exit_status (nat * nat))) :=
  let bufsize := u64 arg in
  multi_loop fuel (if 131072 <? bufsize then 131072 else bufsize) 0 known 0 0.

End Programs.

(** ** What the loop over a buffer finds *)

Definition line_of (e : dent) : dirent_line := DirentLine (d_ino e) (d_type e) (entry_size e) (d_name e).
Definition no_nul (e : dent) : Prop := Byte.x00 ∉ bytes_of_string (d_name e).

Lemma c_string_name s rest : no_nul (Dent 0 0 s) -> c_string (bytes_of_string s ++ Byte.x00 :: rest) = s.
Proof.
  unfold no_nul, bytes_of_string. simpl. induction s as [|c s IH]; [done|]. cbn [String.list_byte_of_string app c_string].
  intros Hn. apply not_elem_of_cons in Hn as [H0 Hn].
  destruct (Byte.eqb (Ascii.byte_of_ascii c) Byte.x00) eqn:E; [apply Byte.byte_dec_bl in E; congruence|].
  change (String.list_byte_of_string (String c s)) with (Ascii.byte_of_ascii c :: String.list_byte_of_string s).
  cbn [app c_string]. rewrite E, Ascii.ascii_of_byte_of_ascii. f_equal. by apply IH.
Qed.

Lemma walk_entries_encode l : forall fuel pos,
  Forall entry_valid l -> Forall no_nul l -> (length (encode_from pos l) <= fuel)%nat ->
  walk_entries fuel (encode_from pos l) = Some (line_of <$> l).
Proof.
  induction l as [|e l IH]; intros fuel pos Hv Hn Hf; [by destruct fuel|].
  apply Forall_cons in Hv as [He Hv]. apply Forall_cons in Hn as [Hne Hn]. cbn [encode_from] in *.
  pose proof (entry_size_bounds e) as [Hlo _].
  destruct (encode_fields pos e (encode_from (pos + entry_size e) l)) as (F0 & F2 & _ & F4 & (k & F5) & Hd & Hlen); [apply He|].
  destruct (entry_values e He) as (V0 & V2 & _ & V4). rewrite length_app in Hf.
  pose proof (encode_length pos e (proj1 He)) as Hel.
  remember (encode pos e ++ encode_from (pos + entry_size e) l) as b eqn:Eb.
  destruct fuel as [|fuel]; [lia|]. cbn [walk_entries]. destruct b as [|b0 b'] eqn:E; [simpl in Hlen; lia|]. rewrite <- E in *.
  rewrite (proj2 (Nat.ltb_ge _ _)) by lia. rewrite F2, V2, (proj2 (Z.eqb_neq _ _)) by lia.
  rewrite bool_decide_eq_true_2 by (rewrite F5; cbn [replicate]; set_solver).
  rewrite Hd, IH by (done || lia). rewrite drop_0 in F0. rewrite F0, F4, V0, V4, F5. cbn [replicate app].
  cbn. by rewrite c_string_name.
Qed.

(** ** The programs on a mounted directory *)

Section Mounted.
Context `{KernelOps, !KernelStable}.
Variable st : structure.
Variable pmp : pfsmount.
Variable ctx : vfs_context.
Variable dir : pfsnode.
Variable tree : sysctl_tree.
Variable getdirentries64 : Z -> Z -> option Z -> K call_result.

(** The system call makes one call of readdir, with the offset of the descriptor and the
    caller's buffer, and keeps the new offset. *)
Definition calls_readdir : Prop :=
  forall n off known s rr known' s',
    procfs_vnop_readdir st pmp ctx dir tree VDIR known (SimpleUio off (Z.to_nat n) true [] true) s = (Some (rr, known'), s') ->
    getdirentries64 n off known s = (CallResult (rr_error rr) (uio_out (rr_uio rr)) (uio_offset (rr_uio rr)) known', s').

(** What the programs need of the directory: its entries can be listed. *)
Record listable (l : list dent) (known : option Z) : Prop := {
  li_dir : exists x, sn_heap st !! node_structure_node dir = Some x ∧ psn_node_type x ≠ PFSsysctl;
  li_list : directory_listing st pmp ctx dir known = Some l;
  li_valid : Forall entry_valid l;
  li_names : Forall no_nul l;
}.

Hypothesis Hcall : calls_readdir.

Lemma listable_ok l known : listable l known -> Forall entry_ok l.
Proof. intros [_ _ Hv _]. eapply Forall_impl; [exact Hv|]. by intros e [? _]. Qed.

(** One call and the walk over what it returned. *)
Lemma one_call l n j known s :
  listable l known -> 1048 <= n -> (j <= length l)%nat ->
  exists k known' s',
    getdirentries64 n (sum_size (take j l)) known s =
      (CallResult 0 (encode_from (sum_size (take j l)) (take k (drop j l))) (sum_size (take (j + k) l)) known', s')
    ∧ listable l known' ∧ (j + k <= length l)%nat ∧ (k = 0%nat <-> j = length l)
    ∧ (encode_from (sum_size (take j l)) (take k (drop j l)) = [] <-> j = length l)
    ∧ walk_entries (length (encode_from (sum_size (take j l)) (take k (drop j l))))
        (encode_from (sum_size (take j l)) (take k (drop j l))) = Some (line_of <$> take k (drop j l)).
Proof.
  intros Hli Hn Hj. pose proof (listable_ok _ _ Hli) as Hok. destruct Hli as [(x & Hx & Hty) Hl Hv Hnul].
  destruct (readdir_call st pmp ctx dir tree x known l j
    (SimpleUio (sum_size (take j l)) (Z.to_nat n) true [] true : @uio_t simple_uio_ops))
    as (u' & eof & known' & Hval & Ho & Hoff & Hk & _); cbn in *; [done..|lia|done|done|].
  rewrite Z2Nat.id in Hval, Ho, Hoff by lia. set (k := fit n (drop j l)) in *.
  pose proof (fit_progress n l j Hok Hn) as Hprog. fold k in Hprog.
  pose proof (fit_length n (drop j l)) as Hkl. rewrite length_drop in Hkl. fold k in Hkl.
  specialize (Hval s). destruct (procfs_vnop_readdir _ _ _ _ _ _ _ _ s) as [res s'] eqn:E. simpl in Hval. subst res.
  pose proof (Hcall _ _ _ _ _ _ _ E) as Hg. cbn [rr_error rr_uio] in Hg. cbn in Hg. rewrite Ho, Hoff in Hg.
  exists k, known', s'. split; [exact Hg|].
  split; [split; [by exists x|by rewrite (listing_known st pmp ctx dir known)|done..]|].
  split; [lia|]. split; [lia|]. split.
  - split; [|intros ->; by rewrite drop_ge, take_nil by done].
    intros Hnil. destruct (decide (j = length l)) as [|Hne]; [done|]. specialize (Hprog ltac:(lia)).
    destruct (drop j l) as [|e rest] eqn:Ed; [apply (f_equal length) in Ed; rewrite length_drop in Ed; simpl in Ed; lia|].
    destruct k as [|k']; [lia|]. cbn [take encode_from] in Hnil. apply app_eq_nil in Hnil as [Hnil _].
    assert (Hoe : entry_ok e) by (apply (Forall_drop _ j) in Hok; rewrite Ed in Hok; by apply Forall_cons in Hok as [? _]).
    pose proof (encode_length (sum_size (take j l)) e Hoe) as Hel. rewrite Hnil in Hel. pose proof (entry_size_bounds e). simpl in Hel. lia.
  - apply walk_entries_encode; [by apply Forall_take, Forall_drop..|done].
Qed.

Lemma getdents_loop_from l : forall fuel j known printed s,
  listable l known -> (j <= length l)%nat -> (length l < j + fuel)%nat ->
  (getdents_loop getdirentries64 fuel (sum_size (take j l)) known printed s).1 =
  Some (Exit 0 (printed ++ (line_of <$> drop j l))).
Proof.
  induction fuel as [|fuel IH]; intros j known printed s Hli Hj Hf; [lia|]. cbn [getdents_loop].
  destruct (one_call l 8192 j known s Hli ltac:(lia) Hj) as (k & known' & s' & Hg & Hli' & Hjk & Hk0 & Hnil & Hw).
  rewrite K_bind_run, Hg. cbn [fst snd cr_errno cr_bytes cr_offset cr_known]. simpl (negb _).
  destruct (encode_from (sum_size (take j l)) (take k (drop j l))) as [|b0 bs] eqn:Eb.
  - rewrite drop_ge by (rewrite (proj1 Hnil eq_refl); done). by rewrite app_nil_r.
  - rewrite Hw, IH; [|done|lia|assert (k ≠ 0%nat) by (intros E0; apply Hk0, Hnil in E0; done); lia].
    by rewrite <- app_assoc, <- fmap_app, <- (drop_drop l k j), take_drop.
Qed.

Lemma multi_loop_from l n : 1048 <= n -> forall fuel j known call s,
  listable l known -> (j <= length l)%nat -> (length l < j + fuel)%nat -> (call <= j)%nat -> (length l <= 50)%nat ->
  exists calls, (multi_loop getdirentries64 fuel n (sum_size (take j l)) known call j s).1 = Some (Exit 0 (length l, calls))
    ∧ (calls <= length l)%nat.
Proof.
  intros Hn. induction fuel as [|fuel IH]; intros j known call s Hli Hj Hf Hc Hs; [lia|]. cbn [multi_loop].
  destruct (one_call l n j known s Hli Hn Hj) as (k & known' & s' & Hg & Hli' & Hjk & Hk0 & Hnil & Hw).
  rewrite K_bind_run, Hg. cbn [fst snd cr_errno cr_bytes cr_offset cr_known]. simpl (negb _). rewrite Hw.
  rewrite length_fmap, length_take, length_drop, Nat.min_l by lia.
  case_bool_decide as Hb.
  - apply Hnil in Hb as ->. rewrite (proj2 Hk0 eq_refl), Nat.add_0_r. exists call. split; [done|lia].
  - assert (k ≠ 0%nat) by (intros E0; apply Hk0, Hnil in E0; done).
    rewrite (proj2 (Nat.ltb_ge 50 (S call))) by lia. apply IH; done || lia.
Qed.

(** C39. test_getdents on a mounted directory ends normally after at most one call more than
    there are entries, and prints every entry of the directory once, in order, with its file
    id, type, size and name: the walk over the bytes of each buffer finds the entries the
    kext has put there. *)
Theorem getdents_prints_all l fuel known s :
  listable l known -> (length l < fuel)%nat ->
  (test_getdents getdirentries64 fuel known s).1 = Some (Exit 0 (line_of <$> l)).
Proof. intros Hli Hf. apply (getdents_loop_from l fuel 0 known [] s Hli); lia. Qed.

(** test_getdents_multi counts all entries of a directory of up to 50 entries, with any
    buffer of at least the size of the largest entry, and does not give up. *)
Theorem getdents_multi_total l fuel arg known s :
  listable l known -> (length l < fuel)%nat -> (length l <= 50)%nat -> 1048 <= arg < 2147483648 ->
  exists calls, (test_getdents_multi getdirentries64 fuel arg known s).1 = Some (Exit 0 (length l, calls)) ∧ (calls <= length l)%nat.
Proof.
  intros Hli Hf Hs Ha. unfold test_getdents_multi. rewrite u64_small by lia.
  set (n := if 131072 <? arg then 131072 else arg).
  assert (Hn : 1048 <= n) by (unfold n; destruct (Z.ltb_spec 131072 arg); lia).
  apply (multi_loop_from l n Hn fuel 0 known 0%nat s Hli); lia.
Qed.

End Mounted.

(** ** /proc/501/fd *)

(** A system call that does what is assumed, for a directory that can be read. *)
Definition sample_getdirentries (dir : pfsnode) (n off : Z) (known : option Z) : K (call_result) :=
  r ← @procfs_vnop_readdir sample_kernel _ sample_st sample_mount sample_ctx dir sample_tree VDIR known
        (SimpleUio off (Z.to_nat n) true [] true);
  mret (match r with
        | Some (rr, known') => CallResult (rr_error rr) (uio_out (rr_uio rr)) (uio_offset (rr_uio rr)) known'
        | None => CallResult EINVAL [] off known
        end).

Lemma sample_calls_readdir dir :
  @calls_readdir sample_kernel sample_st sample_mount sample_ctx dir sample_tree (sample_getdirentries dir).
Proof. intros n off known s rr known' s' E. unfold sample_getdirentries. by rewrite K_bind_run, E. Qed.

#[export] Instance no_nul_dec e : Decision (no_nul e).
Proof. unfold no_nul. apply _. Defined.

Lemma sample_listable : @listable sample_kernel sample_st sample_mount sample_ctx fd_dir (sample_listing fd_dir) None.
Proof.
  split.
  - exists (snode_at 27). split; [vm_compute; reflexivity|vm_compute; discriminate].
  - vm_compute. reflexivity.
  - apply (bool_decide_unpack _). vm_compute. exact I.
  - apply (bool_decide_unpack _). vm_compute. exact I.
Qed.

Lemma getdents_prints_all_witness :
  ((test_getdents (sample_getdirentries fd_dir) 9 None : K (option (exit_status (list dirent_line)))) (Kstate 0 0 0)).1 =
  Some (Exit 0 (line_of <$> sample_listing fd_dir)).
Proof.
  apply (@getdents_prints_all sample_kernel (simple_kernel_stable _) sample_st sample_mount sample_ctx fd_dir sample_tree
    (sample_getdirentries fd_dir) (sample_calls_readdir fd_dir) (sample_listing fd_dir) 9 None (Kstate 0 0 0)).
  - exact sample_listable.
  - vm_compute. lia.
Defined.

Lemma getdents_multi_total_witness :
  exists calls,
  ((test_getdents_multi (sample_getdirentries fd_dir) 9 4096 None : K (option (exit_status (nat * nat)))) (Kstate 0 0 0)).1 =
  Some (Exit 0 (5%nat, calls)) ∧ (calls <= 5)%nat.
Proof.
  apply (@getdents_multi_total sample_kernel (simple_kernel_stable _) sample_st sample_mount sample_ctx fd_dir sample_tree
    (sample_getdirentries fd_dir) (sample_calls_readdir fd_dir) (sample_listing fd_dir) 9 4096 None (Kstate 0 0 0)).
  - exact sample_listable.
  - vm_compute. lia.
  - vm_compute. lia.
  - lia.
Defined.
