(* ===== verification/Vfsops.v ===== *)
(** * Mounting and loading (kext/procfs_vfsops.c, kext/procfs.c)

    Mounts and unmounts are serialised by the kernel; the state they share is the
    statics of procfs_vfsops.c, the layout of procfs_structure.c and the private
    data of each mount.  Loading and unloading the kext acquire and release its
    resources. *)

From S2P Require Import Prelude Kernel Structure Subr.

(** ** Mounts *)

Definition MOUNTED_DEVICE_NAME : string := "proc".
Definition BLOCK_SIZE : Z := 4096.
Definition MNT_FLAGS : list string :=
  ["MNT_RDONLY"; "MNT_NOSUID"; "MNT_NOEXEC"; "MNT_NODEV"; "MNT_NOATIME"; "MNT_LOCAL"]%string.
Definition MNAMELEN : nat := 1024.

(** The part of [vfsstatfs] that is not constant. *)
Record statfs := Statfs { f_bsize : Z; f_iosize : Z; f_fsid : Z * Z; f_mntfromname : string }.

(** A mount: the kernel's [struct mount] with procfs private data attached. *)
Record mount := Mount { mnt_private : pfsmount; mnt_statfs : statfs; mnt_flags : list string }.

Record vfs_state := VfsState {
  procfs_mount_id : Z;
  mounted_instance_count : Z;
  vs_structure : structure;
  pfsnode_hash_buckets : option nat;       (** the number of buckets once allocated *)
  vs_mounts : gmap N mount;                (** the mounts with private data *)
}.

Definition vfs_boot : vfs_state := VfsState 0 0 structure_boot None ∅.

Section Vfs.
Variable vfs_typenum : Z.

(** [count]: the mounted instances, this one included. *)
Definition populate_statfs_info (pmp : pfsmount) (count : Z) : statfs :=
  Statfs BLOCK_SIZE BLOCK_SIZE (pmnt_id pmp, vfs_typenum)
    (if count =? 1 then MOUNTED_DEVICE_NAME
     else snprintf (MNAMELEN - 1) (MOUNTED_DEVICE_NAME +:+ fmt_d count)).

(** The options argument: NULL, a failed copyin, or the options. *)
Inductive mount_data : Set := NoData | BadData | Options (mnt_options : Z).

(** The error and the new state; [None] when the construction of the layout panics. *)
Definition procfs_mount (mp : N) (data : mount_data) (now : Z * Z) (malloc_ok : bool) (osmalloc : N -> bool)
    (s : vfs_state) : option (Z * vfs_state) :=
  match vs_mounts s !! mp with
  | Some _ => Some (0, s)
  | None =>
    let options := match data with Options o => o | _ => 0 end in
    if negb malloc_ok then Some (ENOMEM, s) else
    let id := s32 (procfs_mount_id s + 1) in
    let pmp := Pfsmount id options now in
    let count := s32 (mounted_instance_count s + 1) in
    match procfs_structure_init osmalloc (vs_structure s) with
    | None => None
    | Some (_, st) =>
      Some (0, VfsState id count st
                 (match pfsnode_hash_buckets s with Some b => Some b | None => Some 64%nat end)
                 (<[mp := Mount pmp (populate_statfs_info pmp count) MNT_FLAGS]> (vs_mounts s)))
    end
  end.

(** [None] when the release of the layout fails. *)
Definition procfs_unmount (mp : N) (s : vfs_state) : option (Z * vfs_state) :=
  let s1 := match vs_mounts s !! mp with
            | Some _ => VfsState (procfs_mount_id s) (s32 (mounted_instance_count s - 1)) (vs_structure s)
                          (pfsnode_hash_buckets s) (delete mp (vs_mounts s))
            | None => s
            end in
  match procfs_structure_free (vs_structure s1) with
  | None => None
  | Some (_, st) => Some (0, VfsState (procfs_mount_id s1) (mounted_instance_count s1) st
                               (pfsnode_hash_buckets s1) (vs_mounts s1))
  end.

(** The request [procfs_root] makes to the node table: mount, id, structure node. *)
Definition procfs_root (mp : N) (s : vfs_state) : option (Z * pfsid * option N) :=
  m ← vs_mounts s !! mp;
  Some (pmnt_id (mnt_private m), PROCFS_ROOT_NODE_ID, procfs_structure_root_node (vs_structure s)).

Record vfs_attr := VfsAttr {
  fa_counts : list Z; fa_bsize : Z; fa_iosize : Z; fa_fsid : Z * Z; fa_times : list (Z * Z)
}.

Definition populate_vfs_attr (m : mount) : vfs_attr :=
  VfsAttr [0; 0; 0; 0; 0; 0; 0; 0; 0; 0] BLOCK_SIZE BLOCK_SIZE (f_fsid (mnt_statfs m))
    (let t := pmnt_mount_time (mnt_private m) in [t; t; t]).

Definition procfs_getattr (mp : N) (s : vfs_state) : option (Z * vfs_attr) :=
  m ← vs_mounts s !! mp; Some (0, populate_vfs_attr m).

(** ** Sequences of operations *)

Inductive vfs_op : Set :=
| OpMount (mp : N) (data : mount_data) (now : Z * Z) (malloc_ok : bool)
| OpUnmount (mp : N).

Definition vfs_step (o : vfs_op) (s : vfs_state) : option vfs_state :=
  match o with
  | OpMount mp data now ok => snd <$> procfs_mount mp data now ok (λ _, true) s
  | OpUnmount mp => snd <$> procfs_unmount mp s
  end.

Fixpoint vfs_run (os : list vfs_op) (s : vfs_state) : option vfs_state :=
  match os with
  | [] => Some s
  | o :: os' => s' ← vfs_step o s; vfs_run os' s'
  end.

(** The mount ids are those given out so far and belong to one mount each; the
    counter counts the mounts. *)
Record vfs_inv (s : vfs_state) : Prop := {
  vi_ids mp m : vs_mounts s !! mp = Some m -> 0 < pmnt_id (mnt_private m) <= procfs_mount_id s;
  vi_distinct mp mp' m m' : vs_mounts s !! mp = Some m -> vs_mounts s !! mp' = Some m' ->
    pmnt_id (mnt_private m) = pmnt_id (mnt_private m') -> mp = mp';
  vi_count : mounted_instance_count s = Z.of_nat (size (vs_mounts s));
  vi_bound : 0 <= procfs_mount_id s ∧ Z.of_nat (size (vs_mounts s)) <= procfs_mount_id s;
}.

Lemma vfs_step_inv o s s' :
  vfs_inv s -> procfs_mount_id s < INT_MAX -> vfs_step o s = Some s' ->
  vfs_inv s' ∧ procfs_mount_id s <= procfs_mount_id s' <= procfs_mount_id s + 1.
Proof.
  intros [Hi Hd Hc Hb] Hlt. unfold INT_MAX in *. destruct o as [mp data now ok|mp]; simpl.
  - unfold procfs_mount. destruct (vs_mounts s !! mp) as [m|] eqn:Hm; simpl.
    { intros [= <-]. split; [by split|lia]. }
    destruct ok; simpl; [|intros [= <-]; split; [by split|lia]].
    destruct (procfs_structure_init _ _) as [[[] st]|]; simpl; [|done]. intros [= <-]. simpl.
    rewrite !s32_small by (unfold INT_MIN, INT_MAX; lia). split; [|lia]. split; simpl.
    + intros mp' m' [[<- <-]|[_ H]]%lookup_insert_Some; simpl; [lia|]. pose proof (Hi _ _ H). lia.
    + intros mp1 mp2 m1 m2 [[<- <-]|[? H1]]%lookup_insert_Some [[<- <-]|[? H2]]%lookup_insert_Some; simpl;
        eauto; intros E; exfalso; [pose proof (Hi _ _ H2)|pose proof (Hi _ _ H1)]; lia.
    + rewrite map_size_insert_None by done. lia.
    + rewrite map_size_insert_None by done. lia.
  - unfold procfs_unmount. destruct (vs_mounts s !! mp) as [m|] eqn:Hm.
    + destruct (procfs_structure_free _) as [[[] st]|]; simpl; [|done]. intros [= <-]. simpl. split; [|lia].
      assert (Hsz : size (vs_mounts s) = S (size (delete mp (vs_mounts s)))).
      { rewrite map_size_delete_Some by (by eexists).
        destruct (decide (size (vs_mounts s) = O)) as [E0|]; [|lia].
        apply map_size_empty_inv in E0. rewrite E0, lookup_empty in Hm. done. }
      split; simpl.
      * intros mp' m' [_ H]%lookup_delete_Some. eauto.
      * intros mp1 mp2 m1 m2 [_ H1]%lookup_delete_Some [_ H2]%lookup_delete_Some. eauto.
      * rewrite s32_small by (unfold INT_MIN, INT_MAX; lia). lia.
      * lia.
    + destruct (procfs_structure_free _) as [[[] st]|]; simpl; [|done]. intros [= <-]. simpl. split; [|lia]. by split.
Qed.

Lemma vfs_run_inv os s s' :
  vfs_inv s -> procfs_mount_id s + Z.of_nat (length os) <= INT_MAX -> vfs_run os s = Some s' -> vfs_inv s'.
Proof.
  revert s. induction os as [|o os IH]; intros s Hi Hb; simpl; [by intros [= <-]|].
  destruct (vfs_step o s) as [s1|] eqn:E; simpl; [|done]. simpl in Hb.
  destruct (vfs_step_inv o s s1 Hi ltac:(lia) E) as [Hi1 Hm]. apply IH; [done|lia].
Qed.

Lemma vfs_boot_inv : vfs_inv vfs_boot.
Proof. split; simpl; try done. Qed.

(** After any sequence of fewer than 2^31 mounts and unmounts, the instances that
    are mounted have different positive mount ids (the ids the node table tells the
    nodes of different instances apart by), and the instance counter is their
    number. *)
Theorem mount_ids_distinct os s :
  Z.of_nat (length os) <= INT_MAX -> vfs_run os vfs_boot = Some s ->
  (forall mp mp' m m', vs_mounts s !! mp = Some m -> vs_mounts s !! mp' = Some m' ->
     pmnt_id (mnt_private m) = pmnt_id (mnt_private m') -> mp = mp')
  ∧ (forall mp m, vs_mounts s !! mp = Some m -> 0 < pmnt_id (mnt_private m))
  ∧ mounted_instance_count s = Z.of_nat (size (vs_mounts s)).
Proof.
  intros Hb Hr. destruct (vfs_run_inv os vfs_boot s vfs_boot_inv ltac:(simpl; lia) Hr) as [Hi Hd Hc _].
  split; [exact Hd|]. split; [|done]. intros mp m Hm. apply Hi in Hm. lia.
Qed.

(** Unmounting an instance frees the layout although another instance is mounted: its
    nodes keep pointers to freed layout objects, and its root has none. *)
Theorem unmount_frees_shared_layout :
  exists s m, vfs_run [OpMount 1 NoData (0, 0) true; OpMount 2 NoData (0, 0) true; OpUnmount 1] vfs_boot = Some s
    ∧ vs_mounts s !! 2%N = Some m ∧ sn_heap (vs_structure s) = ∅ ∧ (procfs_root 2 s) = Some (2, PROCFS_ROOT_NODE_ID, None).
Proof. eexists _, _. split; [vm_compute; reflexivity|]. repeat split; vm_compute; reflexivity. Qed.

(** The names of the mounted instances are not unique: after the first of two
    instances is unmounted, the next mount gets the name of the second one. *)
Theorem mount_names_collide :
  exists s m2 m3,
    vfs_run [OpMount 1 NoData (0, 0) true; OpMount 2 NoData (0, 0) true; OpUnmount 1; OpMount 3 NoData (0, 0) true]
      vfs_boot = Some s
    ∧ vs_mounts s !! 2%N = Some m2 ∧ vs_mounts s !! 3%N = Some m3
    ∧ f_mntfromname (mnt_statfs m2) = "proc2"%string ∧ f_mntfromname (mnt_statfs m3) = "proc2"%string.
Proof. eexists _, _, _. split; [vm_compute; reflexivity|]. repeat split; vm_compute; reflexivity. Qed.

End Vfs.

Lemma mount_ids_distinct_witness :
  exists s, vfs_run 7 [OpMount 1 NoData (0, 0) true; OpMount 2 (Options 1) (0, 0) true; OpUnmount 1; OpMount 3 BadData (0, 0) true]
    vfs_boot = Some s ∧ mounted_instance_count s = 2.
Proof.
  eexists. split; [vm_compute; reflexivity|].
  etrans; [apply (mount_ids_distinct 7 [OpMount 1 NoData (0, 0) true; OpMount 2 (Options 1) (0, 0) true; OpUnmount 1;
    OpMount 3 BadData (0, 0) true])|]; vm_compute; (reflexivity || discriminate).
Defined.

(** ** Loading and unloading (kext/procfs.c) *)

(** What the kext holds. *)
Record kext := Kext {
  kx_initialized : bool;
  procfs_osmalloc_tag : bool;
  pfsnode_lck_grp : bool;
  pfsnode_hash_mutex : bool;
  procfs_vfs_table_ref : bool;      (** registered with the VFS *)
  kx_ctl : bool;                    (** the kernel-control bridge *)
  kx_sysctl : bool;                 (** the procfs.linux sysctl *)
  kx_loadavg : bool;                (** the load sampler *)
}.

Definition kext_boot : kext := Kext false false false false false false false false.

Definition procfs_init (tag_ok : bool) (k : kext) : Z * kext :=
  if kx_initialized k then (0, k)
  else if tag_ok then
    (0, Kext true true true true (procfs_vfs_table_ref k) (kx_ctl k) (kx_sysctl k) (kx_loadavg k))
  else (ENOMEM, Kext true false (pfsnode_lck_grp k) (pfsnode_hash_mutex k) (procfs_vfs_table_ref k)
                  (kx_ctl k) (kx_sysctl k) (kx_loadavg k)).

Definition procfs_fini (k : kext) : kext :=
  Kext (kx_initialized k) false false false (procfs_vfs_table_ref k) (kx_ctl k) (kx_sysctl k) (kx_loadavg k).

Definition KERN_FAILURE : Z := 5.

(** The results of the kernel calls: symbols resolved, tag allocated, file system
    added, control registered.  vfs_fsadd calls [procfs_init] again, through the
    [vfs_init] entry of the operations. *)
Definition procfs_start (resolve_ok tag_ok fsadd_ok ctl_ok : bool) (k : kext) : Z * kext :=
  if negb resolve_ok then (KERN_FAILURE, k) else
  let (ret, k1) := procfs_init tag_ok k in
  if negb (ret =? 0) then (KERN_FAILURE, k1) else
  if negb fsadd_ok then
    (KERN_FAILURE, procfs_fini (Kext (kx_initialized k1) (procfs_osmalloc_tag k1) (pfsnode_lck_grp k1)
                                  (pfsnode_hash_mutex k1) false (kx_ctl k1) (kx_sysctl k1) (kx_loadavg k1)))
  else
    let k2 := (procfs_init tag_ok k1).2 in
    (KERN_SUCCESS, Kext (kx_initialized k2) (procfs_osmalloc_tag k2) (pfsnode_lck_grp k2) (pfsnode_hash_mutex k2)
                     true ctl_ok true true).

Definition procfs_stop (uuid_ok fsremove_ok : bool) (k : kext) : Z * kext :=
  if negb uuid_ok then (KERN_FAILURE, k) else
  let k1 := Kext (kx_initialized k) (procfs_osmalloc_tag k) (pfsnode_lck_grp k) (pfsnode_hash_mutex k)
              (procfs_vfs_table_ref k) false false false in
  if procfs_vfs_table_ref k1 then
    if fsremove_ok then
      (KERN_SUCCESS, procfs_fini (Kext (kx_initialized k1) (procfs_osmalloc_tag k1) (pfsnode_lck_grp k1)
                                    (pfsnode_hash_mutex k1) false false false false))
    else (KERN_FAILURE, k1)
  else (KERN_SUCCESS, procfs_fini k1).

Definition holds_nothing (k : kext) : bool :=
  negb (procfs_osmalloc_tag k) && negb (pfsnode_lck_grp k) && negb (pfsnode_hash_mutex k)
  && negb (procfs_vfs_table_ref k) && negb (kx_ctl k) && negb (kx_sysctl k) && negb (kx_loadavg k).

Definition fully_loaded (k : kext) (ctl_ok : bool) : Prop :=
  procfs_osmalloc_tag k = true ∧ pfsnode_lck_grp k = true ∧ pfsnode_hash_mutex k = true
  ∧ procfs_vfs_table_ref k = true ∧ kx_ctl k = ctl_ok ∧ kx_sysctl k = true ∧ kx_loadavg k = true.

(** Loading and unloading: a load that succeeds holds every resource, one that fails
    holds none, whichever step failed; a successful unload releases everything.  But an
    unload that the VFS refuses (an instance is mounted) has already removed the
    control bridge, the sysctl and the load sampler of the file system that stays. *)
Theorem load_unload resolve_ok tag_ok fsadd_ok ctl_ok :
  let (ret, k) := procfs_start resolve_ok tag_ok fsadd_ok ctl_ok kext_boot in
  (if ret =? KERN_SUCCESS then fully_loaded k ctl_ok else holds_nothing k = true)
  ∧ (ret = KERN_SUCCESS ->
     let (ret', k') := procfs_stop true true k in ret' = KERN_SUCCESS ∧ holds_nothing k' = true)
  ∧ (ret = KERN_SUCCESS ->
     let (ret', k') := procfs_stop true false k in
     ret' = KERN_FAILURE ∧ procfs_vfs_table_ref k' = true
     ∧ kx_ctl k' = false ∧ kx_sysctl k' = false ∧ kx_loadavg k' = false).
Proof. destruct resolve_ok, tag_ok, fsadd_ok; vm_compute; repeat split; done. Qed.
