(* ===== verification/Vnode.v ===== *)
(** * Creation of vnodes (kext/procfs_vnops.c, kext/procfs_vfsops.c)

    What [procfsnode_find] (module Node) is given to make the vnode of a node that has
    none: [procfs_create_vnode] for what a lookup finds, [procfs_create_root_vnode] for the
    root.  The kernel's [vnode_create] is a parameter; what it is asked for is the record
    [vnode_fsparam]. *)

From S2P Require Import Prelude Kernel Structure Subr Sysctl Readdir Lookup Attr Vfsops.

(** The fields of [struct vnode_fsparam] that are set; the others are zero. *)
Record vnode_fsparam := VnodeFsparam {
  vnfs_mp : N; vnfs_vtype : vtype; vnfs_str : string; vnfs_dvp : option N; vnfs_fsnode : pfsnode;
  vnfs_markroot : Z; vnfs_flags : string
}.

(** [vca_parentvp]; [None] is NULLVP. *)
Record procfs_vnode_create_args := CreateArgs { vca_parentvp : option N }.

Section Create.
Variable st : structure.
Variable tree : sysctl_tree.
Variable vnode_mount : N -> N.
(** The error, or the new vnode. *)
Variable vnode_create : vnode_fsparam -> Z + N.

(** [*vpp] and the result, from those of vnode_create. *)
Definition created (r : Z + N) : Z * option N :=
  match r with inl error => (error, None) | inr vp => (0, Some vp) end.

(** [None]: the mount of NULLVP is taken, or the node has no layout entry. *)
Definition create_params (cap : procfs_vnode_create_args) (pnp : pfsnode) : option vnode_fsparam :=
  x ← sn_heap st !! node_structure_node pnp;
  dvp ← vca_parentvp cap;
  Some (VnodeFsparam (vnode_mount dvp) (node_vtype tree x pnp) "procfs vnode" (vca_parentvp cap) pnp 0 "VNFS_CANTCACHE").

Definition procfs_create_vnode (cap : procfs_vnode_create_args) (pnp : pfsnode) : option (Z * option N) :=
  q ← create_params cap pnp; Some (created (vnode_create q)).

Definition root_params (mp : N) (pnp : pfsnode) : vnode_fsparam :=
  VnodeFsparam mp VDIR "procfs root vnode" None pnp 1 "VNFS_CANTCACHE".

Definition procfs_create_root_vnode (mp : N) (pnp : pfsnode) : Z * option N := created (vnode_create (root_params mp pnp)).

(** The arguments a lookup in the directory [dvp] passes on. *)
Definition lookup_create_args (dvp : N) (with_parent : bool) : procfs_vnode_create_args :=
  CreateArgs (if with_parent then Some dvp else None).

Context `{KernelOps}.

(** The vnode of a node has the type that stat reports for it, whatever the mount, the
    caller and the process are. *)
Theorem vnode_type_is_stat_type p_start cap pnp pmp known s q e a known' :
  create_params cap pnp = Some q ->
  (procfs_vnop_getattr st tree p_start pmp pnp known s).1 = Some (e, Some a, known') ->
  vnfs_vtype q = va_type a.
Proof.
  unfold create_params, procfs_vnop_getattr. destruct (sn_heap st !! node_structure_node pnp) as [x|]; [|done].
  bind_some. destruct (vca_parentvp cap); [|done]. bind_some. intros [= <-]. rewrite K_bind_run.
  destruct (getattr_process (psn_node_type x) pnp s) as [i s1]. cbn [fst snd]. destruct i as [error [[pid p]|]]; [|done].
  rewrite K_bind_run. destruct (procfs_get_node_size_attr st pnp known s1) as [sz s2]. cbn [fst snd].
  destruct p as [p|]; [destruct current_proc|]; rewrite K_bind_run; cbn [fst snd mret K_ret proc_rele add_refs];
    repeat case_match; simpl; intros; by simplify_eq/=.
Qed.

(** What a lookup finds by name can always be given a vnode, of the directory's mount; for
    the parent directory the arguments hold no vnode to take the mount from, so that the
    lookup of ".." is right only while the parent is in the node table. *)
Theorem lookup_vnode pmp ctx dir vtype cnp known s id c wp known' dvp x :
  (procfs_vnop_lookup st pmp ctx dir tree vtype cnp known s).1 = Some (LookupFind id (Some c) wp, known') ->
  sn_heap st !! c = Some x ->
  let r := procfs_create_vnode (lookup_create_args dvp wp) (Pfsnode id c) in
  (cn_isdotdot cnp = false -> exists q, r = Some (created (vnode_create q)) ∧ vnfs_mp q = vnode_mount dvp ∧ vnfs_dvp q = Some dvp
     ∧ vnfs_markroot q = 0 ∧ vnfs_vtype q = node_vtype tree x (Pfsnode id c))
  ∧ (cn_isdotdot cnp = true -> r = None).
Proof.
  unfold procfs_vnop_lookup. case_match; [done|]. destruct (sn_heap st !! node_structure_node dir) as [dx|]; [|done].
  destruct (cn_isdotdot cnp) eqn:Ed.
  - cbn [fst mret K_ret]. match goal with |- context [?m ≫= _] => destruct m; [|done] end. bind_some. intros [= <- _ <- _] Hx.
    split; [done|]. intros _. unfold procfs_create_vnode, create_params. cbn [node_structure_node]. by rewrite Hx.
  - case_match; [done|]. rewrite K_bind_run. cbn [fst mret K_ret].
    destruct (lookup_children _ _ _ _ _ _ _ known s) as [[m kn] s1]. cbn [fst snd]. destruct m; [|done..].
    intros [= <- <- <- _] Hx. split; [|done]. intros _.
    unfold procfs_create_vnode, create_params. cbn [node_structure_node]. rewrite Hx. bind_some.
    eexists. split; [done|]. done.
Qed.

(** The root is a directory, marked as root, without a parent. *)
Theorem root_vnode mp pnp x :
  psn_node_type x = PFSroot ->
  let q := root_params mp pnp in
  vnfs_vtype q = node_vtype tree x pnp ∧ vnfs_markroot q = 1 ∧ vnfs_dvp q = None
  ∧ procfs_create_root_vnode mp pnp = created (vnode_create q).
Proof. intros Ht. unfold node_vtype. rewrite Ht. done. Qed.

End Create.
