(* ===== verification/Sbuf.v ===== *)
(** * The string buffer (kext/lib/sbuf.c)

    The growable text buffer the text nodes print into.  A buffer is a list of
    cells, [None] for a byte nobody has written; an access outside the buffer, or
    a read of an unwritten byte, makes the operation [None].  Memory comes from
    the allocator of [Kernel], whose account [k_mem] the theorem on [sbuf_delete]
    is about. *)

From S2P Require Import Prelude Kernel.

Definition cell : Type := option Byte.byte.

(** include/sys/sbuf.h *)
Definition SBUF_AUTOEXTEND : Z := 1.
Definition SBUF_USRFLAGMSK : Z := 65535.
Definition SBUF_DYNAMIC : Z := 65536.
Definition SBUF_FINISHED : Z := 131072.
Definition SBUF_OVERFLOWED : Z := 262144.
Definition SBUF_DYNSTRUCT : Z := 524288.

Record sbuf := Sbuf { s_buf : option (list cell); s_size : Z; s_len : Z; s_flags : Z }.
Definition sizeof_sbuf : Z := 32.

Definition SBUF_ISSET (s : sbuf) (f : Z) : bool := (s_flags s &? f)%C.
Definition SBUF_SETFLAG (s : sbuf) (f : Z) : sbuf :=
  Sbuf (s_buf s) (s_size s) (s_len s) (Z.lor (s_flags s) f).
Definition SBUF_CLEARFLAG (s : sbuf) (f : Z) : sbuf :=
  Sbuf (s_buf s) (s_size s) (s_len s) (Z.land (s_flags s) (Z.lnot f)).
Definition set_len (s : sbuf) (n : Z) : sbuf := Sbuf (s_buf s) (s_size s) n (s_flags s).
Definition set_buf (s : sbuf) (b : list cell) : sbuf := Sbuf (Some b) (s_size s) (s_len s) (s_flags s).

(** Stores to the buffer, from an index on. *)
Definition store (b : list cell) (off : Z) (data : list cell) : option (list cell) :=
  if (0 <=? off) && (off + Z.of_nat (length data) <=? Z.of_nat (length b)) then
    Some (take (Z.to_nat off) b ++ data ++ drop (Z.to_nat off + length data) b)
  else None.

Definition store_at (s : sbuf) (off : Z) (data : list Byte.byte) : option sbuf :=
  b ← s_buf s; b' ← store b off (Some <$> data); mret (set_buf s b').

(** Loads one byte. *)
Definition load_at (s : sbuf) (off : Z) : option Byte.byte :=
  b ← s_buf s; if 0 <=? off then mjoin (b !! Z.to_nat off) else None.

Section Sbuf.
Context `{KernelOps} `{PageSize}.

Definition SBUF_MINEXTENDSIZE : Z := 16.
Definition SBUF_MAXEXTENDSIZE : Z := PAGE_SIZE.

(** sbuf_delete: the object as it is left, or [None] when the object was freed, too. *)
Definition sbuf_delete (s : sbuf) : K (option sbuf) :=
  s ← (if SBUF_ISSET s SBUF_DYNAMIC && bool_decide (is_Some (s_buf s)) then
         _ ← OSFree (s_size s); mret (Sbuf None (s_size s) (s_len s) (s_flags s))
       else mret s);
  if SBUF_ISSET s SBUF_DYNSTRUCT then _ ← OSFree sizeof_sbuf; mret None else mret (Some s).

(** [while (new_size < target_size) new_size *= 2;]  The fuel is the width of
    [size_t]. *)
Fixpoint double_until (fuel : nat) (new_size target_size : Z) : Z :=
  match fuel with
  | O => new_size
  | S fuel' => if new_size <? target_size then double_until fuel' (u64 (new_size * 2)) target_size
               else new_size
  end.

(** [None] for -1, otherwise the new value of [*size]. *)
Definition sbuf_extendsize (target_size : Z) : option Z :=
  if INT_MAX <? target_size then None else
  let new_size :=
    if target_size <? SBUF_MAXEXTENDSIZE then double_until 64 SBUF_MINEXTENDSIZE target_size
    else Z.land (u64 (target_size + PAGE_SIZE - 1)) (Z.lnot PAGE_MASK) in
  if INT_MAX <? new_size then None else Some new_size.

(** The second half of sbuf_new: the backing buffer of the new object. *)
Definition new_buffer (s : sbuf) (buf : option (list cell)) (length : Z) : K (option sbuf) :=
  match buf with
  | Some b => mret (Some (Sbuf (Some b) length (s_len s) (s_flags s)))
  | None =>
    let fail := _ ← sbuf_delete s; mret None in
    match (if SBUF_ISSET s SBUF_AUTOEXTEND then sbuf_extendsize length else Some length) with
    | None => fail
    | Some length =>
      if length =? 0 then fail else
      ok ← OSMalloc length;
      if ok : bool then
        mret (Some (SBUF_SETFLAG (Sbuf (Some (replicate (Z.to_nat length) (Some Byte.x00)))
                                    length (s_len s) (s_flags s)) SBUF_DYNAMIC))
      else fail
    end
  end.

(** [given]: the caller passes the [struct sbuf] (otherwise it is allocated);
    [buf]: the caller's buffer, if any; [length_] is an [int]. *)
Definition sbuf_new (given : bool) (buf : option (list cell)) (length_ flags : Z) : K (option sbuf) :=
  let length := u64 length_ in
  if (INT_MAX <? length) || (flags &? Z.lnot SBUF_USRFLAGMSK)%C then mret None else
  if given then new_buffer (Sbuf None 0 0 flags) buf length else
  ok ← OSMalloc sizeof_sbuf;
  if ok : bool then new_buffer (SBUF_SETFLAG (Sbuf None 0 0 flags) SBUF_DYNSTRUCT) buf length
  else mret None.

Definition sbuf_setpos (s : sbuf) (pos : Z) : Z * sbuf :=
  if (pos <? 0) || (s_len s <? pos) then (-1, s) else (0, set_len s pos).

Definition sbuf_clear (s : sbuf) : sbuf :=
  (sbuf_setpos (SBUF_CLEARFLAG (SBUF_CLEARFLAG s SBUF_FINISHED) SBUF_OVERFLOWED) 0).2.

(** The new buffer is not cleared; the old contents are copied to its front. *)
Definition sbuf_extend (s : sbuf) (addlen : Z) : K (option (Z * sbuf)) :=
  if addlen =? 0 then mret (Some (0, s)) else
  if negb (SBUF_ISSET s SBUF_AUTOEXTEND) then mret (Some (-1, s)) else
  let new_size := s_size s + addlen in
  if 18446744073709551615 <? new_size then mret (Some (-1, s)) else
  match sbuf_extendsize new_size with
  | None => mret (Some (-1, s))
  | Some new_size =>
    ok ← OSMalloc new_size;
    if ok : bool then
      match s_buf s with
      | None => mret None
      | Some b =>
        if Z.of_nat (length b) <? s_size s then mret None else
        match store (replicate (Z.to_nat new_size) None) 0 (take (Z.to_nat (s_size s)) b) with
        | None => mret None
        | Some new_buf =>
          s' ← (if SBUF_ISSET s SBUF_DYNAMIC then _ ← OSFree (s_size s); mret s
                else mret (SBUF_SETFLAG s SBUF_DYNAMIC));
          mret (Some (0, Sbuf (Some new_buf) new_size (s_len s') (s_flags s')))
        end
      end
    else mret (Some (-1, s))
  end.

(** The subtraction is done on [int] and converted to [size_t]. *)
Definition sbuf_capacity (s : sbuf) : Z := u64 (s_size s - s_len s - 1).

Definition sbuf_ensure_capacity (s : sbuf) (wanted : Z) : K (option (Z * sbuf)) :=
  let size := sbuf_capacity s in
  if wanted <=? size then mret (Some (0, s)) else sbuf_extend s (wanted - size).

(** [data] is what lies behind the pointer, of which [len] bytes are copied. *)
Definition sbuf_bcat (s : sbuf) (data : list Byte.byte) (len : Z) : K (option (Z * sbuf)) :=
  if SBUF_ISSET s SBUF_OVERFLOWED then mret (Some (-1, s)) else
  r ← sbuf_ensure_capacity s len;
  mret match r with
  | None => None
  | Some (e, s) =>
    if e =? -1 then Some (-1, SBUF_SETFLAG s SBUF_OVERFLOWED) else
    if Z.of_nat (length data) <? len then None else
    s' ← store_at s (s_len s) (take (Z.to_nat len) data); Some (0, set_len s' (s32 (s_len s + s32 len)))
  end.

Definition sbuf_bcpy (s : sbuf) (data : list Byte.byte) (len : Z) : K (option (Z * sbuf)) :=
  sbuf_bcat (sbuf_clear s) data len.
Definition sbuf_cat (s : sbuf) (str : string) : K (option (Z * sbuf)) :=
  sbuf_bcat s (bytes_of_string str) (Z.of_nat (String.length str)).
Definition sbuf_cpy (s : sbuf) (str : string) : K (option (Z * sbuf)) :=
  sbuf_cat (sbuf_clear s) str.

(** One pass of the loop of sbuf_vprintf prints with vsnprintf, which stores as
    much of the text as fits and a NUL, and returns the length of the text.  Two
    passes are enough. *)
Fixpoint vprintf_loop (fuel : nat) (s : sbuf) (text : list Byte.byte) : K (option (Z * sbuf)) :=
  match fuel with
  | O => mret None
  | S fuel' =>
    let capacity := sbuf_capacity s in
    match store_at s (s_len s) (take (Z.to_nat capacity) text ++ [Byte.x00]) with
    | None => mret None
    | Some s =>
      let result := s32 (Z.of_nat (length text)) in
      if result <? 0 then mret (Some (-1, s)) else
      if result <=? capacity then mret (Some (0, set_len s (s32 (s_len s + result)))) else
      r ← sbuf_ensure_capacity s result;
      match r with
      | None => mret None
      | Some (e, s) =>
        if negb (e =? -1) then vprintf_loop fuel' s text
        else mret (Some (-1, SBUF_SETFLAG s SBUF_OVERFLOWED))
      end
    end
  end.

Definition sbuf_vprintf (s : sbuf) (text : list Byte.byte) : K (option (Z * sbuf)) :=
  if SBUF_ISSET s SBUF_OVERFLOWED then mret (Some (-1, s)) else vprintf_loop 2 s text.
Definition sbuf_printf (s : sbuf) (text : string) : K (option (Z * sbuf)) :=
  sbuf_vprintf s (bytes_of_string text).

Definition sbuf_putc (s : sbuf) (c : Byte.byte) : K (option (Z * sbuf)) :=
  if SBUF_ISSET s SBUF_OVERFLOWED then mret (Some (-1, s)) else
  r ← sbuf_ensure_capacity s 1;
  mret match r with
  | None => None
  | Some (e, s) =>
    if e =? -1 then Some (-1, SBUF_SETFLAG s SBUF_OVERFLOWED) else
    if bool_decide (c = Byte.x00) then Some (0, s) else
    s' ← store_at s (s_len s) [c]; Some (0, set_len s' (s32 (s_len s + 1)))
  end.

Definition isspace (ch : Byte.byte) : bool :=
  bool_decide (ch = Byte.x20) || bool_decide (ch = Byte.x0a) || bool_decide (ch = Byte.x09).

(** The loop of sbuf_trim; its fuel is the length. *)
Fixpoint trim_loop (fuel : nat) (s : sbuf) : option sbuf :=
  if 0 <? s_len s then
    match load_at s (s_len s - 1), fuel with
    | Some ch, S fuel' => if isspace ch then trim_loop fuel' (set_len s (s_len s - 1)) else Some s
    | _, _ => None
    end
  else Some s.

Definition sbuf_trim (s : sbuf) : option (Z * sbuf) :=
  if SBUF_ISSET s SBUF_OVERFLOWED then Some (-1, s) else
  s' ← trim_loop (Z.to_nat (s_len s)) s; Some (0, s').

Definition sbuf_overflowed (s : sbuf) : Z := if SBUF_ISSET s SBUF_OVERFLOWED then 1 else 0.

Definition sbuf_finish (s : sbuf) : option sbuf :=
  s ← store_at s (s_len s) [Byte.x00];
  Some (SBUF_SETFLAG (SBUF_CLEARFLAG s SBUF_OVERFLOWED) SBUF_FINISHED).

Definition sbuf_data (s : sbuf) : option (list cell) := s_buf s.
Definition sbuf_len (s : sbuf) : Z := if SBUF_ISSET s SBUF_OVERFLOWED then -1 else s_len s.
Definition sbuf_done (s : sbuf) : Z := if SBUF_ISSET s SBUF_FINISHED then 1 else 0.

End Sbuf.

(** ** Flags *)

Lemma land_pow2_zero a k : 0 <= k -> (Z.land a (2 ^ k) =? 0) = negb (Z.testbit a k).
Proof.
  intros Hk. destruct (Z.testbit a k) eqn:E; simpl.
  - apply Z.eqb_neq. intros E0. apply (f_equal (λ z, Z.testbit z k)) in E0.
    by rewrite Z.land_spec, E, Z.pow2_bits_true, Z.bits_0 in E0.
  - apply Z.eqb_eq, Z.bits_inj'. intros i Hi. rewrite Z.land_spec, Z.bits_0, Z.pow2_bits_eqb by done.
    destruct (Z.eqb_spec k i); subst; [by rewrite E|by rewrite andb_false_r].
Qed.

Create HintDb sbuf.

(** The bits of the flags. *)
Definition is_flag (f k : Z) : Prop := 0 <= k ∧ f = 2 ^ k.

Lemma isset_bit s f k : is_flag f k -> SBUF_ISSET s f = Z.testbit (s_flags s) k.
Proof. intros [Hk ->]. unfold SBUF_ISSET. rewrite land_pow2_zero by done. by rewrite negb_involutive. Qed.

Lemma isset_set s f k g j : is_flag f k -> is_flag g j ->
  SBUF_ISSET (SBUF_SETFLAG s f) g = (bool_decide (j = k) || SBUF_ISSET s g)%bool.
Proof.
  intros [Hk ->] Hg. rewrite !(isset_bit _ g j) by done. destruct Hg as [Hj ->]. simpl.
  rewrite Z.lor_spec, Z.pow2_bits_eqb by done. rewrite orb_comm. f_equal.
  destruct (Z.eqb_spec k j); case_bool_decide; congruence.
Qed.

Lemma isset_clear s f k g j : is_flag f k -> is_flag g j ->
  SBUF_ISSET (SBUF_CLEARFLAG s f) g = (negb (bool_decide (j = k)) && SBUF_ISSET s g)%bool.
Proof.
  intros [Hk ->] Hg. rewrite !(isset_bit _ g j) by done. destruct Hg as [Hj ->]. simpl.
  rewrite Z.land_spec, Z.lnot_spec, Z.pow2_bits_eqb by done. rewrite andb_comm. f_equal.
  destruct (Z.eqb_spec k j); case_bool_decide; simpl; congruence.
Qed.

Lemma flag_autoextend : is_flag SBUF_AUTOEXTEND 0. Proof. done. Qed.
Lemma flag_dynamic : is_flag SBUF_DYNAMIC 16. Proof. done. Qed.
Lemma flag_finished : is_flag SBUF_FINISHED 17. Proof. done. Qed.
Lemma flag_overflowed : is_flag SBUF_OVERFLOWED 18. Proof. done. Qed.
Lemma flag_dynstruct : is_flag SBUF_DYNSTRUCT 19. Proof. done. Qed.
#[export] Hint Resolve flag_autoextend flag_dynamic flag_finished flag_overflowed flag_dynstruct : sbuf.

(** Evaluates the flag tests after updates. *)
Ltac flags := repeat first
  [ erewrite isset_set by eauto with sbuf | erewrite isset_clear by eauto with sbuf
  | progress change (bool_decide _) with false | progress change (bool_decide _) with true ];
  cbn [orb andb negb].

(** ** Stores *)

Lemma store_ok b off data :
  0 <= off -> off + Z.of_nat (length data) <= Z.of_nat (length b) ->
  exists b', store b off data = Some b' ∧ length b' = length b
    ∧ take (Z.to_nat off + length data) b' = take (Z.to_nat off) b ++ data.
Proof.
  intros Ho Hl. unfold store. rewrite (proj2 (Z.leb_le 0 off)), (proj2 (Z.leb_le _ _)) by lia. simpl.
  eexists. split; [done|]. split.
  - rewrite !length_app, length_take, length_drop. lia.
  - rewrite app_assoc, take_app_le by (rewrite length_app, length_take; lia).
    apply take_ge. rewrite length_app, length_take. lia.
Qed.

(** ** What a buffer holds *)

(** [holds s l]: the sbuf is in order (a byte is kept for the final NUL) and its
    text is [l]. *)
Definition holds (s : sbuf) (l : list Byte.byte) : Prop :=
  exists b, s_buf s = Some b ∧ s_size s = Z.of_nat (length b) ∧ s_size s <= INT_MAX
    ∧ s_len s = Z.of_nat (length l) ∧ s_len s < s_size s ∧ take (length l) b = Some <$> l.

Lemma holds_flags s l f : holds s l -> holds (SBUF_SETFLAG s f) l ∧ holds (SBUF_CLEARFLAG s f) l.
Proof. done. Qed.

Lemma holds_take s l n : holds s l -> (n <= length l)%nat -> holds (set_len s (Z.of_nat n)) (take n l).
Proof.
  intros (b & Hb & Hs & Hm & Hl & Hlt & Ht) Hn. exists b. simpl. split_and!; try done.
  - rewrite length_take. lia.
  - lia.
  - rewrite length_take, Nat.min_l by lia. rewrite fmap_take, <- Ht, take_take. f_equal. lia.
Qed.

(** Text stored behind the text; what of it becomes text is decided by the length. *)
Lemma holds_store s l data n :
  holds s l -> (length l + length data <= Z.to_nat (s_size s))%nat -> (n <= length data)%nat ->
  (length l + n < Z.to_nat (s_size s))%nat ->
  exists s', store_at s (s_len s) data = Some s' ∧ s_size s' = s_size s ∧ s_flags s' = s_flags s ∧ s_len s' = s_len s
    ∧ holds (set_len s' (s_len s + Z.of_nat n)) (l ++ take n data).
Proof.
  intros (b & Hb & Hs & Hm & Hl & Hlt & Ht) Hfit Hn Hroom.
  destruct (store_ok b (s_len s) (Some <$> data)) as (b' & Eb & Hlen & Htake);
    [lia|rewrite length_fmap; lia|].
  exists (set_buf s b'). unfold store_at. rewrite Hb. simpl. rewrite Eb. simpl. split_and!; try done.
  exists b'. simpl. split_and!; try done; rewrite ?length_app, ?length_take; try lia.
  rewrite length_fmap in Htake.
  replace (Z.to_nat (s_len s)) with (length l) in Htake by lia. rewrite Ht in Htake.
  replace (length l + n `min` length data)%nat with ((length l + n) `min` (length l + length data))%nat by lia.
  rewrite <- take_take, Htake, fmap_app, fmap_take.
  replace (length l + n)%nat with (length (Some <$> l) + n)%nat by (rewrite length_fmap; lia).
  by rewrite take_app_add.
Qed.

Lemma holds_store0 s l data :
  holds s l -> (length l + length data <= Z.to_nat (s_size s))%nat ->
  exists s', store_at s (s_len s) data = Some s' ∧ s_size s' = s_size s ∧ s_flags s' = s_flags s
    ∧ s_len s' = s_len s ∧ holds s' l.
Proof.
  intros Hh Hfit. pose proof Hh as (b & Hb & Hs & Hm & Hl & Hlt & Ht).
  destruct (holds_store s l data 0 Hh) as (s' & E & H1 & H2 & H3 & H4); [lia..|].
  exists s'. split_and!; try done. rewrite take_0, app_nil_r, Z.add_0_r in H4.
  destruct s'. simpl in *. unfold set_len in H4. simpl in H4. by rewrite H3.
Qed.

(** ** Sizes *)

Lemma double_until_spec fuel n t :
  0 < n -> t <= n * 2 ^ Z.of_nat fuel -> t <= 2 ^ 62 ->
  exists j, 0 <= j ∧ double_until fuel n t = n * 2 ^ j ∧ t <= n * 2 ^ j ∧ (j = 0 ∨ n * 2 ^ j < 2 * t).
Proof.
  revert n. induction fuel as [|fuel IH]; intros n Hn Ht Hb.
  - exists 0. simpl in *. lia.
  - simpl. destruct (Z.ltb_spec n t).
    + rewrite u64_small by lia. destruct (IH (n * 2)) as (j & Hj & -> & Hle & Hc); [lia| |done|].
      { rewrite Nat2Z.inj_succ, Z.pow_succ_r in Ht by lia. lia. }
      exists (j + 1). rewrite Z.pow_add_r by lia. destruct Hc as [->|]; lia.
    + exists 0. simpl. lia.
Qed.

Section SbufFacts.
Context `{KernelOps} `{PageSize}.

Lemma extendsize_spec t :
  0 <= t ->
  (sbuf_extendsize t = None -> INT_MAX + 1 - PAGE_SIZE < t) ∧
  (forall n, sbuf_extendsize t = Some n ->
     t <= n <= INT_MAX ∧ 16 <= n ∧ t <= INT_MAX + 1 - PAGE_SIZE
     ∧ if t <? PAGE_SIZE then (exists k, 0 <= k ∧ n = 16 * 2 ^ k) ∧ (n = 16 ∨ n < 2 * t)
       else n mod PAGE_SIZE = 0 ∧ n < t + PAGE_SIZE).
Proof.
  intros Ht. unfold sbuf_extendsize, SBUF_MAXEXTENDSIZE, SBUF_MINEXTENDSIZE.
  pose proof page_size_cases as Hp. unfold INT_MAX in *.
  destruct (Z.ltb_spec 2147483647 t) as [Hbig|Hbig]; [split; [lia|done]|].
  destruct (Z.ltb_spec t PAGE_SIZE) as [Hs|Hs].
  - destruct (double_until_spec 64 16 t) as (j & Hj & -> & Hle & Hc); [lia..|].
    assert (16 * 2 ^ j <= 32768) by (destruct Hc as [->|]; lia).
    rewrite (proj2 (Z.ltb_ge _ _)) by lia. split; [done|]. intros n [= <-].
    pose proof (Z.pow_pos_nonneg 2 j). split_and!; try lia.
    + by exists j.
    + destruct Hc as [->|]; lia.
  - rewrite u64_small by lia. rewrite page_round by lia.
    pose proof (Z.div_mod (t + PAGE_SIZE - 1) PAGE_SIZE). pose proof (Z.mod_pos_bound (t + PAGE_SIZE - 1) PAGE_SIZE).
    assert (E : (2147483647 <? PAGE_SIZE * ((t + PAGE_SIZE - 1) / PAGE_SIZE)) = (2147483648 - PAGE_SIZE <? t)).
    { destruct Hp as [Hp|Hp]; rewrite Hp in *; destruct (Z.ltb_spec 2147483647 (4096 * ((t + 4096 - 1) / 4096))),
        (Z.ltb_spec 2147483647 (16384 * ((t + 16384 - 1) / 16384))), (Z.ltb_spec (2147483648 - 4096) t),
        (Z.ltb_spec (2147483648 - 16384) t); try done; lia. }
    rewrite E. destruct (Z.ltb_spec (2147483648 - PAGE_SIZE) t); split; try done; try lia.
    intros n [= <-]. split_and!; try lia. rewrite Z.mul_comm. apply Z.mod_mul. lia.
Qed.

(** ** Growing *)

(** The memory an sbuf owns. *)
Definition owned (s : sbuf) : Z :=
  (if SBUF_ISSET s SBUF_DYNAMIC && bool_decide (is_Some (s_buf s)) then s_size s else 0)
  + (if SBUF_ISSET s SBUF_DYNSTRUCT then sizeof_sbuf else 0).

(** The flags other than those of the allocation and the overflow are kept. *)
Definition same_kind (s s' : sbuf) : Prop :=
  SBUF_ISSET s' SBUF_AUTOEXTEND = SBUF_ISSET s SBUF_AUTOEXTEND
  ∧ (SBUF_ISSET s SBUF_AUTOEXTEND = false -> s_size s' = s_size s).

(** [m] run on [s] keeps the account of memory. *)
Definition accounts (s : sbuf) (st : kstate) (s' : sbuf) (st' : kstate) : Prop :=
  k_mem st' - owned s' = k_mem st - owned s ∧ same_kind s s'.

Lemma accounts_trans s st s1 st1 s2 st2 :
  accounts s st s1 st1 -> accounts s1 st1 s2 st2 -> accounts s st s2 st2.
Proof.
  intros [H1 [E1 K1]] [H2 [E2 K2]]. split; [lia|]. split; [congruence|].
  intros F. rewrite K2, K1; congruence.
Qed.

(** Why a buffer cannot get the room for [n] bytes: it has a fixed length, the size would
    not fit an [int], or there is no memory. *)
Definition cannot_grow (s : sbuf) (n : Z) : Prop :=
  SBUF_ISSET s SBUF_AUTOEXTEND = false ∨ INT_MAX - PAGE_SIZE < n ∨ exists t m, malloc_at t m = false.

Lemma extend_spec s l addlen st :
  holds s l -> 0 < addlen <= 18446744073709551615 ->
  exists e s' st', sbuf_extend s addlen st = (Some (e, s'), st')
    ∧ accounts s st s' st' ∧ holds s' l
    ∧ SBUF_ISSET s' SBUF_OVERFLOWED = SBUF_ISSET s SBUF_OVERFLOWED
    ∧ SBUF_ISSET s' SBUF_FINISHED = SBUF_ISSET s SBUF_FINISHED
    ∧ (e = 0 ∧ s_size s + addlen <= s_size s' ∧ SBUF_ISSET s SBUF_AUTOEXTEND = true
       ∨ e = -1 ∧ s' = s ∧ cannot_grow s (s_size s + addlen - 1)).
Proof.
  intros Hh Ha. pose proof Hh as (b & Hb & Hs & Hm & Hl & Hlt & Ht). unfold sbuf_extend.
  rewrite (proj2 (Z.eqb_neq addlen 0)) by lia.
  assert (Hfail : forall st1, k_mem st1 = k_mem st -> cannot_grow s (s_size s + addlen - 1) -> exists e s' st', (Some (-1, s), st1) = (Some (e, s'), st')
    ∧ accounts s st s' st' ∧ holds s' l
    ∧ SBUF_ISSET s' SBUF_OVERFLOWED = SBUF_ISSET s SBUF_OVERFLOWED
    ∧ SBUF_ISSET s' SBUF_FINISHED = SBUF_ISSET s SBUF_FINISHED
    ∧ (e = 0 ∧ s_size s + addlen <= s_size s' ∧ SBUF_ISSET s SBUF_AUTOEXTEND = true
       ∨ e = -1 ∧ s' = s ∧ cannot_grow s (s_size s + addlen - 1))).
  { intros st1 Hk Hg. exists (-1), s, st1. split_and!; auto. unfold accounts, same_kind. split_and!; auto; lia. }
  destruct (SBUF_ISSET s SBUF_AUTOEXTEND) eqn:Eauto; simpl; [|apply Hfail; [done|by left]].
  pose proof page_size_cases as Hp. unfold INT_MAX in Hm.
  case_bool; [apply Hfail; [done|right; left; b2p; unfold INT_MAX; lia]|]. b2p.
  destruct (sbuf_extendsize (s_size s + addlen)) as [n|] eqn:En;
    [|apply extendsize_spec in En; [|lia]; apply Hfail; [done|right; left; lia]].
  apply extendsize_spec in En as ([Hn1 Hn2] & Hn3 & _); [|lia].
  rewrite K_bind_run. unfold OSMalloc at 1 2. rewrite K_bind_run. simpl.
  destruct (malloc_at (k_clock st) n) eqn:Emem; simpl; [|apply Hfail; [done|right; right; by eexists _, _]].
  rewrite Hb, (proj2 (Z.ltb_ge _ _)) by lia.
  rewrite (take_ge b) by lia.
  destruct (store_ok (replicate (Z.to_nat n) None) 0 b) as (b' & -> & Hlen & Htake);
    [done|rewrite length_replicate; lia|].
  rewrite length_replicate in Hlen. simpl in Htake.
  rewrite K_bind_run. simpl. eexists 0, _, _. split; [reflexivity|].
  assert (Hh' : forall f, holds (Sbuf (Some b') n (s_len s) f) l).
  { intros f. exists b'. simpl. split_and!; auto; try lia.
    rewrite <- Ht, <- Htake, take_take. f_equal. lia. }
  destruct (SBUF_ISSET s SBUF_DYNAMIC) eqn:Edyn; simpl.
  - split_and!; auto. split; [|split; [done|congruence]]. unfold owned.
    change (SBUF_ISSET (Sbuf (Some b') n (s_len s) (s_flags s))) with (SBUF_ISSET s).
    rewrite Edyn, Hb. simpl. lia.
  - change (Z.lor (s_flags s) SBUF_DYNAMIC) with (s_flags (SBUF_SETFLAG s SBUF_DYNAMIC)).
    assert (Hf : forall g j, is_flag g j -> SBUF_ISSET (Sbuf (Some b') n (s_len s) (s_flags (SBUF_SETFLAG s SBUF_DYNAMIC))) g
      = (bool_decide (j = 16) || SBUF_ISSET s g)%bool).
    { intros g j Hg. rewrite <- (isset_set s _ _ g j flag_dynamic Hg). done. }
    split_and!; auto; try (erewrite Hf by eauto with sbuf; done).
    split; [|split; [by erewrite Hf by eauto with sbuf|congruence]]. unfold owned.
    rewrite (Hf _ _ flag_dynamic), (Hf _ _ flag_dynstruct), Edyn. simpl. lia.
Qed.

Lemma capacity_holds s l : holds s l -> sbuf_capacity s = s_size s - Z.of_nat (length l) - 1.
Proof.
  intros (b & Hb & Hs & Hm & Hl & Hlt & Ht). unfold sbuf_capacity, INT_MAX in *. rewrite u64_small by lia. lia.
Qed.

(** Room for [wanted] more bytes: kept when there is enough, otherwise the buffer
    grows, or the call fails and changes nothing.  A buffer of fixed length has
    the room it has. *)
Lemma ensure_capacity_spec s l wanted st :
  holds s l -> 0 <= wanted <= 9223372036854775807 ->
  exists e s' st', sbuf_ensure_capacity s wanted st = (Some (e, s'), st')
    ∧ accounts s st s' st' ∧ holds s' l
    ∧ SBUF_ISSET s' SBUF_OVERFLOWED = SBUF_ISSET s SBUF_OVERFLOWED
    ∧ SBUF_ISSET s' SBUF_FINISHED = SBUF_ISSET s SBUF_FINISHED
    ∧ (e = 0 ∧ Z.of_nat (length l) + wanted < s_size s'
       ∨ e = -1 ∧ s' = s ∧ s_size s <= Z.of_nat (length l) + wanted ∧ cannot_grow s (Z.of_nat (length l) + wanted)).
Proof.
  intros Hh Hw. unfold sbuf_ensure_capacity. rewrite (capacity_holds s l Hh).
  pose proof Hh as (b & Hb & Hs & Hm & Hl & Hlt & Ht). unfold INT_MAX in Hm.
  destruct (Z.leb_spec wanted (s_size s - Z.of_nat (length l) - 1)).
  - exists 0, s, st. split_and!; auto; [|left; lia]. unfold accounts, same_kind. split_and!; auto; lia.
  - destruct (extend_spec s l (wanted - (s_size s - Z.of_nat (length l) - 1)) st Hh)
      as (e & s' & st' & E & Hacc & Hh' & Ho & Hf & Hc); [lia|].
    exists e, s', st'. split_and!; auto. destruct Hc as [(-> & Hg & _)|(-> & -> & Hg)]; [left; lia|right; split_and!; auto; [lia|]].
    by replace (Z.of_nat (length l) + wanted) with (s_size s + (wanted - (s_size s - Z.of_nat (length l) - 1)) - 1) by lia.
Qed.

(** ** The specification of the text operations *)

(** What a user of an sbuf sees. *)
Record text := Text { t_data : list Byte.byte; t_overflowed : bool; t_finished : bool }.

(** [limit]: the size of a buffer of fixed length; [None] for one that grows. *)
Definition no_room (limit : option Z) (n : Z) : Prop :=
  match limit with
  | Some size => size <= n
  | None => INT_MAX - PAGE_SIZE < n ∨ exists t m, malloc_at t m = false
  end.

Inductive spec_append (limit : option Z) (need : Z) (l : list Byte.byte) : text -> Z -> text -> Prop :=
| append_overflowed d f : spec_append limit need l (Text d true f) (-1) (Text d true f)
| append_done d f :
    (forall n, limit = Some n -> Z.of_nat (length d) + need < n) ->
    spec_append limit need l (Text d false f) 0 (Text (d ++ l) false f)
| append_no_room d f :
    no_room limit (Z.of_nat (length d) + need) ->
    spec_append limit need l (Text d false f) (-1) (Text d true f).

(** The text without the whitespace at its end. *)
Fixpoint drop_space (l : list Byte.byte) : list Byte.byte :=
  match l with c :: l' => if isspace c then drop_space l' else l | [] => [] end.
Definition trimmed (l : list Byte.byte) : list Byte.byte := reverse (drop_space (reverse l)).

Inductive sbuf_op : Type :=
| Bcat (data : list Byte.byte) | Bcpy (data : list Byte.byte)
| Printf (data : list Byte.byte) | Putc (c : Byte.byte)
| Trim | Setpos (pos : Z) | Clear | Finish.

Inductive spec_op (limit : option Z) : sbuf_op -> text -> Z -> text -> Prop :=
| spec_bcat data t r t' :
    spec_append limit (Z.of_nat (length data)) data t r t' -> spec_op limit (Bcat data) t r t'
| spec_bcpy data t r t' :
    spec_append limit (Z.of_nat (length data)) data (Text [] false false) r t' ->
    spec_op limit (Bcpy data) t r t'
| spec_printf data t r t' :
    spec_append limit (Z.of_nat (length data)) data t r t' -> spec_op limit (Printf data) t r t'
| spec_putc c t r t' :
    spec_append limit 1 (if bool_decide (c = Byte.x00) then [] else [c]) t r t' ->
    spec_op limit (Putc c) t r t'
| spec_trim d f : spec_op limit Trim (Text d false f) 0 (Text (trimmed d) false f)
| spec_trim_overflowed d f : spec_op limit Trim (Text d true f) (-1) (Text d true f)
| spec_setpos pos d o f :
    0 <= pos <= Z.of_nat (length d) ->
    spec_op limit (Setpos pos) (Text d o f) 0 (Text (take (Z.to_nat pos) d) o f)
| spec_setpos_bad pos d o f :
    pos < 0 ∨ Z.of_nat (length d) < pos ->
    spec_op limit (Setpos pos) (Text d o f) (-1) (Text d o f)
| spec_clear t : spec_op limit Clear t 0 (Text [] false false)
| spec_finish d o f : spec_op limit Finish (Text d o f) 0 (Text d false true).

Definition sbuf_do (op : sbuf_op) (s : sbuf) : K (option (Z * sbuf)) :=
  match op with
  | Bcat data => sbuf_bcat s data (Z.of_nat (length data))
  | Bcpy data => sbuf_bcpy s data (Z.of_nat (length data))
  | Printf data => sbuf_vprintf s data
  | Putc c => sbuf_putc s c
  | Trim => mret (sbuf_trim s)
  | Setpos pos => mret (Some (sbuf_setpos s pos))
  | Clear => mret (Some (0, sbuf_clear s))
  | Finish => mret ((λ s', (0, s')) <$> sbuf_finish s)
  end.

(** The sbuf implements the text. *)
Definition implements (limit : option Z) (s : sbuf) (t : text) : Prop :=
  holds s (t_data t) ∧ SBUF_ISSET s SBUF_OVERFLOWED = t_overflowed t ∧ SBUF_ISSET s SBUF_FINISHED = t_finished t
  ∧ limit = if SBUF_ISSET s SBUF_AUTOEXTEND then None else Some (s_size s).

(** The length of the data of one call, an object in memory. *)
Definition op_small (op : sbuf_op) : Prop :=
  match op with Bcat d | Bcpy d | Printf d => Z.of_nat (length d) <= INT_MAX | _ => True end.

(** The operation [m] on [s] implements the step [spec] of the specification. *)
Definition step_ok (limit : option Z) (s : sbuf) (t : text) (m : K (option (Z * sbuf)))
  (spec : text -> Z -> text -> Prop) : Prop :=
  forall st, exists r s' st' t', m st = (Some (r, s'), st') ∧ spec t r t' ∧ implements limit s' t'
    ∧ accounts s st s' st'.

Lemma accounts_refl s st st' : k_mem st' = k_mem st -> accounts s st s st'.
Proof. intros E. unfold accounts, same_kind. split_and!; auto; lia. Qed.

Lemma accounts_like s s1 st st' : k_mem st' = k_mem st -> owned s1 = owned s -> same_kind s s1 ->
  accounts s st s1 st'.
Proof. intros E Eo Hk. split; [lia|done]. Qed.

(** Setting the overflow flag changes nothing else. *)
Lemma overflow_ok limit s t st s1 st1 l :
  t = Text l false (SBUF_ISSET s1 SBUF_FINISHED) -> holds s1 l -> accounts s st s1 st1 ->
  limit = (if SBUF_ISSET s1 SBUF_AUTOEXTEND then None else Some (s_size s1)) ->
  implements limit (SBUF_SETFLAG s1 SBUF_OVERFLOWED) (Text l true (t_finished t))
  ∧ accounts s st (SBUF_SETFLAG s1 SBUF_OVERFLOWED) st1.
Proof.
  intros -> Hh Hacc Hlim. split.
  - unfold implements. flags. split_and!; done.
  - eapply accounts_trans; [exact Hacc|]. apply accounts_like; [done| |].
    + unfold owned. flags. done.
    + unfold same_kind. flags. done.
Qed.

Lemma owned_same s s' :
  s_flags s' = s_flags s -> s_size s' = s_size s -> is_Some (s_buf s) -> is_Some (s_buf s') -> owned s' = owned s.
Proof. intros Hf Hs [? Hb] [? Hb']. unfold owned, SBUF_ISSET. by rewrite Hf, Hs, Hb, Hb'. Qed.

Lemma holds_buf s l : holds s l -> is_Some (s_buf s).
Proof. intros (b & -> & _). by eexists. Qed.

(** An update of the text that leaves flags and size alone. *)
Lemma text_update limit s s1 st st1 s2 l1 l2 o f :
  implements limit s (Text l1 o f) -> accounts s st s1 st1 -> holds s1 l1 -> holds s2 l2 ->
  SBUF_ISSET s1 SBUF_OVERFLOWED = o -> SBUF_ISSET s1 SBUF_FINISHED = f ->
  s_flags s2 = s_flags s1 -> s_size s2 = s_size s1 ->
  implements limit s2 (Text l2 o f) ∧ accounts s st s2 st1.
Proof.
  intros (Hh & Ho & Hf & Hlim) Hacc Hh1 Hh2 Ho1 Hf1 Hfl Hsz. simpl in *.
  assert (Hset : forall g, SBUF_ISSET s2 g = SBUF_ISSET s1 g) by (intros g; unfold SBUF_ISSET; by rewrite Hfl).
  split.
  - unfold implements. rewrite !Hset, Hsz. split_and!; try done. rewrite Hlim. destruct Hacc as (_ & -> & Hk).
    destruct (SBUF_ISSET s SBUF_AUTOEXTEND); [done|]. by rewrite Hk.
  - eapply accounts_trans; [exact Hacc|]. apply accounts_like; [done| |].
    + apply owned_same; eauto using holds_buf.
    + unfold same_kind. by rewrite Hset.
Qed.

Lemma limit_trans limit s s1 st st1 t :
  implements limit s t -> accounts s st s1 st1 ->
  limit = if SBUF_ISSET s1 SBUF_AUTOEXTEND then None else Some (s_size s1).
Proof.
  intros (_ & _ & _ & ->) (_ & -> & Hk). destruct (SBUF_ISSET s SBUF_AUTOEXTEND); [done|]. by rewrite Hk.
Qed.

Lemma overflowed_step limit s t need l (m : K (option (Z * sbuf))) :
  implements limit s t ->
  (SBUF_ISSET s SBUF_OVERFLOWED = false -> step_ok limit s t m (spec_append limit need l)) ->
  step_ok limit s t (if SBUF_ISSET s SBUF_OVERFLOWED then mret (Some (-1, s)) else m) (spec_append limit need l).
Proof.
  intros Himp Hm. destruct (SBUF_ISSET s SBUF_OVERFLOWED) eqn:E; [|auto]. intros st.
  eexists _, _, _, t. split; [reflexivity|]. split_and!; [|done|by apply accounts_refl].
  destruct t as [d o f], Himp as (_ & Ho & _). simpl in Ho. rewrite <- Ho, E. constructor.
Qed.

Lemma cannot_grow_room s n :
  cannot_grow s n -> s_size s <= n -> no_room (if SBUF_ISSET s SBUF_AUTOEXTEND then None else Some (s_size s)) n.
Proof. intros [->|[?|?]] Hn; [done|..]; (destruct (SBUF_ISSET s SBUF_AUTOEXTEND); simpl; auto). Qed.

(** Appending after making room, shared by sbuf_bcat and sbuf_putc. *)
Lemma append_step limit s t need l (fin : sbuf -> option (Z * sbuf)) :
  implements limit s t -> 0 <= need <= 9223372036854775807 ->
  (forall s1, holds s1 (t_data t) -> Z.of_nat (length (t_data t)) + need < s_size s1 ->
     exists s2, fin s1 = Some (0, s2) ∧ holds s2 (t_data t ++ l) ∧ s_flags s2 = s_flags s1 ∧ s_size s2 = s_size s1) ->
  step_ok limit s t
    (if SBUF_ISSET s SBUF_OVERFLOWED then mret (Some (-1, s)) else
     r ← sbuf_ensure_capacity s need;
     mret match r with
     | None => None
     | Some (e, s) => if e =? -1 then Some (-1, SBUF_SETFLAG s SBUF_OVERFLOWED) else fin s
     end) (spec_append limit need l).
Proof.
  intros Himp Hneed Hfin. apply overflowed_step; [done|]. intros Hno st.
  destruct t as [d o f]. pose proof Himp as (Hh & Ho & Hf & Hlim). simpl in *. rewrite Hno in Ho. subst o.
  rewrite K_bind_run.
  destruct (ensure_capacity_spec s d need st Hh Hneed) as (e & s1 & st1 & -> & Hacc & Hh1 & Ho1 & Hf1 & Hc).
  pose proof (limit_trans _ _ _ _ _ _ Himp Hacc) as Hlim1.
  cbn [fst snd]. destruct Hc as [(-> & Hroom)|(-> & -> & Hroom & Hgrow)]; simpl.
  - destruct (Hfin s1 Hh1 Hroom) as (s2 & -> & Hh2 & Hfl & Hsz).
    destruct (text_update limit s s1 st st1 s2 d (d ++ l) false f) as [Hi Ha]; auto; try congruence.
    eexists _, _, _, _. split; [reflexivity|]. split; [|split; [exact Hi|exact Ha]]. constructor.
    intros n Hn. rewrite Hlim1 in Hn. destruct (SBUF_ISSET s1 SBUF_AUTOEXTEND); [done|]. by simplify_eq.
  - destruct (overflow_ok limit s (Text d false f) st s st1 d) as [Hi Ha]; auto; [by rewrite Hf|].
    eexists _, _, _, _. split; [reflexivity|]. split; [|split; [exact Hi|exact Ha]]. constructor.
    rewrite Hlim. by apply cannot_grow_room.
Qed.

Lemma store_append s l data :
  holds s l -> Z.of_nat (length l) + Z.of_nat (length data) < s_size s ->
  exists s1, store_at s (s_len s) data = Some s1
    ∧ (let s2 := set_len s1 (s32 (s_len s + s32 (Z.of_nat (length data)))) in
       holds s2 (l ++ data) ∧ s_flags s2 = s_flags s ∧ s_size s2 = s_size s).
Proof.
  intros Hh Hroom. pose proof Hh as (b & Hb & Hs & Hm & Hl & Hlt & Ht). unfold INT_MAX in Hm.
  destruct (holds_store s l data (length data) Hh) as (s1 & E & Hsz & Hfl & Hl1 & Hh1); [lia..|].
  exists s1. split; [done|]. simpl.
  rewrite (s32_small (Z.of_nat _)), s32_small by (unfold INT_MIN, INT_MAX; lia).
  split_and!; [|done..]. by rewrite (take_ge data) in Hh1 by lia.
Qed.

Lemma bcat_step limit s t data :
  implements limit s t -> Z.of_nat (length data) <= INT_MAX ->
  step_ok limit s t (sbuf_bcat s data (Z.of_nat (length data))) (spec_append limit (Z.of_nat (length data)) data).
Proof.
  intros Himp Hd. unfold INT_MAX in Hd. apply (append_step limit s t _ data
    (λ s, if Z.of_nat (length data) <? Z.of_nat (length data) then None else
          s' ← store_at s (s_len s) (take (Z.to_nat (Z.of_nat (length data))) data);
          Some (0, set_len s' (s32 (s_len s + s32 (Z.of_nat (length data)))))));
    [done|lia|].
  intros s1 Hh1 Hroom. destruct (store_append s1 (t_data t) data Hh1 Hroom) as (s2 & Es & Hs2).
  rewrite Z.ltb_irrefl, Nat2Z.id, take_ge, Es by done.
  simpl. eexists. split; [reflexivity|]. exact Hs2.
Qed.

Lemma putc_step limit s t c :
  implements limit s t ->
  step_ok limit s t (sbuf_putc s c) (spec_append limit 1 (if bool_decide (c = Byte.x00) then [] else [c])).
Proof.
  intros Himp. apply (append_step limit s t 1 _
    (λ s, if bool_decide (c = Byte.x00) then Some (0, s) else
          s' ← store_at s (s_len s) [c]; Some (0, set_len s' (s32 (s_len s + 1))))); [done|lia|].
  intros s1 Hh1 Hroom. case_bool_decide.
  - exists s1. by rewrite app_nil_r.
  - destruct (store_append s1 (t_data t) [c] Hh1 Hroom) as (s2 & -> & Hs2). simpl.
    eexists. split; [reflexivity|]. exact Hs2.
Qed.

(** A pass of vprintf with enough room prints the text. *)
Lemma vprintf_fits fuel s l data st :
  holds s l -> Z.of_nat (length l) + Z.of_nat (length data) < s_size s ->
  exists s2, vprintf_loop (S fuel) s data st = (Some (0, s2), st)
    ∧ holds s2 (l ++ data) ∧ s_flags s2 = s_flags s ∧ s_size s2 = s_size s.
Proof.
  intros Hh Hroom. pose proof Hh as (b & Hb & Hs & Hm & Hl & Hlt & Ht). unfold INT_MAX in Hm.
  cbn [vprintf_loop]. rewrite (capacity_holds s l Hh). rewrite (take_ge data) by lia.
  destruct (holds_store s l (data ++ [Byte.x00]) (length data) Hh) as (s1 & -> & Hsz & Hfl & Hl1 & Hh1);
    [rewrite ?length_app; simpl; lia..|].
  rewrite s32_small by (unfold INT_MIN, INT_MAX; lia).
  rewrite (proj2 (Z.ltb_ge _ 0)), (proj2 (Z.leb_le _ _)) by lia.
  eexists. split; [reflexivity|]. rewrite Hl1, s32_small by (unfold INT_MIN, INT_MAX; lia).
  split_and!; [|done..]. by rewrite take_app_le, take_ge in Hh1 by lia.
Qed.

Lemma vprintf_step limit s t data :
  implements limit s t -> Z.of_nat (length data) <= INT_MAX ->
  step_ok limit s t (sbuf_vprintf s data) (spec_append limit (Z.of_nat (length data)) data).
Proof.
  intros Himp Hd. apply overflowed_step; [done|]. intros Hno st.
  destruct t as [d o f]. pose proof Himp as (Hh & Ho & Hf & Hlim).
  cbn [t_data t_overflowed t_finished] in *. rewrite Hno in Ho. subst o.
  assert (Hok : forall s1 st1, accounts s st s1 st1 -> holds s1 d ->
    SBUF_ISSET s1 SBUF_OVERFLOWED = false -> SBUF_ISSET s1 SBUF_FINISHED = f ->
    Z.of_nat (length d) + Z.of_nat (length data) < s_size s1 -> forall fuel, exists r s' st' t',
      vprintf_loop (S fuel) s1 data st1 = (Some (r, s'), st')
      ∧ spec_append limit (Z.of_nat (length data)) data (Text d false f) r t' ∧ implements limit s' t' ∧ accounts s st s' st').
  { intros s1 st1 Hacc Hh1 Ho1 Hf1 Hroom fuel.
    destruct (vprintf_fits fuel s1 d data st1 Hh1 Hroom) as (s2 & -> & Hh2 & Hfl & Hsz).
    destruct (text_update limit s s1 st st1 s2 d (d ++ data) false f) as [Hi Ha]; auto; try congruence.
    eexists _, _, _, _. split; [reflexivity|]. split; [|split; [exact Hi|exact Ha]]. constructor.
    intros n Hn. rewrite (limit_trans _ _ _ _ _ _ Himp Hacc) in Hn.
    destruct (SBUF_ISSET s1 SBUF_AUTOEXTEND); [done|]. by simplify_eq. }
  destruct (Z.lt_ge_cases (Z.of_nat (length d) + Z.of_nat (length data)) (s_size s)) as [Hroom|Hroom].
  { apply (Hok s st); auto. by apply accounts_refl. }
  pose proof Hh as (b & Hb & Hs & Hm & Hl & Hlt & Ht). unfold INT_MAX in Hm, Hd.
  change 2%nat with (S 1). remember 1%nat as one eqn:E1. cbn [vprintf_loop]. rewrite (capacity_holds s d Hh).
  destruct (holds_store0 s d (take (Z.to_nat (s_size s - Z.of_nat (length d) - 1)) data ++ [Byte.x00]) Hh)
    as (s1 & -> & Hsz & Hfl & Hl1 & Hh1); [rewrite length_app, length_take; simpl; lia|].
  rewrite s32_small by (unfold INT_MIN, INT_MAX; lia).
  rewrite (proj2 (Z.ltb_ge _ 0)), (proj2 (Z.leb_gt _ _)) by lia. rewrite K_bind_run.
  assert (Hset : forall g, SBUF_ISSET s1 g = SBUF_ISSET s g) by (intros g; unfold SBUF_ISSET; by rewrite Hfl).
  assert (Hacc1 : accounts s st s1 st).
  { apply accounts_like; [done|apply owned_same; eauto using holds_buf|]. unfold same_kind. by rewrite Hset. }
  destruct (ensure_capacity_spec s1 d (Z.of_nat (length data)) st Hh1) as (e & s2 & st2 & -> & Hacc & Hh2 & Ho2 & Hf2 & Hc); [lia|].
  rewrite Hset in Ho2, Hf2. cbn [fst snd]. destruct Hc as [(-> & Hroom2)|(-> & -> & Hroom2 & Hgrow)].
  - subst one. apply (Hok s2 st2); eauto using accounts_trans; congruence.
  - destruct (overflow_ok limit s (Text d false f) st s1 st2 d) as [Hi Ha]; eauto using accounts_trans.
    { by rewrite Hset, Hf. }
    { rewrite Hset, Hsz. done. }
    eexists _, _, _, _. split; [reflexivity|]. split; [|split; [exact Hi|exact Ha]]. constructor.
    rewrite Hlim, <- Hsz, <- Hset. by apply cannot_grow_room.
Qed.

(** ** Trimming *)

Lemma load_last s l c : holds s (l ++ [c]) -> load_at s (s_len s - 1) = Some c.
Proof.
  intros (b & Hb & Hs & Hm & Hl & Hlt & Ht). rewrite length_app in Hl, Ht. change (length [c]) with 1%nat in Hl, Ht.
  assert (E : b !! Z.to_nat (s_len s - 1) = Some (Some c)).
  { replace (Z.to_nat (s_len s - 1)) with (length l) by lia.
    rewrite <- (lookup_take_lt b (length l + 1)), Ht, list_lookup_fmap, lookup_app_r, Nat.sub_diag by lia. done. }
  unfold load_at. rewrite Hb. change (Some b ≫= ?f) with (f b). cbv beta. by rewrite (proj2 (Z.leb_le _ _)), E by lia.
Qed.

Lemma trim_loop_spec l : forall s, holds s l ->
  exists s', trim_loop (length l) s = Some s' ∧ holds s' (trimmed l) ∧ s_flags s' = s_flags s ∧ s_size s' = s_size s.
Proof.
  induction l as [|c l IH] using rev_ind; intros s Hh.
  - exists s. pose proof Hh as (b & Hb & Hs & Hm & Hl & Hlt & Ht). simpl in *. rewrite Hl. done.
  - pose proof Hh as (b & Hb & Hs & Hm & Hl & Hlt & Ht). 
    assert (Hlen : length (l ++ [c]) = S (length l)) by (rewrite length_app; simpl; lia). rewrite Hlen in *.
    cbn [trim_loop length Nat.add]. rewrite (proj2 (Z.ltb_lt _ _)) by lia. rewrite (load_last s l c Hh).
    unfold trimmed. rewrite reverse_snoc. cbn [drop_space]. destruct (isspace c) eqn:Ec.
    + destruct (IH (set_len s (s_len s - 1))) as (s' & E & Hh' & Hfl & Hsz).
      { replace (s_len s - 1) with (Z.of_nat (length l)) by lia.
        pose proof (holds_take s (l ++ [c]) (length l) Hh) as H'. rewrite take_app_length, Hlen in H'. apply H'. lia. }
      by exists s'.
    + exists s. split_and!; auto. by rewrite reverse_cons, reverse_involutive.
Qed.

(** ** All operations *)

Lemma clear_ok limit s t :
  implements limit s t -> implements limit (sbuf_clear s) (Text [] false false)
    ∧ forall st, accounts s st (sbuf_clear s) st.
Proof.
  intros (Hh & Ho & Hf & Hlim). pose proof Hh as (b & _ & _ & _ & Hl & Hlt & _).
  assert (E : sbuf_clear s = set_len (SBUF_CLEARFLAG (SBUF_CLEARFLAG s SBUF_FINISHED) SBUF_OVERFLOWED) 0).
  { unfold sbuf_clear, sbuf_setpos. simpl. by rewrite (proj2 (Z.ltb_ge _ _)) by lia. }
  assert (Hset : forall g j, is_flag g j -> SBUF_ISSET (sbuf_clear s) g =
            (negb (bool_decide (j = 18)) && (negb (bool_decide (j = 17)) && SBUF_ISSET s g))%bool).
  { intros g j Hg. rewrite E.
    rewrite <- (isset_clear s _ _ g j flag_finished Hg), <- (isset_clear _ _ _ g j flag_overflowed Hg). done. }
  assert (Hh' : holds (sbuf_clear s) []) by (rewrite E; apply (holds_take _ (t_data t) 0); [done|lia]).
  split.
  - unfold implements. rewrite (Hset _ _ flag_overflowed), (Hset _ _ flag_finished), (Hset _ _ flag_autoextend), E.
    simpl. rewrite <- E. done.
  - intros st. unfold accounts, same_kind, owned.
    rewrite (Hset _ _ flag_dynamic), (Hset _ _ flag_autoextend), (Hset _ _ flag_dynstruct), E. done.
Qed.

Lemma setpos_ok limit s t pos : implements limit s t ->
  step_ok limit s t (mret (Some (sbuf_setpos s pos))) (spec_op limit (Setpos pos)).
Proof.
  intros Himp st. destruct t as [d o f]. pose proof Himp as (Hh & Ho & Hf & Hlim).
  pose proof Hh as (b & _ & _ & _ & Hl & Hlt & _). simpl in *. unfold sbuf_setpos.
  destruct (Z.ltb_spec pos 0), (Z.ltb_spec (s_len s) pos); simpl; eexists _, _, _, _; (split; [reflexivity|]).
  1-3: split_and!; [by apply spec_setpos_bad; lia|exact Himp|by apply accounts_refl].
  destruct (text_update limit s s st st (set_len s pos) d (take (Z.to_nat pos) d) o f) as [Hi Ha]; auto.
  - by apply accounts_refl.
  - replace pos with (Z.of_nat (Z.to_nat pos)) at 1 by lia. apply holds_take; [done|lia].
  - split_and!; [|exact Hi|exact Ha]. apply spec_setpos. lia.
Qed.

Lemma trim_ok limit s t : implements limit s t ->
  step_ok limit s t (mret (sbuf_trim s)) (spec_op limit Trim).
Proof.
  intros Himp st. destruct t as [d o f]. pose proof Himp as (Hh & Ho & Hf & Hlim). simpl in *.
  unfold sbuf_trim. rewrite Ho. destruct o.
  - eexists _, _, _, _. split; [reflexivity|]. split_and!; [constructor|exact Himp|by apply accounts_refl].
  - pose proof Hh as (b & _ & _ & _ & Hl & _ & _). rewrite Hl, Nat2Z.id.
    destruct (trim_loop_spec d s Hh) as (s' & -> & Hh' & Hfl & Hsz). simpl.
    destruct (text_update limit s s st st s' d (trimmed d) false f) as [Hi Ha]; auto; [by apply accounts_refl|].
    eexists _, _, _, _. split; [reflexivity|]. split_and!; [constructor|exact Hi|exact Ha].
Qed.

Lemma finish_ok limit s t : implements limit s t ->
  step_ok limit s t (mret ((λ s', (0, s')) <$> sbuf_finish s)) (spec_op limit Finish).
Proof.
  intros Himp st. destruct t as [d o f]. pose proof Himp as (Hh & Ho & Hf & Hlim). simpl in *.
  pose proof Hh as (b & _ & Hs & _ & Hl & Hlt & _).
  destruct (holds_store0 s d [Byte.x00] Hh) as (s1 & E & Hsz & Hfl & Hl1 & Hh1); [simpl; lia|].
  unfold sbuf_finish. rewrite E. simpl.
  destruct (text_update limit s s st st s1 d d o f) as [Hi Ha]; auto; [by apply accounts_refl|].
  eexists _, _, _, _. split; [reflexivity|]. split; [constructor|]. split.
  - destruct Hi as (Hi1 & Hi2 & Hi3 & Hi4). unfold implements. flags. done.
  - eapply accounts_trans; [exact Ha|]. apply accounts_like; [done| |].
    + unfold owned. flags. done.
    + unfold same_kind. flags. done.
Qed.

Lemma do_step limit s t op :
  implements limit s t -> op_small op -> step_ok limit s t (sbuf_do op s) (spec_op limit op).
Proof.
  intros Himp Hsmall. destruct op as [data|data|data|c| |pos| |]; simpl in Hsmall; cbn [sbuf_do];
    [| | | |by apply trim_ok|by apply setpos_ok| |by apply finish_ok]; intros st.
  - destruct (bcat_step limit s t data Himp Hsmall st) as (r & s' & st' & t' & ? & ? & ?); eauto 10 using spec_op.
  - destruct (clear_ok limit s t Himp) as [Himp' Hacc'].
    destruct (bcat_step limit _ _ data Himp' Hsmall st) as (r & s' & st' & t' & ? & ? & ? & Hacc).
    eauto 10 using spec_op, accounts_trans.
  - destruct (vprintf_step limit s t data Himp Hsmall st) as (r & s' & st' & t' & ? & ? & ?); eauto 10 using spec_op.
  - destruct (putc_step limit s t c Himp st) as (r & s' & st' & t' & ? & ? & ?); eauto 10 using spec_op.
  - destruct (clear_ok limit s t Himp) as [Himp' Hacc']. eexists _, _, _, _.
    split; [reflexivity|]. eauto using spec_op.
Qed.

Fixpoint sbuf_run (ops : list sbuf_op) (s : sbuf) : K (option (list Z * sbuf)) :=
  match ops with
  | [] => mret (Some ([], s))
  | op :: ops' =>
    r ← sbuf_do op s;
    match r with
    | None => mret None
    | Some (e, s') =>
      rest ← sbuf_run ops' s';
      mret match rest with Some (es, s'') => Some (e :: es, s'') | None => None end
    end
  end.

Inductive spec_run (limit : option Z) : list sbuf_op -> text -> list Z -> text -> Prop :=
| spec_run_nil t : spec_run limit [] t [] t
| spec_run_cons op ops t r t1 rs t2 :
    spec_op limit op t r t1 -> spec_run limit ops t1 rs t2 -> spec_run limit (op :: ops) t (r :: rs) t2.

Lemma run_ok limit ops : forall s t st, implements limit s t -> Forall op_small ops ->
  exists rs s' st' t', sbuf_run ops s st = (Some (rs, s'), st') ∧ spec_run limit ops t rs t'
    ∧ implements limit s' t' ∧ accounts s st s' st'.
Proof.
  induction ops as [|op ops IH]; intros s t st Himp Hsmall.
  - eexists _, _, _, _. split; [reflexivity|]. split_and!; [constructor|done|by apply accounts_refl].
  - apply Forall_cons in Hsmall as [Hop Hops].
    destruct (do_step limit s t op Himp Hop st) as (r & s1 & st1 & t1 & E & Hspec & Himp1 & Hacc1).
    destruct (IH s1 t1 st1 Himp1 Hops) as (rs & s2 & st2 & t2 & E2 & Hspec2 & Himp2 & Hacc2).
    simpl. rewrite K_bind_run, E. cbn [fst snd]. rewrite K_bind_run, E2. cbn [fst snd].
    eexists _, _, _, _. split; [reflexivity|]. eauto using spec_run, accounts_trans.
Qed.

(** ** Creation and deletion *)

(** A buffer passed to sbuf_new is a non-empty object of the given length. *)
Definition buffer_ok (buf : option (list cell)) (length_ : Z) : Prop :=
  INT_MIN <= length_ <= INT_MAX ∧ forall b, buf = Some b -> Z.of_nat (length b) = length_ ∧ 0 < length_.

Definition limit_of (length_ flags : Z) : option Z :=
  if (flags &? SBUF_AUTOEXTEND)%C then None else Some length_.

Lemma user_flags_bits flags k : Z.land flags (Z.lnot SBUF_USRFLAGMSK) = 0 -> 16 <= k -> Z.testbit flags k = false.
Proof.
  intros E Hk. apply (f_equal (λ z, Z.testbit z k)) in E. rewrite Z.land_spec, Z.lnot_spec, Z.bits_0 in E by lia.
  replace (Z.testbit SBUF_USRFLAGMSK k) with false in E; [by rewrite andb_true_r in E|].
  symmetry. apply (Z.ones_spec_high 16). lia.
Qed.

Lemma delete_mem s st : k_mem (sbuf_delete s st).2 = k_mem st - owned s.
Proof.
  unfold sbuf_delete, owned. destruct (SBUF_ISSET s SBUF_DYNAMIC && _)%bool;
    cbv [OSFree add_mem mbind K_bind mret K_ret]; cbv beta iota zeta.
  - change (SBUF_ISSET (Sbuf None (s_size s) (s_len s) (s_flags s)) SBUF_DYNSTRUCT) with (SBUF_ISSET s SBUF_DYNSTRUCT).
    destruct (SBUF_ISSET s SBUF_DYNSTRUCT); cbn [fst snd k_mem]; lia.
  - destruct (SBUF_ISSET s SBUF_DYNSTRUCT); cbn [fst snd k_mem]; lia.
Qed.

(** What sbuf_new makes of a fresh sbuf. *)
Lemma fresh_implements b n flags f (dyn dynstruct : bool) :
  Z.land flags (Z.lnot SBUF_USRFLAGMSK) = 0 -> Z.of_nat (length b) = n -> 0 < n <= INT_MAX ->
  (forall g j, is_flag g j -> SBUF_ISSET (Sbuf (Some b) n 0 f) g =
     ((dyn && bool_decide (j = 16)) || (dynstruct && bool_decide (j = 19)) || Z.testbit flags j)%bool) ->
  implements (if (flags &? SBUF_AUTOEXTEND)%C then None else Some n) (Sbuf (Some b) n 0 f) (Text [] false false)
  ∧ owned (Sbuf (Some b) n 0 f) = (if dyn then n else 0) + (if dynstruct then sizeof_sbuf else 0).
Proof.
  intros Hfl Hn Hr Hset. split.
  - unfold implements. rewrite (Hset _ _ flag_overflowed), (Hset _ _ flag_finished), (Hset _ _ flag_autoextend).
    rewrite !(user_flags_bits flags) by (done || lia).
    replace (flags &? SBUF_AUTOEXTEND)%C with (Z.testbit flags 0).
    2:{ change SBUF_AUTOEXTEND with (2 ^ 0). rewrite land_pow2_zero by done. by rewrite negb_involutive. }
    split_and!; [|by destruct dyn, dynstruct..]. exists b. simpl. split_and!; (done || lia).
  - unfold owned. rewrite (Hset _ _ flag_dynamic), (Hset _ _ flag_dynstruct).
    rewrite !(user_flags_bits flags) by (done || lia). by destruct dyn, dynstruct.
Qed.

Lemma autoextend_bit flags : (flags &? SBUF_AUTOEXTEND)%C = Z.testbit flags 0.
Proof. change SBUF_AUTOEXTEND with (2 ^ 0). rewrite land_pow2_zero by done. by rewrite negb_involutive. Qed.

(** A result of sbuf_new is an empty text, and it owns what was allocated. *)
Definition created (length_ flags mem : Z) (r : option sbuf * kstate) : Prop :=
  match r with
  | (None, st') => k_mem st' = mem
  | (Some s, st') => implements (limit_of length_ flags) s (Text [] false false) ∧ k_mem st' - owned s = mem
  end.

Lemma new_buffer_ok f0 dynstruct buf length_ flags st mem :
  Z.land flags (Z.lnot SBUF_USRFLAGMSK) = 0 -> 0 <= length_ -> buffer_ok buf length_ ->
  (forall g j b n l, is_flag g j -> SBUF_ISSET (Sbuf b n l f0) g =
     ((dynstruct && bool_decide (j = 19)) || Z.testbit flags j)%bool) ->
  k_mem st = mem + (if dynstruct then sizeof_sbuf else 0) ->
  created length_ flags mem (new_buffer (Sbuf None 0 0 f0) buf length_ st).
Proof.
  intros Hfl Hpos [Hlen Hbuf] Hf0 Hm. unfold created, new_buffer, limit_of. destruct buf as [b|].
  { destruct (Hbuf b eq_refl) as [Hb1 Hb2].
    destruct (fresh_implements b length_ flags f0 false dynstruct) as [Hi Ho]; auto; [lia|intros g j Hg; by apply Hf0|].
    split; [exact Hi|]. simpl. rewrite Ho. lia. }
  cbv zeta. set (fail := _ ← sbuf_delete _; mret None).
  assert (Hfail : forall st2, k_mem st2 = k_mem st -> exists st3, fail st2 = (None, st3) ∧ k_mem st3 = mem).
  { intros st2 Hm2. subst fail. rewrite K_bind_run. eexists. split; [reflexivity|].
    rewrite delete_mem. unfold owned. rewrite (Hf0 _ _ _ _ _ flag_dynstruct), andb_false_r.
    rewrite (user_flags_bits flags) by (done || lia). destruct dynstruct; simpl; lia. }
  rewrite (Hf0 _ _ _ _ _ flag_autoextend), autoextend_bit.
  replace (dynstruct && bool_decide (0 = 19))%bool with false by (by destruct dynstruct). cbn [orb].
  remember (Z.testbit flags 0) as auto eqn:Eauto.
  destruct (if auto then _ else _) as [n|] eqn:En;
    [|destruct (Hfail st eq_refl) as (st3 & -> & ?); done].
  destruct (Z.eqb_spec n 0); [destruct (Hfail st eq_refl) as (st3 & -> & ?); done|].
  rewrite K_bind_run. unfold OSMalloc. rewrite K_bind_run. simpl.
  destruct (malloc_at (k_clock st) n); simpl; [|destruct (Hfail (tick st) eq_refl) as (st3 & -> & ?); done].
  assert (Hn : 0 < n <= INT_MAX ∧ (auto = false -> n = length_)).
  { destruct auto; [|simplify_eq; lia]. apply extendsize_spec in En; [|done]. split; [lia|done]. }
  destruct (fresh_implements (replicate (Z.to_nat n) (Some Byte.x00)) n flags (Z.lor f0 SBUF_DYNAMIC) true dynstruct)
    as [Hi Ho]; auto; [rewrite length_replicate; lia|lia| |].
  { intros g j Hg. change (Sbuf ?b ?n 0 (Z.lor f0 SBUF_DYNAMIC)) with (SBUF_SETFLAG (Sbuf b n 0 f0) SBUF_DYNAMIC).
    rewrite (isset_set _ _ _ _ _ flag_dynamic Hg), (Hf0 _ _ _ _ _ Hg). by rewrite orb_assoc. }
  unfold SBUF_SETFLAG. cbn [s_buf s_size s_len s_flags]. rewrite autoextend_bit, <- Eauto in Hi. split; [|unfold cell in *; rewrite Ho; cbn [k_mem tick]; lia].
  destruct auto; [exact Hi|]. rewrite <- (proj2 Hn) by done. exact Hi.
Qed.

Lemma new_ok given buf length_ flags st :
  buffer_ok buf length_ -> created length_ flags (k_mem st) (sbuf_new given buf length_ flags st).
Proof.
  intros Hok. pose proof Hok as [Hlen _]. unfold sbuf_new.
  destruct (_ || _)%bool eqn:Eg; [done|]. apply orb_false_iff in Eg as [Hl Hfl]. b2p.
  assert (u64 length_ = length_ ∧ 0 <= length_) as [-> Hpos].
  { unfold INT_MIN, INT_MAX, u64 in *. destruct (Z.lt_ge_cases length_ 0); [|rewrite Z.mod_small in *; lia].
    rewrite <- (Z.mod_add length_ 1), Z.mod_small in Hl by lia. lia. }
  destruct given.
  - apply (new_buffer_ok flags false); auto; [|lia]. intros g j b n l Hg. by rewrite (isset_bit _ _ _ Hg).
  - rewrite K_bind_run. unfold OSMalloc. rewrite K_bind_run. simpl.
    destruct (malloc_at (k_clock st) sizeof_sbuf); simpl; [|done].
    apply (new_buffer_ok (Z.lor flags SBUF_DYNSTRUCT) true); auto. intros g j b n l Hg.
    change (Sbuf b n l (Z.lor flags SBUF_DYNSTRUCT)) with (SBUF_SETFLAG (Sbuf b n l flags) SBUF_DYNSTRUCT).
    by rewrite (isset_set _ _ _ _ _ flag_dynstruct Hg), (isset_bit _ _ _ Hg).
Qed.

(** C5. An sbuf implements its specification: after sbuf_new, any sequence of operations
    runs without an access outside the buffer, with the results and the text the
    specification gives.  A buffer of fixed length accepts a text if and only if it
    fits with its final NUL, one that grows unless the size leaves the [int] range or
    there is no memory; a text that is not accepted leaves the data unchanged and
    the overflow flag set, until the text is cleared or finished. *)
Theorem sbuf_refines given buf length_ flags ops st s st1 :
  buffer_ok buf length_ -> sbuf_new given buf length_ flags st = (Some s, st1) -> Forall op_small ops ->
  exists rs s' st' t, sbuf_run ops s st1 = (Some (rs, s'), st')
    ∧ spec_run (limit_of length_ flags) ops (Text [] false false) rs t
    ∧ holds s' (t_data t) ∧ sbuf_overflowed s' = Z.b2z (t_overflowed t) ∧ sbuf_done s' = Z.b2z (t_finished t)
    ∧ sbuf_len s' = (if t_overflowed t then -1 else Z.of_nat (length (t_data t))).
Proof.
  intros Hok Hnew Hops. pose proof (new_ok given buf length_ flags st Hok) as Hc. rewrite Hnew in Hc.
  destruct Hc as [Himp _].
  destruct (run_ok _ ops s _ st1 Himp Hops) as (rs & s' & st' & t & E & Hspec & (Hh & Ho & Hf & _) & _).
  exists rs, s', st', t. unfold sbuf_overflowed, sbuf_done, sbuf_len. rewrite Ho, Hf.
  pose proof Hh as (b & _ & _ & _ & -> & _ & _).
  split_and!; auto; by destruct (t_overflowed t), (t_finished t).
Qed.

(** Memory: a failing sbuf_new keeps nothing, and deleting an sbuf gives back
    exactly what sbuf_new and the growth of the buffer had allocated, whatever
    operations ran and whichever allocations failed. *)
Theorem sbuf_delete_frees given buf length_ flags ops st :
  buffer_ok buf length_ -> Forall op_small ops ->
  match sbuf_new given buf length_ flags st with
  | (None, st1) => k_mem st1 = k_mem st
  | (Some s, st1) => exists rs s' st', sbuf_run ops s st1 = (Some (rs, s'), st')
      ∧ k_mem (sbuf_delete s' st').2 = k_mem st
  end.
Proof.
  intros Hok Hops. pose proof (new_ok given buf length_ flags st Hok) as Hc.
  destruct (sbuf_new given buf length_ flags st) as [[s|] st1]; [|done]. destruct Hc as [Himp Hm].
  destruct (run_ok _ ops s _ st1 Himp Hops) as (rs & s' & st' & t & E & _ & _ & [Hacc _]).
  exists rs, s', st'. split; [done|]. rewrite delete_mem. lia.
Qed.

(** The sizes sbuf_extendsize chooses: at least what is asked for, a power of two from 16
    below a page and a number of whole pages from there, less than twice (or a page
    more than) the request, and never more than an [int] holds; it fails exactly for
    requests that do not leave room for the rounding. *)
Theorem sbuf_extendsize_spec t :
  0 <= t ->
  (is_Some (sbuf_extendsize t) <-> t <= INT_MAX + 1 - PAGE_SIZE) ∧
  (forall n, sbuf_extendsize t = Some n ->
     t <= n <= INT_MAX
     ∧ if t <? PAGE_SIZE then (exists k, 0 <= k ∧ n = 16 * 2 ^ k) ∧ (n = 16 ∨ n < 2 * t)
       else n mod PAGE_SIZE = 0 ∧ n < t + PAGE_SIZE).
Proof.
  intros Ht. destruct (extendsize_spec t Ht) as [Hn Hs]. split; [split|].
  - intros [n E]. apply Hs in E. tauto.
  - intros Hle. destruct (sbuf_extendsize t) as [n|]; [by eexists|]. specialize (Hn eq_refl). lia.
  - intros n E. apply Hs in E. tauto.
Qed.

(** Finishing hides an overflow: sbuf_len and sbuf_overflowed then report a complete
    text, whatever was dropped. *)
Theorem sbuf_finish_hides_overflow limit s t :
  implements limit s t ->
  exists s', sbuf_finish s = Some s' ∧ sbuf_overflowed s' = 0 ∧ sbuf_len s' = Z.of_nat (length (t_data t)).
Proof.
  intros Himp. destruct (finish_ok limit s t Himp (Kstate 0 0 0)) as (r & s' & st' & t' & E & Hspec & (Hh & Ho & _) & _).
  inversion Hspec; subst; simpl in *. unfold mret, K_ret in E. destruct (sbuf_finish s) as [s1|]; [|done].
  simplify_eq/=. exists s'. unfold sbuf_overflowed, sbuf_len. rewrite Ho.
  pose proof Hh as (b & _ & _ & _ & -> & _ & _). done.
Qed.

(** A caller's buffer of length 0 is accepted, although sbuf_capacity underflows on it:
    the first character is stored outside the buffer. *)
Theorem sbuf_new_empty_buffer st c :
  c ≠ Byte.x00 ->
  exists s, sbuf_new true (Some []) 0 0 st = (Some s, st) ∧ sbuf_capacity s = 18446744073709551615
    ∧ (sbuf_putc s c st).1 = None.
Proof.
  intros Hc. exists (Sbuf (Some []) 0 0 0). split_and!; [done..|]. unfold sbuf_putc. simpl.
  by rewrite bool_decide_eq_false_2.
Qed.

End SbufFacts.

(** ** Example *)

Definition sample_ops : list sbuf_op :=
  [Printf (bytes_of_string "pid 501"); Putc Byte.x20; Trim; Bcat (bytes_of_string " tty 3"); Finish].

Lemma sbuf_refines_witness :
  let K0 := simple_kernel [] in
  exists rs s' st' t, sbuf_run sample_ops (Sbuf (Some (replicate 16 (Some Byte.x00))) 16 0 (SBUF_AUTOEXTEND + SBUF_DYNAMIC))
      (Kstate 1 0 16) = (Some (rs, s'), st')
    ∧ spec_run None sample_ops (Text [] false false) rs t
    ∧ holds s' (t_data t) ∧ sbuf_overflowed s' = Z.b2z (t_overflowed t) ∧ sbuf_done s' = Z.b2z (t_finished t)
    ∧ sbuf_len s' = (if t_overflowed t then -1 else Z.of_nat (length (t_data t))).
Proof.
  intros K0. apply (sbuf_refines true None 10 SBUF_AUTOEXTEND sample_ops (Kstate 0 0 0)).
  - split; [by vm_compute|done].
  - vm_compute. reflexivity.
  - repeat constructor; by vm_compute.
Defined.

Lemma sbuf_delete_frees_witness :
  let K0 := simple_kernel [] in
  match sbuf_new true None 10 SBUF_AUTOEXTEND (Kstate 0 0 7) with
  | (None, st1) => k_mem st1 = 7
  | (Some s, st1) => exists rs s' st', sbuf_run sample_ops s st1 = (Some (rs, s'), st')
      ∧ k_mem (sbuf_delete s' st').2 = 7
  end.
Proof.
  intros K0. apply (sbuf_delete_frees true None 10 SBUF_AUTOEXTEND sample_ops (Kstate 0 0 7)).
  - split; [by vm_compute|done].
  - repeat constructor; by vm_compute.
Defined.

Lemma sbuf_extendsize_spec_witness :
  sbuf_extendsize 5000 = Some 8192 ∧ (is_Some (sbuf_extendsize 5000) <-> 5000 <= INT_MAX + 1 - PAGE_SIZE).
Proof. split; [by vm_compute|]. apply (sbuf_extendsize_spec 5000). lia. Defined.
