(* ===== verification/Sbuftest.v ===== *)
(** * The self-tests of the string buffer (kext/lib/sbuf.c, DEBUG || DEVELOPMENT)

    The sysctl [kern.sbuf_test] runs some two hundred assertions over the operations of
    [Sbuf].  They are written here over those definitions, a block of the source per
    definition, and the theorem runs them: what the authors expect of the buffer is what
    the model of it does, for either page size. *)

From S2P Require Import Prelude Kernel Structure Subr Sbuf.
From Stdlib Require Import FunctionalExtensionality.

(** xnu/bsd/sys/sbuf.h, xnu/bsd/sys/errno.h *)
Definition SBUF_FIXEDLEN : Z := 0.
Definition ENOTRECOVERABLE : Z := 104.

(** The variables of a test: the count of assertions, [s], [size_before] and [len_before]. *)
Record tstate := Tstate { passed : Z; cur : option sbuf; size0 : Z; len0 : Z }.

(** A statement goes on, jumps to [fail], or does what C leaves undefined. *)
Inductive outcome := Next (t : tstate) | Failed | Fault.
Definition T : Type := tstate -> K outcome.

Section Tests.
Context `{KernelOps} `{PageSize}.

Fixpoint block (l : list T) : T :=
  match l with
  | [] => λ t, mret (Next t)
  | m :: l' => λ t, r ← m t; match r with Next t => block l' t | _ => mret r end
  end.

(** [char buf[4] = { 0 };] *)
Definition buf : list cell := replicate 4 (Some Byte.x00).

Definition SBUF_ASSERT (x : bool) (t : tstate) : K outcome :=
  mret (if x then Next (Tstate (passed t + 1) (cur t) (size0 t) (len0 t)) else Failed).
Definition put (s : option sbuf) (t : tstate) : tstate := Tstate (passed t) s (size0 t) (len0 t).
(** Uses [s]. *)
Definition with_s (f : sbuf -> T) : T := λ t, match cur t with Some s => f s t | None => mret Fault end.

Definition sbuf_new_ (existing : bool) (b : option (list cell)) (length flags : Z) : T :=
  λ t, s ← sbuf_new existing b length flags; mret (Next (put s t)).
Definition sbuf_delete_ : T := with_s (λ s t, s' ← sbuf_delete s; mret (Next (put s' t))).
Definition ASSERT_NULL : T := λ t, SBUF_ASSERT (bool_decide (cur t = None)) t.
Definition ASSERT_NOT_NULL : T := λ t, SBUF_ASSERT (bool_decide (is_Some (cur t))) t.
Definition ASSERT (f : sbuf -> bool) : T := with_s (λ s, SBUF_ASSERT (f s)).
Definition ASSERT_WITH (f : Z -> Z -> sbuf -> bool) : T := with_s (λ s t, SBUF_ASSERT (f (size0 t) (len0 t) s) t).
(** An assertion on the result of a call. *)
Definition CALL_EQ (e : Z) (f : sbuf -> K (option (Z * sbuf))) : T :=
  with_s (λ s t, r ← f s; match r with Some (v, s') => SBUF_ASSERT (v =? e) (put (Some s') t) | None => mret Fault end).
(** [SBUF_ASSERT_EQ(c, s->s_buf[i])] *)
Definition BUF_AT (i : sbuf -> Z) (c : Byte.byte) : T :=
  with_s (λ s t, match load_at s (i s) with Some b => SBUF_ASSERT (bool_decide (b = c)) t | None => mret Fault end).
Definition BUF (i : Z) : Byte.byte -> T := BUF_AT (λ _, i).
Definition set_s (f : sbuf -> sbuf) : T := with_s (λ s t, mret (Next (put (Some (f s)) t))).
Definition try_s (f : sbuf -> option sbuf) : T :=
  with_s (λ s t, mret match f s with Some s' => Next (put (Some s') t) | None => Fault end).
Definition size_before : T := with_s (λ s t, mret (Next (Tstate (passed t) (cur t) (s_size s) (len0 t)))).
Definition len_before : T := with_s (λ s t, mret (Next (Tstate (passed t) (cur t) (size0 t) (s_len s)))).

(** ["foo    \t\t\n\t"] *)
Definition trim_text : string :=
  "foo    " +:+ String.string_of_list_byte [Byte.x09; Byte.x09; Byte.x0a; Byte.x09].

Definition sbuf_new_tests : T := block [
  (* fail to allocate >INT_MAX *)
  sbuf_new_ false None INT_MIN 0; ASSERT_NULL;
  (* fail when claiming a backing buffer >INT_MAX *)
  sbuf_new_ false (Some buf) INT_MIN 0; ASSERT_NULL;
  (* fail to allocate a zero-length sbuf *)
  sbuf_new_ false None 0 0; ASSERT_NULL;
  (* not accept invalid flags *)
  sbuf_new_ false None 16 65536; ASSERT_NULL;
  (* succeed when passed an existing sbuf *)
  sbuf_new_ true None 16 SBUF_AUTOEXTEND; ASSERT_NOT_NULL; ASSERT (λ s, SBUF_ISSET s SBUF_AUTOEXTEND);
  ASSERT (λ s, SBUF_ISSET s SBUF_DYNAMIC); ASSERT (λ s, bool_decide (is_Some (s_buf s)));
  ASSERT (λ s, negb (s_size s =? 0)); ASSERT (λ s, s_len s =? 0); sbuf_delete_;
  (* succeed when passed an existing sbuf and buffer *)
  sbuf_new_ true (Some buf) 4 0; ASSERT_NOT_NULL; ASSERT (λ s, bool_decide (s_buf s = Some buf));
  ASSERT (λ s, s_size s =? 4); ASSERT (λ s, s_len s =? 0); sbuf_delete_;
  (* succeed without an existing sbuf or buffer *)
  sbuf_new_ false None 16 0; ASSERT_NOT_NULL; ASSERT (λ s, SBUF_ISSET s SBUF_DYNAMIC);
  ASSERT (λ s, SBUF_ISSET s SBUF_DYNSTRUCT); ASSERT (λ s, bool_decide (is_Some (s_buf s)));
  ASSERT (λ s, negb (s_size s =? 0)); ASSERT (λ s, s_len s =? 0); sbuf_delete_;
  (* succeed without an existing sbuf, but with a buffer *)
  sbuf_new_ false (Some buf) 4 0; ASSERT_NOT_NULL; ASSERT (λ s, SBUF_ISSET s SBUF_DYNSTRUCT);
  ASSERT (λ s, bool_decide (s_buf s = Some buf)); ASSERT (λ s, s_size s =? 4); ASSERT (λ s, s_len s =? 0);
  sbuf_delete_;
  (* round up the requested size if SBUF_AUTOEXTEND *)
  sbuf_new_ false None 1 SBUF_AUTOEXTEND; ASSERT (λ s, 1 <? s_size s); sbuf_delete_ ].

Definition sbuf_clear_tests : T := block [
  (* clear the overflowed and finished flags *)
  sbuf_new_ false None 16 0; set_s (λ s, SBUF_SETFLAG s SBUF_OVERFLOWED); ASSERT (λ s, SBUF_ISSET s SBUF_OVERFLOWED);
  set_s (λ s, SBUF_SETFLAG s SBUF_FINISHED); ASSERT (λ s, SBUF_ISSET s SBUF_FINISHED); set_s sbuf_clear;
  ASSERT (λ s, negb (SBUF_ISSET s SBUF_OVERFLOWED)); ASSERT (λ s, negb (SBUF_ISSET s SBUF_FINISHED)); sbuf_delete_;
  (* reset the position to zero *)
  sbuf_new_ false None 16 0; set_s (λ s, set_len s 1); set_s sbuf_clear; ASSERT (λ s, s_len s =? 0); sbuf_delete_ ].

Definition sbuf_extend_tests : T := block [
  (* allow zero *)
  sbuf_new_ false None 16 SBUF_AUTOEXTEND; size_before; CALL_EQ 0 (λ s, sbuf_extend s 0);
  ASSERT_WITH (λ b l s, s_size s =? b); sbuf_delete_;
  (* fail for sbuf not marked as SBUF_AUTOEXTEND *)
  sbuf_new_ false None 16 SBUF_FIXEDLEN; CALL_EQ (-1) (λ s, sbuf_extend s 10); sbuf_delete_;
  (* accommodate reasonable requests *)
  sbuf_new_ false None 16 SBUF_AUTOEXTEND; size_before; CALL_EQ 0 (λ s, sbuf_extend s 10);
  ASSERT_WITH (λ b l s, 10 <=? (s_size s - b)); sbuf_delete_;
  (* reject requests that cause overflows *)
  sbuf_new_ false None 16 SBUF_AUTOEXTEND; CALL_EQ (-1) (λ s, sbuf_extend s 18446744073709551615);
  CALL_EQ (-1) (λ s, sbuf_extend s INT_MAX); sbuf_delete_;
  (* transform the sbuf into an SBUF_DYNAMIC one *)
  sbuf_new_ false (Some buf) 4 SBUF_AUTOEXTEND; ASSERT (λ s, negb (SBUF_ISSET s SBUF_DYNAMIC));
  CALL_EQ 0 (λ s, sbuf_extend s 10); ASSERT (λ s, SBUF_ISSET s SBUF_DYNAMIC); sbuf_delete_ ].

Definition sbuf_capacity_tests : T := block [
  (* account for the trailing nul byte *)
  sbuf_new_ false None 16 0; ASSERT (λ s, sbuf_capacity s =? (s_size s - s_len s - 1)); sbuf_delete_ ].

Definition sbuf_ensure_capacity_tests : T := block [
  (* return 0 if the sbuf already has enough capacity *)
  sbuf_new_ false None 16 SBUF_AUTOEXTEND; size_before; CALL_EQ 0 (λ s, sbuf_ensure_capacity s 5);
  ASSERT_WITH (λ b l s, s_size s =? b); sbuf_delete_;
  (* extend the buffer as needed *)
  sbuf_new_ false None 16 SBUF_AUTOEXTEND; size_before; CALL_EQ 0 (λ s, sbuf_ensure_capacity s 30);
  ASSERT_WITH (λ b l s, b <? s_size s); sbuf_delete_ ].

Definition sbuf_bcat_tests : T := block [
  (* fail if the sbuf is marked as overflowed *)
  sbuf_new_ false None 16 SBUF_AUTOEXTEND; set_s (λ s, SBUF_SETFLAG s SBUF_OVERFLOWED);
  CALL_EQ (-1) (λ s, sbuf_bcat s (bytes_of_string "A") 1); sbuf_delete_;
  (* fail if len is too big *)
  sbuf_new_ false None 16 SBUF_AUTOEXTEND; CALL_EQ (-1) (λ s, sbuf_bcat s (bytes_of_string "A") INT_MAX);
  ASSERT (λ s, SBUF_ISSET s SBUF_OVERFLOWED); sbuf_delete_;
  (* succeed for a fixed buf within limits *)
  sbuf_new_ false None 16 SBUF_FIXEDLEN; CALL_EQ 0 (λ s, sbuf_bcat s (bytes_of_string "ABC") 3);
  ASSERT (λ s, s_len s =? 3); BUF 0 Byte.x41; BUF 1 Byte.x42; BUF 2 Byte.x43; sbuf_delete_;
  (* succeed for binary data, even with nul bytes *)
  sbuf_new_ false None 16 SBUF_FIXEDLEN; CALL_EQ 0 (λ s, sbuf_bcat s [Byte.x41; Byte.x00; Byte.x43] 3);
  ASSERT (λ s, s_len s =? 3); BUF 0 Byte.x41; BUF 1 Byte.x00; BUF 2 Byte.x43; sbuf_delete_;
  (* append to existing data *)
  sbuf_new_ false None 16 SBUF_FIXEDLEN; CALL_EQ 0 (λ s, sbuf_bcat s (bytes_of_string "ABC") 3);
  ASSERT (λ s, s_len s =? 3); BUF 0 Byte.x41; BUF 1 Byte.x42; BUF 2 Byte.x43;
  CALL_EQ 0 (λ s, sbuf_bcat s (bytes_of_string "DEF") 3); ASSERT (λ s, s_len s =? 6); BUF 3 Byte.x44; BUF 4 Byte.x45;
  BUF 5 Byte.x46; sbuf_delete_;
  (* succeed for a fixed buf right up to the limit *)
  sbuf_new_ false None 16 SBUF_FIXEDLEN; CALL_EQ 0 (λ s, sbuf_bcat s (bytes_of_string "0123456789abcde") 15);
  ASSERT (λ s, s_len s =? 15); sbuf_delete_;
  (* fail for a fixed buf if too big *)
  sbuf_new_ false None 16 SBUF_FIXEDLEN; CALL_EQ (-1) (λ s, sbuf_bcat s (bytes_of_string "0123456789abcdef") 16);
  ASSERT (λ s, SBUF_ISSET s SBUF_OVERFLOWED); sbuf_delete_;
  (* expand the backing buffer as needed *)
  sbuf_new_ false None 16 SBUF_AUTOEXTEND; size_before;
  CALL_EQ 0 (λ s, sbuf_bcat s (bytes_of_string "0123456789abcdef") 16); ASSERT_WITH (λ b l s, b <? s_size s);
  ASSERT (λ s, s_len s =? 16); sbuf_delete_ ].

Definition sbuf_bcpy_tests : T := block [
  (* overwrite any existing data *)
  sbuf_new_ false None 16 0; CALL_EQ 0 (λ s, sbuf_bcpy s (bytes_of_string "ABC") 3); ASSERT (λ s, s_len s =? 3);
  BUF 0 Byte.x41; BUF 1 Byte.x42; BUF 2 Byte.x43; CALL_EQ 0 (λ s, sbuf_bcpy s (bytes_of_string "XYZ123") 6);
  ASSERT (λ s, s_len s =? 6); BUF 0 Byte.x58; BUF 1 Byte.x59; BUF 2 Byte.x5a; BUF 3 Byte.x31; BUF 4 Byte.x32;
  BUF 5 Byte.x33; sbuf_delete_;
  (* succeed if the sbuf is marked as overflowed, but there is space *)
  sbuf_new_ false None 16 SBUF_AUTOEXTEND; set_s (λ s, SBUF_SETFLAG s SBUF_OVERFLOWED);
  CALL_EQ 0 (λ s, sbuf_bcpy s (bytes_of_string "A") 1); sbuf_delete_;
  (* fail if len is too big *)
  sbuf_new_ false None 16 SBUF_AUTOEXTEND; CALL_EQ (-1) (λ s, sbuf_bcpy s (bytes_of_string "A") INT_MAX);
  ASSERT (λ s, SBUF_ISSET s SBUF_OVERFLOWED); sbuf_delete_;
  (* succeed for a fixed buf within limits *)
  sbuf_new_ false None 16 SBUF_FIXEDLEN; CALL_EQ 0 (λ s, sbuf_bcpy s (bytes_of_string "ABC") 3);
  ASSERT (λ s, s_len s =? 3); BUF 0 Byte.x41; BUF 1 Byte.x42; BUF 2 Byte.x43; sbuf_delete_;
  (* succeed for a fixed buf right up to the limit *)
  sbuf_new_ false None 16 SBUF_FIXEDLEN; CALL_EQ 0 (λ s, sbuf_bcpy s (bytes_of_string "0123456789abcde") 15);
  ASSERT (λ s, s_len s =? 15); sbuf_delete_;
  (* fail for a fixed buf if too big *)
  sbuf_new_ false None 16 SBUF_FIXEDLEN; CALL_EQ (-1) (λ s, sbuf_bcpy s (bytes_of_string "0123456789abcdef") 16);
  ASSERT (λ s, SBUF_ISSET s SBUF_OVERFLOWED); sbuf_delete_;
  (* expand the backing buffer as needed *)
  sbuf_new_ false None 16 SBUF_AUTOEXTEND; size_before;
  CALL_EQ 0 (λ s, sbuf_bcpy s (bytes_of_string "0123456789abcdef") 16); ASSERT_WITH (λ b l s, b <? s_size s);
  ASSERT (λ s, s_len s =? 16); sbuf_delete_ ].

Definition sbuf_cat_tests : T := block [
  (* fail if the sbuf is marked as overflowed *)
  sbuf_new_ false None 16 SBUF_AUTOEXTEND; set_s (λ s, SBUF_SETFLAG s SBUF_OVERFLOWED);
  CALL_EQ (-1) (λ s, sbuf_cat s "A"); sbuf_delete_;
  (* succeed for a fixed buf within limits *)
  sbuf_new_ false None 16 SBUF_FIXEDLEN; CALL_EQ 0 (λ s, sbuf_cat s "ABC"); ASSERT (λ s, s_len s =? 3);
  BUF 0 Byte.x41; BUF 1 Byte.x42; BUF 2 Byte.x43; sbuf_delete_;
  (* only copy up to a nul byte *)
  sbuf_new_ false None 16 SBUF_FIXEDLEN; CALL_EQ 0 (λ s, sbuf_cat s "A"); ASSERT (λ s, s_len s =? 1); BUF 0 Byte.x41;
  sbuf_delete_;
  (* append to existing data *)
  sbuf_new_ false None 16 SBUF_FIXEDLEN; CALL_EQ 0 (λ s, sbuf_cat s "ABC"); ASSERT (λ s, s_len s =? 3);
  BUF 0 Byte.x41; BUF 1 Byte.x42; BUF 2 Byte.x43; CALL_EQ 0 (λ s, sbuf_cat s "DEF"); ASSERT (λ s, s_len s =? 6);
  BUF 3 Byte.x44; BUF 4 Byte.x45; BUF 5 Byte.x46; sbuf_delete_;
  (* succeed for a fixed buf right up to the limit *)
  sbuf_new_ false None 16 SBUF_FIXEDLEN; CALL_EQ 0 (λ s, sbuf_cat s "0123456789abcde"); ASSERT (λ s, s_len s =? 15);
  sbuf_delete_;
  (* fail for a fixed buf if too big *)
  sbuf_new_ false None 16 SBUF_FIXEDLEN; CALL_EQ (-1) (λ s, sbuf_cat s "0123456789abcdef");
  ASSERT (λ s, SBUF_ISSET s SBUF_OVERFLOWED); sbuf_delete_;
  (* expand the backing buffer as needed *)
  sbuf_new_ false None 16 SBUF_AUTOEXTEND; size_before; CALL_EQ 0 (λ s, sbuf_cat s "0123456789abcdef");
  ASSERT_WITH (λ b l s, b <? s_size s); ASSERT (λ s, s_len s =? 16); sbuf_delete_ ].

Definition sbuf_cpy_tests : T := block [
  (* overwrite any existing data *)
  sbuf_new_ false None 16 0; CALL_EQ 0 (λ s, sbuf_cpy s "ABC"); ASSERT (λ s, s_len s =? 3); BUF 0 Byte.x41;
  BUF 1 Byte.x42; BUF 2 Byte.x43; CALL_EQ 0 (λ s, sbuf_cpy s "XYZ123"); ASSERT (λ s, s_len s =? 6); BUF 0 Byte.x58;
  BUF 1 Byte.x59; BUF 2 Byte.x5a; BUF 3 Byte.x31; BUF 4 Byte.x32; BUF 5 Byte.x33; sbuf_delete_;
  (* succeed if the sbuf is marked as overflowed, but there is space *)
  sbuf_new_ false None 16 SBUF_AUTOEXTEND; set_s (λ s, SBUF_SETFLAG s SBUF_OVERFLOWED);
  CALL_EQ 0 (λ s, sbuf_bcpy s (bytes_of_string "A") 1); sbuf_delete_;
  (* succeed for a fixed buf within limits *)
  sbuf_new_ false None 16 SBUF_FIXEDLEN; CALL_EQ 0 (λ s, sbuf_cpy s "ABC"); ASSERT (λ s, s_len s =? 3);
  BUF 0 Byte.x41; BUF 1 Byte.x42; BUF 2 Byte.x43; sbuf_delete_;
  (* succeed for a fixed buf right up to the limit *)
  sbuf_new_ false None 16 SBUF_FIXEDLEN; CALL_EQ 0 (λ s, sbuf_cpy s "0123456789abcde"); ASSERT (λ s, s_len s =? 15);
  sbuf_delete_;
  (* fail for a fixed buf if too big *)
  sbuf_new_ false None 16 SBUF_FIXEDLEN; CALL_EQ (-1) (λ s, sbuf_cpy s "0123456789abcdef");
  ASSERT (λ s, SBUF_ISSET s SBUF_OVERFLOWED); sbuf_delete_;
  (* expand the backing buffer as needed *)
  sbuf_new_ false None 16 SBUF_AUTOEXTEND; size_before; CALL_EQ 0 (λ s, sbuf_cpy s "0123456789abcdef");
  ASSERT_WITH (λ b l s, b <? s_size s); ASSERT (λ s, s_len s =? 16); sbuf_delete_ ].

Definition sbuf_printf_tests : T := block [
  (* support simple printing *)
  sbuf_new_ false None 16 SBUF_AUTOEXTEND; CALL_EQ 0 (λ s, sbuf_printf s "hello"); ASSERT (λ s, s_len s =? 5);
  BUF 0 Byte.x68; BUF 1 Byte.x65; BUF 2 Byte.x6c; BUF 3 Byte.x6c; BUF 4 Byte.x6f; sbuf_delete_;
  (* support format strings *)
  sbuf_new_ false None 16 SBUF_AUTOEXTEND;
  CALL_EQ 0 (λ s, sbuf_printf s (String "A" EmptyString +:+ " " +:+ fmt_d 123 +:+ " " +:+ "foo"));
  ASSERT (λ s, s_len s =? 9); BUF 0 Byte.x41; BUF 1 Byte.x20; BUF 2 Byte.x31; BUF 3 Byte.x32; BUF 4 Byte.x33;
  BUF 5 Byte.x20; BUF 6 Byte.x66; BUF 7 Byte.x6f; BUF 8 Byte.x6f; sbuf_delete_;
  (* work with the fact we reserve a nul byte at the end *)
  sbuf_new_ false None 16 SBUF_FIXEDLEN; CALL_EQ 0 (λ s, sbuf_printf s "0123456789abcde");
  ASSERT (λ s, negb (SBUF_ISSET s SBUF_OVERFLOWED)); sbuf_delete_;
  (* mark the sbuf as overflowed if we try to write too much *)
  sbuf_new_ false None 16 SBUF_FIXEDLEN; CALL_EQ (-1) (λ s, sbuf_printf s "0123456789abcdef");
  ASSERT (λ s, SBUF_ISSET s SBUF_OVERFLOWED); sbuf_delete_;
  (* auto-extend as necessary *)
  sbuf_new_ false None 16 SBUF_AUTOEXTEND; size_before; CALL_EQ 0 (λ s, sbuf_printf s "0123456789abcdef");
  ASSERT_WITH (λ b l s, b <? s_size s); BUF 0 Byte.x30; BUF 1 Byte.x31; BUF 2 Byte.x32; BUF 3 Byte.x33;
  BUF 4 Byte.x34; BUF 5 Byte.x35; BUF 6 Byte.x36; BUF 7 Byte.x37; BUF 8 Byte.x38; BUF 9 Byte.x39; BUF 10 Byte.x61;
  BUF 11 Byte.x62; BUF 12 Byte.x63; BUF 13 Byte.x64; BUF 14 Byte.x65; BUF 15 Byte.x66; sbuf_delete_;
  (* fail if the sbuf is marked as overflowed *)
  sbuf_new_ false None 16 SBUF_FIXEDLEN; set_s (λ s, SBUF_SETFLAG s SBUF_OVERFLOWED);
  CALL_EQ (-1) (λ s, sbuf_printf s "A"); sbuf_delete_ ].

Definition sbuf_putc_tests : T := block [
  (* work where we have capacity *)
  sbuf_new_ false None 16 0; CALL_EQ 0 (λ s, sbuf_putc s Byte.x61); ASSERT (λ s, s_len s =? 1); BUF 0 Byte.x61;
  sbuf_delete_;
  (* fail if we have a full, fixedlen sbuf *)
  sbuf_new_ false None 16 SBUF_FIXEDLEN; CALL_EQ 0 (λ s, sbuf_cpy s "0123456789abcd");
  CALL_EQ 0 (λ s, sbuf_putc s Byte.x65); CALL_EQ (-1) (λ s, sbuf_putc s Byte.x66);
  ASSERT (λ s, SBUF_ISSET s SBUF_OVERFLOWED); sbuf_delete_;
  (* ignore nul *)
  sbuf_new_ false None 16 SBUF_AUTOEXTEND; CALL_EQ 0 (λ s, sbuf_putc s Byte.x00); ASSERT (λ s, s_len s =? 0);
  sbuf_delete_;
  (* auto-extend if necessary *)
  sbuf_new_ false None 16 SBUF_AUTOEXTEND; CALL_EQ 0 (λ s, sbuf_cpy s "0123456789abcde"); len_before; size_before;
  CALL_EQ 0 (λ s, sbuf_putc s Byte.x66); ASSERT_WITH (λ b l s, s_len s =? (l + 1));
  ASSERT_WITH (λ b l s, b <? s_size s); BUF_AT (λ s, s_len s - 1) Byte.x66; sbuf_delete_;
  (* fail if the sbuf is overflowed *)
  sbuf_new_ false None 16 SBUF_AUTOEXTEND; set_s (λ s, SBUF_SETFLAG s SBUF_OVERFLOWED);
  CALL_EQ (-1) (λ s, sbuf_putc s Byte.x61); sbuf_delete_ ].

Definition sbuf_trim_tests : T := block [
  (* remove trailing spaces, tabs and newlines *)
  sbuf_new_ false None 16 0; CALL_EQ 0 (λ s, sbuf_cpy s trim_text); ASSERT (λ s, s_len s =? 11);
  CALL_EQ 0 (λ s, mret (sbuf_trim s)); ASSERT (λ s, s_len s =? 3); sbuf_delete_;
  (* do nothing if there is no trailing whitespace *)
  sbuf_new_ false None 16 0; CALL_EQ 0 (λ s, sbuf_cpy s "foo"); ASSERT (λ s, s_len s =? 3);
  CALL_EQ 0 (λ s, mret (sbuf_trim s)); ASSERT (λ s, s_len s =? 3); sbuf_delete_;
  (* fail if the sbuf is overflowed *)
  sbuf_new_ false None 16 0; CALL_EQ 0 (λ s, sbuf_cpy s "foo   "); set_s (λ s, SBUF_SETFLAG s SBUF_OVERFLOWED);
  CALL_EQ (-1) (λ s, mret (sbuf_trim s)); ASSERT (λ s, s_len s =? 6); sbuf_delete_;
  (* work on empty strings *)
  sbuf_new_ false None 16 0; CALL_EQ 0 (λ s, mret (sbuf_trim s)); ASSERT (λ s, s_len s =? 0); sbuf_delete_ ].

Definition sbuf_overflowed_tests : T := block [
  (* return false if it hasn't overflowed *)
  sbuf_new_ false None 16 0; ASSERT (λ s, negb (negb (sbuf_overflowed s =? 0))); sbuf_delete_;
  (* return true if it has overflowed *)
  sbuf_new_ false None 16 0; set_s (λ s, SBUF_SETFLAG s SBUF_OVERFLOWED);
  ASSERT (λ s, negb (sbuf_overflowed s =? 0)); sbuf_delete_ ].

Definition sbuf_finish_tests : T := block [
  (* insert a nul byte, clear the overflowed flag and set the finished flag *)
  sbuf_new_ false None 16 0; CALL_EQ 0 (λ s, sbuf_putc s Byte.x41); try_s (λ s, store_at s (s_len s) [Byte.x78]);
  set_s (λ s, SBUF_SETFLAG s SBUF_OVERFLOWED); ASSERT (λ s, negb (SBUF_ISSET s SBUF_FINISHED)); try_s sbuf_finish;
  BUF_AT s_len Byte.x00; ASSERT (λ s, negb (SBUF_ISSET s SBUF_OVERFLOWED)); ASSERT (λ s, SBUF_ISSET s SBUF_FINISHED);
  sbuf_delete_ ].

Definition sbuf_data_tests : T := block [
  (* return the s_buf pointer *)
  sbuf_new_ false None 16 0; ASSERT (λ s, bool_decide (sbuf_data s = s_buf s)); sbuf_delete_;
  (* return the buffer we gave it *)
  sbuf_new_ false (Some buf) 4 0; ASSERT (λ s, bool_decide (sbuf_data s = Some buf)); sbuf_delete_ ].

Definition sbuf_len_tests : T := block [
  (* return the length of the sbuf data *)
  sbuf_new_ false None 16 0; CALL_EQ 0 (λ s, sbuf_cpy s "hello"); ASSERT (λ s, sbuf_len s =? 5); sbuf_delete_;
  (* return -1 if the sbuf is overflowed *)
  sbuf_new_ false None 16 0; CALL_EQ 0 (λ s, sbuf_cpy s "hello"); ASSERT (λ s, sbuf_len s =? 5);
  set_s (λ s, SBUF_SETFLAG s SBUF_OVERFLOWED); ASSERT (λ s, sbuf_len s =? (-1)); sbuf_delete_ ].

Definition sbuf_done_tests : T := block [
  (* return false if the sbuf isn't finished *)
  sbuf_new_ false None 16 0; ASSERT (λ s, negb (negb (sbuf_done s =? 0))); sbuf_delete_;
  (* return true if the sbuf has finished *)
  sbuf_new_ false None 16 0; ASSERT (λ s, negb (negb (sbuf_done s =? 0))); set_s (λ s, SBUF_SETFLAG s SBUF_FINISHED);
  ASSERT (λ s, negb (sbuf_done s =? 0)); sbuf_delete_ ].

Definition sbuf_delete_tests : T := block [
  (* just free the backing buffer if we supplied an sbuf *)
  sbuf_new_ true None 16 0; ASSERT (λ s, bool_decide (is_Some (s_buf s))); sbuf_delete_;
  ASSERT (λ s, bool_decide (s_buf s = None)) ].

(** The handler: [rval] is the result of sysctl_handle_string, [newptr] and [newlen] what the
    caller writes.  [None] stands for undefined behaviour; the count goes to the console. *)
Definition sysctl_sbuf_tests (rval newptr newlen : Z) : K (option (Z * option Z)) :=
  if negb (rval =? 0) || (newptr =? 0) || (newlen <? 1) then mret (Some (rval, None)) else
  r ← block [sbuf_new_tests; sbuf_clear_tests; sbuf_extend_tests; sbuf_capacity_tests; sbuf_ensure_capacity_tests;
             sbuf_bcat_tests; sbuf_bcpy_tests; sbuf_cat_tests; sbuf_cpy_tests; sbuf_printf_tests; sbuf_putc_tests;
             sbuf_trim_tests; sbuf_overflowed_tests; sbuf_finish_tests; sbuf_data_tests; sbuf_len_tests;
             sbuf_done_tests; sbuf_delete_tests] (Tstate 0 None 0 0);
  mret match r with
       | Next t => Some (0, Some (passed t))
       | Failed => Some (ENOTRECOVERABLE, None)
       | Fault => None
       end.

End Tests.

(** An allocator that never fails, the other services as they are. *)
Definition with_malloc (k : KernelOps) (f : nat -> Z -> bool) : KernelOps := {|
  proc_t := @proc_t k; kauth_cred_t := @kauth_cred_t k; proc_find_at := @proc_find_at k; proc_pid := @proc_pid k;
  proc_name := @proc_name k; malloc_at := f; kauth_cred_proc_ref := @kauth_cred_proc_ref k; cr_uid := @cr_uid k;
  cr_groups0 := @cr_groups0 k; kauth_cred_getuid := @kauth_cred_getuid k; kauth_cred_getruid := @kauth_cred_getruid k;
  kauth_cred_getgid := @kauth_cred_getgid k; kauth_cred_getrgid := @kauth_cred_getrgid k;
  p_uthlist_at := @p_uthlist_at k; kernel_mapped := @kernel_mapped k; thread_tid := @thread_tid k;
  current_proc := @current_proc k; current_thread := @current_thread k;
  proc_fdlist_bound_at := @proc_fdlist_bound_at k; proc_fdlist_at := @proc_fdlist_at k |}.

Lemma with_malloc_same (k : KernelOps) f : (forall t n, malloc_at t n = f t n) -> k = with_malloc k f.
Proof.
  destruct k. simpl. intros E. unfold with_malloc. simpl. f_equal.
  extensionality t. extensionality n. apply E.
Qed.

(** Every assertion of the authors' self-tests of the string buffer holds of the model,
    for either page size, when memory is available: the handler returns 0 having passed all
    of them, no access is outside a buffer, and all memory is given back; and nothing is run
    when the sysctl is only read. *)
Theorem sbuf_self_tests `{k : KernelOps} `{ps : PageSize} newptr newlen time refs :
  (forall t n, malloc_at t n = true) -> newptr <> 0 -> 0 < newlen ->
  (exists time', sysctl_sbuf_tests 0 newptr newlen (Kstate time refs 0) = (Some (0, Some 244), Kstate time' refs 0))
  ∧ forall st, sysctl_sbuf_tests 0 0 newlen st = (Some (0, None), st).
Proof.
  intros Hm Hp Hl. split; [|intros st; done]. rewrite (with_malloc_same k (λ _ _, true) Hm).
  unfold sysctl_sbuf_tests. rewrite (proj2 (Z.eqb_neq newptr 0)), (proj2 (Z.ltb_ge newlen 1)) by lia. cbv [negb orb Z.eqb].
  destruct ps as [sh [->| ->]]; eexists; vm_compute; reflexivity.
Qed.

Lemma sbuf_self_tests_witness : exists time', @sysctl_sbuf_tests (simple_kernel []) _ 0 1 1 (Kstate 0 3 0)
  = (Some (0, Some 244), Kstate time' 3 0).
Proof. apply (@sbuf_self_tests (simple_kernel []) _ 1 1 0 3); [intros; reflexivity|lia|lia]. Defined.
