(* ===== verification/Text.v ===== *)
(** * Text nodes

    What the handlers of text nodes share: they print a sequence of texts into an [sbuf],
    finish it, copy the part the reader asked for and delete the buffer.  The theorems of
    [Sbuf] give what such a handler returns. *)

From S2P Require Import Prelude Kernel Structure Subr Sbuf.

Section Text.
Context `{KernelOps} `{PageSize} `{UioOps}.

(** The result of a print is ignored. *)
Definition print (text : string) (sb : sbuf) : K (option sbuf) :=
  r ← sbuf_printf sb text; mret (snd <$> r).

Fixpoint print_all (texts : list string) (sb : sbuf) : K (option sbuf) :=
  match texts with
  | [] => mret (Some sb)
  | text :: texts' =>
    r ← print text sb;
    match r with None => mret None | Some sb => print_all texts' sb end
  end.

(** sbuf_finish, procfs_copy_data of sbuf_data and sbuf_len, sbuf_delete. *)
Definition finish_and_copy (sb : sbuf) (uio : uio_t) : K (option (Z * uio_t)) :=
  match sbuf_finish sb with
  | None => mret None
  | Some sb =>
    let r := data ← (b ← sbuf_data sb; mapM id (take (Z.to_nat (sbuf_len sb)) b));
             procfs_copy_data (Some data) (sbuf_len sb) uio in
    _ ← sbuf_delete sb; mret r
  end.

(** The handler's tail: [sb] is what sbuf_new returned. *)
Definition reply_text (sb : option sbuf) (texts : list string) (uio : uio_t) : K (option (Z * uio_t)) :=
  match sb with
  | None => mret (Some (ENOMEM, uio))
  | Some sb =>
    r ← print_all texts sb;
    match r with None => mret None | Some sb => finish_and_copy sb uio end
  end.

End Text.

(** ** References *)

Section TextRefs.
Context `{KernelOps} `{PageSize} `{UioOps}.

Lemma refs_kept_match {A B} (o : option A) (f : A -> K B) (m : K B) :
  refs_kept m -> (forall a, refs_kept (f a)) -> refs_kept (match o with Some a => f a | None => m end).
Proof. by destruct o. Qed.

Lemma refs_kept_extend s n : refs_kept (sbuf_extend s n).
Proof.
  unfold sbuf_extend. do 3 (case_match; [apply refs_kept_ret|]).
  apply refs_kept_match; [apply refs_kept_ret|]. intros size.
  apply refs_kept_bind; [apply refs_kept_OSMalloc|]. intros [|]; [|apply refs_kept_ret].
  apply refs_kept_match; [apply refs_kept_ret|]. intros b. case_match; [apply refs_kept_ret|].
  apply refs_kept_match; [apply refs_kept_ret|]. intros b'. by case_match.
Qed.

Lemma refs_kept_vprintf s text : refs_kept (sbuf_vprintf s text).
Proof.
  unfold sbuf_vprintf. case_match; [apply refs_kept_ret|]. generalize 2%nat. intros fuel. clear. revert s.
  induction fuel as [|fuel IH]; intros s; cbn [vprintf_loop]; [apply refs_kept_ret|].
  apply refs_kept_match; [apply refs_kept_ret|]. intros s1. repeat case_match; try apply refs_kept_ret.
  apply refs_kept_bind.
  - unfold sbuf_ensure_capacity. case_match; [apply refs_kept_ret|apply refs_kept_extend].
  - intros [[e s2]|]; [|apply refs_kept_ret]. case_match; [apply IH|apply refs_kept_ret].
Qed.

Lemma refs_kept_print_all texts sb : refs_kept (print_all texts sb).
Proof.
  revert sb. induction texts as [|text texts IH]; intros sb; cbn [print_all]; [apply refs_kept_ret|].
  apply refs_kept_bind; [|intros [sb'|]; [apply IH|apply refs_kept_ret]].
  apply refs_kept_bind; [apply refs_kept_vprintf|intros; apply refs_kept_ret].
Qed.

Lemma refs_kept_delete sb : refs_kept (sbuf_delete sb).
Proof. intros st. unfold sbuf_delete. rewrite K_bind_run. by repeat case_match. Qed.

Lemma refs_kept_new given buf len flags : refs_kept (sbuf_new given buf len flags).
Proof.
  unfold sbuf_new. case_match; [apply refs_kept_ret|].
  assert (Hb : forall s n, refs_kept (new_buffer s buf n)).
  { intros s n. unfold new_buffer. destruct buf; [apply refs_kept_ret|].
    assert (Hfail : refs_kept (_ ← sbuf_delete s; mret (None : option sbuf)))
      by (apply refs_kept_bind; [apply refs_kept_delete|intros; apply refs_kept_ret]).
    cbv zeta.
    destruct (if SBUF_ISSET s SBUF_AUTOEXTEND then _ else _) as [n'|]; [|exact Hfail]. case_match; [exact Hfail|].
    apply refs_kept_bind; [apply refs_kept_OSMalloc|]. intros [|]; [apply refs_kept_ret|exact Hfail]. }
  case_match; [apply Hb|]. apply refs_kept_bind; [apply refs_kept_OSMalloc|]. intros [|]; [apply Hb|apply refs_kept_ret].
Qed.

Lemma refs_kept_finish_and_copy sb u : refs_kept (finish_and_copy sb u).
Proof.
  apply refs_kept_match; [apply refs_kept_ret|]. intros s. apply refs_kept_bind; [apply refs_kept_delete|].
  intros; apply refs_kept_ret.
Qed.

Lemma refs_kept_reply sb texts u : refs_kept (reply_text sb texts u).
Proof.
  apply refs_kept_match; [apply refs_kept_ret|]. intros s. apply refs_kept_bind; [apply refs_kept_print_all|].
  intros [s'|]; [apply refs_kept_finish_and_copy|apply refs_kept_ret].
Qed.

End TextRefs.

(** ** Contents *)

Section TextFacts.
Context `{KernelOps} `{PageSize} `{UioLaws}.

(** A text of [n] bytes can be printed: it fits the buffer of fixed length, or the buffer
    grows, memory is available and the size fits an [int]. *)
Definition has_room (limit : option Z) (n : Z) : Prop :=
  match limit with
  | Some size => n < size <= INT_MAX
  | None => n <= INT_MAX - PAGE_SIZE ∧ forall t m, malloc_at t m = true
  end.

Lemma has_room_less limit n m : has_room limit n -> m <= n -> has_room limit m.
Proof. destruct limit; simpl; intros; [lia|]. naive_solver lia. Qed.

Lemma print_room text limit s d f st :
  implements limit s (Text d false f) -> has_room limit (Z.of_nat (length d) + Z.of_nat (String.length text)) ->
  exists s' st', print text s st = (Some s', st')
    ∧ implements limit s' (Text (d ++ bytes_of_string text) false f)
    ∧ k_mem st' - owned s' = k_mem st - owned s.
Proof.
  intros Himp Hroom. rewrite <- bytes_of_string_length in Hroom. pose proof page_size_cases as Hps.
  assert (Hsmall : Z.of_nat (length (bytes_of_string text)) <= INT_MAX) by (destruct limit; simpl in Hroom; lia).
  destruct (vprintf_step limit s _ (bytes_of_string text) Himp Hsmall st)
    as (r & s' & st' & t' & E & Hspec & Himp' & [Hacc _]).
  exists s', st'. unfold print, sbuf_printf. rewrite K_bind_run, E.
  inversion Hspec as [|? ? ? |? ? Hno]; subst; [done|]. exfalso.
  destruct limit as [n|]; simpl in *; [lia|]. destruct Hroom as [Hle Hmem], Hno as [?|(t & n & Hn)]; [lia|].
  by rewrite Hmem in Hn.
Qed.

Definition joined (texts : list string) : list Byte.byte := concat (bytes_of_string <$> texts).

Lemma print_all_room texts limit f : forall s d st,
  implements limit s (Text d false f) -> has_room limit (Z.of_nat (length d) + Z.of_nat (length (joined texts))) ->
  exists s' st', print_all texts s st = (Some s', st')
    ∧ implements limit s' (Text (d ++ joined texts) false f)
    ∧ k_mem st' - owned s' = k_mem st - owned s.
Proof.
  induction texts as [|text texts IH]; intros s d st Himp Hroom.
  - exists s, st. split_and!; auto. by rewrite app_nil_r.
  - unfold joined in *. rewrite fmap_cons in *. cbn [concat] in *. rewrite length_app, bytes_of_string_length in Hroom.
    destruct (print_room text limit s d f st Himp) as (s1 & st1 & E1 & I1 & M1); [eapply has_room_less; [done|lia]|].
    cbn [print_all]. rewrite K_bind_run, E1. cbn [fst snd].
    destruct (IH s1 _ st1 I1) as (s2 & st2 & E2 & I2 & M2);
      [eapply has_room_less; [done|rewrite length_app, bytes_of_string_length; lia]|].
    exists s2, st2. split; [done|]. split; [|lia]. by rewrite app_assoc.
Qed.

(** A finished text is read back by copying it out. *)
Lemma finished_text limit s t st :
  implements limit s t -> exists s', sbuf_finish s = Some s'
    ∧ (b ← sbuf_data s'; mapM id (take (Z.to_nat (sbuf_len s')) b)) = Some (t_data t)
    ∧ sbuf_len s' = Z.of_nat (length (t_data t)) ∧ k_mem (sbuf_delete s' st).2 = k_mem st - owned s.
Proof.
  intros Himp. destruct (finish_ok limit s t Himp st) as (r & s' & st' & t' & E & Hspec & (Hh & Ho & _) & [Hacc _]).
  inversion Hspec; subst; simpl in *. unfold mret, K_ret in E. destruct (sbuf_finish s) as [s1|]; [|done].
  simplify_eq/=. exists s'. unfold sbuf_len, sbuf_data. rewrite Ho, delete_mem.
  pose proof Hh as (b & -> & _ & _ & -> & _ & Ht). split; [done|]. split; [|split; [done|lia]].
  change (Some b ≫= ?f) with (f b). cbv beta. rewrite Nat2Z.id. unfold cell in *. rewrite Ht. apply mapM_Some_2.
  rewrite Forall2_fmap_l. by apply Forall_Forall2_diag, Forall_forall.
Qed.

(** A text in the buffer reaches the reader, and the buffer is given back. *)
Lemma finish_and_copy_run limit s d f u st :
  implements limit s (Text d false f) -> Z.of_nat (length d) <= INT_MAX ->
  shows (finish_and_copy s u) d u st ∧ k_mem (finish_and_copy s u st).2 = k_mem st - owned s.
Proof.
  intros Himp Hlen. destruct (finished_text limit s _ st Himp) as (s2 & Ef & Ed & El & Edel).
  unfold shows, finish_and_copy. rewrite Ef, Ed, K_bind_run, El.
  change (Some ?x ≫= ?f) with (f x). cbv beta. cbn [fst snd t_data]. split; [|exact Edel]. intros Hoff Hw.
  destruct (copy_data_run d u) as (u' & Ecp & Hout & _); auto. by exists u'.
Qed.

Lemma reply_run limit s texts u st :
  implements limit s (Text [] false false) -> has_room limit (Z.of_nat (length (joined texts))) ->
  shows (reply_text (Some s) texts u) (joined texts) u st
  ∧ k_mem (reply_text (Some s) texts u st).2 = k_mem st - owned s.
Proof.
  intros Himp Hroom. pose proof page_size_cases as Hps.
  destruct (print_all_room texts limit false s [] st Himp Hroom) as (s1 & st1 & E1 & I1 & M1).
  destruct (finish_and_copy_run limit s1 _ false u st1 I1) as [Hs Hm]; [rewrite app_nil_l; destruct limit; simpl in Hroom; lia|].
  unfold shows, reply_text. rewrite K_bind_run, E1. cbn [fst snd]. split; [exact Hs|lia].
Qed.

(** From sbuf_new on. *)
Lemma new_reply_run buf len flags texts u st :
  buffer_ok buf len -> is_Some (sbuf_new true buf len flags st).1 ->
  has_room (limit_of len flags) (Z.of_nat (length (joined texts))) ->
  let m := sb ← sbuf_new true buf len flags; reply_text sb texts u in
  shows m (joined texts) u st ∧ same_res st (m st).2.
Proof.
  intros Hbuf Hnew Hroom m. pose proof (new_ok true buf len flags st Hbuf) as Hc.
  assert (Hrefs : k_procrefs (m st).2 = k_procrefs st).
  { apply (refs_kept_bind (sbuf_new true buf len flags)); [apply refs_kept_new|intros; apply refs_kept_reply]. }
  subst m. unfold shows, same_res in *. rewrite K_bind_run in *.
  destruct (sbuf_new true buf len flags st) as [[s|] st1]; [|by destruct Hnew]. destruct Hc as [Himp Hmem].
  cbn [fst snd] in *. destruct (reply_run _ s texts u st1 Himp Hroom) as [Hs Hm].
  split; [exact Hs|]. split; [done|lia].
Qed.

(** A growing buffer is created when there is memory. *)
Lemma new_auto_some len st :
  0 <= len <= 65536 -> (forall t m, malloc_at t m = true) -> is_Some (sbuf_new true None len SBUF_AUTOEXTEND st).1.
Proof.
  intros Hlen Hmem. unfold sbuf_new, new_buffer. rewrite u64_small by lia.
  unfold INT_MAX. rewrite (proj2 (Z.ltb_ge _ _)) by lia.
  change (Z.land SBUF_AUTOEXTEND (Z.lnot SBUF_USRFLAGMSK) =? 0) with true. cbn [orb negb].
  change (SBUF_ISSET (Sbuf None 0 0 SBUF_AUTOEXTEND) SBUF_AUTOEXTEND) with true. cbv iota zeta.
  destruct (extendsize_spec len ltac:(lia)) as [Hn Hs]. pose proof page_size_cases.
  destruct (sbuf_extendsize len) as [n|]; [|specialize (Hn eq_refl); unfold INT_MAX in *; lia].
  destruct (Hs n eq_refl) as (_ & H16 & _). rewrite (proj2 (Z.eqb_neq n 0)) by lia.
  rewrite K_bind_run. unfold OSMalloc. rewrite K_bind_run. simpl. rewrite Hmem. by eexists.
Qed.

End TextFacts.
