(* ===== verification/Limit.v ===== *)
(** * The limit node (kext/procfs_limit.c)

    The resource limits of a process as text, one line for each limit, printed into
    an [sbuf] on the stack.  The limits live behind a kernel pointer that is checked
    before it is followed: the pointer and what it points to are parameters. *)

From S2P Require Import Prelude Kernel Structure Subr Sbuf Text.

Definition RLIM_INFINITY : Z := 9223372036854775807.

Definition rlimit_ident : list string :=
  ["cpu"; "fsize"; "data"; "stack"; "core"; "rss"; "memlock"; "nproc"; "nofile"]%string.

(** struct rlimit *)
Record rlimit := Rlimit { rlim_cur : Z; rlim_max : Z }.

Definition fmt_limit (v : Z) (sep : string) : string :=
  if v =? RLIM_INFINITY then "-1" +:+ sep else fmt_d v +:+ sep.

(** The prints of one pass of the loop. *)
Definition limit_texts (e : string * rlimit) : list string :=
  [e.1 +:+ " "; fmt_limit (rlim_cur e.2) " "; fmt_limit (rlim_max e.2) nl].

Section Limit.
Context `{KernelOps} `{PageSize} `{UioOps}.
(** [p->p_limit] read at a time, and [limp->pl_rlimit[i]]. *)
Context (p_limit_at : nat -> proc_t -> Z) (pl_rlimit : Z -> nat -> rlimit).

(** The stack buffer is not initialised. *)
Definition LIMIT_BUF : nat := 1024.

Definition procfs_dolimit (pnp : pfsnode) (uio : uio_t) : K (option (Z * uio_t)) :=
  p ← proc_find (nodeid_pid (node_id pnp));
  match p with
  | None => mret (Some (ESRCH, uio))
  | Some p =>
    t ← now;
    let limp := p_limit_at t p in
    if (limp <? PROCFS_KPTR_MIN) || negb (kernel_mapped limp) then
      _ ← proc_rele p; mret (Some (EIO, uio))
    else
    let rl := pl_rlimit limp <$> seq 0 9 in
    _ ← proc_rele p;
    sb ← sbuf_new true (Some (replicate LIMIT_BUF None)) (Z.of_nat LIMIT_BUF) 0;
    reply_text sb (concat (limit_texts <$> zip rlimit_ident rl)) uio
  end.

End Limit.

(** ** Text and references *)

Section LimitFacts.
Context `{KernelOps} `{PageSize} `{UioLaws}.
Context (p_limit_at : nat -> proc_t -> Z) (pl_rlimit : Z -> nat -> rlimit).

Definition rlimit_ok (rl : rlimit) : Prop :=
  0 <= rlim_cur rl < 18446744073709551616 ∧ 0 <= rlim_max rl < 18446744073709551616.

Lemma fmt_limit_length v sep :
  0 <= v < 18446744073709551616 -> (String.length (fmt_limit v sep) <= 21 + String.length sep)%nat.
Proof.
  intros Hv. unfold fmt_limit. case_match; rewrite string_length_app; simpl; [lia|].
  pose proof (fmt_d_length 20 v ltac:(lia) ltac:(simpl; lia)). lia.
Qed.

(** The text of the node. *)
Definition limit_line (e : string * rlimit) : list Byte.byte := joined (limit_texts e).
Definition limit_text (l : list (string * rlimit)) : list Byte.byte := concat (limit_line <$> l).

Lemma joined_concat (ls : list (list string)) : joined (concat ls) = concat (joined <$> ls).
Proof.
  induction ls as [|l ls IH]; [done|]. cbn [concat]. unfold joined in *. rewrite fmap_app, concat_app, IH. done.
Qed.

Lemma limit_text_length l (k : nat) :
  Forall (λ e, rlimit_ok e.2 ∧ (String.length e.1 <= k)%nat) l ->
  (length (limit_text l) <= length l * (k + 45))%nat.
Proof.
  induction 1 as [|[ident rl] l [[Hc Hm] Hid] _ IH]; [done|]. unfold limit_text in *. rewrite fmap_cons.
  cbn [concat]. rewrite length_app. unfold limit_line at 1, joined, limit_texts. cbn [fmap list_fmap concat fst snd] in *.
  rewrite !length_app, !bytes_of_string_length, string_length_app.
  pose proof (fmt_limit_length (rlim_cur rl) " " Hc). pose proof (fmt_limit_length (rlim_max rl) nl Hm).
  simpl in *. lia.
Qed.

(** The limits a read sees. *)
Definition limits_at (limp : Z) : list (string * rlimit) := zip rlimit_ident (pl_rlimit limp <$> seq 0 9).

Lemma limits_length limp : (forall i, rlimit_ok (pl_rlimit limp i)) ->
  (length (limit_text (limits_at limp)) <= 9 * 52)%nat.
Proof.
  intros Hok. pose proof (limit_text_length (limits_at limp) 7) as H'. apply H'.
  unfold limits_at. simpl. repeat constructor; simpl; (apply Hok || lia).
Qed.

(** Reading the limits of a process: for any limits the text has room in the buffer, so
    that the reader gets the part of the nine complete lines it asked for; the process
    reference is released and nothing stays allocated. *)
Theorem limit_read pnp u st p :
  proc_find_at (k_clock st) (procfsnode_to_pid pnp) = Some p ->
  let limp := p_limit_at (S (k_clock st)) p in
  procfs_kptr_ok limp = true -> (forall i, rlimit_ok (pl_rlimit limp i)) ->
  shows (procfs_dolimit p_limit_at pl_rlimit pnp u) (limit_text (limits_at limp)) u st
  ∧ same_res st (procfs_dolimit p_limit_at pl_rlimit pnp u st).2.
Proof.
  intros Hp limp Hk Hrl. pose proof (limits_length limp Hrl) as Hlen.
  assert (Hg : ((limp <? PROCFS_KPTR_MIN) || negb (kernel_mapped limp))%bool = false).
  { unfold procfs_kptr_ok in Hk. destruct (limp <? PROCFS_KPTR_MIN); [done|]. by rewrite Hk. }
  set (st1 := Kstate (S (S (k_clock st))) (k_procrefs st + 1 + -1) (k_mem st)).
  set (texts := concat (limit_texts <$> limits_at limp)).
  assert (E : procfs_dolimit p_limit_at pl_rlimit pnp u st =
    (sb ← sbuf_new true (Some (replicate LIMIT_BUF None)) (Z.of_nat LIMIT_BUF) 0; reply_text sb texts u) st1).
  { unfold procfs_dolimit, proc_find, procfsnode_to_pid in *. rewrite !K_bind_run.
    cbn [fst snd now]. rewrite Hp, !K_bind_run. cbn [fst snd now mret K_ret]. rewrite K_bind_run.
    cbn [fst snd now add_refs tick k_clock]. fold limp. rewrite Hg. rewrite !K_bind_run. done. }
  assert (Htext : joined texts = limit_text (limits_at limp)).
  { subst texts. rewrite joined_concat. unfold limit_text, limit_line. by rewrite <- list_fmap_compose. }
  assert (Hbuf : buffer_ok (Some (replicate LIMIT_BUF None)) (Z.of_nat LIMIT_BUF)).
  { split; [by vm_compute|]. intros b [= <-]. by vm_compute. }
  destruct (new_reply_run (Some (replicate LIMIT_BUF None)) (Z.of_nat LIMIT_BUF) 0 texts u st1 Hbuf) as [Hs [Hr Hm]].
  - by eexists.
  - rewrite Htext. change (limit_of (Z.of_nat LIMIT_BUF) 0) with (Some 1024). unfold has_room, INT_MAX. lia.
  - unfold shows. rewrite E. rewrite Htext in Hs. split; [exact Hs|]. split; simpl in *; lia.
Qed.

(** The limit node releases the process it looked up, on every path. *)
Theorem limit_releases_process pnp u : refs_kept (procfs_dolimit p_limit_at pl_rlimit pnp u).
Proof.
  apply refs_kept_proc_find; [|apply refs_kept_ret]. intros p s. rewrite K_bind_run. simpl.
  case_match; [simpl; lia|]. rewrite K_bind_run.
  rewrite (refs_kept_bind (sbuf_new _ _ _ _)); [simpl; lia|apply refs_kept_new|intros; apply refs_kept_reply].
Qed.

End LimitFacts.

(** ** Example *)

Definition sample_limits (_ : Z) (i : nat) : rlimit :=
  if (i =? 6)%nat then Rlimit 67108864 RLIM_INFINITY else Rlimit RLIM_INFINITY RLIM_INFINITY.
Definition limit_kernel : KernelOps := simple_kernel [SimpleProc 501 "bash" 501 20 [] []].
Definition sample_limp (_ : nat) (_ : @proc_t limit_kernel) : Z := PROCFS_KPTR_MIN + 4096.

Lemma limit_read_witness :
  exists u', (procfs_dolimit sample_limp sample_limits (Pfsnode (Pfsid 501 0 30) 29%N)
                (SimpleUio 0 20 true [] true : @uio_t simple_uio_ops) (Kstate 0 0 0)).1 = Some (0, u')
    ∧ uio_out u' = bytes_of_string ("cpu -1 -1" +:+ nl +:+ "fsize -1 -").
Proof.
  destruct (limit_read sample_limp sample_limits (Pfsnode (Pfsid 501 0 30) 29%N)
    (SimpleUio 0 20 true [] true : @uio_t simple_uio_ops) (Kstate 0 0 0) (SimpleProc 501 "bash" 501 20 [] [])) as [Hs _].
  - reflexivity.
  - reflexivity.
  - intros i. unfold sample_limits. case_match; by vm_compute.
  - destruct Hs as (u' & E & Hout); [by vm_compute|reflexivity|].
    exists u'. split; [exact E|]. rewrite Hout. vm_compute. reflexivity.
Defined.
