(* ===== verification/Phys.v ===== *)
(** * Reading the memory of a process (kext/procfs_cmdline.c, kext/procfs_mem.c)

    The nodes mem, cmdline, environ and auxv read the memory of another process
    through the physical frames of its pages, one 32-bit word at a time.  The frame of
    a page and the words of physical memory are parameters ([PhysOps]); the address
    space is the same throughout one copy.  The theorem compares the copy loop, which
    works by pages and words, with a definition that reads byte after byte. *)

From S2P Require Import Prelude Kernel.

Class PhysOps := {
  pmap_t : Type;
  (** the frame of the page of an address; 0 when the page is not resident *)
  pmap_find_phys : pmap_t -> Z -> Z;
  (** the little-endian word at a 4-byte aligned physical address *)
  ml_phys_read : Z -> Z;
}.

(** The frame belongs to the page, not to the address. *)
Class PhysLaws `{PageSize} `{PhysOps} : Prop := {
  pmap_find_page pm va : pmap_find_phys pm va = pmap_find_phys pm (PAGE_SIZE * (va / PAGE_SIZE));
  pmap_find_range pm va : 0 <= pmap_find_phys pm va < 4294967296;
}.

(** The low byte of an integer ([(uint8_t)z]). *)
Definition byte_of_Z (z : Z) : Byte.byte := default Byte.x00 (Byte.of_N (Z.to_N (z mod 256))).

Section Phys.
Context `{PageSize} `{PhysOps}.

Definition ptoa_64 (ppn : Z) : Z := Z.shiftl ppn PAGE_SHIFT.

(** [do { dst[done + i] = word >> shift; shift += 8; i++; } while (shift < 32 && i < chunk);]
    with [left] for [chunk - i]; at most four passes. *)
Fixpoint read_word (fuel : nat) (word shift : Z) (left : nat) : list Byte.byte :=
  match fuel with
  | O => []
  | S fuel' =>
    let b := byte_of_Z (Z.shiftr word shift) in
    let shift := shift + 8 in
    let left := (left - 1)%nat in
    if (shift <? 32) && (0 <? left)%nat then b :: read_word fuel' word shift left else [b]
  end.

(** The loop over a chunk within a page; every pass reads at least one byte, so that
    [left] passes are enough. *)
Fixpoint read_chunk (fuel : nat) (cur : Z) (left : nat) : list Byte.byte :=
  match fuel, left with
  | _, O | O, _ => []
  | S fuel', _ =>
    let word := ml_phys_read (Z.land cur (Z.lnot 3)) in
    let bs := read_word 4 word (Z.land cur 3 * 8) left in
    bs ++ read_chunk fuel' (cur + Z.of_nat (length bs)) (left - length bs)
  end.

(** The loop over the pages; [left] is [len - done], and the bytes are what is stored
    from [dst + done] on. *)
Fixpoint copy_loop (fuel : nat) (pm : pmap_t) (va : Z) (left : nat) : list Byte.byte :=
  match fuel, left with
  | _, O | O, _ => []
  | S fuel', _ =>
    let ppn := pmap_find_phys pm va in
    if ppn =? 0 then [] else
    let pa := ptoa_64 ppn + Z.land va PAGE_MASK in
    let chunk := Z.to_nat (Z.min (PAGE_SIZE - Z.land va PAGE_MASK) (Z.of_nat left)) in
    read_chunk chunk pa chunk ++ copy_loop fuel' pm (u64 (va + Z.of_nat chunk)) (left - chunk)
  end.

(** The bytes stored at [dst]; their number is the function's result. *)
Definition procfs_copy_user_phys (pm : pmap_t) (uva : Z) (len : nat) : list Byte.byte :=
  copy_loop len pm uva len.

(** procfs_mem.c has a copy of the function. *)
Definition procfs_read_user_phys (pm : pmap_t) (uva : Z) (len : nat) : list Byte.byte :=
  copy_loop len pm uva len.

(** ** Byte by byte *)

Definition phys_byte (pa : Z) : Byte.byte :=
  byte_of_Z (Z.shiftr (ml_phys_read (4 * (pa / 4))) (8 * (pa mod 4))).

(** The byte of a process at a virtual address, if its page is resident. *)
Definition user_byte (pm : pmap_t) (va : Z) : option Byte.byte :=
  let ppn := pmap_find_phys pm va in
  if ppn =? 0 then None else Some (phys_byte (ppn * PAGE_SIZE + va mod PAGE_SIZE)).

(** The bytes from an address on, up to the first one that is not resident. *)
Fixpoint resident_bytes (pm : pmap_t) (va : Z) (n : nat) : list Byte.byte :=
  match n with
  | O => []
  | S n' => match user_byte pm va with Some b => b :: resident_bytes pm (va + 1) n' | None => [] end
  end.

(** ** The words *)

Lemma land_3 z : Z.land z 3 = z mod 4.
Proof. exact (Z.land_ones z 2 ltac:(lia)). Qed.

Lemma land_not_3 z : Z.land z (Z.lnot 3) = 4 * (z / 4).
Proof.
  change 3 with (Z.ones 2). rewrite <- Z.ldiff_land, Z.ldiff_ones_r by lia.
  rewrite Z.shiftl_mul_pow2, Z.shiftr_div_pow2 by lia. change (2 ^ 2) with 4. lia.
Qed.

Lemma read_word_spec fuel q j left :
  (j < 4)%nat -> (4 - j <= fuel)%nat -> (0 < left)%nat ->
  read_word fuel (ml_phys_read (4 * q)) (Z.of_nat j * 8) left
  = phys_byte <$> seqZ (4 * q + Z.of_nat j) (Z.of_nat (Nat.min left (4 - j))).
Proof.
  revert j left. induction fuel as [|fuel IH]; intros j left Hj Hf Hl; [lia|]. cbn [read_word].
  assert (Hb : byte_of_Z (Z.shiftr (ml_phys_read (4 * q)) (Z.of_nat j * 8)) = phys_byte (4 * q + Z.of_nat j)).
  { unfold phys_byte. rewrite (Z.mul_comm 4 q), Z.div_add_l, Z.div_small by lia.
    rewrite <- (Z.add_comm (Z.of_nat j)), Z.mod_add, Z.mod_small by lia. do 2 f_equal; [f_equal; lia|lia]. }
  rewrite Hb. replace (Z.of_nat j * 8 + 8) with (Z.of_nat (S j) * 8) by lia.
  destruct (Z.ltb_spec (Z.of_nat (S j) * 8) 32), (Nat.ltb_spec 0 (left - 1)); simpl andb; cbv iota.
  - rewrite IH by lia. rewrite (seqZ_cons (4 * q + Z.of_nat j)) by lia. rewrite fmap_cons. do 3 f_equal; lia.
  - replace (left `min` (4 - j))%nat with 1%nat by lia. done.
  - replace (left `min` (4 - j))%nat with 1%nat by lia. done.
  - replace (left `min` (4 - j))%nat with 1%nat by lia. done.
Qed.

Lemma read_chunk_spec fuel cur left : 0 <= cur -> (left <= fuel)%nat ->
  read_chunk fuel cur left = phys_byte <$> seqZ cur (Z.of_nat left).
Proof.
  revert cur left. induction fuel as [|fuel IH]; intros cur left Hc Hf.
  - replace left with 0%nat by lia. done.
  - destruct left as [|left]; [done|]. cbn [read_chunk]. rewrite land_3, land_not_3.
    pose proof (Z.mod_pos_bound cur 4). pose proof (Z.div_mod cur 4).
    rewrite <- (Z2Nat.id (cur mod 4)) by lia. rewrite (read_word_spec 4 (cur / 4) (Z.to_nat (cur mod 4)) (S left)) by lia.
    rewrite Z2Nat.id by lia. replace (4 * (cur / 4) + cur mod 4) with cur by lia.
    rewrite length_fmap, length_seqZ, Nat2Z.id.
    rewrite IH by lia. rewrite <- fmap_app. f_equal.
    set (k := (S left `min` (4 - Z.to_nat (cur mod 4)))%nat). replace (Z.of_nat (S left)) with (Z.of_nat k + Z.of_nat (S left - k)) by lia.
    by rewrite seqZ_app by lia.
Qed.

Lemma read_chunk_length fuel cur left : 0 <= cur -> (left <= fuel)%nat -> length (read_chunk fuel cur left) = left.
Proof. intros. rewrite read_chunk_spec by done. by rewrite length_fmap, length_seqZ, Nat2Z.id. Qed.

End Phys.

Section PhysFacts.
Context `{PhysLaws}.

Lemma page_mod va : Z.land va PAGE_MASK = va mod PAGE_SIZE.
Proof.
  unfold PAGE_MASK, PAGE_SIZE. assert (0 <= PAGE_SHIFT) by (destruct page_shift_cases; lia).
  rewrite <- Z.land_ones by done. f_equal. rewrite Z.ones_equiv. lia.
Qed.

Lemma ptoa_mul ppn : ptoa_64 ppn = ppn * PAGE_SIZE.
Proof. unfold ptoa_64, PAGE_SIZE. apply Z.shiftl_mul_pow2. destruct page_shift_cases; lia. Qed.

(** Reading within one resident page. *)
Lemma resident_page pm va ppn k n :
  pmap_find_phys pm va = ppn -> ppn ≠ 0 -> Z.of_nat k <= PAGE_SIZE - va mod PAGE_SIZE ->
  resident_bytes pm va (k + n)
  = (phys_byte <$> seqZ (ppn * PAGE_SIZE + va mod PAGE_SIZE) (Z.of_nat k)) ++ resident_bytes pm (va + Z.of_nat k) n.
Proof.
  intros Hp Hne. revert va Hp. induction k as [|k IH]; intros va Hp Hk.
  { simpl. by rewrite Z.add_0_r. }
  rewrite (seqZ_cons _ (Z.of_nat (S k))) by lia. cbn [Nat.add resident_bytes fmap list_fmap app]. unfold user_byte.
  rewrite Hp, (proj2 (Z.eqb_neq ppn 0)) by done. f_equal.
  destruct k as [|k]; [reflexivity|]. pose proof page_size_cases as Hps.
  assert (Hmod : (va + 1) mod PAGE_SIZE = va mod PAGE_SIZE + 1 ∧ (va + 1) / PAGE_SIZE = va / PAGE_SIZE).
  { pose proof (Z.div_mod va PAGE_SIZE). pose proof (Z.mod_pos_bound va PAGE_SIZE).
    split; symmetry; [apply (Z.mod_unique_pos _ _ (va / PAGE_SIZE))|apply (Z.div_unique_pos _ _ _ (va mod PAGE_SIZE + 1))]; lia. }
  destruct Hmod as [Hm Hd]. rewrite IH.
  - rewrite Hm. f_equal; [do 2 f_equal; lia|f_equal; lia].
  - rewrite pmap_find_page, Hd, <- pmap_find_page. done.
  - lia.
Qed.

Lemma copy_loop_spec pm fuel : forall va left,
  0 <= va -> va + Z.of_nat left <= 18446744073709551616 -> (left <= fuel)%nat ->
  copy_loop fuel pm va left = resident_bytes pm va left.
Proof.
  induction fuel as [|fuel IH]; intros va left Hva Hend Hf.
  { by replace left with 0%nat by lia. }
  destruct left as [|left]; [done|]. cbn [copy_loop]. rewrite page_mod, ptoa_mul.
  pose proof page_size_cases as Hps. pose proof (Z.mod_pos_bound va PAGE_SIZE) as Hmod.
  destruct (Z.eqb_spec (pmap_find_phys pm va) 0) as [E|Hne].
  { cbn [resident_bytes]. unfold user_byte. by rewrite E. }
  set (chunk := Z.to_nat (Z.min _ _)). pose proof (pmap_find_range pm va).
  rewrite read_chunk_spec by lia.
  replace (S left) with (chunk + (S left - chunk))%nat at 2 by lia.
  rewrite (resident_page pm va _ chunk _ eq_refl Hne) by lia. f_equal.
  destruct (decide (S left - chunk = 0)%nat) as [->|Hmore]; [by destruct fuel|].
  rewrite u64_small by lia. apply IH; lia.
Qed.

Lemma copy_user_phys_bytes_lemma pm uva len :
  0 <= uva -> uva + Z.of_nat len <= 18446744073709551616 ->
  procfs_copy_user_phys pm uva len = resident_bytes pm uva len
  ∧ procfs_read_user_phys pm uva len = resident_bytes pm uva len.
Proof. intros Hu Hl. split; by apply copy_loop_spec. Qed.

(** C18. The copy of another process's memory, by pages and 32-bit words, gives the same
    bytes as reading one byte after the other until one is not resident, for every
    alignment of the start and the end; the count it returns is their number. *)
Theorem copy_user_phys_bytes pm uva len :
  0 <= uva -> uva + Z.of_nat len <= 18446744073709551616 ->
  procfs_copy_user_phys pm uva len = resident_bytes pm uva len
  ∧ procfs_read_user_phys pm uva len = resident_bytes pm uva len.
Proof. apply copy_user_phys_bytes_lemma. Qed.

Lemma resident_bytes_length pm va n : (length (resident_bytes pm va n) <= n)%nat.
Proof. revert va. induction n as [|n IH]; intros va; simpl; [lia|]. case_match; simpl; [specialize (IH (va + 1)); lia|lia]. Qed.

(** A complete first part and the rest; an incomplete first part ends the data. *)
Lemma resident_bytes_app pm va k n :
  resident_bytes pm va (k + n) =
  if (length (resident_bytes pm va k) =? k)%nat
  then resident_bytes pm va k ++ resident_bytes pm (va + Z.of_nat k) n
  else resident_bytes pm va k.
Proof.
  revert va. induction k as [|k IH]; intros va; simpl; [by rewrite Z.add_0_r|].
  destruct (user_byte pm va) as [b|]; [|done]. cbn [length Nat.eqb]. rewrite IH.
  replace (va + 1 + Z.of_nat k) with (va + Z.pos (Pos.of_succ_nat k)) by lia.
  by destruct (length (resident_bytes pm (va + 1) k) =? k)%nat.
Qed.

End PhysFacts.

(** ** Example *)

(** Two frames: the page at 4096 is in frame 5, the page at 8192 in frame 9; a word holds
    the four low bytes of its address and the following ones. *)
#[export] Instance sample_phys : PhysOps := {|
  pmap_t := unit;
  pmap_find_phys _ va := if va / 4096 =? 1 then 5 else if va / 4096 =? 2 then 9 else 0;
  ml_phys_read pa := pa mod 256 + 256 * ((pa + 1) mod 256) + 65536 * ((pa + 2) mod 256) + 16777216 * ((pa + 3) mod 256);
|}.

#[export] Instance sample_phys_laws : @PhysLaws small_pages sample_phys.
Proof.
  split; intros pm va; unfold pmap_find_phys; simpl.
  - change (@PAGE_SIZE small_pages) with 4096. rewrite (Z.mul_comm 4096), Z.div_mul by lia. done.
  - repeat case_match; lia.
Qed.

Definition sample_pmap : @pmap_t sample_phys := tt.

Lemma copy_user_phys_bytes_witness :
  procfs_copy_user_phys sample_pmap 8189 6 = resident_bytes sample_pmap 8189 6
  ∧ procfs_read_user_phys sample_pmap 8189 6 = resident_bytes sample_pmap 8189 6.
Proof. apply (copy_user_phys_bytes sample_pmap 8189 6); lia. Defined.

(** The read crosses the page boundary in the middle of a word. *)
Example copy_crosses_page : procfs_copy_user_phys sample_pmap 8189 6 = [Byte.xfd; Byte.xfe; Byte.xff; Byte.x00; Byte.x01; Byte.x02].
Proof. vm_compute. reflexivity. Qed.
