(* ===== verification/Mem.v ===== *)
(** * The mem node (kext/procfs_mem.c)

    Reads of the memory of a process at the address given by the file offset, a page at
    a time through a buffer of one page. *)

From S2P Require Import Prelude Kernel Structure Subr Phys.

Section Mem.
Context `{KernelOps} `{PageSize} `{PhysOps} `{UioOps}.
(** [get_task_pmap(proc_task(p))]; [None] for NULL *)
Context (task_pmap : proc_t -> option pmap_t).

(** The copying loop.  [None] when the fuel is used up, which the residual count plus one
    prevents: each pass transfers at least one byte or ends the loop. *)
Fixpoint domem_loop (fuel : nat) (pm : pmap_t) (any : bool) (uio : uio_t) : option (Z * uio_t) :=
  match fuel with
  | O => None
  | S fuel' =>
    if 0 <? uio_resid uio then
      let va := u64 (uio_offset uio) in
      let pgoff := Z.land va PAGE_MASK in
      let chunk := PAGE_SIZE - pgoff in
      let resid := uio_resid uio in
      let chunk := if resid <? chunk then resid else chunk in
      let buf := procfs_read_user_phys pm va (Z.to_nat chunk) in
      let got := Z.of_nat (length buf) in
      if got =? 0 then Some (if any then 0 else EIO, uio) else
      let (error, uio) := uiomove buf (s32 got) uio in
      if negb (error =? 0) then Some (error, uio) else
      if got <? chunk then Some (0, uio) else domem_loop fuel' pm true uio
    else Some (0, uio)
  end.

Definition procfs_domem (creds : kauth_cred_t) (pnp : pfsnode) (uio : uio_t) : K (option (Z * uio_t)) :=
  if negb (uio_is_read uio) then mret (Some (EOPNOTSUPP, uio)) else
  p ← proc_find (nodeid_pid (node_id pnp));
  match p with
  | None => mret (Some (ESRCH, uio))
  | Some p =>
    let error := procfs_check_can_access_process creds p in
    if negb (error =? 0) then _ ← proc_rele p; mret (Some (error, uio)) else
    match task_pmap p with
    | None => _ ← proc_rele p; mret (Some (EIO, uio))
    | Some pm =>
      ok ← OSMalloc PAGE_SIZE;
      if ok : bool then
        let r := domem_loop (S (Z.to_nat (uio_resid uio))) pm false uio in
        _ ← OSFree PAGE_SIZE; _ ← proc_rele p; mret r
      else _ ← proc_rele p; mret (Some (ENOMEM, uio))
    end
  end.

End Mem.

Section MemFacts.
Context `{KernelOps} `{PhysLaws} `{UioLaws}.
Context (task_pmap : proc_t -> option pmap_t).

(** What a read of the memory gives: the error and the data. *)
Definition mem_result (any : bool) (pm : pmap_t) (u : uio_t) : Z * list Byte.byte :=
  let data := resident_bytes pm (uio_offset u) (Z.to_nat (uio_resid u)) in
  (if (0 <? uio_resid u) && (length data =? 0)%nat && negb any then EIO else 0, data).

Lemma domem_loop_spec pm fuel : forall any u,
  uio_writable u = true -> 0 <= uio_offset u -> uio_offset u + uio_resid u <= 18446744073709551616 ->
  (Z.to_nat (uio_resid u) < fuel)%nat ->
  exists u', domem_loop fuel pm any u = Some ((mem_result any pm u).1, u')
    ∧ uio_out u' = uio_out u ++ (mem_result any pm u).2.
Proof.
  induction fuel as [|fuel IH]; intros any u Hw Hoff Hend Hf; [lia|]. cbn [domem_loop]. unfold mem_result.
  pose proof (uio_resid_nonneg u) as Hr. pose proof page_size_cases as Hps.
  destruct (Z.ltb_spec 0 (uio_resid u)) as [Hpos|Hz].
  2:{ exists u. replace (uio_resid u) with 0 by lia. simpl. by rewrite app_nil_r. }
  rewrite u64_small by lia. rewrite page_mod. pose proof (Z.mod_pos_bound (uio_offset u) PAGE_SIZE).
  set (chunk := if _ <? _ then _ else _).
  assert (Hchunk : 0 < chunk <= uio_resid u ∧ chunk <= 16384)
    by (subst chunk; destruct (Z.ltb_spec (uio_resid u) (PAGE_SIZE - uio_offset u mod PAGE_SIZE)); lia).
  rewrite (proj2 (copy_user_phys_bytes_lemma pm (uio_offset u) (Z.to_nat chunk) ltac:(lia) ltac:(lia))).
  set (got := resident_bytes pm (uio_offset u) (Z.to_nat chunk)).
  pose proof (resident_bytes_length pm (uio_offset u) (Z.to_nat chunk)) as Hgl. fold got in Hgl.
  replace (Z.to_nat (uio_resid u)) with (Z.to_nat chunk + Z.to_nat (uio_resid u - chunk))%nat by lia.
  rewrite resident_bytes_app. fold got.
  destruct (Z.eqb_spec (Z.of_nat (length got)) 0) as [Hg0|Hg0].
  { exists u. rewrite (proj2 (Nat.eqb_neq (length got) (Z.to_nat chunk))) by lia. rewrite (proj2 (Nat.eqb_eq (length got) 0)) by lia.
    destruct got; [|simpl in Hg0; lia]. simpl. rewrite app_nil_r. by destruct any. }
  rewrite s32_small by (unfold INT_MIN, INT_MAX; lia).
  assert (Hb : 0 <= Z.of_nat (length got) <= Z.of_nat (length got)) by lia.
  pose proof (uiomove_writable got _ u Hw Hb) as E0.
  destruct (uiomove_moved got _ u Hb E0) as (Eo & Ef & Er & _ & Ew).
  destruct (uiomove got (Z.of_nat (length got)) u) as [e u1]. cbn [fst snd] in *. subst e. cbn [Z.eqb negb].
  rewrite Z.min_l in * by lia. rewrite Nat2Z.id, firstn_all in Eo.
  destruct (Z.ltb_spec (Z.of_nat (length got)) chunk) as [Hshort|Hfull].
  { exists u1. rewrite (proj2 (Nat.eqb_neq (length got) (Z.to_nat chunk))) by lia.
    by rewrite (proj2 (Nat.eqb_neq (length got) 0)) by lia. }
  rewrite (proj2 (Nat.eqb_eq (length got) (Z.to_nat chunk))) by lia.
  assert (Hlen : Z.of_nat (length got) = chunk) by lia. rewrite Hlen in Ef, Er.
  destruct (IH true u1) as (u2 & -> & Hout); [congruence|lia..|]. exists u2. unfold mem_result in *. cbn [fst snd] in *.
  rewrite Ef, Er in Hout. rewrite Hout, Eo, Er, Z2Nat.id by lia. split; [|by rewrite <- app_assoc]. do 2 f_equal.
  rewrite (proj2 (Nat.eqb_neq (length (got ++ _)) 0)) by (rewrite length_app; lia).
  by rewrite !andb_false_r.
Qed.

(** Reading the memory of a process: when the caller may access it, the read gives the
    bytes at the addresses from the file offset on, up to the requested count or to the
    first one that is not resident, and EIO when there is none at the start. *)
Theorem mem_read creds pnp u st p pm :
  uio_is_read u = true -> uio_writable u = true ->
  0 <= uio_offset u -> uio_offset u + uio_resid u <= 18446744073709551616 ->
  proc_find_at (k_clock st) (procfsnode_to_pid pnp) = Some p ->
  procfs_check_can_access_process creds p = 0 -> task_pmap p = Some pm ->
  malloc_at (S (k_clock st)) PAGE_SIZE = true ->
  exists u', (procfs_domem task_pmap creds pnp u st).1 = Some ((mem_result false pm u).1, u')
    ∧ uio_out u' = uio_out u ++ (mem_result false pm u).2.
Proof.
  intros Hread Hw Hoff Hend Hp Hacc Hpm Hmem. unfold procfs_domem, procfsnode_to_pid in *. rewrite Hread. cbn [negb].
  rewrite K_bind_run. unfold proc_find. rewrite K_bind_run. simpl. rewrite Hp. simpl. rewrite Hacc, Hpm. simpl.
  rewrite K_bind_run. unfold OSMalloc. rewrite K_bind_run. simpl. rewrite Hmem. simpl.
  destruct (domem_loop_spec pm (S (Z.to_nat (uio_resid u))) false u Hw Hoff Hend ltac:(lia)) as (u' & E & Hout).
  exists u'. split; [exact E|done].
Qed.

(** Access control and resources of the mem node: without access rights to the process
    no byte is returned and the error is the one of the access check; whatever happens,
    the process reference and the buffer are released. *)
Theorem mem_guarded creds pnp u :
  balanced (procfs_domem task_pmap creds pnp u)
  ∧ forall st p, uio_is_read u = true -> proc_find_at (k_clock st) (procfsnode_to_pid pnp) = Some p ->
    procfs_check_can_access_process creds p ≠ 0 ->
    (procfs_domem task_pmap creds pnp u st).1 = Some (EACCES, u).
Proof.
  split.
  - unfold procfs_domem. case_match; [apply balanced_ret|]. apply balanced_proc_find; [|apply balanced_ret].
    intros p st. case_match; [simpl; lia|]. case_match; [|simpl; lia].
    rewrite K_bind_run. unfold OSMalloc. rewrite K_bind_run. simpl. destruct (malloc_at _ _); simpl; lia.
  - intros st p Hread Hp Hacc. unfold procfs_domem, procfsnode_to_pid in *. rewrite Hread. cbn [negb].
    rewrite K_bind_run. unfold proc_find. rewrite K_bind_run. simpl. rewrite Hp. simpl.
    rewrite (proj2 (Z.eqb_neq _ 0)) by done. simpl. do 2 f_equal.
    unfold procfs_check_can_access_process in *. repeat case_match; done.
Qed.

End MemFacts.

(** ** Example *)

Definition mem_kernel : KernelOps := simple_kernel [SimpleProc 501 "bash" 501 20 [] []].
Definition mem_pmap (_ : @proc_t mem_kernel) : option (@pmap_t sample_phys) := Some sample_pmap.
Definition mem_cred : @kauth_cred_t mem_kernel := SimpleCred 501 20.

Lemma mem_read_witness :
  exists u', (procfs_domem mem_pmap mem_cred (Pfsnode (Pfsid 501 0 30) 29%N)
                (SimpleUio 12286 5 true [] true : @uio_t simple_uio_ops) (Kstate 0 0 0)).1 = Some (0, u')
    ∧ uio_out u' = [Byte.xfe; Byte.xff].
Proof.
  destruct (mem_read mem_pmap mem_cred (Pfsnode (Pfsid 501 0 30) 29%N)
    (SimpleUio 12286 5 true [] true : @uio_t simple_uio_ops) (Kstate 0 0 0) (SimpleProc 501 "bash" 501 20 [] []) sample_pmap)
    as (u' & E & Hout); try reflexivity; try (by vm_compute).
  exists u'. split; [exact E|]. rewrite Hout. vm_compute. reflexivity.
Defined.
