(* ===== verification/Procargs.v ===== *)
(** * Arguments, environment and auxiliary strings (kext/procfs_cmdline.c, kext/procfs_auxv.c)

    The argument area of a process, at the top of its stack, is the path of the
    executable, padding, the argument strings, the environment strings and the strings
    of the dynamic linker, each ended by NUL.  The nodes cmdline, environ and auxv copy
    the area with [procfs_copy_user_phys], find the boundaries and return one part. *)

From S2P Require Import Prelude Kernel Structure Subr Phys.

Definition PROCFS_EXEC_KEY : list Byte.byte := bytes_of_string "executable_path=".
Definition PROCFS_CMDLINE_MAX : Z := 262144.
Definition MAXCOMLEN : nat := 16.

(** ** Boundaries *)

(** The number of NUL bytes at the start. *)
Fixpoint skip_nuls (b : list Byte.byte) : nat :=
  match b with c :: b' => if bool_decide (c = Byte.x00) then S (skip_nuls b') else 0 | [] => 0 end.

(** The offset of the arguments: behind the path, its NUL and the padding. *)
Definition path_end (buf : list Byte.byte) : nat :=
  let pos := strnlen buf in
  if (pos <? length buf)%nat then (S pos + skip_nuls (drop (S pos) buf))%nat else pos.

(** The end of [argc] strings from [pos] on. *)
Fixpoint skip_strings (argc : nat) (buf : list Byte.byte) (pos : nat) : nat :=
  match argc with
  | O => pos
  | S argc' =>
    if (pos <? length buf)%nat then
      let remaining := (length buf - pos)%nat in
      let arglen := strnlen (drop pos buf) in
      let arglen := if (arglen <? remaining)%nat then S arglen else arglen in
      skip_strings argc' buf (pos + arglen)
    else pos
  end.

(** The first string from [scan] on that starts with the key; the end of the data if there
    is none.  A pass moves at least one byte on: the length is enough fuel. *)
Fixpoint find_apple (fuel : nat) (buf : list Byte.byte) (scan : nat) : nat :=
  match fuel with
  | O => length buf
  | S fuel' =>
    if (scan <? length buf)%nat then
      let remaining := (length buf - scan)%nat in
      if (length PROCFS_EXEC_KEY <=? remaining)%nat
         && bool_decide (take (length PROCFS_EXEC_KEY) (drop scan buf) = PROCFS_EXEC_KEY) then scan else
      let slen := strnlen (drop scan buf) in
      if (slen =? remaining)%nat then length buf else find_apple fuel' buf (scan + slen + 1)
    else length buf
  end.

(** ** Reading *)

(** What the nodes use of a process: argument count, length of the argument area, stack
    address, page table and state. *)
Class ProcArgs `{KernelOps} `{PhysOps} := {
  p_argc : proc_t -> Z;
  p_argslen : proc_t -> Z;
  user_stack : proc_t -> Z;
  task_pmap : proc_t -> option pmap_t;
  p_zombie_or_system : proc_t -> bool;
}.

Section Procargs.
Context `{KernelOps} `{PageSize} `{PhysOps} `{UioOps} `{!ProcArgs}.

(** The result of procfs_read_procargs: the buffer's size for free, the bytes read and the
    three offsets. *)
Record procargs := Procargs_ {
  pa_size : Z; pa_buf : list Byte.byte; argv_off : nat; env_off : nat; apple_off : nat }.

Definition layout (argc : nat) (size : Z) (buf : list Byte.byte) : procargs :=
  let argv := path_end buf in
  let env := skip_strings argc buf argv in
  Procargs_ size buf argv env (find_apple (length buf) buf env).

(** Error or result; on success the caller frees [pa_size] bytes. *)
Definition procfs_read_procargs (p : proc_t) : K (Z + procargs) :=
  let keylen := Z.of_nat (length PROCFS_EXEC_KEY) in
  match task_pmap p with
  | Some pm =>
    if (p_argc p <=? 0) || (user_stack p =? 0) || (p_argslen p <=? keylen) then mret (inl EINVAL) else
    let adj := p_argslen p - keylen in
    let data_va := u64 (user_stack p - adj) in
    let readlen := if PROCFS_CMDLINE_MAX <? adj then PROCFS_CMDLINE_MAX else adj in
    ok ← OSMalloc readlen;
    if ok : bool then
      let buf := procfs_copy_user_phys pm data_va (Z.to_nat readlen) in
      if (length buf =? 0)%nat then _ ← OSFree readlen; mret (inl EIO) else
      mret (inr (layout (Z.to_nat (p_argc p)) readlen buf))
    else mret (inl ENOMEM)
  | None => mret (inl EINVAL)
  end.

(** The command name in parentheses. *)
Definition procfs_cmdline_comm (p : proc_t) (uio : uio_t) : option (Z * uio_t) :=
  let comm := strlcpy (MAXCOMLEN + 1) (proc_name (proc_pid p)) in
  let text := ("(" +:+ (if String.eqb comm "" then "unknown" else comm) +:+ ")")%string in
  let namebuf := bytes_of_string (snprintf (MAXCOMLEN + 4) text) ++ [Byte.x00] in
  procfs_copy_data (Some namebuf) (Z.of_nat (String.length text)) uio.

(** A part of the buffer, from [off] to [stop]. *)
Definition copy_part (a : procargs) (off stop : nat) (uio : uio_t) : option (Z * uio_t) :=
  procfs_copy_data (Some (drop off (pa_buf a))) (s32 (Z.of_nat stop - Z.of_nat off)) uio.

Definition procfs_doprocargs_helper (p : proc_t) (uio : uio_t) : K (option (Z * uio_t)) :=
  r ← procfs_read_procargs p;
  match r with
  | inl _ => mret (procfs_cmdline_comm p uio)
  | inr a => _ ← OSFree (pa_size a); mret (copy_part a (argv_off a) (env_off a) uio)
  end.

(** cmdline *)
Definition procfs_doprocargs (pnp : pfsnode) (uio : uio_t) : K (option (Z * uio_t)) :=
  p ← proc_find (nodeid_pid (node_id pnp));
  match p with
  | None => mret (Some (ESRCH, uio))
  | Some p =>
    if negb (uio_is_read uio) then _ ← proc_rele p; mret (Some (EOPNOTSUPP, uio)) else
    r ← (if p_zombie_or_system p then mret (procfs_cmdline_comm p uio) else procfs_doprocargs_helper p uio);
    _ ← proc_rele p; mret r
  end.

(** The part of the argument area a node shows; nothing when it cannot be read. *)
Definition read_part (from to_ : procargs -> nat) (p : proc_t) (uio : uio_t) : K (option (Z * uio_t)) :=
  if p_zombie_or_system p then mret (procfs_copy_data (Some []) 0 uio) else
  r ← procfs_read_procargs p;
  match r with
  | inl _ => mret (procfs_copy_data (Some []) 0 uio)
  | inr a => _ ← OSFree (pa_size a); mret (copy_part a (from a) (to_ a) uio)
  end.

(** environ *)
Definition procfs_doenviron (pnp : pfsnode) (uio : uio_t) : K (option (Z * uio_t)) :=
  if negb (uio_is_read uio) then mret (Some (EOPNOTSUPP, uio)) else
  p ← proc_find (nodeid_pid (node_id pnp));
  match p with
  | None => mret (Some (ESRCH, uio))
  | Some p => r ← read_part env_off apple_off p uio; _ ← proc_rele p; mret r
  end.

(** auxv, in native mode ([linux]: the result of the Linux presentation) *)
Definition procfs_doauxv (linux : option (K (option (Z * uio_t)))) (pnp : pfsnode) (uio : uio_t) :
    K (option (Z * uio_t)) :=
  if negb (uio_is_read uio) then mret (Some (EOPNOTSUPP, uio)) else
  match linux with
  | Some m => m
  | None =>
    p ← proc_find (nodeid_pid (node_id pnp));
    match p with
    | None => mret (Some (ESRCH, uio))
    | Some p => r ← read_part apple_off (λ a, length (pa_buf a)) p uio; _ ← proc_rele p; mret r
    end
  end.

End Procargs.

(** ** The argument area *)

Definition no_nul (s : list Byte.byte) : Prop := Byte.x00 ∉ s.
(** Strings, each with its NUL. *)
Definition cstrs (l : list (list Byte.byte)) : list Byte.byte := concat ((λ s, s ++ [Byte.x00]) <$> l).

(** The area of a process: path, padding, arguments, environment, dynamic linker strings. *)
Record area := Area {
  ar_path : list Byte.byte; ar_pad : nat; ar_args : list (list Byte.byte);
  ar_env : list (list Byte.byte); ar_apple : list Byte.byte }.
Definition area_bytes (a : area) : list Byte.byte :=
  ar_path a ++ [Byte.x00] ++ replicate (ar_pad a) Byte.x00 ++ cstrs (ar_args a) ++ cstrs (ar_env a) ++ ar_apple a.

Definition has_key (s : list Byte.byte) : Prop := take (length PROCFS_EXEC_KEY) s = PROCFS_EXEC_KEY.
#[export] Instance has_key_dec s : Decision (has_key s).
Proof. unfold has_key. apply _. Defined.

(** The areas whose boundaries can be found.  execve writes the strings of the dynamic linker,
    which start with its key, and strings without a NUL; but it takes an empty first argument
    and an environment string that starts with the key too, and these are left out here:
    [empty_argument_shifts] and [key_in_environment] show what becomes of them. *)
Record area_ok (a : area) : Prop := {
  ao_path : no_nul (ar_path a);
  ao_args : Forall no_nul (ar_args a);
  ao_arg0 : exists c s l, ar_args a = (c :: s) :: l;
  ao_env : Forall (λ s, no_nul s ∧ ¬ has_key s) (ar_env a);
  ao_apple : has_key (ar_apple a);
}.

Lemma strnlen_stop s r : no_nul s -> strnlen (s ++ Byte.x00 :: r) = length s.
Proof.
  induction s as [|c s IH]; intros Hs; simpl; [done|]. apply not_elem_of_cons in Hs as [Hc Hs].
  rewrite bool_decide_eq_false_2 by done. by rewrite IH.
Qed.

Lemma skip_nuls_stop k c r : c ≠ Byte.x00 -> skip_nuls (replicate k Byte.x00 ++ c :: r) = k.
Proof.
  intros Hc. induction k as [|k IH]; simpl; [by rewrite bool_decide_eq_false_2|]. by rewrite IH.
Qed.

Lemma cstrs_cons s l : cstrs (s :: l) = s ++ Byte.x00 :: cstrs l.
Proof. unfold cstrs. rewrite fmap_cons. simpl. by rewrite <- app_assoc. Qed.

Lemma skip_strings_spec args : forall pre post, Forall no_nul args ->
  skip_strings (length args) (pre ++ cstrs args ++ post) (length pre) = (length pre + length (cstrs args))%nat.
Proof.
  induction args as [|s args IH]; intros pre post Hs; [simpl; lia|].
  apply Forall_cons in Hs as [Hs Hargs]. cbn [length skip_strings]. rewrite cstrs_cons.
  set (buf := pre ++ _ ++ post).
  assert (Hlen : length buf = (length pre + (length s + S (length (cstrs args))) + length post)%nat).
  { subst buf. rewrite !length_app. simpl. lia. }
  rewrite (proj2 (Nat.ltb_lt _ _)) by lia.
  assert (Hstr : strnlen (drop (length pre) buf) = length s).
  { subst buf. rewrite drop_app_length, <- app_assoc. by apply strnlen_stop. }
  rewrite Hstr, (proj2 (Nat.ltb_lt _ _)) by lia.
  specialize (IH (pre ++ s ++ [Byte.x00]) post Hargs).
  replace ((pre ++ s ++ [Byte.x00]) ++ cstrs args ++ post) with buf in IH
    by (subst buf; rewrite <- !app_assoc; done).
  rewrite !length_app in IH. simpl in IH. replace (length pre + S (length s))%nat with (length pre + (length s + 1))%nat by lia.
  rewrite IH, length_app. simpl. lia.
Qed.

Lemma take_key_app s r : no_nul s -> ¬ has_key s -> ¬ has_key (s ++ Byte.x00 :: r).
Proof.
  intros Hs Hk Hk'. apply Hk. unfold has_key in *. destruct (Nat.le_gt_cases (length PROCFS_EXEC_KEY) (length s)) as [Hle|Hgt].
  - by rewrite take_app_le in Hk' by done.
  - exfalso. assert (Hin : Byte.x00 ∈ PROCFS_EXEC_KEY).
    { rewrite <- Hk', take_app_ge by lia. apply elem_of_app. right.
      destruct (length PROCFS_EXEC_KEY - length s)%nat eqn:E; [lia|]. simpl. apply list_elem_of_here. }
    revert Hin. apply (bool_decide_unpack _). vm_compute. exact I.
Qed.

Lemma find_apple_spec envs : forall fuel pre apple,
  Forall (λ s, no_nul s ∧ ¬ has_key s) envs -> has_key apple -> (length envs < fuel)%nat ->
  find_apple fuel (pre ++ cstrs envs ++ apple) (length pre) = (length pre + length (cstrs envs))%nat.
Proof.
  induction envs as [|s envs IH]; intros fuel pre apple Henv Hap Hf; destruct fuel as [|fuel]; try lia; cbn [find_apple].
  - assert (Hlen : (length PROCFS_EXEC_KEY <= length apple)%nat).
    { unfold has_key in Hap. apply (f_equal length) in Hap. rewrite length_take in Hap. lia. }
    change (cstrs []) with (@nil Byte.byte). change ([] ++ apple) with apple.
    pose proof (eq_refl : length PROCFS_EXEC_KEY = 16%nat) as H16.
    rewrite length_app, (proj2 (Nat.ltb_lt _ _)), (proj2 (Nat.leb_le _ _)) by lia.
    rewrite drop_app_length, bool_decide_eq_true_2 by done. simpl. lia.
  - apply Forall_cons in Henv as [[Hs Hk] Henv]. rewrite cstrs_cons.
    set (buf := pre ++ _ ++ apple).
    assert (Hlen : length buf = (length pre + (length s + S (length (cstrs envs))) + length apple)%nat).
    { subst buf. rewrite !length_app. simpl. lia. }
    rewrite (proj2 (Nat.ltb_lt _ _)) by lia.
    assert (Hdrop : drop (length pre) buf = s ++ Byte.x00 :: (cstrs envs ++ apple)).
    { subst buf. by rewrite drop_app_length, <- app_assoc. }
    rewrite Hdrop, bool_decide_eq_false_2 by (by apply take_key_app). rewrite andb_false_r.
    rewrite strnlen_stop, (proj2 (Nat.eqb_neq _ _)) by (done || lia).
    specialize (IH fuel (pre ++ s ++ [Byte.x00]) apple Henv Hap ltac:(simpl in Hf; lia)).
    replace ((pre ++ s ++ [Byte.x00]) ++ cstrs envs ++ apple) with buf in IH
      by (subst buf; rewrite <- !app_assoc; done).
    rewrite !length_app in IH. simpl in IH. replace (length pre + length s + 1)%nat with (length pre + (length s + 1))%nat by lia.
    rewrite IH, length_app. simpl. lia.
Qed.

Lemma cstrs_length l : (length l <= length (cstrs l))%nat.
Proof. induction l as [|s l IH]; [done|]. rewrite cstrs_cons, length_app. simpl. lia. Qed.

(** The three offsets of a well-formed area. *)
Lemma layout_area a size : area_ok a ->
  let l := layout (length (ar_args a)) size (area_bytes a) in
  argv_off l = (length (ar_path a) + 1 + ar_pad a)%nat
  ∧ env_off l = (argv_off l + length (cstrs (ar_args a)))%nat
  ∧ apple_off l = (env_off l + length (cstrs (ar_env a)))%nat.
Proof.
  intros [Hpath Hargs (c & s & rest & Harg0) Henv Happle]. unfold layout. cbn [argv_off env_off apple_off].
  set (pre := ar_path a ++ [Byte.x00] ++ replicate (ar_pad a) Byte.x00).
  assert (Hpre : length pre = (length (ar_path a) + 1 + ar_pad a)%nat).
  { subst pre. rewrite !length_app, length_replicate. simpl. lia. }
  assert (Hbytes : area_bytes a = pre ++ cstrs (ar_args a) ++ cstrs (ar_env a) ++ ar_apple a).
  { subst pre. unfold area_bytes. by rewrite <- !app_assoc. }
  assert (Hc : c ≠ Byte.x00).
  { rewrite Harg0 in Hargs. apply Forall_cons in Hargs as [Hcs _]. unfold no_nul in Hcs. set_solver. }
  assert (Hend : path_end (area_bytes a) = length pre).
  { unfold path_end. assert (E : strnlen (area_bytes a) = length (ar_path a)) by (by apply strnlen_stop).
    rewrite E, (proj2 (Nat.ltb_lt _ _)) by (rewrite Hbytes, length_app; lia). rewrite Hpre.
    assert (E2 : drop (S (length (ar_path a))) (area_bytes a)
      = replicate (ar_pad a) Byte.x00 ++ c :: (s ++ Byte.x00 :: cstrs rest ++ cstrs (ar_env a) ++ ar_apple a)).
    { unfold area_bytes. rewrite Harg0, cstrs_cons. replace (S (length (ar_path a))) with (length (ar_path a) + 1)%nat by lia.
      rewrite drop_app_add. simpl. by rewrite <- !app_assoc. }
    rewrite E2, skip_nuls_stop by done. lia. }
  rewrite Hend, Hbytes, skip_strings_spec by done. split; [done|]. split; [done|].
  rewrite app_assoc. rewrite <- length_app. rewrite find_apple_spec; [done|done|done|].
  pose proof (cstrs_length (ar_env a)). rewrite !length_app.
  assert (length PROCFS_EXEC_KEY <= length (ar_apple a))%nat.
  { unfold has_key in Happle. apply (f_equal length) in Happle. rewrite length_take in Happle. lia. }
  pose proof (eq_refl : length PROCFS_EXEC_KEY = 16%nat). lia.
Qed.

Lemma area_parts a size : area_ok a ->
  let l := layout (length (ar_args a)) size (area_bytes a) in
  take (env_off l - argv_off l) (drop (argv_off l) (area_bytes a)) = cstrs (ar_args a)
  ∧ take (apple_off l - env_off l) (drop (env_off l) (area_bytes a)) = cstrs (ar_env a)
  ∧ drop (apple_off l) (area_bytes a) = ar_apple a
  ∧ (argv_off l <= env_off l <= apple_off l)%nat ∧ (apple_off l <= length (area_bytes a))%nat.
Proof.
  intros Hok l. destruct (layout_area a size Hok) as (E1 & E2 & E3). fold l in E1, E2, E3.
  set (pre := ar_path a ++ [Byte.x00] ++ replicate (ar_pad a) Byte.x00).
  assert (Hpre : length pre = argv_off l).
  { rewrite E1. subst pre. rewrite !length_app, length_replicate. simpl. lia. }
  clearbody l.
  assert (Hbytes : area_bytes a = pre ++ cstrs (ar_args a) ++ cstrs (ar_env a) ++ ar_apple a).
  { subst pre. unfold area_bytes. by rewrite <- !app_assoc. }
  rewrite Hbytes. split_and!; try lia.
  - rewrite <- Hpre, drop_app_length. replace (env_off l - length pre)%nat with (length (cstrs (ar_args a))) by lia.
    by rewrite take_app_length.
  - replace (env_off l) with (length pre + length (cstrs (ar_args a)))%nat at 2 by lia.
    rewrite drop_app_add, drop_app_length. replace (apple_off l - env_off l)%nat with (length (cstrs (ar_env a))) by lia.
    by rewrite take_app_length.
  - replace (apple_off l) with (length pre + (length (cstrs (ar_args a)) + length (cstrs (ar_env a))))%nat by lia.
    by rewrite !drop_app_add, drop_app_length.
  - rewrite !length_app. lia.
Qed.

(** C20. Finding the boundaries inverts the layout of the argument area, if the first argument
    is not empty and no string of the environment starts with executable_path=: for any
    path, padding, other arguments, environment and linker strings, the parts between the
    computed offsets are the arguments, the environment and the linker strings that were
    laid out. *)
Theorem procargs_roundtrip a size :
  area_ok a ->
  let l := layout (length (ar_args a)) size (area_bytes a) in
  take (env_off l - argv_off l) (drop (argv_off l) (pa_buf l)) = cstrs (ar_args a)
  ∧ take (apple_off l - env_off l) (drop (env_off l) (pa_buf l)) = cstrs (ar_env a)
  ∧ drop (apple_off l) (pa_buf l) = ar_apple a.
Proof. intros Hok l. destruct (area_parts a size Hok) as (H1 & H2 & H3 & _). done. Qed.

(** ** The nodes *)

Section ProcargsFacts.
Context `{KernelOps} `{PhysLaws} `{UioLaws} `{!ProcArgs}.

(** The process has the argument area [a], all of it resident and at most 256 KiB. *)
Record has_area (p : proc_t) (a : area) : Prop := {
  ha_ok : area_ok a;
  ha_argc : p_argc p = Z.of_nat (length (ar_args a));
  ha_len : p_argslen p = Z.of_nat (length PROCFS_EXEC_KEY) + Z.of_nat (length (area_bytes a));
  ha_max : Z.of_nat (length (area_bytes a)) <= PROCFS_CMDLINE_MAX;
  ha_stack : Z.of_nat (length (area_bytes a)) <= user_stack p <= 18446744073709551615;
  ha_mem : exists pm, task_pmap p = Some pm ∧
    resident_bytes pm (user_stack p - Z.of_nat (length (area_bytes a))) (length (area_bytes a)) = area_bytes a;
}.

Lemma read_procargs_area p a st :
  has_area p a -> malloc_at (k_clock st) (Z.of_nat (length (area_bytes a))) = true ->
  procfs_read_procargs p st =
  (inr (layout (length (ar_args a)) (Z.of_nat (length (area_bytes a))) (area_bytes a)),
   Kstate (S (k_clock st)) (k_procrefs st) (k_mem st + Z.of_nat (length (area_bytes a)))).
Proof.
  intros [Hok Hargc Hlen Hmax Hstack (pm & Hpm & Hres)] Hmem. unfold procfs_read_procargs. rewrite Hpm, Hargc, Hlen.
  assert (Hpos : (0 < length (ar_args a))%nat ∧ (0 < length (area_bytes a))%nat).
  { destruct Hok as [_ _ (c & s & l & ->) _ _]. split; [simpl; lia|]. unfold area_bytes. rewrite !length_app. simpl. lia. }
  rewrite (proj2 (Z.leb_gt _ 0)), (proj2 (Z.eqb_neq _ 0)), (proj2 (Z.leb_gt _ _)) by lia. cbn [orb].
  replace (Z.of_nat (length PROCFS_EXEC_KEY) + Z.of_nat (length (area_bytes a)) - Z.of_nat (length PROCFS_EXEC_KEY))
    with (Z.of_nat (length (area_bytes a))) by lia.
  rewrite (proj2 (Z.ltb_ge PROCFS_CMDLINE_MAX _)) by done. rewrite u64_small by lia.
  rewrite K_bind_run. unfold OSMalloc. rewrite K_bind_run. simpl. rewrite Hmem. simpl.
  destruct (copy_user_phys_bytes_lemma pm (user_stack p - Z.of_nat (length (area_bytes a))) (length (area_bytes a)))
    as [Ecopy _]; [lia|lia|]. rewrite Nat2Z.id, Ecopy, Hres.
  rewrite (proj2 (Nat.eqb_neq _ 0)) by lia. by rewrite Nat2Z.id.
Qed.

Lemma copy_part_window a off stop u :
  (off <= stop <= length (pa_buf a))%nat -> Z.of_nat (length (pa_buf a)) <= INT_MAX -> uio_writable u = true ->
  let data := take (stop - off) (drop off (pa_buf a)) in
  0 <= uio_offset u <= Z.of_nat (length data) ->
  exists u', copy_part a off stop u = Some (0, u') ∧ uio_out u' = uio_out u ++ read_window data u.
Proof.
  intros Hr Hmax Hw data Hoff. unfold copy_part.
  assert (Hlen : length data = (stop - off)%nat) by (subst data; rewrite length_take, length_drop; lia).
  destruct (copy_data_buffer data (drop (stop - off) (drop off (pa_buf a))) u) as (u' & E & Hout & _); [lia|lia|done|].
  exists u'. split; [|done]. rewrite s32_small by (unfold INT_MIN, INT_MAX in *; lia).
  rewrite <- E. subst data. rewrite take_drop. f_equal. lia.
Qed.

Lemma shows_part p a u st (from to_ : procargs -> nat) :
  has_area p a -> malloc_at (k_clock st) (Z.of_nat (length (area_bytes a))) = true ->
  let l := layout (length (ar_args a)) (Z.of_nat (length (area_bytes a))) (area_bytes a) in
  (from l <= to_ l <= length (area_bytes a))%nat ->
  shows (r ← procfs_read_procargs p;
         match r with inl _ => mret None
         | inr a => _ ← OSFree (pa_size a); mret (copy_part a (from a) (to_ a) u) end)
    (take (to_ l - from l) (drop (from l) (area_bytes a))) u st.
Proof.
  intros Ha Hmem l Hr Hoff Hw. rewrite K_bind_run, (read_procargs_area p a st Ha Hmem). cbn [fst snd]. fold l.
  rewrite K_bind_run. cbn [fst snd mret K_ret]. apply copy_part_window; auto.
  pose proof (ha_max _ _ Ha). unfold PROCFS_CMDLINE_MAX, INT_MAX in *. simpl. lia.
Qed.

(** The nodes cmdline, environ and auxv of a live process show its arguments, its
    environment and the linker strings: a read returns the window at the reader's
    offset of the strings, each with its NUL. *)
Theorem procargs_nodes pnp u st p a :
  proc_find_at (k_clock st) (procfsnode_to_pid pnp) = Some p -> has_area p a -> p_zombie_or_system p = false ->
  malloc_at (S (k_clock st)) (Z.of_nat (length (area_bytes a))) = true ->
  uio_is_read u = true ->
  shows (procfs_doprocargs pnp u) (cstrs (ar_args a)) u st
  ∧ shows (procfs_doenviron pnp u) (cstrs (ar_env a)) u st
  ∧ shows (procfs_doauxv None pnp u) (ar_apple a) u st.
Proof.
  intros Hp Ha Hz Hmem Hread. unfold procfsnode_to_pid in Hp.
  destruct (area_parts a (Z.of_nat (length (area_bytes a))) (ha_ok _ _ Ha)) as (E1 & E2 & E3 & Hord & Hend).
  set (st1 := Kstate (S (k_clock st)) (k_procrefs st + 1) (k_mem st)).
  assert (Hfind : forall B (f : option proc_t -> K B), (proc_find (nodeid_pid (node_id pnp)) ≫= f) st = f (Some p) st1).
  { intros B f. rewrite K_bind_run. unfold proc_find. rewrite K_bind_run. simpl. by rewrite Hp. }
  assert (Hrele : forall (m : K (option (Z * uio_t))), ((r ← m; _ ← proc_rele p; mret r) st1).1 = (m st1).1).
  { intros m. rewrite K_bind_run. done. }
  unfold shows, procfs_doprocargs, procfs_doenviron, procfs_doauxv, procfs_doprocargs_helper, read_part.
  rewrite Hread. cbn [negb]. rewrite !Hfind. cbn [negb]. rewrite !Hrele, Hz.
  split_and!; intros Hoff Hw.
  - destruct (shows_part p a u st1 argv_off env_off Ha Hmem ltac:(lia)) as (u' & E & Hout); [by rewrite E1|done|].
    rewrite E1 in Hout. exists u'. split; [|done]. rewrite K_bind_run, (read_procargs_area p a st1 Ha Hmem) in E |- *. exact E.
  - destruct (shows_part p a u st1 env_off apple_off Ha Hmem ltac:(lia)) as (u' & E & Hout); [by rewrite E2|done|].
    rewrite E2 in Hout. exists u'. split; [|done]. rewrite K_bind_run, (read_procargs_area p a st1 Ha Hmem) in E |- *. exact E.
  - destruct (shows_part p a u st1 apple_off (λ a, length (pa_buf a)) Ha Hmem) as (u' & E & Hout); [split; [exact Hend|done]| |done|].
    { rewrite take_ge by (rewrite length_drop; done). by rewrite E3. }
    rewrite take_ge, E3 in Hout by (rewrite length_drop; done).
    exists u'. split; [|done]. rewrite K_bind_run, (read_procargs_area p a st1 Ha Hmem) in E |- *. exact E.
Qed.

Lemma read_procargs_res p st :
  let r := procfs_read_procargs p st in
  k_procrefs r.2 = k_procrefs st ∧ k_mem r.2 = k_mem st + (match r.1 with inl _ => 0 | inr a => pa_size a end).
Proof.
  unfold procfs_read_procargs. destruct (task_pmap p); [|simpl; lia]. case_match; [simpl; lia|].
  rewrite K_bind_run. unfold OSMalloc. rewrite K_bind_run. simpl. destruct (malloc_at _ _); simpl; [|lia].
  case_match; simpl; lia.
Qed.

Lemma balanced_args_then p (f : Z -> K (option (Z * uio_t))) (g : procargs -> option (Z * uio_t)) :
  (forall e, balanced (f e)) ->
  balanced (r ← procfs_read_procargs p; match r with inl e => f e | inr a => _ ← OSFree (pa_size a); mret (g a) end).
Proof.
  intros Hf st. rewrite K_bind_run. destruct (read_procargs_res p st) as [Hr Hm].
  destruct (procfs_read_procargs p st) as [[e|a] st1]; cbn [fst snd] in *.
  - destruct (Hf e st1) as [Hx1 Hx2]. split; lia.
  - rewrite K_bind_run. split; simpl; lia.
Qed.

Lemma balanced_then_rele p (m : K (option (Z * uio_t))) st :
  balanced m -> k_procrefs ((r ← m; _ ← proc_rele p; mret r) st).2 = k_procrefs st - 1
  ∧ k_mem ((r ← m; _ ← proc_rele p; mret r) st).2 = k_mem st.
Proof. intros Hm. rewrite K_bind_run. destruct (Hm st) as [Hx1 Hx2]. simpl. lia. Qed.

Lemma balanced_read_part from to_ p u : balanced (read_part from to_ p u).
Proof.
  unfold read_part. case_match; [apply balanced_ret|]. apply (balanced_args_then p (λ _, mret (procfs_copy_data (Some []) 0 u))).
  intros e. apply balanced_ret.
Qed.

(** Whatever happens, the nodes cmdline, environ and auxv release the process reference
    they take and free the buffer for the argument area. *)
Theorem procargs_release pnp u :
  balanced (procfs_doprocargs pnp u) ∧ balanced (procfs_doenviron pnp u) ∧ balanced (procfs_doauxv None pnp u).
Proof.
  split_and!.
  - apply balanced_proc_find; [|apply balanced_ret]. intros p st. case_match; [simpl; lia|]. apply balanced_then_rele.
    case_match; [apply balanced_ret|]. apply (balanced_args_then p (λ _, mret (procfs_cmdline_comm p u))).
    intros e. apply balanced_ret.
  - unfold procfs_doenviron. case_match; [apply balanced_ret|]. apply balanced_proc_find; [|apply balanced_ret].
    intros p st. apply balanced_then_rele, balanced_read_part.
  - unfold procfs_doauxv. case_match; [apply balanced_ret|]. apply balanced_proc_find; [|apply balanced_ret].
    intros p st. apply balanced_then_rele, balanced_read_part.
Qed.

End ProcargsFacts.

(** ** Examples *)

Definition sample_area : area :=
  Area (bytes_of_string "/bin/ls") 4 [bytes_of_string "ls"; bytes_of_string "-l"]
    [bytes_of_string "TERM=vt100"; bytes_of_string "HOME=/"] (bytes_of_string "executable_path=/bin/ls" ++ [Byte.x00]).

#[export] Instance no_nul_dec s : Decision (no_nul s).
Proof. unfold no_nul. apply _. Defined.

Lemma sample_area_ok : area_ok sample_area.
Proof.
  split; try (apply (bool_decide_unpack _); vm_compute; exact I).
  by eexists _, _, _.
Qed.

Lemma procargs_roundtrip_witness :
  let l := layout 2 64 (area_bytes sample_area) in
  take (env_off l - argv_off l) (drop (argv_off l) (pa_buf l)) = cstrs [bytes_of_string "ls"; bytes_of_string "-l"].
Proof. apply (procargs_roundtrip sample_area 64). apply sample_area_ok. Defined.

(** An empty first argument is taken for padding: the arguments then end one string too
    late, and cmdline shows the first variable of the environment. *)
Example empty_argument_shifts :
  let a := Area (bytes_of_string "/bin/ls") 0 [[]; bytes_of_string "-l"] [bytes_of_string "TERM=vt100"]
             (bytes_of_string "executable_path=/bin/ls") in
  let l := layout 2 64 (area_bytes a) in
  take (env_off l - argv_off l) (drop (argv_off l) (pa_buf l)) = cstrs [bytes_of_string "-l"; bytes_of_string "TERM=vt100"].
Proof. vm_compute. reflexivity. Qed.

(** An environment string that starts with the key of the linker is taken for the start of its
    strings: the environment ends before it. *)
Example key_in_environment :
  let a := Area (bytes_of_string "/bin/ls") 0 [bytes_of_string "ls"]
             [bytes_of_string "TERM=vt100"; bytes_of_string "executable_path=x"; bytes_of_string "HOME=/"]
             (bytes_of_string "executable_path=/bin/ls") in
  let l := layout 1 64 (area_bytes a) in
  take (apple_off l - env_off l) (drop (env_off l) (pa_buf l)) = cstrs [bytes_of_string "TERM=vt100"].
Proof. vm_compute. reflexivity. Qed.

(** A process whose memory is the sample area, below address 16384. *)
Definition args_kernel : KernelOps := simple_kernel [SimpleProc 501 "ls" 501 20 [] []].
Definition area_word (pa : Z) : Z :=
  le_value (take 4 (drop (Z.to_nat (pa - (16384 - Z.of_nat (length (area_bytes sample_area)))))
    (area_bytes sample_area ++ replicate 4 Byte.x00))).
Definition args_phys : PhysOps := {|
  pmap_t := unit;
  pmap_find_phys _ va := if va / 4096 =? 3 then 3 else 0;
  ml_phys_read := area_word;
|}.
Definition args_phys_laws : @PhysLaws small_pages args_phys.
Proof.
  split; intros pm va; unfold pmap_find_phys; simpl.
  - change (@PAGE_SIZE small_pages) with 4096. rewrite (Z.mul_comm 4096), Z.div_mul by lia. done.
  - case_match; lia.
Qed.
Definition args_proc : @ProcArgs args_kernel args_phys :=
  @Build_ProcArgs args_kernel args_phys (λ _, 2) (λ _, 16 + Z.of_nat (length (area_bytes sample_area))) (λ _, 16384)
    (λ _, Some tt) (λ _, false).

Lemma procargs_nodes_witness :
  let u := (SimpleUio 0 100 true [] true : @uio_t simple_uio_ops) in
  exists u', (@procfs_doprocargs args_kernel small_pages args_phys simple_uio_ops args_proc (Pfsnode (Pfsid 501 0 30) 29%N)
                u (Kstate 0 0 0)).1 = Some (0, u')
    ∧ uio_out u' = cstrs [bytes_of_string "ls"; bytes_of_string "-l"].
Proof.
  intros u.
  destruct (@procargs_nodes args_kernel small_pages args_phys args_phys_laws simple_uio_ops simple_uio_laws args_proc
    (Pfsnode (Pfsid 501 0 30) 29%N) u (Kstate 0 0 0) (SimpleProc 501 "ls" 501 20 [] []) sample_area) as [H _];
    try reflexivity.
  - split; try (by vm_compute).
    + apply sample_area_ok.
    + exists tt. split; [reflexivity|]. vm_compute. reflexivity.
  - destruct H as (u' & E & Hout); [by vm_compute|reflexivity|]. exists u'. split; [exact E|]. rewrite Hout. vm_compute. reflexivity.
Defined.
