(* ===== verification/Map.v ===== *)
(** * Memory maps (kext/procfs_map.c, the maps node of kext/procfs_linux.c)

    The nodes map and maps list the regions of the address space of a process, one line for
    each; the region walk is also what the size fields of the task information come from.
    The kernel's region lookup is a parameter, and so is whether the symbols it needs were
    resolved when the extension was loaded. *)

From Stdlib Require Import Ascii.
From S2P Require Import Prelude Kernel Structure Subr Sbuf Text.

(** What [mach_vm_region] returns in both flavors. *)
Record vm_region := VmRegion {
  vr_addr : Z; vr_size : Z; vr_offset : Z; vr_prot : Z; vr_max_prot : Z; vr_shared : bool; vr_wired : Z;
  vr_pages_resident : Z; vr_share_mode : Z }.

(** struct procfs_region *)
Record procfs_region := ProcfsRegion {
  rg_start : Z; rg_end : Z; rg_offset : Z; rg_prot : Z; rg_max_prot : Z; rg_shared : bool; rg_wired : Z }.

Class VmOps `{KernelOps} := {
  vm_map_t : Type;
  (** [get_task_map(proc_task(p))]; [None] for NULL *)
  task_map : proc_t -> option vm_map_t;
  (** the region that contains the address or the next one above it; [None] when the call
      does not return KERN_SUCCESS *)
  mach_vm_region : vm_map_t -> Z -> option vm_region;
  (** libklookup has found [get_task_map] and [mach_vm_region] *)
  vm_symbols : bool;
}.

Definition VM_PROT_READ : Z := 1.
Definition VM_PROT_WRITE : Z := 2.
Definition VM_PROT_EXECUTE : Z := 4.
Definition SM_SHARED : Z := 4.
Definition SM_TRUESHARED : Z := 5.
Definition SM_SHARED_ALIASED : Z := 7.
Definition PROCFS_MAP_MAX_REGIONS : Z := 1000000.

(** ** Lines *)

(** [%016llx] and [%#018llx] of a 64-bit number; the second has no prefix for 0. *)
Definition fmt_016x (z : Z) : string := hex_digits 16 z.
Definition fmt_alt018x (z : Z) : string := if z =? 0 then "000000000000000000" else "0x" +:+ hex_digits 16 z.

Definition flag_char (v mask : Z) (c : ascii) : string := String (if (v &? mask)%C then c else "-"%char) "".

Definition prot_chars (v : Z) : string :=
  flag_char v VM_PROT_READ "r" +:+ flag_char v VM_PROT_WRITE "w" +:+ flag_char v VM_PROT_EXECUTE "x".

Definition procfs_map_fmt_netbsd (r : procfs_region) : string :=
  fmt_alt018x (rg_start r) +:+ " " +:+ fmt_alt018x (rg_end r) +:+ " " +:+ prot_chars (rg_prot r) +:+ " "
  +:+ prot_chars (rg_max_prot r) +:+ " " +:+ (if rg_shared r then "share" else "priv") +:+ " " +:+ fmt_d (rg_wired r) +:+ nl.

Definition procfs_maps_fmt_linux (r : procfs_region) : string :=
  fmt_016x (rg_start r) +:+ "-" +:+ fmt_016x (rg_end r) +:+ " " +:+ prot_chars (rg_prot r)
  +:+ (if rg_shared r then "s" else "p") +:+ " " +:+ fmt_016x (rg_offset r) +:+ " 00:00 0 " +:+ nl.

Section Map.
Context `{KernelOps} `{!VmOps} `{PageSize} `{UioOps}.

Definition region_of (r : vm_region) : procfs_region :=
  ProcfsRegion (vr_addr r) (u64 (vr_addr r + vr_size r)) (vr_offset r) (vr_prot r) (vr_max_prot r)
    (vr_shared r) (vr_wired r).

(** The walk that prints; [fuel] counts down from PROCFS_MAP_MAX_REGIONS. *)
Fixpoint map_loop (fuel : nat) (fmt : procfs_region -> string) (map : vm_map_t) (addr : Z) (sb : sbuf) :
    K (option sbuf) :=
  match fuel with
  | O => mret (Some sb)
  | S fuel' =>
    match mach_vm_region map addr with
    | None => mret (Some sb)
    | Some r =>
      sb ← print (fmt (region_of r)) sb;
      match sb with
      | None => mret None
      | Some sb =>
        let next := u64 (vr_addr r + vr_size r) in
        if next <=? vr_addr r then mret (Some sb) else map_loop fuel' fmt map next sb
      end
    end
  end.

Definition map_walk (fmt : procfs_region -> string) (map : vm_map_t) (sb : sbuf) : K (option sbuf) :=
  map_loop (Z.to_nat PROCFS_MAP_MAX_REGIONS) fmt map 0 sb.

Definition procfs_map_render (creds : kauth_cred_t) (pnp : pfsnode) (uio : uio_t) (fmt : procfs_region -> string) :
    K (option (Z * uio_t)) :=
  p ← proc_find (nodeid_pid (node_id pnp));
  match p with
  | None => mret (Some (ESRCH, uio))
  | Some p =>
    let error := procfs_check_can_access_process creds p in
    if negb (error =? 0) then _ ← proc_rele p; mret (Some (error, uio)) else
    if negb vm_symbols then _ ← proc_rele p; mret (Some (ENOTSUP, uio)) else
    match task_map p with
    | None => _ ← proc_rele p; mret (Some (EIO, uio))
    | Some map =>
      sb ← sbuf_new true None 4096 SBUF_AUTOEXTEND;
      match sb with
      | None => _ ← proc_rele p; mret (Some (ENOMEM, uio))
      | Some sb =>
        sb ← map_walk fmt map sb;
        _ ← proc_rele p;
        match sb with None => mret None | Some sb => finish_and_copy sb uio end
      end
    end
  end.

Definition procfs_domap creds pnp uio := procfs_map_render creds pnp uio procfs_map_fmt_netbsd.
Definition procfs_domaps creds pnp uio := procfs_map_render creds pnp uio procfs_maps_fmt_linux.

(** The size of a region counts as resident unless it is shared. *)
Definition resident_size (r : vm_region) : Z :=
  if (vr_share_mode r =? SM_SHARED) || (vr_share_mode r =? SM_TRUESHARED) || (vr_share_mode r =? SM_SHARED_ALIASED)
  then 0 else u64 (vr_pages_resident r * PAGE_SIZE).

Fixpoint sizes_loop (fuel : nat) (map : vm_map_t) (addr vsize rsize : Z) : Z * Z :=
  match fuel with
  | O => (vsize, rsize)
  | S fuel' =>
    match mach_vm_region map addr with
    | None => (vsize, rsize)
    | Some r =>
      let vsize := u64 (vsize + vr_size r) in
      let rsize := u64 (rsize + resident_size r) in
      let next := u64 (vr_addr r + vr_size r) in
      if next <=? vr_addr r then (vsize, rsize) else sizes_loop fuel' map next vsize rsize
    end
  end.

(** [task_null]: the process has no task any more.  Error, virtual and resident size. *)
Definition procfs_task_vm_sizes (task_null : proc_t -> bool) (p : proc_t) : Z * Z * Z :=
  if negb vm_symbols then (ENOTSUP, 0, 0) else
  if task_null p then (ESRCH, 0, 0) else
  match task_map p with
  | None => (EIO, 0, 0)
  | Some map =>
    let (v, r) := sizes_loop (Z.to_nat PROCFS_MAP_MAX_REGIONS) map 0 0 0 in (0, v, r)
  end.

End Map.

#[global] Opaque PROCFS_MAP_MAX_REGIONS.

(** ** The walk *)

Section MapFacts.
Context `{KernelOps} `{!VmOps} `{PageSize} `{UioLaws}.

(** The regions a walk visits. *)
Fixpoint walk (fuel : nat) (map : vm_map_t) (addr : Z) : list vm_region :=
  match fuel with
  | O => []
  | S fuel' =>
    match mach_vm_region map addr with
    | None => []
    | Some r =>
      let next := u64 (vr_addr r + vr_size r) in
      r :: (if next <=? vr_addr r then [] else walk fuel' map next)
    end
  end.

Lemma map_loop_walk fuel fmt map : forall addr sb st,
  map_loop fuel fmt map addr sb st = print_all ((λ r, fmt (region_of r)) <$> walk fuel map addr) sb st.
Proof.
  induction fuel as [|fuel IH]; intros addr sb st; [done|]. cbn [map_loop walk].
  destruct (mach_vm_region map addr) as [r|]; [|done]. rewrite fmap_cons. cbn [print_all]. rewrite !K_bind_run.
  destruct ((print (fmt (region_of r)) sb st).1) as [sb'|]; [|done]. destruct (_ <=? _); [done|]. apply IH.
Qed.

Lemma sizes_loop_walk fuel map : forall addr v r,
  0 <= v < 18446744073709551616 -> 0 <= r < 18446744073709551616 ->
  sizes_loop fuel map addr v r =
  (u64 (v + foldr Z.add 0 (vr_size <$> walk fuel map addr)), u64 (r + foldr Z.add 0 (resident_size <$> walk fuel map addr))).
Proof.
  induction fuel as [|fuel IH]; intros addr v r Hv Hr; cbn [sizes_loop walk].
  { simpl. by rewrite !Z.add_0_r, !u64_small. }
  destruct (mach_vm_region map addr) as [x|]; [|simpl; by rewrite !Z.add_0_r, !u64_small].
  assert (Hadd : forall a b c, u64 (u64 (a + b) + c) = u64 (a + (b + c)))
    by (intros; unfold u64; rewrite Zplus_mod_idemp_l; f_equal; lia).
  destruct (_ <=? _).
  - simpl. by rewrite !Z.add_0_r.
  - rewrite IH by apply u64_range. rewrite !fmap_cons. cbn [foldr]. by rewrite !Hadd.
Qed.

(** The address space as a list of regions, in order and apart from each other. *)
Fixpoint regions_from (addr : Z) (l : list vm_region) : Prop :=
  match l with
  | [] => True
  | r :: l' => addr <= vr_addr r ∧ 0 < vr_size r ∧ vr_addr r + vr_size r < 18446744073709551616
      ∧ regions_from (vr_addr r + vr_size r) l'
  end.

(** The lookup finds the first region that ends above the address. *)
Definition looks_up (map : vm_map_t) (l : list vm_region) : Prop :=
  forall addr, mach_vm_region map addr = List.find (λ r, addr <? vr_addr r + vr_size r) l.

Lemma find_skip addr l1 l2 :
  Forall (λ r, vr_addr r + vr_size r <= addr) l1 ->
  List.find (λ r, addr <? vr_addr r + vr_size r) (l1 ++ l2) = List.find (λ r, addr <? vr_addr r + vr_size r) l2.
Proof. induction 1 as [|r l1 Hr _ IH]; [done|]. simpl. by rewrite (proj2 (Z.ltb_ge _ _)). Qed.

Lemma regions_above l1 : forall addr r l2, regions_from addr (l1 ++ r :: l2) -> addr <= vr_addr r.
Proof.
  induction l1 as [|x l1 IH]; intros addr r l2 Hl; simpl in Hl; [lia|]. destruct Hl as (? & ? & _ & Hl). apply IH in Hl. lia.
Qed.

Lemma walk_list map l : looks_up map l -> regions_from 0 l ->
  forall fuel l1 l2 addr, l = l1 ++ l2 -> Forall (λ r, vr_addr r + vr_size r <= addr) l1 -> regions_from addr l2 ->
  (length l2 <= fuel)%nat -> walk fuel map addr = l2.
Proof.
  intros Hlook Hl. induction fuel as [|fuel IH]; intros l1 l2 addr E Hl1 Hl2 Hf.
  { destruct l2; [done|simpl in Hf; lia]. }
  cbn [walk]. rewrite Hlook, E, find_skip by done. destruct l2 as [|r l2]; [done|].
  destruct Hl2 as (Ha & Hs & He & Hl2). simpl. rewrite (proj2 (Z.ltb_lt _ _)) by lia.
  assert (0 <= vr_addr r) by (subst l; by eapply regions_above).
  rewrite u64_small by lia. rewrite (proj2 (Z.leb_gt _ _)) by lia. f_equal.
  apply (IH (l1 ++ [r]) l2); [by rewrite <- app_assoc| |done|simpl in Hf; lia].
  apply Forall_app. split; [|constructor; [lia|constructor]]. eapply Forall_impl; [exact Hl1|]. simpl. lia.
Qed.

Lemma walk_all map l : looks_up map l -> regions_from 0 l -> Z.of_nat (length l) <= PROCFS_MAP_MAX_REGIONS ->
  walk (Z.to_nat PROCFS_MAP_MAX_REGIONS) map 0 = l.
Proof. intros Hlook Hl Hlen. apply (walk_list map l Hlook Hl _ [] l); [done|constructor|done|lia]. Qed.

(** The text of the node. *)
Definition map_text (fmt : procfs_region -> string) (l : list vm_region) : list Byte.byte :=
  joined ((λ r, fmt (region_of r)) <$> l).

(** C30. The nodes map and maps list every region of the address space once, in order, in the
    format of the node: a caller with access to the process gets the window of that text at
    its offset; the process reference and the buffer are released. *)
Theorem map_read fmt creds pnp u st p map l :
  proc_find_at (k_clock st) (procfsnode_to_pid pnp) = Some p -> procfs_check_can_access_process creds p = 0 ->
  vm_symbols = true -> task_map p = Some map -> looks_up map l -> regions_from 0 l ->
  Z.of_nat (length l) <= PROCFS_MAP_MAX_REGIONS -> (forall t m, malloc_at t m = true) ->
  Z.of_nat (length (map_text fmt l)) <= INT_MAX - PAGE_SIZE ->
  shows (procfs_map_render creds pnp u fmt) (map_text fmt l) u st
  ∧ same_res st (procfs_map_render creds pnp u fmt st).2.
Proof.
  intros Hp Hacc Hsym Hmap Hlook Hl Hlen Hmem Htext.
  set (st1 := Kstate (S (k_clock st)) (k_procrefs st + 1) (k_mem st)).
  pose proof (new_auto_some 4096 st1 ltac:(lia) Hmem) as Hnew.
  pose proof (new_ok true None 4096 SBUF_AUTOEXTEND st1) as Hc.
  pose proof (refs_kept_new true None 4096 SBUF_AUTOEXTEND st1) as Hr1.
  destruct (sbuf_new true None 4096 SBUF_AUTOEXTEND st1) as [[sb|] st2] eqn:En; [|by destruct Hnew].
  destruct Hc as [Himp Hm2]; [split; [by vm_compute|done]|]. change (limit_of 4096 SBUF_AUTOEXTEND) with (@None Z) in Himp.
  destruct (print_all_room ((λ r, fmt (region_of r)) <$> l) None false sb [] st2 Himp) as (sb3 & st3 & E3 & I3 & M3).
  { split; [exact Htext|done]. }
  pose proof (refs_kept_print_all ((λ r, fmt (region_of r)) <$> l) sb st2) as Hr3. rewrite E3 in Hr3.
  set (st4 := Kstate (k_clock st3) (k_procrefs st3 + -1) (k_mem st3)).
  assert (E : procfs_map_render creds pnp u fmt st = finish_and_copy sb3 u st4).
  { unfold procfs_map_render, procfsnode_to_pid in *. rewrite K_bind_run. unfold proc_find. rewrite K_bind_run. simpl.
    rewrite Hp. cbn [fst snd mret K_ret]. rewrite K_bind_run. cbn [fst snd add_refs mret K_ret]. rewrite Hacc, Hsym, Hmap.
    cbn [Z.eqb negb]. rewrite K_bind_run. change (tick st) with (Kstate (S (k_clock st)) (k_procrefs st) (k_mem st)).
    cbn [k_clock k_procrefs k_mem]. fold st1. rewrite En. cbn [fst snd]. rewrite K_bind_run.
    unfold map_walk. rewrite map_loop_walk, (walk_all map l) by done. rewrite E3. cbn [fst snd]. by rewrite K_bind_run. }
  destruct (finish_and_copy_run None sb3 _ false u st4 I3) as [Hs Hm4];
    [rewrite app_nil_l; pose proof page_size_cases; unfold map_text in Htext; lia|].
  pose proof (refs_kept_finish_and_copy sb3 u st4) as Hr4.
  unfold shows. rewrite E. split; [exact Hs|]. cbn [fst snd] in *. simpl in Hr4, Hm4, Hr1, Hr3, Hm2. split; simpl in *; lia.
Qed.

(** The sizes computed from the walk are the sums over all regions, modulo 2^64: the sizes
    of the regions, and the resident pages of those that are not shared. *)
Theorem vm_sizes_sum task_null p map l :
  vm_symbols = true -> task_null p = false -> task_map p = Some map -> looks_up map l -> regions_from 0 l ->
  Z.of_nat (length l) <= PROCFS_MAP_MAX_REGIONS ->
  procfs_task_vm_sizes task_null p =
  (0, u64 (foldr Z.add 0 (vr_size <$> l)), u64 (foldr Z.add 0 (resident_size <$> l))).
Proof.
  intros Hsym Hnull Hmap Hlook Hl Hlen. unfold procfs_task_vm_sizes. rewrite Hsym, Hnull, Hmap. cbn [negb].
  rewrite sizes_loop_walk, (walk_all map l) by (done || lia). done.
Qed.

(** The map nodes give a caller without access to the process only the error. *)
Theorem map_guarded fmt creds pnp u st p :
  proc_find_at (k_clock st) (procfsnode_to_pid pnp) = Some p -> procfs_check_can_access_process creds p ≠ 0 ->
  (procfs_map_render creds pnp u fmt st).1 = Some (EACCES, u).
Proof.
  intros Hp Hacc. unfold procfs_map_render, procfsnode_to_pid in *. rewrite K_bind_run. unfold proc_find. rewrite K_bind_run.
  simpl. rewrite Hp. simpl. rewrite (proj2 (Z.eqb_neq _ 0)) by done. simpl. do 2 f_equal.
  unfold procfs_check_can_access_process in *. repeat case_match; done.
Qed.

End MapFacts.

(** ** Example *)

Definition map_kernel : KernelOps := simple_kernel [SimpleProc 501 "bash" 501 20 [] []].
Definition sample_regions : list vm_region :=
  [VmRegion 4096 8192 0 5 7 false 0 2 2; VmRegion 65536 4096 512 3 7 true 1 1 4].
Definition map_vm : @VmOps map_kernel :=
  @Build_VmOps map_kernel unit (λ _, Some tt) (λ _ addr, List.find (λ r, addr <? vr_addr r + vr_size r) sample_regions) true.
Definition map_cred : @kauth_cred_t map_kernel := SimpleCred 501 20.
Definition map_uio : @uio_t simple_uio_ops := SimpleUio 0 60 true [] true.

Lemma max_regions : PROCFS_MAP_MAX_REGIONS = 1000000.
Proof. reflexivity. Qed.

Lemma map_read_witness :
  exists u', (@procfs_map_render map_kernel map_vm small_pages simple_uio_ops map_cred (Pfsnode (Pfsid 501 0 30) 29%N)
                map_uio procfs_maps_fmt_linux (Kstate 0 0 0)).1 = Some (0, u')
    ∧ uio_out u' = bytes_of_string "0000000000001000-0000000000003000 r-xp 0000000000000000 00:0".
Proof.
  destruct (@map_read map_kernel map_vm small_pages simple_uio_ops simple_uio_laws procfs_maps_fmt_linux map_cred
    (Pfsnode (Pfsid 501 0 30) 29%N) map_uio (Kstate 0 0 0) (SimpleProc 501 "bash" 501 20 [] []) tt sample_regions)
    as [Hs _]; try reflexivity.
  - intros addr. reflexivity.
  - vm_compute. repeat split; discriminate.
  - rewrite max_regions. simpl. lia.
  - by vm_compute.
  - destruct Hs as (u' & E & Hout); [by vm_compute|reflexivity|]. exists u'. split; [exact E|]. rewrite Hout. vm_compute. reflexivity.
Defined.

Lemma vm_sizes_sum_witness :
  @procfs_task_vm_sizes map_kernel map_vm small_pages (λ _, false) (SimpleProc 501 "bash" 501 20 [] []) = (0, 12288, 8192).
Proof.
  apply (@vm_sizes_sum map_kernel map_vm small_pages (λ _, false) (SimpleProc 501 "bash" 501 20 [] []) tt sample_regions);
    try reflexivity.
  - intros addr. reflexivity.
  - vm_compute. repeat split; discriminate.
  - rewrite max_regions. simpl. lia.
Defined.
