(* ===== verification/Ctl.v ===== *)
(** * The bridge to the daemon (kext/procfs_ctl.c)

    Node reads that need data the kernel extension cannot get ask a daemon over a
    kernel control socket.  Calls of procfs_ctl_request share a table of 16 slots
    protected by a lock; a reply finds its call by a sequence number.  The calls, the
    daemon's connects, disconnects and replies, and the registration of the control
    are the labels of a transition system: a step is what one thread does between two
    points at which the lock is free.  What ctl_enqueuedata and msleep return is part
    of the label. *)

From S2P Require Import Prelude.

(** ** The wire protocol (include/fs/procfs/procfs_ctl.h) *)

Definition PROCFS_CTL_MAGIC : Z := 1347571523.
Definition PROCFS_CTL_MAXPAYLOAD : Z := 2048.

Record procfs_ctl_req := CtlReq {
  req_magic : Z; req_seq : Z; req_type : Z; req_pid : Z; req_arg : Z }.

Record procfs_ctl_resp := CtlResp {
  resp_magic : Z; resp_seq : Z; resp_error : Z; resp_len : Z }.

Definition sizeof_resp : nat := 16.

(** The header of a reply, as copied from the message. *)
Definition parse_resp (m : list Byte.byte) : procfs_ctl_resp :=
  CtlResp (le_value (take 4 m)) (le_value (take 4 (drop 4 m)))
          (s32 (le_value (take 4 (drop 8 m)))) (le_value (take 4 (drop 12 m))).

(** The bytes of a reply. *)
Definition reply (q e n : Z) (payload : list Byte.byte) : list Byte.byte :=
  le_bytes 4 PROCFS_CTL_MAGIC ++ le_bytes 4 q ++ le_bytes 4 e ++ le_bytes 4 n ++ payload.

(** ** State *)

Definition PROCFS_CTL_SLOTS : nat := 16.

Record procfs_ctl_slot := CtlSlot {
  in_use : bool; done : bool; seq : Z; error : Z; len : Z; buf : list Byte.byte }.

(** Where a call of procfs_ctl_request is. *)
Inductive rpc : Type :=
| Reserve                                   (** connected; about to take the lock *)
| Enqueue (slot : nat) (unit : Z)           (** slot reserved; about to send *)
| Locking (slot : nat)                      (** sent; about to take the lock *)
| Asleep (slot : nat) (woken : bool)        (** in msleep *)
| Release (slot : nat) (error : Z) (out : option (list Byte.byte))
| Returned (error : Z) (out : option (list Byte.byte)).

(** A call: its arguments, its local variable [seq] and where it is. *)
Record request := Request {
  rq_type : Z; rq_pid : Z; rq_arg : Z; rq_outcap : Z; rq_seq : Z; rq_pc : rpc }.
Definition set_pc (r : request) (pc : rpc) : request :=
  Request (rq_type r) (rq_pid r) (rq_arg r) (rq_outcap r) (rq_seq r) pc.
Definition set_seq (r : request) (q : Z) : request :=
  Request (rq_type r) (rq_pid r) (rq_arg r) (rq_outcap r) q (rq_pc r).

Record cstate := Cstate {
  g_ctl_ref : bool;            (** registered *)
  g_ctl_lock : bool;           (** the lock (and its group) exists *)
  g_ctl_unit : Z;
  g_ctl_connected : bool;
  g_ctl_seq : Z;
  g_ctl_slots : list procfs_ctl_slot;
  c_calls : gmap N request;
  c_sent : list (Z * procfs_ctl_req);  (** handed to the socket: unit and message *)
}.

Definition free_slot : procfs_ctl_slot := CtlSlot false false 0 0 0 (replicate 2048 Byte.x00).
Definition ctl_boot : cstate := Cstate false false 0 false 0 (replicate PROCFS_CTL_SLOTS free_slot) ∅ [].

Definition with_slots (sl : list procfs_ctl_slot) (s : cstate) : cstate :=
  Cstate (g_ctl_ref s) (g_ctl_lock s) (g_ctl_unit s) (g_ctl_connected s) (g_ctl_seq s) sl (c_calls s) (c_sent s).
Definition with_calls (c : gmap N request) (s : cstate) : cstate :=
  Cstate (g_ctl_ref s) (g_ctl_lock s) (g_ctl_unit s) (g_ctl_connected s) (g_ctl_seq s) (g_ctl_slots s) c (c_sent s).
Definition with_conn (u : Z) (b : bool) (s : cstate) : cstate :=
  Cstate (g_ctl_ref s) (g_ctl_lock s) u b (g_ctl_seq s) (g_ctl_slots s) (c_calls s) (c_sent s).
Definition set_call (t : N) (r : request) (s : cstate) : cstate := with_calls (<[t := r]> (c_calls s)) s.

(** ** Callbacks of the control socket *)

(** [wakeup(&g_ctl_slots[i])] for the slots that satisfy [p]. *)
Definition wake_call (p : nat -> bool) (r : request) : request :=
  match rq_pc r with Asleep i _ => if p i then set_pc r (Asleep i true) else r | _ => r end.

Definition procfs_ctl_connect (unit : Z) (s : cstate) : cstate := with_conn unit true s.

Definition pending (sl : procfs_ctl_slot) : bool := in_use sl && negb (done sl).

Definition fail_slot (sl : procfs_ctl_slot) : procfs_ctl_slot :=
  if pending sl then CtlSlot true true (seq sl) ENOTCONN (len sl) (buf sl) else sl.

Definition pending_at (sl : list procfs_ctl_slot) (i : nat) : bool :=
  match sl !! i with Some x => pending x | None => false end.

Definition procfs_ctl_disconnect (s : cstate) : cstate :=
  let s1 := with_conn (g_ctl_unit s) false s in
  with_calls (wake_call (pending_at (g_ctl_slots s)) <$> c_calls s)
    (with_slots (fail_slot <$> g_ctl_slots s) s1).

(** The slot a reply belongs to. *)
Fixpoint find_slot (p : procfs_ctl_slot -> bool) (i : nat) (l : list procfs_ctl_slot) : option nat :=
  match l with
  | [] => None
  | x :: l' => if p x then Some i else find_slot p (S i) l'
  end.

Definition answers (q : Z) (sl : procfs_ctl_slot) : bool := pending sl && (seq sl =? q).

(** The bytes of the slot after the payload was copied, when all of it is there. *)
Definition copy_payload (m : list Byte.byte) (plen : Z) (b : list Byte.byte) : list Byte.byte :=
  if (0 <? plen) && (Z.of_nat sizeof_resp + plen <=? Z.of_nat (length m)) then
    take (Z.to_nat plen) (drop sizeof_resp m) ++ drop (Z.to_nat plen) b
  else b.

Definition procfs_ctl_send (m : list Byte.byte) (s : cstate) : cstate :=
  let resp := parse_resp m in
  if (Z.of_nat sizeof_resp <=? Z.of_nat (length m)) && (resp_magic resp =? PROCFS_CTL_MAGIC) then
    let plen := if PROCFS_CTL_MAXPAYLOAD <? resp_len resp then PROCFS_CTL_MAXPAYLOAD else resp_len resp in
    match find_slot (answers (resp_seq resp)) 0 (g_ctl_slots s) with
    | None => s
    | Some i =>
      match g_ctl_slots s !! i with
      | None => s
      | Some x =>
        let x' := CtlSlot (in_use x) true (seq x) (resp_error resp) plen (copy_payload m plen (buf x)) in
        with_calls (wake_call (Nat.eqb i) <$> c_calls s) (with_slots (<[i := x']> (g_ctl_slots s)) s)
      end
    end
  else s.

(** ** Calls of procfs_ctl_request *)

(** The increment that skips 0. *)
Definition next_seq (q : Z) : Z :=
  let q1 := u32 (q + 1) in if q1 =? 0 then u32 (q1 + 1) else q1.

Definition request_reserve (t : N) (r : request) (s : cstate) : cstate :=
  match find_slot (λ x, negb (in_use x)) 0 (g_ctl_slots s) with
  | None => set_call t (set_pc r (Returned EBUSY None)) s
  | Some i =>
    let q := next_seq (g_ctl_seq s) in
    let b := match g_ctl_slots s !! i with Some x => buf x | None => [] end in
    Cstate (g_ctl_ref s) (g_ctl_lock s) (g_ctl_unit s) (g_ctl_connected s) q
      (<[i := CtlSlot true false q 0 0 b]> (g_ctl_slots s))
      (<[t := set_pc (set_seq r q) (Enqueue i (g_ctl_unit s))]> (c_calls s)) (c_sent s)
  end.

Definition request_enqueue (t : N) (r : request) (i : nat) (unit e : Z) (s : cstate) : cstate :=
  if e =? 0 then
    Cstate (g_ctl_ref s) (g_ctl_lock s) (g_ctl_unit s) (g_ctl_connected s) (g_ctl_seq s) (g_ctl_slots s)
      (<[t := set_pc r (Locking i)]> (c_calls s))
      (c_sent s ++ [(unit, CtlReq PROCFS_CTL_MAGIC (rq_seq r) (rq_type r) (rq_pid r) (rq_arg r))])
  else set_call t (set_pc r (Release i e None)) s.

(** What the call takes from its slot after the wait. *)
Definition collect (outcap : Z) (x : procfs_ctl_slot) : Z * option (list Byte.byte) :=
  if done x then
    if error x =? 0 then
      let n := if outcap <? len x then outcap else len x in
      (0, Some (take (Z.to_nat n) (buf x)))
    else (error x, None)
  else (ETIMEDOUT, None).

(** The head of the wait loop ([broke]: msleep returned an error and the loop was
    left). *)
Definition request_wait (t : N) (r : request) (i : nat) (broke : bool) (s : cstate) : option cstate :=
  x ← g_ctl_slots s !! i;
  if negb (done x) && negb broke then Some (set_call t (set_pc r (Asleep i false)) s)
  else let (e, out) := collect (rq_outcap r) x in
       Some (set_call t (set_pc r (Release i e out)) s).

Definition request_release (t : N) (r : request) (i : nat) (e : Z) (out : option (list Byte.byte)) (s : cstate) :
    option cstate :=
  x ← g_ctl_slots s !! i;
  Some (set_call t (set_pc r (Returned e out))
    (with_slots (<[i := CtlSlot false (done x) (seq x) (error x) (len x) (buf x)]> (g_ctl_slots s)) s)).

(** ** Registration *)

(** Which step fails is part of the label; [errno] is what ctl_register returns. *)
Definition procfs_ctl_register (grp_ok mtx_ok : bool) (errno : Z) (s : cstate) : Z * cstate :=
  if grp_ok && mtx_ok && (errno =? 0) then
    (0, Cstate true true (g_ctl_unit s) (g_ctl_connected s) (g_ctl_seq s) (g_ctl_slots s) (c_calls s) (c_sent s))
  else
    (5, Cstate (g_ctl_ref s) false (g_ctl_unit s) (g_ctl_connected s) (g_ctl_seq s) (g_ctl_slots s)
          (c_calls s) (c_sent s)).

Definition procfs_ctl_deregister (s : cstate) : cstate :=
  Cstate false false (g_ctl_unit s) false (g_ctl_seq s) (g_ctl_slots s) (c_calls s) (c_sent s).

(** ** The transition system *)

Inductive label : Type :=
| LRegister (grp_ok mtx_ok : bool) (errno : Z)
| LDeregister
| LConnect (unit : Z)
| LDisconnect
| LReply (m : list Byte.byte)
| LRequest (t : N) (type pid arg outcap : Z)   (** procfs_ctl_request is called *)
| LReserve (t : N)
| LEnqueue (t : N) (e : Z)                     (** ctl_enqueuedata returns [e] *)
| LWait (t : N)
| LWake (t : N) (r : Z)                        (** msleep returns [r] *)
| LRelease (t : N)
| LReturn (t : N).

(** [None]: the step is not possible, or takes a lock that does not exist. *)
Definition step (l : label) (s : cstate) : option cstate :=
  let locked {A} (x : option A) : option A := if g_ctl_lock s then x else None in
  match l with
  | LRegister a b e => if g_ctl_lock s then None else Some (procfs_ctl_register a b e s).2
  | LDeregister => Some (procfs_ctl_deregister s)
  | LConnect u => locked (Some (procfs_ctl_connect u s))
  | LDisconnect => locked (Some (procfs_ctl_disconnect s))
  | LReply m => locked (Some (procfs_ctl_send m s))
  | LRequest t ty pid arg cap =>
    match c_calls s !! t with
    | Some _ => None
    | None =>
      Some (set_call t (Request ty pid arg cap 0
        (if negb (g_ctl_connected s) || negb (g_ctl_ref s) then Returned ENOTCONN None else Reserve)) s)
    end
  | LReserve t =>
    r ← c_calls s !! t;
    match rq_pc r with Reserve => locked (Some (request_reserve t r s)) | _ => None end
  | LEnqueue t e =>
    r ← c_calls s !! t;
    match rq_pc r with Enqueue i u => Some (request_enqueue t r i u e s) | _ => None end
  | LWait t =>
    r ← c_calls s !! t;
    match rq_pc r with Locking i => locked (request_wait t r i false s) | _ => None end
  | LWake t e =>
    r ← c_calls s !! t;
    match rq_pc r with
    | Asleep i woken =>
      if (e =? 0) && negb woken then None else locked (request_wait t r i (negb (e =? 0)) s)
    | _ => None
    end
  | LRelease t =>
    r ← c_calls s !! t;
    match rq_pc r with Release i e out => locked (request_release t r i e out s) | _ => None end
  | LReturn t =>
    r ← c_calls s !! t;
    match rq_pc r with Returned _ _ => Some (with_calls (delete t (c_calls s)) s) | _ => None end
  end.

(** [run ls s]: the labels in the order in which they happen. *)
Fixpoint run (ls : list label) (s : cstate) : option cstate :=
  match ls with [] => Some s | l :: ls' => s' ← step l s; run ls' s' end.

(** [reach ls s]: the labels [ls], in order, lead from the boot state to [s]. *)
Inductive reach : list label -> cstate -> Prop :=
| reach_boot : reach [] ctl_boot
| reach_step ls l s s' : reach ls s -> step l s = Some s' -> reach (ls ++ [l]) s'.

Lemma run_reach ls : forall ls0 s s', reach ls0 s -> run ls s = Some s' -> reach (ls0 ++ ls) s'.
Proof.
  induction ls as [|l ls IH]; intros ls0 s s' Hr Hrun; simpl in Hrun.
  - simplify_eq. by rewrite app_nil_r.
  - destruct (step l s) as [s1|] eqn:E; [|done]. simpl in Hrun.
    change (l :: ls) with ([l] ++ ls). rewrite app_assoc. eapply IH; [|done]. by econstructor.
Qed.

(** ** Invariant *)

Definition slot_of (pc : rpc) : option nat :=
  match pc with
  | Enqueue i _ | Locking i | Asleep i _ | Release i _ _ => Some i
  | Reserve | Returned _ _ => None
  end.

(** What a call has to show for the data it returns: since it took its slot a reply
    arrived that carries its sequence number and reports success; [n] is the length
    the reply states, and if the reply holds that many bytes they are the data. *)
Definition answer_for (q n : Z) (b : list Byte.byte) (m : list Byte.byte) : Prop :=
  let resp := parse_resp m in
  resp_magic resp = PROCFS_CTL_MAGIC ∧ resp_seq resp = q ∧ resp_error resp = 0
  ∧ n = Z.min (resp_len resp) PROCFS_CTL_MAXPAYLOAD
  ∧ (Z.of_nat sizeof_resp + n <= Z.of_nat (length m) ->
     take (Z.to_nat n) b = take (Z.to_nat n) (drop sizeof_resp m)).

Definition answered (ls : list label) (t : N) (q n : Z) (b : list Byte.byte) : Prop :=
  exists l1 l2 m, ls = l1 ++ (LReserve t :: l2) ∧ (LReserve t ∉ l2) ∧ LReply m ∈ l2 ∧ answer_for q n b m.

Definition slot_ok (ls : list label) (t : N) (r : request) (x : procfs_ctl_slot) : Prop :=
  in_use x = true ∧ seq x = rq_seq r
  ∧ (exists l1 l2, ls = l1 ++ (LReserve t :: l2) ∧ LReserve t ∉ l2)
  ∧ (done x = true -> error x = 0 -> answered ls t (rq_seq r) (len x) (buf x))
  ∧ (forall i w, rq_pc r = Asleep i w -> w = done x).

Definition result_ok (ls : list label) (t : N) (r : request) : Prop :=
  match rq_pc r with
  | Release _ e out | Returned e out =>
    match out with
    | None => e ≠ 0
    | Some o => e = 0 ∧ exists n b, answered ls t (rq_seq r) n b
        ∧ o = take (Z.to_nat (Z.min (rq_outcap r) n)) b
    end
  | _ => True
  end.

Definition call_ok (ls : list label) (sl : list procfs_ctl_slot) (t : N) (r : request) : Prop :=
  (forall i, slot_of (rq_pc r) = Some i -> exists x, sl !! i = Some x ∧ slot_ok ls t r x)
  ∧ result_ok ls t r.

Definition owns (s : cstate) (t : N) (i : nat) : Prop :=
  exists r, c_calls s !! t = Some r ∧ slot_of (rq_pc r) = Some i.

Record inv (ls : list label) (s : cstate) : Prop := Inv {
  i_length : length (g_ctl_slots s) = PROCFS_CTL_SLOTS;
  i_calls t r : c_calls s !! t = Some r -> call_ok ls (g_ctl_slots s) t r;
  i_unique t t' i : owns s t i -> owns s t' i -> t = t';
  i_owner i x : g_ctl_slots s !! i = Some x -> in_use x = true -> exists t, owns s t i;
}.

Lemma answered_snoc ls t q n b l : answered ls t q n b -> l ≠ LReserve t -> answered (ls ++ [l]) t q n b.
Proof.
  intros (l1 & l2 & m & -> & Hno & Hm & Ha) Hl. exists l1, (l2 ++ [l]), m.
  split; [by rewrite <- app_assoc|]. split_and!; set_solver.
Qed.

Lemma reserved_snoc ls t l :
  (exists l1 l2, ls = l1 ++ (LReserve t :: l2) ∧ LReserve t ∉ l2) -> l ≠ LReserve t ->
  exists l1 l2, ls ++ [l] = l1 ++ (LReserve t :: l2) ∧ LReserve t ∉ l2.
Proof.
  intros (l1 & l2 & -> & Hno) Hl. exists l1, (l2 ++ [l]). split; [by rewrite <- app_assoc|set_solver].
Qed.

Lemma slot_ok_snoc ls t r x l : slot_ok ls t r x -> l ≠ LReserve t -> slot_ok (ls ++ [l]) t r x.
Proof.
  intros (Hu & Hq & Hres & Hans & Hw) Hl. split_and!; auto using reserved_snoc, answered_snoc.
Qed.

Lemma result_ok_snoc ls t r l : result_ok ls t r -> l ≠ LReserve t -> result_ok (ls ++ [l]) t r.
Proof.
  unfold result_ok. intros H Hl. destruct (rq_pc r) as [| | | |i e [o|]|e [o|]]; auto;
    destruct H as (? & n & b & Ha & ?); eauto 10 using answered_snoc.
Qed.

Lemma call_ok_snoc ls sl t r l : call_ok ls sl t r -> l ≠ LReserve t -> call_ok (ls ++ [l]) sl t r.
Proof.
  intros [Hs Hr] Hl. split; [|by apply result_ok_snoc]. intros i Hi.
  destruct (Hs i Hi) as (x & ? & ?). eauto using slot_ok_snoc.
Qed.

(** A call in the lock-free part holds no reservation of its own: taking a slot
    starts its history. *)
Lemma call_ok_reserve ls sl t r :
  call_ok ls sl t r -> rq_pc r = Reserve -> forall l, call_ok (ls ++ [l]) sl t r.
Proof. intros _ E l. split; [by intros i; rewrite E|]. unfold result_ok. by rewrite E. Qed.

(** ** Preservation *)

(** The step is not a reservation. *)
Definition other_step (l : label) : Prop := forall t, l ≠ LReserve t.

(** Slots and calls change, but not who uses which slot. *)
Lemma inv_update ls l s s' (f : request -> request) :
  inv ls s -> other_step l -> c_calls s' = f <$> c_calls s ->
  (forall r, slot_of (rq_pc (f r)) = slot_of (rq_pc r)) ->
  length (g_ctl_slots s') = length (g_ctl_slots s) ->
  (forall i x', g_ctl_slots s' !! i = Some x' -> exists x, g_ctl_slots s !! i = Some x ∧ in_use x' = in_use x) ->
  (forall t r, call_ok (ls ++ [l]) (g_ctl_slots s) t r -> call_ok (ls ++ [l]) (g_ctl_slots s') t (f r)) ->
  inv (ls ++ [l]) s'.
Proof.
  intros [Hlen Hcalls Huniq Hown] Hl Hc Hslot Hlen' Huse Hok.
  assert (Howns : forall t i, owns s' t i <-> owns s t i).
  { intros t i. unfold owns. rewrite Hc, lookup_fmap. split.
    - intros (r & Hr & Hi). destruct (c_calls s !! t) as [r0|]; [|done]. simplify_eq/=.
      rewrite Hslot in Hi. eauto.
    - intros (r & -> & Hi). exists (f r). by rewrite Hslot. }
  split.
  - congruence.
  - intros t r'. rewrite Hc, lookup_fmap. destruct (c_calls s !! t) as [r|] eqn:E; [|done].
    intros [= <-]. apply Hok, call_ok_snoc; auto.
  - intros t t' i. rewrite !Howns. apply Huniq.
  - intros i x' Hx' Hu. destruct (Huse i x' Hx') as (x & Hx & E). destruct (Hown i x Hx) as [t Ht]; [congruence|].
    exists t. by apply Howns.
Qed.

Lemma inv_frame ls l s s' :
  inv ls s -> other_step l -> g_ctl_slots s' = g_ctl_slots s -> c_calls s' = c_calls s -> inv (ls ++ [l]) s'.
Proof.
  intros Hi Hl Hs Hc. apply (inv_update ls l s s' id); auto.
  - by rewrite Hc, map_fmap_id.
  - by rewrite Hs.
  - rewrite Hs. eauto.
  - by rewrite Hs.
Qed.

(** One call moves on. *)
Lemma ctl_inv_move ls l s s' t r r' :
  inv ls s -> other_step l -> c_calls s !! t = Some r -> c_calls s' = <[t := r']> (c_calls s) ->
  g_ctl_slots s' = g_ctl_slots s -> slot_of (rq_pc r') = slot_of (rq_pc r) ->
  (call_ok (ls ++ [l]) (g_ctl_slots s) t r -> call_ok (ls ++ [l]) (g_ctl_slots s) t r') ->
  inv (ls ++ [l]) s'.
Proof.
  intros [Hlen Hcalls Huniq Hown] Hl Hr Hc Hs Hslot Hok.
  assert (Howns : forall u i, owns s' u i <-> owns s u i).
  { intros u i. unfold owns. rewrite Hc. destruct (decide (t = u)) as [<-|Hne].
    - rewrite lookup_insert_eq, Hr. split; intros (r0 & [= <-] & Hi); eexists; (split; [done|congruence]).
    - by rewrite lookup_insert_ne. }
  split; rewrite ?Hs; auto.
  - intros u r0. rewrite Hc. intros [[<- <-]|[Hne Hu]]%lookup_insert_Some; [apply Hok|]; apply call_ok_snoc; auto.
  - intros u u' i. rewrite !Howns. apply Huniq.
  - intros i x Hx Hu. destruct (Hown i x Hx Hu) as [u ?]. exists u. by apply Howns.
Qed.

(** A call without a slot starts or ends. *)
Lemma inv_request ls l s t r s' :
  inv ls s -> other_step l -> c_calls s !! t = None -> c_calls s' = <[t := r]> (c_calls s) ->
  g_ctl_slots s' = g_ctl_slots s -> slot_of (rq_pc r) = None -> result_ok (ls ++ [l]) t r ->
  inv (ls ++ [l]) s'.
Proof.
  intros [Hlen Hcalls Huniq Hown] Hl Ht Hc Hs Hslot Hres.
  assert (Howns : forall u i, owns s' u i <-> owns s u i).
  { intros u i. unfold owns. rewrite Hc. destruct (decide (t = u)) as [<-|Hne].
    - rewrite lookup_insert_eq, Ht. split; [intros (r0 & [= <-] & Hi); congruence|by intros (r0 & ? & ?)].
    - by rewrite lookup_insert_ne. }
  split; rewrite ?Hs; auto.
  - intros u r0. rewrite Hc. intros [[<- <-]|[Hne Hu]]%lookup_insert_Some.
    + split; [by intros i; rewrite Hslot|done].
    + apply call_ok_snoc; auto.
  - intros u u' i. rewrite !Howns. apply Huniq.
  - intros i x Hx Hu. destruct (Hown i x Hx Hu) as [u ?]. exists u. by apply Howns.
Qed.

Lemma inv_return ls l s t r s' :
  inv ls s -> other_step l -> c_calls s !! t = Some r -> slot_of (rq_pc r) = None ->
  c_calls s' = delete t (c_calls s) -> g_ctl_slots s' = g_ctl_slots s -> inv (ls ++ [l]) s'.
Proof.
  intros [Hlen Hcalls Huniq Hown] Hl Ht Hslot Hc Hs.
  assert (Howns : forall u i, owns s' u i <-> owns s u i).
  { intros u i. unfold owns. rewrite Hc. destruct (decide (t = u)) as [<-|Hne].
    - rewrite lookup_delete_eq, Ht. split; [by intros (r0 & ? & ?)|intros (r0 & [= <-] & Hi); congruence].
    - by rewrite lookup_delete_ne. }
  split; rewrite ?Hs; auto.
  - intros u r0. rewrite Hc. intros [Hne Hu]%lookup_delete_Some. apply call_ok_snoc; auto.
  - intros u u' i. rewrite !Howns. apply Huniq.
  - intros i x Hx Hu. destruct (Hown i x Hx Hu) as [u ?]. exists u. by apply Howns.
Qed.

Lemma find_slot_some p l : forall k i, find_slot p k l = Some i ->
  (k <= i)%nat ∧ exists x, l !! (i - k)%nat = Some x ∧ p x = true.
Proof.
  induction l as [|x l IH]; intros k i; simpl; [done|]. destruct (p x) eqn:E.
  - intros [= <-]. split; [lia|]. exists x. by rewrite Nat.sub_diag.
  - intros (Hle & y & Hy & Hp)%IH. split; [lia|]. exists y. split; [|done].
    by replace (i - k)%nat with (S (i - S k)) by lia.
Qed.

Lemma find_slot_0 p l i : find_slot p 0 l = Some i -> exists x, l !! i = Some x ∧ p x = true.
Proof. intros (_ & x & Hx & Hp)%find_slot_some. rewrite Nat.sub_0_r in Hx. eauto. Qed.

(** Other calls do not see a change of a slot they do not own. *)
Lemma call_ok_other ls sl t r i y :
  call_ok ls sl t r -> slot_of (rq_pc r) ≠ Some i -> call_ok ls (<[i := y]> sl) t r.
Proof.
  intros [Hs Hr] Hne. split; [|done]. intros j Hj. destruct (Hs j Hj) as (x & Hx & ?).
  exists x. rewrite list_lookup_insert_ne by congruence. done.
Qed.

Lemma inv_reserve ls s t r : inv ls s -> c_calls s !! t = Some r -> rq_pc r = Reserve ->
  inv (ls ++ [LReserve t]) (request_reserve t r s).
Proof.
  intros [Hlen Hcalls Huniq Hown] Ht Hpc. unfold request_reserve.
  assert (Hsnoc : forall u ru, u ≠ t -> c_calls s !! u = Some ru -> call_ok (ls ++ [LReserve t]) (g_ctl_slots s) u ru).
  { intros u ru Hu Hru. apply call_ok_snoc; [by apply Hcalls|congruence]. }
  destruct (find_slot _ 0 (g_ctl_slots s)) as [i|] eqn:Ef.
  - apply find_slot_0 in Ef as (x & Hx & Hfree). apply negb_true_iff in Hfree. rewrite Hx.
    assert (Hno : forall u, ¬ owns s u i).
    { intros u (ru & Hru & Hi). destruct (Hcalls u ru Hru) as [Hs _]. destruct (Hs i Hi) as (x' & Hx' & Hu & _). congruence. }
    assert (Howns : forall u j, owns (Cstate (g_ctl_ref s) (g_ctl_lock s) (g_ctl_unit s) (g_ctl_connected s)
        (next_seq (g_ctl_seq s)) (<[i := CtlSlot true false (next_seq (g_ctl_seq s)) 0 0 (buf x)]> (g_ctl_slots s))
        (<[t := set_pc (set_seq r (next_seq (g_ctl_seq s))) (Enqueue i (g_ctl_unit s))]> (c_calls s)) (c_sent s)) u j
        <-> (u = t ∧ j = i) ∨ owns s u j).
    { intros u j. unfold owns. simpl. destruct (decide (t = u)) as [<-|Hne].
      - rewrite lookup_insert_eq, Ht. split.
        + intros (r0 & [= <-] & [= <-]). by left.
        + intros [[_ ->]|(r0 & [= <-] & Hj)]; [by eexists|]. by rewrite Hpc in Hj.
      - rewrite lookup_insert_ne by done. naive_solver. }
    split; simpl.
    + by rewrite length_insert.
    + intros u ru [[<- <-]|[Hne Hu]]%lookup_insert_Some.
      * split; [|done]. intros j [= <-]. eexists. split; [apply list_lookup_insert_eq; by eapply lookup_lt_Some|].
        split_and!; try done. exists ls, []. split; [done|set_solver].
      * apply call_ok_other; [by apply Hsnoc|]. intros E. apply (Hno u). by exists ru.
    + intros u u' j Hu Hu'. apply Howns in Hu as [[-> ->]|Hu], Hu' as [[-> ?]|Hu']; subst; eauto; exfalso; by eapply Hno.
    + intros j y. intros [(<- & <- & _)|[Hne Hy]]%list_lookup_insert_Some Hu.
      * exists t. apply Howns. by left.
      * destruct (Hown j y Hy Hu) as [u ?]. exists u. apply Howns. by right.
  - split; simpl; auto.
    + intros u ru [[<- <-]|[Hne Hu]]%lookup_insert_Some; [by split|]. apply Hsnoc; auto.
    + intros u u' j (ru & Hru & Hj) (ru' & Hru' & Hj'). simpl in *.
      apply lookup_insert_Some in Hru as [[<- <-]|[_ Hru]]; [done|].
      apply lookup_insert_Some in Hru' as [[<- <-]|[_ Hru']]; [done|]. eapply Huniq; by eexists.
    + intros j y Hy Hu. destruct (Hown j y Hy Hu) as (u & ru & Hru & Hj). exists u, ru. simpl.
      rewrite lookup_insert_ne; [done|]. intros <-. rewrite Ht in Hru. simplify_eq. by rewrite Hpc in Hj.
Qed.

Lemma inv_release ls l s t r i e out s' :
  inv ls s -> other_step l -> c_calls s !! t = Some r -> rq_pc r = Release i e out ->
  request_release t r i e out s = Some s' -> inv (ls ++ [l]) s'.
Proof.
  intros [Hlen Hcalls Huniq Hown] Hl Ht Hpc. unfold request_release.
  destruct (g_ctl_slots s !! i) as [x|] eqn:Hx; [|done]. simpl. intros [= <-].
  assert (Hti : owns s t i) by (exists r; by rewrite Hpc).
  assert (Hother : forall u j, u ≠ t -> owns s u j -> j ≠ i) by (intros u j Hu Ho ->; eauto).
  split; simpl.
  - by rewrite length_insert.
  - intros u ru [[<- <-]|[Hne Hu]]%lookup_insert_Some.
    + split; [done|]. destruct (Hcalls t r Ht) as [_ Hr]. unfold result_ok in Hr. rewrite Hpc in Hr.
      apply (result_ok_snoc ls t (set_pc r (Returned e out))); [|done]. exact Hr.
    + apply call_ok_other; [apply call_ok_snoc; auto|]. intros E. by apply (Hother u i); [|exists ru|].
  - intros u u' j (ru & Hru & Hj) (ru' & Hru' & Hj'). simpl in *.
    apply lookup_insert_Some in Hru as [[<- <-]|[_ Hru]]; [done|].
    apply lookup_insert_Some in Hru' as [[<- <-]|[_ Hru']]; [done|]. eapply Huniq; by eexists.
  - intros j y [(<- & <- & _)|[Hne Hy]]%list_lookup_insert_Some Hu; [done|].
    destruct (Hown j y Hy Hu) as (u & ru & Hru & Hj). exists u, ru. simpl. rewrite lookup_insert_ne; [done|].
    intros <-. rewrite Ht in Hru. simplify_eq. rewrite Hpc in Hj. by simplify_eq/=.
Qed.

Lemma wake_slot_of p r : slot_of (rq_pc (wake_call p r)) = slot_of (rq_pc r).
Proof. unfold wake_call. destruct (rq_pc r) eqn:E; rewrite ?E; [done..| |done|done]. case_match; simpl; by rewrite ?E. Qed.

Lemma wake_result ls t p r : result_ok ls t r -> result_ok ls t (wake_call p r).
Proof.
  unfold result_ok, wake_call. destruct (rq_pc r) as [| | |i w| |] eqn:E; rewrite ?E; auto.
  intros _. destruct (p i); simpl; [done|]. by rewrite E.
Qed.

Lemma wake_seq p r : rq_seq (wake_call p r) = rq_seq r.
Proof. unfold wake_call. destruct (rq_pc r); auto. by case_match. Qed.

Lemma wake_asleep p r i w : rq_pc (wake_call p r) = Asleep i w -> exists w0, rq_pc r = Asleep i w0 ∧ w = (p i || w0)%bool.
Proof.
  unfold wake_call. destruct (rq_pc r) as [| | |j w0| |] eqn:E; rewrite ?E; try done.
  destruct (p j) eqn:Ep; simpl; rewrite ?E; intros [= <- <-]; eexists; by rewrite Ep.
Qed.

(** A woken call and its changed slot. *)
Lemma wake_call_ok ls sl sl' t r p :
  call_ok ls sl t r ->
  (forall i x, slot_of (rq_pc r) = Some i -> sl !! i = Some x -> slot_ok ls t r x ->
     exists x', sl' !! i = Some x' ∧ in_use x' = in_use x ∧ seq x' = seq x ∧ done x' = (p i || done x)%bool
       ∧ (done x' = true -> error x' = 0 -> answered ls t (seq x) (len x') (buf x'))) ->
  call_ok ls sl' t (wake_call p r).
Proof.
  intros [Hs Hr] Hsl. split; [|by apply wake_result]. intros i Hi. rewrite wake_slot_of in Hi.
  destruct (Hs i Hi) as (x & Hx & Hok). destruct (Hsl i x Hi Hx Hok) as (x' & Hx' & Hu & Hq & Hd & Ha).
  exists x'. split; [done|]. destruct Hok as (Hu0 & Hq0 & Hres & _ & Hw). unfold slot_ok. rewrite wake_seq.
  split_and!; try congruence; auto.
  - intros ??. rewrite <- Hq0. auto.
  - intros j w Hj. apply wake_asleep in Hj as (w0 & Hj & ->). assert (j = i) as -> by (rewrite Hj in Hi; by simplify_eq/=).
    rewrite Hd. f_equal. eauto.
Qed.

Lemma inv_disconnect ls s : inv ls s -> inv (ls ++ [LDisconnect]) (procfs_ctl_disconnect s).
Proof.
  intros Hi. apply (inv_update ls _ s _ (wake_call (pending_at (g_ctl_slots s)))); auto; simpl.
  - by intros t.
  - intros r. apply wake_slot_of.
  - by rewrite length_fmap.
  - intros i x'. rewrite list_lookup_fmap. destruct (g_ctl_slots s !! i) as [x|]; [|done]. intros [= <-].
    exists x. split; [done|]. unfold fail_slot, pending. by destruct (in_use x) eqn:E, (done x); simpl; rewrite ?E.
  - intros t r Hok. eapply wake_call_ok; [exact Hok|]. intros i x Hs Hx (Hu & Hq & Hres & Ha & _).
    exists (fail_slot x). rewrite list_lookup_fmap, Hx. unfold fail_slot, pending, pending_at. rewrite Hx. unfold pending.
    rewrite Hu. destruct (done x) eqn:Ed; simpl; rewrite ?Ed, ?Hu; split_and!; try done. by rewrite Hq; auto.
Qed.

Lemma copy_payload_take m plen b :
  0 <= plen -> Z.of_nat sizeof_resp + plen <= Z.of_nat (length m) ->
  take (Z.to_nat plen) (copy_payload m plen b) = take (Z.to_nat plen) (drop sizeof_resp m).
Proof.
  intros Hp Hm. unfold copy_payload. rewrite (proj2 (Z.leb_le _ _)) by done. destruct (Z.ltb_spec 0 plen); simpl.
  - rewrite take_app_le by (rewrite length_take, length_drop; unfold sizeof_resp in *; lia).
    by rewrite take_take, Nat.min_id.
  - replace plen with 0 by lia. done.
Qed.

Lemma le_value_nonneg l : 0 <= le_value l.
Proof. induction l as [|b l IH]; simpl; lia. Qed.

Lemma inv_reply ls s m : inv ls s -> inv (ls ++ [LReply m]) (procfs_ctl_send m s).
Proof.
  intros Hi. unfold procfs_ctl_send. cbv zeta. destruct (_ && _)%bool eqn:Eg; [|by eapply inv_frame].
  apply andb_true_iff in Eg as [_ Hmagic]. apply Z.eqb_eq in Hmagic.
  destruct (find_slot _ 0 (g_ctl_slots s)) as [i|] eqn:Ef; [|by eapply inv_frame].
  apply find_slot_0 in Ef as (x & Hx & Hans). rewrite Hx. unfold answers, pending in Hans. b2p.
  set (plen := if _ <? _ then _ else _).
  assert (Hplen : plen = Z.min (resp_len (parse_resp m)) PROCFS_CTL_MAXPAYLOAD ∧ 0 <= plen).
  { subst plen. pose proof (le_value_nonneg (take 4 (drop 12 m))). unfold PROCFS_CTL_MAXPAYLOAD. simpl.
    destruct (Z.ltb_spec 2048 (le_value (take 4 (drop 12 m)))); lia. }
  apply (inv_update ls _ s _ (wake_call (Nat.eqb i))); auto; simpl.
  - by intros t.
  - intros r. apply wake_slot_of.
  - by rewrite length_insert.
  - intros j y [(<- & <- & _)|[Hne Hy]]%list_lookup_insert_Some; eauto.
  - intros t r Hok. eapply wake_call_ok; [exact Hok|]. intros j y Hs Hy (Hu & Hq & (l1 & l2 & Hls & Hno) & Ha & _).
    destruct (decide (i = j)) as [<-|Hne].
    + rewrite Hx in Hy. simplify_eq. eexists. split; [apply list_lookup_insert_eq; by eapply lookup_lt_Some|].
      simpl. rewrite Nat.eqb_refl. split_and!; try done. intros _ He.
      assert (exists l2', l2 = l2' ++ [LReply m]) as [l2' ->].
      { destruct l2 as [|l0 l2] using rev_ind; [by apply app_inj_tail in Hls as [_ ?]|].
        rewrite app_comm_cons, app_assoc in Hls. apply app_inj_tail in Hls as [_ <-]. by eexists. }
      exists l1, (l2' ++ [LReply m]), m. split_and!; try done; [set_solver|]. unfold answer_for.
      destruct Hplen as [Hp1 Hp2]. split_and!; auto. intros Hfit. by apply copy_payload_take.
    + exists y. rewrite list_lookup_insert_ne by done. rewrite (proj2 (Nat.eqb_neq i j)) by done. simpl.
      split_and!; try done. rewrite Hq. auto.
Qed.

Lemma inv_wait ls l s t r i broke s' :
  inv ls s -> other_step l -> c_calls s !! t = Some r -> slot_of (rq_pc r) = Some i ->
  request_wait t r i broke s = Some s' -> inv (ls ++ [l]) s'.
Proof.
  intros Hi Hl Ht Hpc Hw. unfold request_wait in Hw.
  destruct (g_ctl_slots s !! i) as [x|] eqn:Hx; [|done]. simpl in Hw.
  destruct (negb (done x) && negb broke)%bool eqn:Ec.
  - simplify_eq. eapply (ctl_inv_move ls l s _ t r); [done|done|done|reflexivity|reflexivity|by rewrite Hpc|].
    intros [Hs _]. split; [|done]. intros j [= <-]. destruct (Hs i Hpc) as (y & Hy & Hu & Hq & Hres & Ha & _).
    exists y. split; [done|]. rewrite Hx in Hy. simplify_eq. b2p. split_and!; auto. intros j w [= <- <-]. done.
  - destruct (collect (rq_outcap r) x) as [e out] eqn:Ecol. simplify_eq.
    eapply (ctl_inv_move ls l s _ t r); [done|done|done|reflexivity|reflexivity|by rewrite Hpc|].
    intros [Hs _]. destruct (Hs i Hpc) as (y & Hy & Hu & Hq & Hres & Ha & _). rewrite Hx in Hy. simplify_eq. split.
    + intros j [= <-]. exists y. split; [done|]. by split_and!.
    + unfold result_ok. simpl. unfold collect in Ecol.
      destruct (done y); [|by simplify_eq]. destruct (Z.eqb_spec (error y) 0); simplify_eq; [|done].
      split; [done|]. exists (len y), (buf y). split; [auto|]. do 2 f_equal.
      destruct (Z.ltb_spec (rq_outcap r) (len y)); lia.
Qed.

Lemma ctl_inv_step ls l s s' : inv ls s -> step l s = Some s' -> inv (ls ++ [l]) s'.
Proof.
  intros Hi Hs. destruct l as [a b e| | u| |m|t ty pid arg cap|t|t e|t|t e|t|t]; simpl in Hs.
  - destruct (g_ctl_lock s); [done|]. simplify_eq. eapply inv_frame; [done|by intros u| |];
      unfold procfs_ctl_register; by case_match.
  - simplify_eq. by eapply inv_frame.
  - destruct (g_ctl_lock s); [|done]. simplify_eq. by eapply inv_frame.
  - destruct (g_ctl_lock s); [|done]. simplify_eq. by apply inv_disconnect.
  - destruct (g_ctl_lock s); [|done]. simplify_eq. by apply inv_reply.
  - destruct (c_calls s !! t) eqn:Ht; [done|]. simplify_eq.
    eapply inv_request; eauto; simpl; [by intros u|by case_match|].
    unfold result_ok. simpl. by destruct (negb (g_ctl_connected s) || negb (g_ctl_ref s))%bool.
  - destruct (c_calls s !! t) as [r|] eqn:Ht; [|done]. simpl in Hs. destruct (rq_pc r) eqn:Hpc; try done.
    destruct (g_ctl_lock s); [|done]. simplify_eq. by apply inv_reserve.
  - destruct (c_calls s !! t) as [r|] eqn:Ht; [|done]. simpl in Hs. destruct (rq_pc r) as [|i u| | | |] eqn:Hpc; try done.
    simplify_eq. unfold request_enqueue. destruct (Z.eqb_spec e 0);
      (eapply (ctl_inv_move ls _ s _ t r); [done|by intros u'|done|reflexivity|reflexivity|by rewrite Hpc|]); intros [Hs _]; (split; [|done]);
      intros j [= <-]; destruct (Hs i) as (y & Hy & Hu & Hq & Hres & Ha & _); rewrite ?Hpc; auto;
      exists y; (split; [done|]); by split_and!.
  - destruct (c_calls s !! t) as [r|] eqn:Ht; [|done]. simpl in Hs. destruct (rq_pc r) as [| |i| | |] eqn:Hpc; try done.
    destruct (g_ctl_lock s); [|done]. eapply inv_wait; eauto; [by intros u|by rewrite Hpc].
  - destruct (c_calls s !! t) as [r|] eqn:Ht; [|done]. simpl in Hs. destruct (rq_pc r) as [| | |i w| |] eqn:Hpc; try done.
    case_match; [done|]. destruct (g_ctl_lock s); [|done]. eapply inv_wait; eauto; [by intros u|by rewrite Hpc].
  - destruct (c_calls s !! t) as [r|] eqn:Ht; [|done]. simpl in Hs. destruct (rq_pc r) as [| | | |i e out|] eqn:Hpc; try done.
    destruct (g_ctl_lock s); [|done]. eapply inv_release; eauto. by intros u.
  - destruct (c_calls s !! t) as [r|] eqn:Ht; [|done]. simpl in Hs. destruct (rq_pc r) eqn:Hpc; try done.
    simplify_eq. eapply inv_return; eauto; [by intros u|by rewrite Hpc].
Qed.

Lemma boot_calls t r : c_calls ctl_boot !! t = Some r -> False.
Proof. change (c_calls ctl_boot) with (∅ : gmap N request). by rewrite lookup_empty. Qed.

Lemma boot_free i x : g_ctl_slots ctl_boot !! i = Some x -> in_use x = false.
Proof.
  change (g_ctl_slots ctl_boot) with (replicate PROCFS_CTL_SLOTS free_slot). by intros [-> _]%lookup_replicate.
Qed.

Lemma inv_boot : inv [] ctl_boot.
Proof.
  split.
  - done.
  - intros t r Hr. by apply boot_calls in Hr.
  - intros t t' i (r & Hr & _). by apply boot_calls in Hr.
  - intros i x Hx Hu. apply boot_free in Hx. congruence.
Qed.

Lemma inv_reach ls s : reach ls s -> inv ls s.
Proof. induction 1; eauto using inv_boot, ctl_inv_step. Qed.

(** ** Sequence numbers *)

Definition is_reserve (l : label) : bool := match l with LReserve _ => true | _ => false end.
Definition reservations (ls : list label) : Z := Z.of_nat (length (List.filter is_reserve ls)).

(** The sequence numbers in use are different and not above the counter. *)
Record seqs_ok (n : Z) (s : cstate) : Prop := SeqsOk {
  sq_bound : 0 <= g_ctl_seq s <= n;
  sq_slots i x : g_ctl_slots s !! i = Some x -> in_use x = true -> 0 < seq x <= g_ctl_seq s;
  sq_distinct i j x y : g_ctl_slots s !! i = Some x -> g_ctl_slots s !! j = Some y ->
    in_use x = true -> in_use y = true -> seq x = seq y -> i = j;
}.

(** A step that frees slots or leaves them. *)
Lemma seqs_weaken n s s' :
  seqs_ok n s -> g_ctl_seq s' = g_ctl_seq s ->
  (forall i x', g_ctl_slots s' !! i = Some x' -> in_use x' = true ->
     exists x, g_ctl_slots s !! i = Some x ∧ in_use x = true ∧ seq x' = seq x) ->
  seqs_ok n s'.
Proof.
  intros [Hb Hs Hd] Hq Hsl. split.
  - by rewrite Hq.
  - intros i x' Hx' Hu. destruct (Hsl i x' Hx' Hu) as (x & Hx & Hux & ->). rewrite Hq. eauto.
  - intros i j x' y' Hx' Hy' Hux' Huy' E. destruct (Hsl i x' Hx' Hux') as (x & Hx & Hux & Ex),
      (Hsl j y' Hy' Huy') as (y & Hy & Huy & Ey). apply (Hd i j x y); auto. congruence.
Qed.

Lemma seqs_mono n n' s : seqs_ok n s -> n <= n' -> seqs_ok n' s.
Proof. intros [Hb Hs Hd] Hn. split; [lia|done..]. Qed.

Lemma next_seq_small q : 0 <= q < 4294967295 -> next_seq q = q + 1.
Proof. intros Hq. unfold next_seq. rewrite u32_small by lia. by rewrite (proj2 (Z.eqb_neq _ _)) by lia. Qed.

Lemma seqs_reserve n s t r : seqs_ok n s -> n < 4294967295 -> seqs_ok (n + 1) (request_reserve t r s).
Proof.
  intros Hok Hn. unfold request_reserve.
  destruct (find_slot _ 0 (g_ctl_slots s)) as [i|] eqn:Ef; [|apply (seqs_mono n); [|lia]; by apply (seqs_weaken n s); eauto].
  destruct Hok as [Hb Hs Hd]. rewrite next_seq_small by lia.
  assert (Hold : forall j x, <[i := CtlSlot true false (g_ctl_seq s + 1) 0 0
            match g_ctl_slots s !! i with Some x => buf x | None => [] end]> (g_ctl_slots s) !! j = Some x -> in_use x = true ->
            (j = i ∧ seq x = g_ctl_seq s + 1) ∨ (g_ctl_slots s !! j = Some x ∧ 0 < seq x <= g_ctl_seq s)).
  { intros j x [(<- & <- & _)|[_ Hx]]%list_lookup_insert_Some Hu; [by left|right; eauto]. }
  split; simpl.
  - lia.
  - intros j x Hx Hu. destruct (Hold j x Hx Hu) as [[_ E]|[_ E]]; lia.
  - intros j k x y Hx Hy Hux Huy E.
    destruct (Hold j x Hx Hux) as [[-> Ex]|[Hx' Ex]], (Hold k y Hy Huy) as [[-> Ey]|[Hy' Ey]]; try done; try lia. eauto.
Qed.

Lemma seqs_step n l s s' :
  seqs_ok n s -> n < 4294967295 -> step l s = Some s' -> seqs_ok (n + Z.b2z (is_reserve l)) s'.
Proof.
  intros Hok Hn Hs.
  assert (Hsame : g_ctl_seq s' = g_ctl_seq s -> g_ctl_slots s' = g_ctl_slots s -> seqs_ok n s').
  { intros E1 E2. apply (seqs_weaken n s); auto. rewrite E2. eauto. }
  destruct l as [a b e| | u| |m|t ty pid arg cap|t|t e|t|t e|t|t]; simpl in Hs; rewrite ?Z.add_0_r.
  - destruct (g_ctl_lock s); [done|]. simplify_eq. apply Hsame; unfold procfs_ctl_register; by case_match.
  - simplify_eq. by apply Hsame.
  - destruct (g_ctl_lock s); [|done]. simplify_eq. by apply Hsame.
  - destruct (g_ctl_lock s); [|done]. simplify_eq. apply (seqs_weaken n s); auto. simpl.
    intros i x'. rewrite list_lookup_fmap. destruct (g_ctl_slots s !! i) as [x|]; [|done]. intros [= <-].
    unfold fail_slot, pending. destruct (in_use x) eqn:E, (done x); simpl; rewrite ?E; eauto.
  - destruct (g_ctl_lock s); [|done]. simplify_eq. unfold procfs_ctl_send. cbv zeta.
    destruct (_ && _)%bool; [|done]. destruct (find_slot _ 0 _) as [i|]; [|done].
    destruct (g_ctl_slots s !! i) as [x|] eqn:Hx; [|done].
    apply (seqs_weaken n s); auto. simpl. intros j y [(<- & <- & _)|[_ Hy]]%list_lookup_insert_Some Hu; eauto.
  - destruct (c_calls s !! t) eqn:Ht; [done|]. simplify_eq. by apply Hsame.
  - destruct (c_calls s !! t) as [r|] eqn:Ht; [|done]. simpl in Hs. destruct (rq_pc r) eqn:Hpc; try done.
    destruct (g_ctl_lock s); [|done]. simplify_eq. by apply seqs_reserve.
  - destruct (c_calls s !! t) as [r|] eqn:Ht; [|done]. simpl in Hs. destruct (rq_pc r) as [|i u| | | |] eqn:Hpc; try done.
    simplify_eq. unfold request_enqueue in *. case_match; by apply Hsame.
  - destruct (c_calls s !! t) as [r|] eqn:Ht; [|done]. simpl in Hs. destruct (rq_pc r) as [| |i| | |] eqn:Hpc; try done.
    destruct (g_ctl_lock s); [|done]. unfold request_wait in Hs. destruct (g_ctl_slots s !! i); [|done]. simpl in Hs.
    repeat case_match; simplify_eq; by apply Hsame.
  - destruct (c_calls s !! t) as [r|] eqn:Ht; [|done]. simpl in Hs. destruct (rq_pc r) as [| | |i w| |] eqn:Hpc; try done.
    case_match; [done|]. destruct (g_ctl_lock s); [|done]. unfold request_wait in Hs.
    destruct (g_ctl_slots s !! i); [|done]. simpl in Hs. repeat case_match; simplify_eq; by apply Hsame.
  - destruct (c_calls s !! t) as [r|] eqn:Ht; [|done]. simpl in Hs. destruct (rq_pc r) as [| | | |i e out|] eqn:Hpc; try done.
    destruct (g_ctl_lock s); [|done]. unfold request_release in Hs. destruct (g_ctl_slots s !! i) as [x|] eqn:Hx; [|done].
    simplify_eq/=. apply (seqs_weaken n s); auto. simpl.
    intros j y [(<- & <- & _)|[_ Hy]]%list_lookup_insert_Some Hu; eauto. done.
  - destruct (c_calls s !! t) as [r|] eqn:Ht; [|done]. simpl in Hs. destruct (rq_pc r) eqn:Hpc; try done.
    simplify_eq. by apply Hsame.
Qed.

Lemma seqs_reach ls s : reach ls s -> reservations ls < 4294967295 -> seqs_ok (reservations ls) s.
Proof.
  induction 1 as [|ls l s s' Hr IH Hs]; intros Hn.
  - split; [done| |].
    + intros i x Hx%boot_free. congruence.
    + intros i j x y Hx%boot_free. congruence.
  - assert (E : reservations (ls ++ [l]) = reservations ls + Z.b2z (is_reserve l)).
    { unfold reservations. rewrite List.filter_app, length_app. simpl. destruct (is_reserve l); simpl; lia. }
    rewrite E in *. eapply seqs_step; eauto; [apply IH|]; destruct (is_reserve l); simpl in *; lia.
Qed.

(** ** Theorems *)

(** C11. Slots: in every state the interleaved calls and the daemon can reach, a slot in
    use belongs to exactly one call that has not returned and a call waits on a slot
    that is in use under its own sequence number; with fewer than 2^32 - 1 requests
    since the start, no two slots in use have the same number. *)
Theorem ctl_slot_ownership ls s :
  reach ls s ->
  (forall i x, g_ctl_slots s !! i = Some x -> in_use x = true ->
     exists t, owns s t i ∧ forall t', owns s t' i -> t' = t)
  ∧ (forall t r i, c_calls s !! t = Some r -> slot_of (rq_pc r) = Some i ->
       exists x, g_ctl_slots s !! i = Some x ∧ in_use x = true ∧ seq x = rq_seq r)
  ∧ (reservations ls < 4294967295 -> forall i j x y,
       g_ctl_slots s !! i = Some x -> g_ctl_slots s !! j = Some y ->
       in_use x = true -> in_use y = true -> seq x = seq y -> i = j).
Proof.
  intros Hr. pose proof (inv_reach ls s Hr) as [_ Hc Hu Ho]. split_and!.
  - intros i x Hx Hin. destruct (Ho i x Hx Hin) as [t Ht]. eauto.
  - intros t r i Ht Hi. destruct (Hc t r Ht) as [Hs _]. destruct (Hs i Hi) as (x & Hx & Hx1 & Hx2 & _). eauto.
  - intros Hn. apply (sq_distinct _ _ (seqs_reach ls s Hr Hn)).
Qed.

(** C6. Replies reach the call they answer: a call that returns 0 returns the data of a
    reply with the magic number, its own sequence number and error 0 that arrived
    after it had reserved its slot: as many bytes as the reply states, at most what
    the caller has room for, and they are the payload, provided that the reply
    carries as many bytes as it states. *)
Theorem ctl_reply_matches ls s t r out :
  reach ls s -> c_calls s !! t = Some r -> rq_pc r = Returned 0 out ->
  exists l1 l2 m o, ls = l1 ++ (LReserve t :: l2) ∧ LReply m ∈ l2 ∧ out = Some o
    ∧ resp_magic (parse_resp m) = PROCFS_CTL_MAGIC ∧ resp_seq (parse_resp m) = rq_seq r ∧ resp_error (parse_resp m) = 0
    ∧ let n := Z.min (resp_len (parse_resp m)) PROCFS_CTL_MAXPAYLOAD in
      Z.of_nat sizeof_resp + n <= Z.of_nat (length m) ->
      o = take (Z.to_nat (Z.min (rq_outcap r) n)) (drop sizeof_resp m).
Proof.
  intros Hr Ht Hpc. destruct (i_calls _ _ (inv_reach ls s Hr) t r Ht) as [_ Hres]. unfold result_ok in Hres.
  rewrite Hpc in Hres. destruct out as [o|]; [|done].
  destruct Hres as (_ & n & b & (l1 & l2 & m & -> & _ & Hm & Hmag & Hseq & Herr & -> & Hb) & ->).
  exists l1, l2, m. eexists. split_and!; eauto. intros n Hfit.
  replace (Z.to_nat (Z.min (rq_outcap r) (Z.min (resp_len (parse_resp m)) PROCFS_CTL_MAXPAYLOAD)))
    with (Z.to_nat (Z.min (rq_outcap r) n) `min` Z.to_nat n)%nat by (subst n; lia).
  specialize (Hb Hfit). fold n in Hb. rewrite <- take_take, Hb, take_take. f_equal. lia.
Qed.

(** The steps of a call. *)
Definition own_step (t : N) (l : label) : Prop :=
  l = LReserve t ∨ (exists e, l = LEnqueue t e) ∨ l = LWait t ∨ (exists e, l = LWake t e) ∨ l = LRelease t.

(** A bound on the steps a call still has to take. *)
Definition steps_left (pc : rpc) : nat :=
  match pc with
  | Reserve => 5 | Enqueue _ _ => 4 | Locking _ => 3 | Asleep _ _ => 2 | Release _ _ _ => 1 | Returned _ _ => 0
  end.

(** EWOULDBLOCK, the timeout of msleep. *)
Definition EWOULDBLOCK : Z := 35.

Lemma wait_steps s t r i broke s' :
  request_wait t r i broke s = Some s' ->
  (forall x, g_ctl_slots s !! i = Some x -> done x = true ∨ broke = true ∨ (2 < steps_left (rq_pc r))%nat) ->
  (1 < steps_left (rq_pc r))%nat ->
  exists r', c_calls s' !! t = Some r' ∧ (steps_left (rq_pc r') < steps_left (rq_pc r))%nat.
Proof.
  unfold request_wait. intros Hw Hx Hb. destruct (g_ctl_slots s !! i) as [x|]; [|done]. simpl in Hw.
  destruct (_ && _)%bool eqn:E; [|destruct (collect _ x) as [e out]]; simplify_eq; simpl; rewrite lookup_insert_eq;
    (eexists; split; [done|]); simpl; [|lia].
  b2p. destruct (Hx x eq_refl) as [Hd|[Hd|Hd]]; [congruence..|lia].
Qed.

(** C22. Termination: each own step of a call brings it nearer to its return, which it reaches
    after at most five, whatever the daemon does; a woken call finds its reply and does
    not sleep again; and as long as the bridge is registered (its lock exists) a call that
    has not returned can take a step (a sleeping one because its timeout passes).  A call in
    flight when the lock is freed may be stuck: [ctl_deregister_in_flight]. *)
Theorem ctl_request_terminates ls s t r :
  reach ls s -> c_calls s !! t = Some r ->
  (forall l s', own_step t l -> step l s = Some s' ->
     exists r', c_calls s' !! t = Some r' ∧ (steps_left (rq_pc r') < steps_left (rq_pc r))%nat)
  ∧ (g_ctl_lock s = true -> (forall e out, rq_pc r ≠ Returned e out) ->
     exists l s', own_step t l ∧ step l s = Some s').
Proof.
  intros Hr Ht. pose proof (i_calls _ _ (inv_reach ls s Hr) t r Ht) as [Hslot _]. split.
  - intros l s' Hl Hs. destruct Hl as [->|[(e & ->)|[->|[(e & ->)| ->]]]]; simpl in Hs; rewrite Ht in Hs; simpl in Hs;
      destruct (rq_pc r) as [|i u|i|i w|i e' out|] eqn:Hpc; try done.
    + destruct (g_ctl_lock s); [|done]. simplify_eq. unfold request_reserve. case_match; simpl; rewrite lookup_insert_eq;
        eexists; (split; [done|]); simpl; lia.
    + simplify_eq. unfold request_enqueue. case_match; simpl; rewrite lookup_insert_eq; eexists; (split; [done|]); simpl; lia.
    + destruct (g_ctl_lock s); [|done]. rewrite <- Hpc. eapply wait_steps; [done| |]; rewrite Hpc; simpl; [|lia].
      intros; right; right; lia.
    + destruct (Hslot i eq_refl) as (x & Hx & _ & _ & _ & _ & Hw). specialize (Hw i w Hpc).
      case_match eqn:Ec; [done|]. destruct (g_ctl_lock s); [|done]. rewrite <- Hpc.
      eapply wait_steps; [done| |]; rewrite Hpc; simpl; [|lia].
      intros y Hy. rewrite Hx in Hy. simplify_eq. destruct (e =? 0); simpl in *; [left; by destruct (done y)|auto].
    + destruct (g_ctl_lock s); [|done]. unfold request_release in Hs. destruct (g_ctl_slots s !! i); [|done].
      simplify_eq/=. rewrite lookup_insert_eq. eexists; (split; [done|]); simpl; lia.
  - intros Hlock Hnr. destruct (rq_pc r) as [|i u|i|i w|i e' out|e' out] eqn:Hpc.
    + exists (LReserve t). simpl. rewrite Ht. simpl. rewrite Hpc, Hlock. eexists. split; [by left|done].
    + exists (LEnqueue t 0). simpl. rewrite Ht. simpl. rewrite Hpc. eexists. split; [right; left; by eexists|done].
    + destruct (Hslot i eq_refl) as (x & Hx & _). exists (LWait t). simpl. rewrite Ht. simpl. rewrite Hpc, Hlock.
      unfold request_wait. rewrite Hx. simpl. destruct (_ && _)%bool; [|destruct (collect _ x)];
        (eexists; split; [right; right; by left|done]).
    + destruct (Hslot i eq_refl) as (x & Hx & _). exists (LWake t EWOULDBLOCK). simpl. rewrite Ht. simpl. rewrite Hpc, Hlock.
      unfold request_wait. rewrite Hx. simpl. rewrite andb_false_r. destruct (collect _ x).
      eexists; split; [right; right; right; left; by eexists|done].
    + destruct (Hslot i eq_refl) as (x & Hx & _). exists (LRelease t). simpl. rewrite Ht. simpl. rewrite Hpc, Hlock.
      unfold request_release. rewrite Hx. eexists; split; [by do 4 right|done].
    + by destruct (Hnr e' out).
Qed.

(** Disconnecting wakes the sleepers: a sleeping call whose reply has not come returns
    ENOTCONN without waiting for its timeout. *)
Theorem ctl_disconnect_wakes ls s t r i :
  reach ls s -> c_calls s !! t = Some r -> rq_pc r = Asleep i false -> g_ctl_lock s = true ->
  exists s' r', run [LDisconnect; LWake t 0; LRelease t] s = Some s'
    ∧ c_calls s' !! t = Some r' ∧ rq_pc r' = Returned ENOTCONN None.
Proof.
  intros Hr Ht Hpc Hlock. destruct (i_calls _ _ (inv_reach ls s Hr) t r Ht) as [Hslot _].
  destruct (Hslot i) as (x & Hx & Hu & _ & _ & _ & Hw); [by rewrite Hpc|]. specialize (Hw i false Hpc).
  simpl. rewrite Hlock. simpl. rewrite lookup_fmap, Ht. simpl. unfold wake_call at 1. rewrite Hpc.
  unfold pending_at, pending. rewrite Hx, Hu, <- Hw. simpl. rewrite Hlock.
  unfold request_wait. simpl. rewrite list_lookup_fmap, Hx. unfold fail_slot, pending. simpl. rewrite Hu, <- Hw. simpl.
  rewrite lookup_insert_eq. simpl. rewrite Hlock. unfold request_release. simpl. rewrite list_lookup_fmap, Hx. simpl.
  eexists _, _. split; [reflexivity|]. simpl. by rewrite lookup_insert_eq.
Qed.

(** ** Examples *)

Definition after (ls : list label) : cstate := default ctl_boot (run ls ctl_boot).

Lemma reach_after ls : bool_decide (is_Some (run ls ctl_boot)) = true -> reach ls (after ls).
Proof.
  intros [s E]%bool_decide_eq_true. unfold after. rewrite E. exact (run_reach ls [] ctl_boot s reach_boot E).
Qed.

Definition call_steps (t : N) (m : list Byte.byte) : list label :=
  [LRequest t 1 501 0 96; LReserve t; LEnqueue t 0; LWait t; LReply m; LWake t 0; LRelease t].

Definition one_call : list label :=
  [LRegister true true 0; LConnect 1] ++ call_steps 7 (reply 1 0 2 [Byte.xaa; Byte.xbb]).

Definition asleep : list label := take 6 one_call.

Lemma ctl_slot_ownership_witness :
  exists t, owns (after asleep) t 0 ∧ forall t', owns (after asleep) t' 0 -> t' = t.
Proof.
  destruct (ctl_slot_ownership asleep (after asleep)) as [H _]; [apply reach_after; vm_compute; reflexivity|].
  eapply (H 0%nat); [vm_compute; reflexivity|]. reflexivity.
Defined.

Lemma ctl_reply_matches_witness :
  exists l1 l2 m o, one_call = l1 ++ (LReserve 7 :: l2) ∧ LReply m ∈ l2 ∧ Some [Byte.xaa; Byte.xbb] = Some o.
Proof.
  destruct (ctl_reply_matches one_call (after one_call) 7%N
    (Request 1 501 0 96 1 (Returned 0 (Some [Byte.xaa; Byte.xbb]))) (Some [Byte.xaa; Byte.xbb]))
    as (l1 & l2 & m & o & E & Hm & Ho & _).
  - apply reach_after. vm_compute. reflexivity.
  - vm_compute. reflexivity.
  - reflexivity.
  - by exists l1, l2, m, o.
Defined.

Lemma ctl_request_terminates_witness :
  exists l s', own_step 7 l ∧ step l (after asleep) = Some s'.
Proof.
  eapply (ctl_request_terminates asleep (after asleep) 7%N (Request 1 501 0 96 1 (Asleep 0 false))).
  - apply reach_after. vm_compute. reflexivity.
  - vm_compute. reflexivity.
  - vm_compute. reflexivity.
  - done.
Defined.

(** A reply that states a length but carries no payload hands out what an earlier reply
    left in the slot: here the data of the first call. *)
Theorem ctl_stale_payload :
  exists s r, run (one_call ++ [LReturn 7] ++ call_steps 8 (reply 2 0 2 [])) ctl_boot = Some s
    ∧ c_calls s !! 8%N = Some r ∧ rq_pc r = Returned 0 (Some [Byte.xaa; Byte.xbb]).
Proof.
  eexists _, _. split; [vm_compute; reflexivity|]. split; vm_compute; reflexivity.
Qed.

(** Deregistering frees the lock a sleeping call takes when msleep returns: none of its
    steps is possible any more. *)
Theorem ctl_deregister_in_flight :
  exists s r, run (asleep ++ [LDeregister]) ctl_boot = Some s ∧ c_calls s !! 7%N = Some r
    ∧ rq_pc r = Asleep 0 false ∧ forall l, own_step 7 l -> step l s = None.
Proof.
  eexists _, _. split; [vm_compute; reflexivity|]. split; [vm_compute; reflexivity|]. split; [done|].
  intros l [->|[(e & ->)|[->|[(e & ->)| ->]]]]; try (vm_compute; reflexivity).
  cbn [step c_calls]. change (_ !! 7%N) with (Some (Request 1 501 0 96 1 (Asleep 0 false))). simpl. by case_match.
Qed.
