(* ===== verification/Bridge.v ===== *)
(** * What the control bridge promises to the nodes

    The handlers of the nodes see the bridge through one call, procfs_ctl_request: it
    returns an error, or the payload of the daemon's reply, cut to the room the caller has.
    The handlers are modelled against this interface; the transition system of [Ctl]
    provides it. *)

From S2P Require Import Prelude Kernel Ctl.

Definition PROCFS_REQ_TASKINFO : Z := 1.
Definition PROCFS_REQ_THREADINFO : Z := 2.
Definition PROCFS_REQ_VMSTAT : Z := 3.
Definition PROCFS_REQ_LOADAVG : Z := 4.
Definition PROCFS_REQ_REGS : Z := 5.
Definition PROCFS_REQ_FPREGS : Z := 6.

(** The result of a request made at a time: request type, process, argument, capacity. *)
Class CtlOps := { ctl_request_at : nat -> Z -> Z -> Z -> nat -> Z + list Byte.byte }.

Class CtlLaws `{CtlOps} : Prop := {
  ctl_error t ty pid arg cap e : ctl_request_at t ty pid arg cap = inl e -> e ≠ 0;
  ctl_capacity t ty pid arg cap out : ctl_request_at t ty pid arg cap = inr out -> (length out <= cap)%nat;
}.

Definition ctl_request `{CtlOps} (ty pid arg : Z) (cap : nat) : K (Z + list Byte.byte) :=
  t ← now; mret (ctl_request_at t ty pid arg cap).

(** [procfs_ctl_request(...) == 0 && got == sizeof]: a complete reply. *)
Definition whole (cap : nat) (r : Z + list Byte.byte) : option (list Byte.byte) :=
  match r with inr out => if (length out =? cap)%nat then Some out else None | inl _ => None end.

Lemma whole_length cap r out : whole cap r = Some out -> length out = cap.
Proof. destruct r as [|o]; simpl; [done|]. destruct (Nat.eqb_spec (length o) cap); [by intros [= <-]|done]. Qed.

(** ** The transition system keeps the promise *)

Definition payload_room (x : procfs_ctl_slot) : Prop :=
  length (buf x) = Z.to_nat PROCFS_CTL_MAXPAYLOAD ∧ 0 <= len x <= PROCFS_CTL_MAXPAYLOAD.

Lemma room_insert i x l : payload_room x -> Forall payload_room l -> Forall payload_room (<[i := x]> l).
Proof. intros Hx Hl. by apply Forall_insert. Qed.

Lemma room_lookup i x l : l !! i = Some x -> Forall payload_room l -> payload_room x.
Proof. intros Hx Hl. by eapply Forall_lookup_1. Qed.

Lemma copy_payload_length m plen b :
  0 <= plen <= Z.of_nat (length b) -> length (copy_payload m plen b) = length b.
Proof.
  intros Hp. unfold copy_payload. case_match eqn:E; [|done]. b2p. unfold sizeof_resp in *.
  rewrite length_app, length_take, !length_drop. lia.
Qed.

Lemma resp_len_nonneg m : 0 <= resp_len (parse_resp m).
Proof. apply le_value_nonneg. Qed.

Lemma room_step l s s' :
  step l s = Some s' -> Forall payload_room (g_ctl_slots s) -> Forall payload_room (g_ctl_slots s').
Proof.
  intros Hs Hr. destruct l; simpl in Hs.
  - destruct (g_ctl_lock s); [done|]. simplify_eq. unfold procfs_ctl_register. by case_match.
  - by simplify_eq.
  - destruct (g_ctl_lock s); by simplify_eq.
  - destruct (g_ctl_lock s); simplify_eq. cbn [procfs_ctl_disconnect with_calls with_slots g_ctl_slots].
    apply Forall_fmap. eapply Forall_impl; [exact Hr|]. intros x [Hb Hl]. unfold compose, fail_slot. by case_match.
  - destruct (g_ctl_lock s); simplify_eq. unfold procfs_ctl_send. case_match; [|done].
    case_match; [|done]. case_match eqn:Ex; [|done]. cbn [with_calls with_slots g_ctl_slots].
    destruct (room_lookup _ _ _ Ex Hr) as [Hb Hl]. pose proof (resp_len_nonneg m) as Hn.
    set (plen := if _ <? _ then _ else _). assert (Hp : 0 <= plen <= PROCFS_CTL_MAXPAYLOAD).
    { subst plen. case_match; b2p; unfold PROCFS_CTL_MAXPAYLOAD in *; lia. }
    apply room_insert; [|done]. split; [|done]. cbn [buf]. rewrite copy_payload_length; [done|].
    rewrite Hb. unfold PROCFS_CTL_MAXPAYLOAD in *. lia.
  - by case_match; simplify_eq.
  - destruct (c_calls s !! t) as [r|]; [|done]. simpl in Hs. destruct (rq_pc r), (g_ctl_lock s); simplify_eq.
    unfold request_reserve. case_match eqn:Ef; [|done]. cbn [g_ctl_slots]. apply room_insert; [|done].
    apply find_slot_0 in Ef as (x & Ex & _). rewrite Ex.
    destruct (room_lookup _ _ _ Ex Hr) as [Hb _]. split; [done|]. cbn [len]. unfold PROCFS_CTL_MAXPAYLOAD. lia.
  - destruct (c_calls s !! t) as [r|]; [|done]. simpl in Hs. destruct (rq_pc r); simplify_eq.
    unfold request_enqueue. by case_match.
  - destruct (c_calls s !! t) as [r|]; [|done]. simpl in Hs. destruct (rq_pc r), (g_ctl_lock s); simplify_eq.
    unfold request_wait in Hs. destruct (_ !! _); [|done]. simpl in Hs. case_match; [by simplify_eq|].
    destruct (collect _ _). by simplify_eq.
  - destruct (c_calls s !! t) as [r'|]; [|done]. simpl in Hs. destruct (rq_pc r'); try done. case_match; [done|].
    destruct (g_ctl_lock s); [|done]. unfold request_wait in Hs. destruct (_ !! _); [|done]. simpl in Hs.
    case_match; [by simplify_eq|]. destruct (collect _ _). by simplify_eq.
  - destruct (c_calls s !! t) as [r|]; [|done]. simpl in Hs. destruct (rq_pc r), (g_ctl_lock s); simplify_eq.
    unfold request_release in Hs. destruct (_ !! _) as [x|] eqn:Ex; [|done]. simplify_eq/=.
    apply room_insert; [|done]. exact (room_lookup _ _ _ Ex Hr).
  - destruct (c_calls s !! t) as [r|]; [|done]. simpl in Hs. by destruct (rq_pc r); simplify_eq.
Qed.

Lemma room_reach ls s : reach ls s -> Forall payload_room (g_ctl_slots s).
Proof.
  induction 1 as [|ls l s s' _ IH Hs]; [|by eapply room_step].
  apply Forall_replicate. split; [apply length_replicate|]. cbn [free_slot len]. unfold PROCFS_CTL_MAXPAYLOAD. lia.
Qed.

Lemma returned_length ls s t r o :
  reach ls s -> c_calls s !! t = Some r -> rq_pc r = Returned 0 (Some o) ->
  Z.of_nat (length o) <= Z.max 0 (Z.min (rq_outcap r) PROCFS_CTL_MAXPAYLOAD).
Proof.
  intros Hr Ht Hpc. destruct (i_calls _ _ (inv_reach ls s Hr) t r Ht) as [_ Hres]. unfold result_ok in Hres.
  rewrite Hpc in Hres. destruct Hres as (_ & n & b & (l1 & l2 & m & _ & _ & _ & _ & _ & _ & -> & _) & ->).
  rewrite length_take. unfold PROCFS_CTL_MAXPAYLOAD. lia.
Qed.

(** C26. No reply overruns a buffer: whatever messages the daemon sends, the payload area of
    every slot keeps its 2048 bytes and the length noted for it stays within them, and a
    request that returns data returns at most the bytes its caller has room for. *)
Theorem ctl_payload_bounded ls s :
  reach ls s ->
  Forall payload_room (g_ctl_slots s)
  ∧ forall t r o, c_calls s !! t = Some r -> rq_pc r = Returned 0 (Some o) -> 0 <= rq_outcap r ->
      Z.of_nat (length o) <= Z.min (rq_outcap r) PROCFS_CTL_MAXPAYLOAD.
Proof.
  intros Hr. split; [by eapply room_reach|]. intros t r o Ht Hpc Hcap.
  pose proof (returned_length ls s t r o Hr Ht Hpc). unfold PROCFS_CTL_MAXPAYLOAD in *. lia.
Qed.

Lemma ctl_payload_bounded_witness :
  Forall payload_room (g_ctl_slots (after one_call)) ∧ Z.of_nat (length [Byte.xaa; Byte.xbb]) <= Z.min 96 2048.
Proof.
  destruct (ctl_payload_bounded one_call (after one_call)) as [H1 H2]; [apply reach_after; vm_compute; reflexivity|].
  split; [exact H1|].
  apply (H2 7%N (Request 1 501 0 96 1 (Returned 0 (Some [Byte.xaa; Byte.xbb]))));
    [vm_compute; reflexivity|reflexivity|by vm_compute].
Defined.

(** The requests of handlers are calls of a reachable state: [serve t] is the call that
    stands for the request made at [t]. *)
Definition served (s : cstate) (serve : nat -> N) : CtlOps := {|
  ctl_request_at t ty pid arg cap :=
    match c_calls s !! serve t with
    | Some (Request ty' pid' arg' cap' _ (Returned e out)) =>
      if bool_decide ((ty', pid', arg', cap') = (ty, pid, arg, Z.of_nat cap)) then
        match out with Some o => inr o | None => inl e end
      else inl ENOTCONN
    | _ => inl ENOTCONN
    end |}.

#[export] Instance served_laws ls s serve : reach ls s -> @CtlLaws (served s serve).
Proof.
  intros Hr. split; intros t ty pid arg cap; simpl; destruct (c_calls s !! serve t) as [r|] eqn:Ht;
    try (intros; simplify_eq; done); pose proof (i_calls _ _ (inv_reach ls s Hr) _ r Ht) as [_ Hres];
    destruct r as [ty' pid' arg' cap' q [|?|?|?|?|e' o']]; try (intros; simplify_eq; done);
    case_bool_decide as Hb; try (intros; simplify_eq; done); destruct o' as [o|]; intros; simplify_eq.
  - done.
  - destruct Hres as [-> _]. pose proof (returned_length ls s _ _ out Hr Ht eq_refl). simpl in *. lia.
Qed.
