(* ===== verification/Loadavg.v ===== *)
(** * Load averages (kext/procfs_linux.c, kext/lib/kern.c)

    A timer samples the tick counters of the processors and folds the utilisation into
    three averages; the node loadavg prints them, or what the daemon reports.  The nodes
    loadavg and version copy their text out without procfs_copy_data, by an arithmetic of
    their own on the offset inside a page. *)

From S2P Require Import Prelude Kernel Structure Subr Bridge.

Definition FSHIFT : Z := 11.
Definition FSCALE : Z := 2048.
Definition LBFSZ : Z := 8192.

(** processor_cpu_load_info: 32-bit counters. *)
Record cpu_ticks := CpuTicks { tk_user : Z; tk_system : Z; tk_idle : Z; tk_nice : Z }.

(** The load of processor [i]: [None] when there is no such processor or its counters
    cannot be read. *)
Definition cpu_load := nat -> option cpu_ticks.

Definition la_cexp : list Z := [1884; 2014; 2037].

(** The static variables of the sampler and [averunnable]; [la_armed]: the timer is
    pending; [la_running]: its callback runs. *)
Record la_state := LaState {
  la_call : bool; la_armed : bool; la_running : bool;
  la_ncpu : Z; la_busy : Z; la_idle : Z; la_primed : bool;
  ldavg : list Z; fscale : Z }.

Definition la_boot : la_state := LaState false false false 0 0 0 false [0; 0; 0] FSCALE.

(** ** Sampling *)

Fixpoint sum_ticks (load : cpu_load) (i n : nat) (busy idle : Z) : Z * Z :=
  match n with
  | O => (busy, idle)
  | S n' =>
    match load i with
    | None => sum_ticks load (S i) n' busy idle
    | Some k =>
      sum_ticks load (S i) n' (u64 (busy + u64 (u64 (tk_user k + tk_system k) + tk_nice k))) (u64 (idle + tk_idle k))
    end
  end.

(** The instantaneous load in fixed point. *)
Definition la_nrun (ncpu dbusy didle : Z) : Z :=
  let total := u64 (dbusy + didle) in
  if 0 <? total then u32 (u64 (u64 (dbusy * ncpu) * FSCALE) / total) else 0.

(** One step of an average. *)
Definition la_fold (nrun c old : Z) : Z :=
  u32 (Z.shiftr (u64 (u64 (c * old) + u64 (nrun * u32 (FSCALE - c)))) FSHIFT).

Definition la_sample (load : cpu_load) (s : la_state) : la_state :=
  let (busy, idle) := sum_ticks load 0 (Z.to_nat (la_ncpu s)) 0 0 in
  if negb (la_primed s) then
    LaState (la_call s) (la_armed s) (la_running s) (la_ncpu s) busy idle true (ldavg s) (fscale s)
  else
    let dbusy := u64 (busy - la_busy s) in
    let didle := u64 (idle - la_idle s) in
    let nrun := la_nrun (la_ncpu s) dbusy didle in
    LaState (la_call s) (la_armed s) (la_running s) (la_ncpu s) busy idle (la_primed s)
      (zip_with (la_fold nrun) la_cexp (ldavg s)) FSCALE.

(** ** The timer *)

Definition la_set (call armed running : bool) (s : la_state) : la_state :=
  LaState call armed running (la_ncpu s) (la_busy s) (la_idle s) (la_primed s) (ldavg s) (fscale s).

(** [resolved]: cpu_to_processor was found; [ncpu]: hw.logicalcpu, when it can be read;
    [alloc]: thread_call_allocate succeeds. *)
Definition procfs_loadavg_start (resolved : bool) (ncpu : option Z) (alloc : bool) (load : cpu_load) (s : la_state) :
    la_state :=
  if la_call s || negb resolved then s else
  let n := match ncpu with Some n => if 0 <? n then n else 1 | None => 1 end in
  let s1 := LaState false (la_armed s) (la_running s) n (la_busy s) (la_idle s) (la_primed s) (ldavg s) FSCALE in
  if alloc then la_set true true (la_running s) (la_sample load (la_set true (la_armed s) (la_running s) s1)) else s1.

(** The cancellation does not wait for a callback that is already running. *)
Definition procfs_loadavg_stop (s : la_state) : la_state :=
  if la_call s then la_set false false (la_running s) s else s.

(** The callback: the timer fires, samples, and arms itself again; [None]: it passes a
    NULL call to thread_call_enter_delayed. *)
Definition la_timer_fire (s : la_state) : option la_state :=
  if la_armed s then Some (la_set (la_call s) false true s) else None.
Definition la_timer (load : cpu_load) (s : la_state) : option la_state :=
  if la_running s then
    let s1 := la_sample load s in
    if la_call s1 then Some (la_set true true false s1) else None
  else None.

(** ** The nodes *)

(** [%02d] *)
Definition fmt_02d (z : Z) : string := if (0 <=? z) && (z <? 10) then "0" +:+ fmt_d z else fmt_d z.

(** A load in hundredths, as printed. *)
Definition fmt_load (z : Z) : string := fmt_d (Z.quot z 100) +:+ "." +:+ fmt_02d (Z.rem z 100).

Definition loadavg_text (load1 load5 load15 total_procs : Z) : string :=
  fmt_load load1 +:+ " " +:+ fmt_load load5 +:+ " " +:+ fmt_load load15 +:+ " 1/" +:+ fmt_d total_procs +:+ " 0" +:+ nl.

(** The average in hundredths. *)
Definition scaled_load (fscale v : Z) : Z :=
  s32 (u64 (v * 100) / (if 0 <? fscale then fscale else FSCALE)).

Section Nodes.
Context `{KernelOps} `{PageSize} `{UioOps} `{CtlOps}.

(** The text printed into a buffer of [LBFSZ] bytes, and the copy that starts at the
    beginning of the buffer and is shorter by the offset inside the page. *)
Definition page_move (text : string) (uio : uio_t) : option (Z * uio_t) :=
  let buf := bytes_of_string (snprintf (Z.to_nat LBFSZ) text) ++ [Byte.x00] in
  let len := Z.of_nat (String.length text) in
  let off := u64 (uio_offset uio) in
  let pgno := Z.land off (Z.lnot PAGE_MASK) in
  let xlen := s32 (len - (off - pgno)) in
  uiomove_from buf 0 xlen uio.

(** [None] in the result: the copy leaves the buffer, or the buffer could not be
    allocated (the code does not test). *)
Definition with_page_buffer (m : K string) (uio : uio_t) : K (option (Z * uio_t)) :=
  ok ← OSMalloc (LBFSZ);
  text ← m;
  if (ok : bool) then
    let r := page_move text uio in
    _ ← OSFree (LBFSZ); mret r
  else mret None.

Definition local_loads (s : la_state) : list Z := scaled_load (fscale s) <$> ldavg s.

Definition procfs_doloadavg (s : la_state) (creds : kauth_cred_t) (uio : uio_t) : K (option (Z * uio_t)) :=
  with_page_buffer (
    r ← ctl_request PROCFS_REQ_LOADAVG 0 0 12;
    let loads := match whole 12 r with
      | Some la => [s32 (le_value (take 4 la)); s32 (le_value (take 4 (drop 4 la))); s32 (le_value (take 4 (drop 8 la)))]
      | None => local_loads s
      end in
    total_procs ← procfs_get_process_count creds;
    mret (loadavg_text (nth 0 loads 0) (nth 1 loads 0) (nth 2 loads 0) total_procs)) uio.

Definition procfs_doversion (version : string) (uio : uio_t) : K (option (Z * uio_t)) :=
  with_page_buffer (mret (version +:+ nl)) uio.

End Nodes.

(** ** The averages *)

Definition busy_of (o : option cpu_ticks) : Z :=
  match o with Some k => tk_user k + tk_system k + tk_nice k | None => 0 end.
Definition idle_of (o : option cpu_ticks) : Z := match o with Some k => tk_idle k | None => 0 end.

(** The sum over the processors [i], ..., [i + n - 1]. *)
Fixpoint total_of (f : option cpu_ticks -> Z) (load : cpu_load) (i n : nat) : Z :=
  match n with O => 0 | S n' => f (load i) + total_of f load (S i) n' end.

(** 32-bit counters. *)
Definition ticks_ok (load : cpu_load) : Prop :=
  forall i k, load i = Some k -> 0 <= tk_user k < 4294967296 ∧ 0 <= tk_system k < 4294967296
    ∧ 0 <= tk_idle k < 4294967296 ∧ 0 <= tk_nice k < 4294967296.

(** No counter of a processor goes back from one sample to the next. *)
Definition grows (n : nat) (load load' : cpu_load) : Prop :=
  forall i, (i < n)%nat -> busy_of (load i) <= busy_of (load' i) ∧ idle_of (load i) <= idle_of (load' i).

Lemma ticks_range load i : ticks_ok load -> 0 <= busy_of (load i) < 12884901888 ∧ 0 <= idle_of (load i) < 4294967296.
Proof. intros Hok. destruct (load i) as [k|] eqn:E; simpl; [|lia]. destruct (Hok i k E) as (? & ? & ? & ?). lia. Qed.

Lemma total_range load n i : ticks_ok load ->
  0 <= total_of busy_of load i n <= Z.of_nat n * 12884901888 ∧ 0 <= total_of idle_of load i n <= Z.of_nat n * 4294967296.
Proof.
  intros Hok. revert i. induction n as [|n IH]; intros i; cbn [total_of]; [lia|].
  pose proof (ticks_range load i Hok). specialize (IH (S i)). lia.
Qed.

Lemma sum_ticks_total load n : forall i busy idle, ticks_ok load -> (n <= 512)%nat ->
  0 <= busy <= 2 ^ 62 - Z.of_nat n * 12884901888 -> 0 <= idle <= 2 ^ 62 - Z.of_nat n * 12884901888 ->
  sum_ticks load i n busy idle = (busy + total_of busy_of load i n, idle + total_of idle_of load i n).
Proof.
  induction n as [|n IH]; intros i busy idle Hok Hn Hb Hi; cbn [sum_ticks total_of]; [f_equal; lia|].
  pose proof (ticks_range load i Hok) as Hr. destruct (load i) as [k|] eqn:E; simpl in Hr.
  - destruct (Hok i k E) as (? & ? & ? & ?).
    rewrite (u64_small (tk_user k + tk_system k)), (u64_small (tk_user k + tk_system k + tk_nice k)),
      (u64_small (busy + _)), (u64_small (idle + _)) by lia.
    rewrite IH by (done || lia). simpl. f_equal; lia.
  - rewrite IH by (done || lia). simpl. f_equal; lia.
Qed.

Lemma total_grows n load load' i : (forall j, (i <= j < i + n)%nat -> busy_of (load j) <= busy_of (load' j)
    ∧ idle_of (load j) <= idle_of (load' j)) ->
  total_of busy_of load i n <= total_of busy_of load' i n ∧ total_of idle_of load i n <= total_of idle_of load' i n.
Proof.
  revert i. induction n as [|n IH]; intros i Hg; cbn [total_of]; [lia|].
  pose proof (Hg i ltac:(lia)). assert (Hg' := IH (S i) ltac:(intros; apply Hg; lia)). lia.
Qed.

(** The instantaneous load is the share of busy ticks, times the processors. *)
Lemma la_nrun_range ncpu dbusy didle :
  0 <= ncpu <= 512 -> 0 <= dbusy <= 512 * 12884901888 -> 0 <= didle <= 512 * 4294967296 ->
  0 <= la_nrun ncpu dbusy didle <= ncpu * FSCALE
  ∧ (0 < dbusy + didle -> la_nrun ncpu dbusy didle = dbusy * ncpu * FSCALE / (dbusy + didle)).
Proof.
  intros Hn Hb Hi. unfold la_nrun, FSCALE. rewrite (u64_small (dbusy + didle)) by lia.
  destruct (Z.ltb_spec 0 (dbusy + didle)) as [Hpos|]; [|lia].
  assert (Hp1 : 0 <= dbusy * ncpu <= 512 * 12884901888 * 512) by nia.
  rewrite (u64_small (dbusy * ncpu)), u64_small by lia.
  assert (Hq : 0 <= dbusy * ncpu * 2048 / (dbusy + didle) <= ncpu * 2048).
  { split; [apply Z.div_pos; lia|]. apply Z.div_le_upper_bound; [lia|]. nia. }
  rewrite u32_small by lia. done.
Qed.

(** A step of an average stays between the old value and the load. *)
Lemma la_fold_between nrun c old :
  0 <= c <= FSCALE -> 0 <= old <= 1048576 -> 0 <= nrun <= 1048576 ->
  Z.min old nrun <= la_fold nrun c old <= Z.max old nrun.
Proof.
  unfold la_fold, FSCALE, FSHIFT. intros Hc Ho Hn. rewrite (u32_small (2048 - c)) by lia.
  assert (0 <= c * old <= 2048 * 1048576) by nia. assert (0 <= nrun * (2048 - c) <= 2048 * 1048576) by nia.
  rewrite (u64_small (c * old)), (u64_small (nrun * _)), u64_small by lia.
  rewrite Z.shiftr_div_pow2 by lia. change (2 ^ 11) with 2048.
  assert (Z.min old nrun <= (c * old + nrun * (2048 - c)) / 2048 <= Z.max old nrun).
  { split; [apply Z.div_le_lower_bound|apply Z.div_le_upper_bound]; nia. }
  rewrite u32_small; [done|lia].
Qed.

(** The sampler runs with [n] processors, has seen [load] last, and the averages are in
    range. *)
Record la_inv (n : nat) (load : cpu_load) (s : la_state) : Prop := LaInv {
  li_call : la_call s = true; li_armed : la_armed s = true; li_running : la_running s = false;
  li_ncpu : la_ncpu s = Z.of_nat n; li_primed : la_primed s = true;
  li_busy : la_busy s = total_of busy_of load 0 n; li_idle : la_idle s = total_of idle_of load 0 n;
  li_len : length (ldavg s) = 3%nat; li_fscale : fscale s = FSCALE;
  li_range : Forall (λ v, 0 <= v <= Z.of_nat n * FSCALE) (ldavg s) }.

(** One turn of the timer. *)
Definition la_turn (load : cpu_load) (s : la_state) : option la_state := s ← la_timer_fire s; la_timer load s.

Lemma la_turn_inv n load load' s :
  (0 < n <= 512)%nat -> ticks_ok load -> ticks_ok load' -> grows n load load' -> la_inv n load s ->
  exists s', la_turn load' s = Some s' ∧ la_inv n load' s'.
Proof.
  intros Hn Hok Hok' Hg [Hc Ha Hr Hcpu Hpr Hb Hi Hl Hf Hrange].
  unfold la_turn, la_timer_fire. rewrite Ha. change (Some ?x ≫= ?f) with (f x). cbv beta. unfold la_timer.
  cbn [la_set la_running la_call]. unfold la_sample.
  cbn [la_ncpu la_primed la_busy la_idle ldavg la_set la_call la_armed la_running]. rewrite Hcpu, Nat2Z.id.
  pose proof (total_range load n 0 Hok). pose proof (total_range load' n 0 Hok').
  destruct (total_grows n load load' 0) as [Hgb Hgi]; [intros j Hj; apply Hg; lia|].
  rewrite sum_ticks_total by (done || lia). rewrite Hpr, Hc. cbn [negb la_set la_call].
  eexists. split; [reflexivity|]. rewrite Hb, Hi.
  rewrite (u64_small (0 + _ - _)), (u64_small (0 + total_of idle_of _ _ _ - _)) by lia.
  destruct (la_nrun_range (Z.of_nat n) (0 + total_of busy_of load' 0 n - total_of busy_of load 0 n)
    (0 + total_of idle_of load' 0 n - total_of idle_of load 0 n)) as [Hnr _]; [lia..|].
  set (nrun := la_nrun _ _ _) in *.
  split; cbn [la_call la_armed la_running la_ncpu la_primed la_busy la_idle ldavg fscale la_set]; try done; try lia.
  - rewrite length_zip_with, Hl. done.
  - destruct (ldavg s) as [|a [|b [|c [|]]]]; try done. unfold la_cexp. cbn [zip_with].
    rewrite !Forall_cons in *. destruct Hrange as (H1 & H2 & H3 & _). unfold FSCALE in *.
    pose proof (la_fold_between nrun 1884 a ltac:(unfold FSCALE; lia) ltac:(lia) ltac:(lia)).
    pose proof (la_fold_between nrun 2014 b ltac:(unfold FSCALE; lia) ltac:(lia) ltac:(lia)).
    pose proof (la_fold_between nrun 2037 c ltac:(unfold FSCALE; lia) ltac:(lia) ltac:(lia)).
    split_and!; try done; lia.
Qed.

Fixpoint la_turns (loads : list cpu_load) (s : la_state) : option la_state :=
  match loads with [] => Some s | load :: loads' => s ← la_turn load s; la_turns loads' s end.

(** Samples that follow each other. *)
Fixpoint samples_from (n : nat) (load : cpu_load) (loads : list cpu_load) : Prop :=
  ticks_ok load ∧ match loads with [] => True | load' :: loads' => grows n load load' ∧ samples_from n load' loads' end.

Lemma la_turns_inv n loads : forall load s, (0 < n <= 512)%nat -> samples_from n load loads -> la_inv n load s ->
  exists s' last, la_turns loads s = Some s' ∧ la_inv n last s'.
Proof.
  induction loads as [|load' loads IH]; intros load s Hn [Hok Hs] Hinv; cbn [la_turns]; [eauto|].
  destruct Hs as [Hg Hs]. assert (Hok' : ticks_ok load') by (destruct loads; apply Hs).
  destruct (la_turn_inv n load load' s Hn Hok Hok' Hg Hinv) as (s1 & -> & H1). simpl. by eapply IH.
Qed.

Lemma la_start_inv n load : (0 < n <= 512)%nat -> ticks_ok load ->
  la_inv n load (procfs_loadavg_start true (Some (Z.of_nat n)) true load la_boot).
Proof.
  intros Hn Hok. unfold procfs_loadavg_start. cbn [la_boot la_call orb negb].
  rewrite (proj2 (Z.ltb_lt 0 _)) by lia. unfold la_sample. cbn [la_ncpu la_set la_primed negb]. rewrite Nat2Z.id.
  pose proof (total_range load n 0 Hok). rewrite sum_ticks_total by (done || lia).
  split; cbn [la_call la_armed la_running la_ncpu la_primed la_busy la_idle ldavg fscale la_set la_boot]; try done.
  unfold FSCALE. by repeat constructor; lia.
Qed.

(** C32. The sampler: after it was started on a machine with up to 512 processors, whatever
    the tick counters show as long as none of them goes back, every turn of the timer
    succeeds and arms the timer again, each average stays between 0 and the number of
    processors, and so does what the node prints. *)
Theorem loadavg_bounded n load loads :
  (0 < n <= 512)%nat -> samples_from n load loads ->
  exists s, la_turns loads (procfs_loadavg_start true (Some (Z.of_nat n)) true load la_boot) = Some s
    ∧ la_armed s = true ∧ length (ldavg s) = 3%nat
    ∧ Forall (λ v, 0 <= v <= Z.of_nat n * FSCALE) (ldavg s)
    ∧ Forall (λ v, 0 <= v <= Z.of_nat n * 100) (local_loads s).
Proof.
  intros Hn Hs. assert (Hok : ticks_ok load) by (destruct loads; apply Hs).
  destruct (la_turns_inv n loads load _ Hn Hs (la_start_inv n load Hn Hok)) as (s & last & -> & Hinv).
  destruct Hinv. exists s. split_and!; try done. unfold local_loads. apply Forall_fmap.
  eapply Forall_impl; [exact li_range0|]. intros v Hv. unfold compose, scaled_load. rewrite li_fscale0.
  unfold FSCALE in *. cbn [Z.ltb Z.compare]. rewrite u64_small by lia.
  assert (0 <= v * 100 / 2048 <= Z.of_nat n * 100).
  { split; [apply Z.div_pos; lia|apply Z.div_le_upper_bound; lia]. }
  rewrite s32_small by (unfold INT_MIN, INT_MAX; lia). lia.
Qed.

Definition idle_machine (b i : Z) : cpu_load := λ c, if (c <? 2)%nat then Some (CpuTicks b 0 i 0) else None.

Lemma loadavg_bounded_witness :
  exists s, la_turns [idle_machine 1500 9500] (procfs_loadavg_start true (Some 2) true (idle_machine 1000 9000) la_boot) = Some s
    ∧ Forall (λ v, 0 <= v <= 200) (local_loads s).
Proof.
  destruct (loadavg_bounded 2 (idle_machine 1000 9000) [idle_machine 1500 9500]) as (s & E & _ & _ & _ & Hs).
  - lia.
  - assert (Hok : forall b i, 0 <= b < 4294967296 -> 0 <= i < 4294967296 -> ticks_ok (idle_machine b i)).
    { intros b i Hb Hi j k. unfold idle_machine. case_match; intros; simplify_eq. simpl. lia. }
    split; [apply Hok; lia|]. split; [|split; [apply Hok; lia|done]].
    intros j Hj. unfold idle_machine. rewrite (proj2 (Nat.ltb_lt j 2)) by lia. simpl. lia.
  - exists s. split; [exact E|exact Hs].
Defined.

(** A processor whose counters cannot be read for one sample makes the sum go back: the
    difference wraps around, and a machine with two processors reports a load above 1000. *)
Theorem loadavg_lost_processor :
  let both : cpu_load := λ c, [Some (CpuTicks 1000 0 9000 0); Some (CpuTicks 150 0 100 0)] !!! c in
  let lost : cpu_load := λ c, [Some (CpuTicks 1050 0 9600 0); None] !!! c in
  exists s, la_turns [lost] (procfs_loadavg_start true (Some 2) true both la_boot) = Some s
    ∧ exists v, head (local_loads s) = Some v ∧ 100000 < v.
Proof. eexists. split; [vm_compute; reflexivity|]. eexists. split; [vm_compute; reflexivity|]. by vm_compute. Qed.

(** Stopping the sampler does not wait for a callback that has begun: the callback then
    arms a timer that does not exist any more. *)
Theorem loadavg_stop_race load s :
  la_call s = true -> la_armed s = true ->
  exists s1, la_timer_fire s = Some s1 ∧ la_timer load (procfs_loadavg_stop s1) = None.
Proof.
  intros Hc Ha. unfold la_timer_fire. rewrite Ha. eexists. split; [done|].
  unfold procfs_loadavg_stop, la_timer. cbn [la_set la_call]. rewrite Hc. cbn [la_set la_call la_running].
  unfold la_sample. destruct (sum_ticks _ _ _ _ _). cbn [la_set la_primed]. by destruct (la_primed s).
Qed.

(** ** Reading the two nodes *)

Section Reads.
Context `{KernelOps} `{PageSize} `{UioLaws} `{CtlOps}.

(** What the copy returns: always from the beginning of the text, and less of it the
    further the offset is inside its page. *)
Definition page_window (data : list Byte.byte) (u : uio_t) : list Byte.byte :=
  take (Z.to_nat (Z.min (Z.of_nat (length data) - uio_offset u mod PAGE_SIZE) (uio_resid u))) data.

Lemma page_move_run text u :
  Z.of_nat (String.length text) < LBFSZ -> 0 <= uio_offset u < 9223372036854775808 -> uio_writable u = true ->
  uio_offset u mod PAGE_SIZE <= Z.of_nat (String.length text) ->
  exists u', page_move text u = Some (0, u') ∧ uio_out u' = uio_out u ++ page_window (bytes_of_string text) u
    ∧ uio_offset u' = uio_offset u + Z.of_nat (length (page_window (bytes_of_string text) u)).
Proof.
  intros Hlen Hoff Hw Hpg. unfold page_move, LBFSZ, page_window in *. rewrite bytes_of_string_length.
  rewrite u64_small, page_round by lia. pose proof page_size_cases as Hps.
  assert (Hps0 : 0 < PAGE_SIZE) by lia. pose proof (Z.div_mod (uio_offset u) PAGE_SIZE) as Hdm.
  pose proof (Z.mod_pos_bound (uio_offset u) PAGE_SIZE Hps0).
  replace (uio_offset u - PAGE_SIZE * (uio_offset u / PAGE_SIZE)) with (uio_offset u mod PAGE_SIZE) by lia.
  rewrite s32_small by (unfold INT_MIN, INT_MAX; lia). unfold snprintf. rewrite strlcpy_fits by lia.
  destruct (uiomove_from_spec (bytes_of_string text ++ [Byte.x00]) 0
    (Z.of_nat (String.length text) - uio_offset u mod PAGE_SIZE) u) as (u' & -> & Ho & Hf & _);
    [lia|lia|rewrite length_app, bytes_of_string_length; lia|done|].
  exists u'. split; [done|]. rewrite Ho, Hf, drop_0. pose proof (uio_resid_nonneg u).
  rewrite take_app_le by (rewrite bytes_of_string_length; lia).
  split; [done|]. rewrite length_take, bytes_of_string_length. lia.
Qed.

(** The text is computed without regard to the state. *)
Lemma page_buffer_run m text u st :
  (forall t n, malloc_at t n = true) -> value m text -> Z.of_nat (String.length text) < LBFSZ ->
  0 <= uio_offset u < 9223372036854775808 -> uio_writable u = true ->
  uio_offset u mod PAGE_SIZE <= Z.of_nat (String.length text) ->
  exists u', (with_page_buffer m u st).1 = Some (0, u')
    ∧ uio_out u' = uio_out u ++ page_window (bytes_of_string text) u.
Proof.
  intros Hmem Hm Hlen Hoff Hw Hpg. destruct (page_move_run text u Hlen Hoff Hw Hpg) as (u' & E & Ho & _).
  exists u'. split; [|done]. unfold with_page_buffer, OSMalloc. rewrite !K_bind_run. cbn [now fst snd]. rewrite Hmem.
  rewrite !K_bind_run. cbn [fst snd mret K_ret add_mem]. rewrite Hm, K_bind_run. cbn [fst snd mret K_ret]. exact E.
Qed.

(** Reading version: with a read from the beginning that has room for all of it the reader
    gets the whole text, and a read at its end gets nothing; but a read from the middle
    gets the beginning of the text again, and so does a read at the start of any later
    page. *)
Theorem version_read version u st :
  (forall t n, malloc_at t n = true) -> Z.of_nat (String.length version) < 8191 ->
  0 <= uio_offset u < 9223372036854775808 -> uio_writable u = true ->
  uio_offset u mod PAGE_SIZE <= Z.of_nat (String.length version) + 1 ->
  exists u', (procfs_doversion version u st).1 = Some (0, u')
    ∧ uio_out u' = uio_out u ++ page_window (bytes_of_string (version +:+ nl)) u.
Proof.
  intros Hmem Hlen Hoff Hw Hpg. assert (El : String.length (version +:+ nl) = S (String.length version)).
  { rewrite string_length_app. simpl. lia. }
  apply page_buffer_run; [done|apply value_ret|rewrite El; unfold LBFSZ; lia|done|done|rewrite El; lia].
Qed.

End Reads.

Lemma version_read_witness :
  let u : @uio_t simple_uio_ops := SimpleUio 4096 6 true [] true in
  exists u', (procfs_doversion (H := simple_kernel []) "Darwin" u (Kstate 0 0 0)).1 = Some (0, u')
    ∧ uio_out u' = bytes_of_string "Darwin".
Proof.
  destruct (version_read (H := simple_kernel []) "Darwin" (SimpleUio 4096 6 true [] true : @uio_t simple_uio_ops) (Kstate 0 0 0))
    as (u' & E & Ho); [done|by vm_compute|by vm_compute|done|by vm_compute|].
  exists u'. split; [exact E|]. rewrite Ho. vm_compute. reflexivity.
Defined.

(** Two reads of three bytes each do not continue each other. *)
Example version_partial_read :
  let r u := snd <$> (procfs_doversion (H := simple_kernel []) "Darwin" u (Kstate 0 0 0)).1 in
  (r (SimpleUio 0 3 true [] true : @uio_t simple_uio_ops) ≫= λ u, uio_out <$> r (SimpleUio (su_offset u) 3 true (su_out u) true))
  = Some (bytes_of_string "DarDar").
Proof. vm_compute. reflexivity. Qed.
