(* ===== verification/Kern.v ===== *)
(** * Lists of pids and the run-queue average (kext/lib/kern.c)

    Two parts of lib/kern.c taken over from the kernel: the list of pids in blocks, and the
    fixed-point load average of the number of runnable threads.  The descriptor functions of
    the file are in module Fdtable, the process records in module Status. *)

From S2P Require Import Prelude Loadavg.

(** ** Lists of pids *)

Module Pidlist.

Definition PIDS_PER_ENTRY : nat := Z.to_nat 1021.

Record pidlist_entry := PidlistEntry { pe_nused : nat; pe_pid : list Z }.

(** The blocks from the head on, and the position of the active one.  A block inserted at the
    head moves the others back by one. *)
Record pidlist_t := Pidlist { pl_head : list pidlist_entry; pl_active : option nat; pl_nalloc : Z }.

Definition pidlist_init : pidlist_t := Pidlist [] None 0.

Definition new_entry : pidlist_entry := PidlistEntry 0 (replicate PIDS_PER_ENTRY 0).

(** The loop, with the number of its turns as fuel; [None]: it goes on.  The count is a
    [u_int], and the allocation does not fail. *)
Fixpoint pidlist_alloc (fuel : nat) (pl : pidlist_t) (needed : Z) : option (Z * pidlist_t) :=
  if pl_nalloc pl <? needed then
    match fuel with
    | O => None
    | S fuel' =>
      pidlist_alloc fuel' (Pidlist (new_entry :: pl_head pl) (S <$> pl_active pl)
                             (u32 (pl_nalloc pl + Z.of_nat PIDS_PER_ENTRY))) needed
    end
  else Some (pl_nalloc pl, pl).

(** The number of blocks released, and the empty list; [pl_active] stays as it is. *)
Definition pidlist_free (pl : pidlist_t) : nat * pidlist_t := (length (pl_head pl), Pidlist [] (pl_active pl) 0).

(** [None]: the assertion that there is a block fails. *)
Definition pidlist_set_active (pl : pidlist_t) : option pidlist_t :=
  match pl_head pl with [] => None | _ => Some (Pidlist (pl_head pl) (Some 0%nat) (pl_nalloc pl)) end.

(** [None]: panic, no active block, or a store outside the array. *)
Definition pidlist_add_pid (pid : Z) (pl : pidlist_t) : option pidlist_t :=
  j ← pl_active pl;
  e ← pl_head pl !! j;
  j ← (if (PIDS_PER_ENTRY <=? pe_nused e)%nat then _ ← pl_head pl !! S j; Some (S j) else Some j);
  e ← pl_head pl !! j;
  if (pe_nused e <? length (pe_pid e))%nat then
    Some (Pidlist (<[j := PidlistEntry (S (pe_nused e)) (<[pe_nused e := pid]> (pe_pid e))]> (pl_head pl)) (Some j) (pl_nalloc pl))
  else None.

Definition pidlist_nalloc (pl : pidlist_t) : Z := pl_nalloc pl.

Fixpoint add_pids (ps : list Z) (pl : pidlist_t) : option pidlist_t :=
  match ps with [] => Some pl | p :: ps' => pl' ← pidlist_add_pid p pl; add_pids ps' pl' end.

(** The pids of the list, in the order of the blocks. *)
Definition used (e : pidlist_entry) : list Z := take (pe_nused e) (pe_pid e).
Definition pids (pl : pidlist_t) : list Z := concat (map used (pl_head pl)).

(** Full blocks, the active one, and new ones; room for [k] pids. *)
Definition filling (ps : list Z) (k : nat) (pl : pidlist_t) : Prop :=
  exists full e rest, pl_head pl = full ++ e :: replicate rest new_entry ∧ pl_active pl = Some (length full)
    ∧ length (pe_pid e) = PIDS_PER_ENTRY ∧ (pe_nused e <= PIDS_PER_ENTRY)%nat
    ∧ concat (map used full) ++ used e = ps ∧ (k = (PIDS_PER_ENTRY - pe_nused e) + rest * PIDS_PER_ENTRY)%nat.

Lemma per_entry_pos : (0 < PIDS_PER_ENTRY)%nat.
Proof. unfold PIDS_PER_ENTRY. lia. Qed.
#[local] Opaque PIDS_PER_ENTRY.

Lemma used_new_empty n : concat (map used (replicate n new_entry)) = [].
Proof. by induction n as [|n IH]. Qed.

Lemma filling_pids ps k pl : filling ps k pl -> pids pl = ps.
Proof.
  intros (full & e & rest & Eh & _ & _ & _ & <- & _). unfold pids. rewrite Eh, map_app, concat_app. cbn [map concat].
  by rewrite used_new_empty, app_nil_r.
Qed.

(** A pid stored behind those of a block. *)
Lemma used_snoc e pid : (pe_nused e < length (pe_pid e))%nat ->
  used (PidlistEntry (S (pe_nused e)) (<[pe_nused e := pid]> (pe_pid e))) = used e ++ [pid].
Proof.
  intros Hl. unfold used. cbn [pe_nused pe_pid]. rewrite (take_S_r _ _ pid) by (by apply list_lookup_insert_eq).
  f_equal. by rewrite take_insert, decide_False by lia.
Qed.

Lemma add_pid_spec ps k pl pid : filling ps k pl ->
  match k with
  | O => pidlist_add_pid pid pl = None
  | S k' => exists pl', pidlist_add_pid pid pl = Some pl' ∧ filling (ps ++ [pid]) k' pl' ∧ pl_nalloc pl' = pl_nalloc pl
      ∧ length (pl_head pl') = length (pl_head pl)
  end.
Proof.
  intros (full & e & rest & Eh & Ea & Hl & Hu & Hps & Hk). pose proof per_entry_pos as Hpos.
  unfold pidlist_add_pid. rewrite Ea. bind_some.
  assert (Ee : pl_head pl !! length full = Some e) by (rewrite Eh; by apply list_lookup_middle). rewrite Ee. bind_some.
  destruct (Nat.leb_spec PIDS_PER_ENTRY (pe_nused e)) as [Hfull|Hroom].
  - destruct rest as [|rest].
    + assert (E : pl_head pl !! S (length full) = None) by (apply lookup_ge_None; rewrite Eh, length_app; simpl; lia).
      rewrite E. destruct k; [done|lia].
    + assert (E : pl_head pl = (full ++ [e]) ++ new_entry :: replicate rest new_entry) by (by rewrite Eh, <- app_assoc).
      assert (En : pl_head pl !! S (length full) = Some new_entry).
      { rewrite E. apply list_lookup_middle. rewrite length_app. simpl. lia. }
      rewrite En. bind_some. rewrite En. bind_some. cbn [pe_nused pe_pid new_entry].
      rewrite length_replicate, (proj2 (Nat.ltb_lt _ _)) by done.
      destruct k as [|k]; [lia|]. eexists. split; [done|]. cbn [pl_head pl_nalloc]. split; [|by rewrite length_insert].
      exists (full ++ [e]), (PidlistEntry 1 (<[0%nat := pid]> (replicate PIDS_PER_ENTRY 0))), rest. cbn [pl_head pl_active pe_pid pe_nused].
      split_and!.
      * rewrite E. replace (S (length full)) with (length (full ++ [e]) + 0)%nat by (rewrite length_app; simpl; lia).
        by rewrite insert_app_r.
      * f_equal. rewrite length_app. simpl. lia.
      * by rewrite length_insert, length_replicate.
      * lia.
      * pose proof (used_snoc new_entry pid) as Hs. cbn [new_entry pe_nused pe_pid] in Hs. rewrite length_replicate in Hs.
        rewrite Hs by done. rewrite map_app, concat_app, <- Hps. cbn [map concat]. by rewrite app_nil_r.
      * cbn in Hk. lia.
  - bind_some. rewrite Ee. bind_some. rewrite (proj2 (Nat.ltb_lt _ _)) by lia.
    destruct k as [|k]; [lia|]. eexists. split; [done|]. cbn [pl_head pl_nalloc]. split; [|by rewrite length_insert].
    exists full, (PidlistEntry (S (pe_nused e)) (<[pe_nused e := pid]> (pe_pid e))), rest. cbn [pl_head pl_active pe_pid pe_nused].
    split_and!; [|done|by rewrite length_insert|lia| |lia].
    + rewrite Eh. replace (length full) with (length full + 0)%nat by lia. by rewrite insert_app_r.
    + rewrite used_snoc by lia. by rewrite app_assoc, Hps.
Qed.

Lemma alloc_spec fuel : forall pl needed,
  pl_active pl = None -> pl_head pl = replicate (length (pl_head pl)) new_entry ->
  pl_nalloc pl = Z.of_nat (length (pl_head pl) * PIDS_PER_ENTRY) ->
  0 <= needed <= 4294966167 -> pl_nalloc pl < needed + 1021 -> needed <= pl_nalloc pl + Z.of_nat fuel * 1021 ->
  exists n, pidlist_alloc fuel pl needed = Some (Z.of_nat (n * PIDS_PER_ENTRY), Pidlist (replicate n new_entry) None (Z.of_nat (n * PIDS_PER_ENTRY)))
    ∧ needed <= Z.of_nat (n * PIDS_PER_ENTRY) < needed + 1021.
Proof.
  assert (Hper : Z.of_nat PIDS_PER_ENTRY = 1021) by reflexivity.
  induction fuel as [|fuel IH]; intros [h a c] needed; cbn [pl_active pl_head pl_nalloc pidlist_alloc]; intros -> Hh Hc Hn Hlt Hf;
    destruct (Z.ltb_spec c needed); try lia.
  1, 3: exists (length h); rewrite Hc, <- Hh; split; [done|lia].
  rewrite u32_small by lia. apply IH; cbn [pl_active pl_head pl_nalloc length replicate]; try done; [by f_equal|lia..].
Qed.

(** A list of pids has the room it was asked for: after the allocation of any number up to
    2^32 - 1129, that many pids can be added, without a panic or a store outside a block, and
    the list then holds them in the order in which they were added; the allocation ends
    after one turn for each block, and releasing the list releases each block. *)
Theorem pidlist_holds needed ps fuel :
  0 < needed <= 4294966167 -> Z.of_nat (length ps) <= needed -> needed <= Z.of_nat fuel * 1021 ->
  exists n pl1 pl2 pl3, pidlist_alloc fuel pidlist_init needed = Some (n, pl1) ∧ n = pidlist_nalloc pl1 ∧ needed <= n < needed + 1021
    ∧ pidlist_set_active pl1 = Some pl2 ∧ add_pids ps pl2 = Some pl3 ∧ pids pl3 = ps
    ∧ Z.of_nat (pidlist_free pl3).1 * 1021 = n.
Proof.
  intros Hn Hps Hf. assert (Hper : Z.of_nat PIDS_PER_ENTRY = 1021) by reflexivity.
  destruct (alloc_spec fuel pidlist_init needed) as (m & Ea & Hm); cbn [pidlist_init pl_active pl_head pl_nalloc length]; try done; try lia.
  assert (Hadd : forall ps qs k pl, filling qs k pl -> (length ps <= k)%nat ->
    exists pl', add_pids ps pl = Some pl' ∧ pids pl' = qs ++ ps ∧ length (pl_head pl') = length (pl_head pl)).
  { clear. induction ps as [|p ps IH]; intros qs k pl Hfi Hk; cbn [add_pids].
    - exists pl. rewrite app_nil_r. split_and!; try done. by eapply filling_pids.
    - destruct k as [|k]; [simpl in Hk; lia|]. destruct (add_pid_spec qs (S k) pl p Hfi) as (pl' & -> & Hfi' & _ & El).
      bind_some. destruct (IH _ _ _ Hfi' ltac:(simpl in Hk; lia)) as (pl'' & E & Ep & El'). exists pl''.
      split; [done|]. split; [by rewrite Ep, <- app_assoc|congruence]. }
  destruct m as [|m]; [lia|].
  set (pl2 := Pidlist (replicate (S m) new_entry) (Some 0%nat) (Z.of_nat (S m * PIDS_PER_ENTRY))).
  assert (Hfi : filling [] (S m * PIDS_PER_ENTRY) pl2).
  { exists [], new_entry, m. cbn [pl_head pl_active pl2 app length new_entry pe_nused pe_pid]. rewrite length_replicate.
    split_and!; try done; lia. }
  destruct (Hadd ps [] _ pl2 Hfi ltac:(lia)) as (pl3 & E3 & Ep & El).
  eexists _, _, pl2, pl3. split; [exact Ea|]. split_and!; try done; try lia.
  cbn [pidlist_free fst]. rewrite El. cbn [pl2 pl_head]. rewrite length_replicate. lia.
Qed.

(** One pid more than there is room for is a panic. *)
Lemma pidlist_holds_witness :
  exists n pl1 pl2 pl3, pidlist_alloc 2 pidlist_init 1500 = Some (n, pl1) ∧ n = 2042
    ∧ pidlist_set_active pl1 = Some pl2 ∧ add_pids [300; 200; 100] pl2 = Some pl3 ∧ pids pl3 = [300; 200; 100].
Proof.
  destruct (pidlist_holds 1500 [300; 200; 100] 2) as (n & pl1 & pl2 & pl3 & E1 & _ & Hn & E2 & E3 & E4 & Hf); [lia|simpl; lia|lia|].
  exists n, pl1, pl2, pl3. split; [exact E1|]. split; [lia|]. done.
Defined.

End Pidlist.

(** ** The run-queue average *)

(** [cexp], from the decimal fractions of the source, truncated. *)
Definition cexp : list Z :=
  [9200444146293232 * FSCALE / 10000000000000000; 9834714538216174 * FSCALE / 10000000000000000;
   9944598480048967 * FSCALE / 10000000000000000].

(** One average; the arithmetic is that of [unsigned int]. *)
Definition average (nrun c old : Z) : Z :=
  Z.shiftr (u32 (u32 (c * old) + u32 (u32 (nrun * FSCALE) * u32 (FSCALE - c)))) FSHIFT.

Definition compute_averunnable (nrun : Z) (ldavg : list Z) : list Z := zip_with (average nrun) cexp ldavg.

Lemma average_between nrun c old :
  0 <= c <= FSCALE -> 0 <= nrun <= 1023 -> 0 <= old <= 1023 * FSCALE ->
  Z.min old (nrun * FSCALE) <= average nrun c old <= Z.max old (nrun * FSCALE).
Proof.
  unfold average, FSCALE, FSHIFT. intros Hc Hn Ho.
  rewrite (u32_small (2048 - c)), (u32_small (nrun * 2048)) by lia.
  assert (Hb : forall x m, 0 <= x <= m -> c * x <= c * m) by (intros; nia).
  assert (H1 : 0 <= c * old <= 2048 * 2095104) by nia.
  assert (H2 : 0 <= nrun * 2048 * (2048 - c) <= 2048 * 2095104) by nia.
  rewrite !(u32_small (_ * _)) by lia.
  assert (H3 : Z.min old (nrun * 2048) * 2048 <= c * old + nrun * 2048 * (2048 - c) <= Z.max old (nrun * 2048) * 2048) by nia.
  rewrite u32_small by lia. rewrite Z.shiftr_div_pow2 by lia. change (2 ^ 11) with 2048.
  split; [apply Z.div_le_lower_bound; lia|]. apply Z.div_le_upper_bound; lia.
Qed.

(** With at most 1023 runnable threads no product wraps: each of the three averages moves
    towards the number of runnable threads and not beyond it. *)
Theorem averunnable_between nrun ldavg :
  0 <= nrun <= 1023 -> length ldavg = 3%nat -> Forall (λ v, 0 <= v <= 1023 * FSCALE) ldavg ->
  length (compute_averunnable nrun ldavg) = 3%nat
  ∧ Forall2 (λ old new, Z.min old (nrun * FSCALE) <= new <= Z.max old (nrun * FSCALE)) ldavg (compute_averunnable nrun ldavg).
Proof.
  intros Hn Hl Hb. do 4 (destruct ldavg as [|? ldavg]; try done). rewrite !Forall_cons in Hb. destruct Hb as (H1 & H2 & H3 & _).
  split; [done|]. unfold compute_averunnable. cbn [zip_with cexp].
  repeat constructor; apply average_between; done.
Qed.

(** With 1024 times that load the products wrap, and the average drops to 0. *)
Example averunnable_wraps : compute_averunnable 1048576 [0; 0; 0] = [0; 0; 0].
Proof. reflexivity. Qed.
