(* ===== verification/Fdtable.v ===== *)
(** * Descriptor tables (kext/lib/kern.c, kext/procfs_fd.c)

    The kext cannot link the kernel's functions on descriptor tables and has its own:
    the list of open descriptors, the vnode or socket behind a descriptor, and the nodes
    that show them.  A table is read under the descriptor lock of its process; between two
    sections it may change, so that each section reads the table at a time of its own. *)

From Stdlib Require Import Sorting.Sorted.
From S2P Require Import Prelude Kernel Structure Subr.

Definition EBADF : Z := 9.
Definition DTYPE_VNODE : Z := 1.
Definition DTYPE_SOCKET : Z := 2.
Definition DTYPE_ATALK : Z := 8.
Definition PROX_FDTYPE_ATALK : Z := 0.
Definition UF_RESERVED : Z := 4.
Definition FP_CLOEXEC : Z := 1.
Definition FP_CLOFORK : Z := 2.
Definition PROC_FP_SHARED : Z := 1.
Definition PROC_FP_CLEXEC : Z := 2.
Definition PROC_FP_GUARDED : Z := 4.
Definition PROC_FP_CLFORK : Z := 8.
Definition PROCFS_FD_NFILES_MAX : Z := 1048576.

(** ** Tables *)

(** [fg_data] is the vnode or socket, 0 for NULL. *)
Record fileglob := Fileglob { fg_flag : Z; fg_offset : Z; fg_type : Z; fg_data : Z; fg_count : Z }.
Record fileproc := Fileproc { fp_glob : option fileglob; fp_flags : Z; fp_guard_attrs : Z }.

Record filedesc := Filedesc {
  fd_nfiles : Z; fd_afterlast : Z; fd_ofiles : list (option fileproc); fd_ofileflags : list Z }.

(** The arrays have [fd_nfiles] entries and the used ones are below [fd_afterlast]. *)
Record table_wf (t : filedesc) : Prop := {
  tw_files : Z.of_nat (length (fd_ofiles t)) = fd_nfiles t;
  tw_flags : Z.of_nat (length (fd_ofileflags t)) = fd_nfiles t;
  tw_last : 0 <= fd_afterlast t <= fd_nfiles t;
  tw_max : 0 < fd_nfiles t <= PROCFS_FD_NFILES_MAX }.

Definition procfs_fd_layout_ok (t : filedesc) : bool :=
  (0 <? fd_nfiles t) && (fd_nfiles t <=? PROCFS_FD_NFILES_MAX) && (0 <=? fd_afterlast t) && (fd_afterlast t <=? fd_nfiles t).

(** The entry of a descriptor: [None] outside the arrays, [Some None] when it is not
    open. *)
Definition fd_entry (t : filedesc) (fd : nat) : option (option (fileproc * fileglob)) :=
  fp ← fd_ofiles t !! fd;
  match fp with
  | Some fp =>
    match fp_glob fp with
    | Some fg => fl ← fd_ofileflags t !! fd; Some (if (fl &? UF_RESERVED)%C then None else Some (fp, fg))
    | None => Some None
    end
  | None => Some None
  end.

(** ** The list of descriptors *)

(** struct proc_fdinfo *)
Record proc_fdinfo := ProcFdinfo { proc_fd : Z; proc_fdtype : Z }.

Definition fd_type (fg : fileglob) : Z := if fg_type fg =? DTYPE_ATALK then PROX_FDTYPE_ATALK else fg_type fg.

(** The loop over the table, [left] descriptors from [fd] on; [None]: it reads outside the
    arrays. *)
Fixpoint fdlist_loop (t : filedesc) (left fd : nat) (room : nat) : option (list proc_fdinfo) :=
  match left, room with
  | O, _ | _, O => Some []
  | S left', S room' =>
    e ← fd_entry t fd;
    match e with
    | None => fdlist_loop t left' (S fd) room
    | Some (_, fg) =>
      l ← fdlist_loop t left' (S fd) room';
      Some (ProcFdinfo (Z.of_nat fd) (fd_type fg) :: l)
    end
  end.

(** A section under the descriptor lock. *)
Definition proc_fdlock {A} (tab : nat -> filedesc) (f : filedesc -> A) : K A := t ← now; mret (f (tab t)).

(** [buf] = NULL: error and upper bound. *)
Definition proc_fdlist_bound_ (tab : nat -> filedesc) : K (Z * Z) :=
  t ← now;
  if negb (procfs_fd_layout_ok (tab t)) then mret (EINVAL, 0) else
  n ← proc_fdlock tab fd_afterlast; mret (0, n).

(** A buffer of [count] entries: error and entries written. *)
Definition proc_fdlist_ (tab : nat -> filedesc) (count : nat) : K (option (Z * list proc_fdinfo)) :=
  t ← now;
  if negb (procfs_fd_layout_ok (tab t)) then mret (Some (EINVAL, [])) else
  l ← proc_fdlock tab (λ t, fdlist_loop t (Z.to_nat (fd_afterlast t)) 0 count);
  mret (l ← l; Some (0, l)).

(** ** One descriptor *)

(** struct proc_fileinfo *)
Record proc_fileinfo := ProcFileinfo {
  fi_openflags : Z; fi_status : Z; fi_offset : Z; fi_type : Z; fi_guardflags : Z }.

Definition flag_if (b : bool) (f : Z) (acc : Z) : Z := if b then Z.lor acc f else acc.

Definition guard_bits : list (Z * Z) := [(1, 1); (2, 2); (4, 4); (8, 8)].

(** [fp] is not NULL where it is called. *)
Definition fill_fileinfo (fp : fileproc) (fg : fileglob) : proc_fileinfo :=
  let status := flag_if (1 <? fg_count fg) PROC_FP_SHARED 0 in
  let status := flag_if (fp_flags fp &? FP_CLOEXEC)%C PROC_FP_CLEXEC status in
  let status := flag_if (fp_flags fp &? FP_CLOFORK)%C PROC_FP_CLFORK status in
  let status := flag_if (negb (fp_guard_attrs fp =? 0)) PROC_FP_GUARDED status in
  let guard := if fp_guard_attrs fp =? 0 then 0
    else foldl (λ acc g, flag_if (fp_guard_attrs fp &? g.1)%C g.2 acc) 0 guard_bits in
  ProcFileinfo (fg_flag fg) status (fg_offset fg) (fg_type fg) guard.

(** The common part of procfs_fd_vnode_info and procfs_fd_socket: the object of a
    descriptor of the wanted type, with the information on the file; [None]: an access
    outside the arrays. *)
Definition fd_object (tab : nat -> filedesc) (want fd : Z) : K (option (Z + (Z * proc_fileinfo))) :=
  t ← now;
  if negb (procfs_fd_layout_ok (tab t)) then mret (Some (inl EBADF)) else
  proc_fdlock tab (λ t,
    if (fd <? 0) || (fd_nfiles t <=? fd) then Some (inl EBADF) else
    e ← fd_entry t (Z.to_nat fd);
    match e with
    | None => Some (inl EBADF)
    | Some (fp, fg) =>
      if negb (fg_type fg =? want) then Some (inl EBADF) else
      if fg_data fg =? 0 then Some (inl EBADF) else
      Some (inr (fg_data fg, fill_fileinfo fp fg))
    end).

Definition procfs_fd_vnode_info (tab : nat -> filedesc) (fd : Z) := fd_object tab DTYPE_VNODE fd.
Definition procfs_fd_socket (tab : nat -> filedesc) (fd : Z) := fd_object tab DTYPE_SOCKET fd.

(** ** The list is complete *)

Section Facts.
Implicit Types t : filedesc.

Lemma layout_ok_wf t : table_wf t -> procfs_fd_layout_ok t = true.
Proof.
  intros [_ _ H1 H2]. unfold procfs_fd_layout_ok.
  rewrite (proj2 (Z.ltb_lt _ _)), !(proj2 (Z.leb_le _ _)) by lia. done.
Qed.

Lemma fd_entry_some t fd : table_wf t -> Z.of_nat fd < fd_nfiles t -> is_Some (fd_entry t fd).
Proof.
  intros [Hf Hg _ _] Hfd. unfold fd_entry. destruct (fd_ofiles t !! fd) as [fp|] eqn:E.
  - cbn [mbind option_bind]. destruct fp as [fp|]; [|done]. destruct (fp_glob fp); [|done].
    destruct (fd_ofileflags t !! fd) as [fl|] eqn:E'; [by eexists|]. apply lookup_ge_None in E'. lia.
  - apply lookup_ge_None in E. lia.
Qed.

(** The open descriptors from [fd] on, among the next [n]. *)
Definition open_from t (fd n : nat) : list proc_fdinfo :=
  omap (λ i, match fd_entry t i with
             | Some (Some (_, fg)) => Some (ProcFdinfo (Z.of_nat i) (fd_type fg))
             | _ => None end) (seq fd n).
Definition open_fds t : list proc_fdinfo := open_from t 0 (Z.to_nat (fd_afterlast t)).

Lemma fdlist_loop_spec t : table_wf t -> forall left fd room, Z.of_nat (fd + left) <= fd_nfiles t ->
  fdlist_loop t left fd room = Some (take room (open_from t fd left)).
Proof.
  intros Hwf. induction left as [|left IH]; intros fd room Hle; [by destruct room|]. destruct room as [|room]; [done|].
  destruct (fd_entry_some t fd Hwf) as [e He]; [lia|]. unfold open_from. cbn [fdlist_loop seq omap list_omap]. rewrite He.
  cbn [mbind option_bind]. destruct e as [[fp fg]|].
  - rewrite IH by lia. done.
  - rewrite IH by lia. done.
Qed.

Lemma open_from_S t fd n :
  open_from t fd (S n) =
    match fd_entry t fd with
    | Some (Some (_, fg)) => ProcFdinfo (Z.of_nat fd) (fd_type fg) :: open_from t (S fd) n
    | _ => open_from t (S fd) n
    end.
Proof. unfold open_from. cbn [seq omap list_omap]. by destruct (fd_entry t fd) as [[[]|]|]. Qed.

Lemma open_from_length t n : forall fd, (length (open_from t fd n) <= n)%nat.
Proof.
  induction n as [|n IH]; intros fd; [done|]. rewrite open_from_S. specialize (IH (S fd)).
  destruct (fd_entry t fd) as [[[]|]|]; cbn [length]; lia.
Qed.

Lemma open_fds_length t : table_wf t -> Z.of_nat (length (open_fds t)) <= fd_afterlast t.
Proof. intros [_ _ Hl _]. pose proof (open_from_length t (Z.to_nat (fd_afterlast t)) 0). unfold open_fds. lia. Qed.

Lemma elem_of_open_from t i n fd :
  i ∈ open_from t fd n <-> exists k fp fg, (fd <= k < fd + n)%nat ∧ fd_entry t k = Some (Some (fp, fg))
    ∧ i = ProcFdinfo (Z.of_nat k) (fd_type fg).
Proof.
  unfold open_from. rewrite list_elem_of_omap. setoid_rewrite elem_of_seq. split.
  - intros (k & Hk & Hi). destruct (fd_entry t k) as [[[fp fg]|]|] eqn:E; simplify_eq. eauto 10.
  - intros (k & fp & fg & Hk & E & ->). exists k. by rewrite E.
Qed.

(** The list as the kernel interface presents it, in increasing order. *)
Lemma open_from_sorted t n : forall fd, StronglySorted Z.lt (proc_fd <$> open_from t fd n).
Proof.
  induction n as [|n IH]; intros fd; [constructor|]. rewrite open_from_S.
  destruct (fd_entry t fd) as [[[fp fg]|]|]; try apply IH. rewrite fmap_cons. constructor; [apply IH|].
  apply Forall_fmap, Forall_forall. intros i (k & fp' & fg' & Hk & _ & ->)%elem_of_open_from. simpl. lia.
Qed.

Lemma yields_now {A} (f : nat -> A) a : (forall n, f n = a) -> yields (n ← now; mret (f n)) a.
Proof. intros Hf s. rewrite K_bind_run. simpl. split; [apply Hf|done]. Qed.

Lemma yields_tick {A} (f : nat -> K A) a : (forall n, yields (f n) a) -> yields (now ≫= f) a.
Proof. intros Hf s. rewrite K_bind_run. destruct (Hf (k_clock s) (tick s)) as [E Hs]. split; [exact E|exact Hs]. Qed.

(** C27. The list of descriptors: for a table that does not change, the bound the first call
    returns is enough, and the second call, given room for that many, returns every open
    descriptor with its type, none twice, in increasing order; with less room it returns
    the first ones.  No array is read outside its bounds. *)
Theorem fdlist_complete t room :
  table_wf t ->
  yields (proc_fdlist_bound_ (λ _, t)) (0, fd_afterlast t)
  ∧ yields (proc_fdlist_ (λ _, t) room) (Some (0, take room (open_fds t)))
  ∧ Z.of_nat (length (open_fds t)) <= fd_afterlast t
  ∧ StronglySorted Z.lt (proc_fd <$> open_fds t)
  ∧ forall fd ty, ProcFdinfo fd ty ∈ open_fds t <->
      0 <= fd < fd_afterlast t ∧ exists fp fg, fd_entry t (Z.to_nat fd) = Some (Some (fp, fg)) ∧ ty = fd_type fg.
Proof.
  intros Hwf. pose proof (layout_ok_wf t Hwf) as Hl. pose proof Hwf as [_ _ Hla _]. split_and!.
  - apply yields_tick. intros _. rewrite Hl. simpl. eapply yields_bind; [by apply yields_now|apply yields_ret].
  - apply yields_tick. intros _. rewrite Hl. simpl. eapply yields_bind; [by apply yields_now|].
    rewrite fdlist_loop_spec by (done || lia). apply yields_ret.
  - by apply open_fds_length.
  - apply open_from_sorted.
  - intros fd ty. unfold open_fds. rewrite elem_of_open_from. split.
    + intros (k & fp & fg & Hk & He & [= -> ->]). rewrite Nat2Z.id. split; [lia|eauto].
    + intros (Hfd & fp & fg & He & ->). exists (Z.to_nat fd), fp, fg. rewrite Z2Nat.id by lia. split; [lia|done].
Qed.

(** The object behind a descriptor: for a table that does not change and has nothing
    open above [fd_afterlast], the lookup of a vnode (or a socket) never leaves the
    arrays; it succeeds exactly for the descriptors that are listed with that type and
    have an object, with the flags of the file, and fails with EBADF for all other
    numbers, negative ones and ones beyond the table included. *)
Theorem fd_object_listed t want fd :
  table_wf t -> want = DTYPE_VNODE ∨ want = DTYPE_SOCKET ->
  (forall k, fd_afterlast t <= Z.of_nat k -> forall x, fd_entry t k ≠ Some (Some x)) ->
  exists r, yields (fd_object (λ _, t) want fd) (Some r)
    ∧ match r with
      | inl e => e = EBADF ∧ (ProcFdinfo fd want ∈ open_fds t ->
          exists fp fg, fd_entry t (Z.to_nat fd) = Some (Some (fp, fg)) ∧ fg_data fg = 0)
      | inr (data, fi) => data ≠ 0 ∧ ProcFdinfo fd want ∈ open_fds t ∧ fi_type fi = want
          ∧ exists fp fg, fd_entry t (Z.to_nat fd) = Some (Some (fp, fg)) ∧ data = fg_data fg
            ∧ fi = fill_fileinfo fp fg
      end.
Proof.
  intros Hwf Hw Habove. pose proof (layout_ok_wf t Hwf) as Hl. pose proof Hwf as [_ _ Hla _].
  assert (Hstart : forall r, (if (fd <? 0) || (fd_nfiles t <=? fd) then Some (inl EBADF) else
      e ← fd_entry t (Z.to_nat fd);
      match e with
      | None => Some (inl EBADF)
      | Some (fp, fg) => if negb (fg_type fg =? want) then Some (inl EBADF) else
          if fg_data fg =? 0 then Some (inl EBADF) else Some (inr (fg_data fg, fill_fileinfo fp fg))
      end) = Some r -> yields (fd_object (λ _, t) want fd) (Some r)).
  { intros r Hr. apply yields_tick. intros _. rewrite Hl. simpl. apply yields_now. intros _. exact Hr. }
  pose proof (elem_of_open_from t (ProcFdinfo fd want) (Z.to_nat (fd_afterlast t)) 0) as Hmem.
  destruct ((fd <? 0) || (fd_nfiles t <=? fd)) eqn:Eb.
  { eexists. split; [by apply Hstart|]. split; [done|]. intros (k & fp & fg & Hk & He & [= -> _])%Hmem.
    apply orb_true_iff in Eb as [Eb|Eb]; b2p; lia. }
  b2p. destruct (fd_entry_some t (Z.to_nat fd) Hwf) as [e He]; [lia|]. rewrite He in Hstart. cbn [mbind option_bind] in Hstart.
  destruct e as [[fp fg]|].
  2: { eexists. split; [by apply Hstart|]. split; [done|]. intros (k & fp & fg & Hk & He' & [= -> _])%Hmem.
       rewrite Nat2Z.id in He. congruence. }
  assert (Hty : forall fg', want = fd_type fg' <-> fg_type fg' = want).
  { intros fg'. unfold fd_type, DTYPE_ATALK, PROX_FDTYPE_ATALK. unfold DTYPE_VNODE, DTYPE_SOCKET in Hw. clear -Hw.
    destruct (Z.eqb_spec (fg_type fg') 8); intuition lia. }
  destruct (Z.eqb_spec (fg_type fg) want) as [Et|Et]; cbn [negb] in Hstart.
  2: { eexists. split; [by apply Hstart|]. split; [done|]. intros (k & fp' & fg' & Hk & He' & [= -> Hty'])%Hmem.
       apply Hty in Hty'. rewrite Nat2Z.id in He. congruence. }
  destruct (Z.eqb_spec (fg_data fg) 0) as [Ed|Ed].
  { eexists. split; [by apply Hstart|]. split; [done|]. intros _. eauto. }
  eexists. split; [by apply Hstart|]. split; [done|]. split.
  - apply Hmem. exists (Z.to_nat fd), fp, fg. rewrite Z2Nat.id by lia. split; [|split; [done|f_equal; by apply Hty]].
    destruct (Z.le_gt_cases (fd_afterlast t) fd) as [Hge|]; [|lia].
    destruct (Habove (Z.to_nat fd) ltac:(lia) (fp, fg) He).
  - split; [done|]. eauto.
Qed.

End Facts.

(** ** Example *)

Definition vnode_file (vp : Z) : option fileproc := Some (Fileproc (Some (Fileglob 1 0 DTYPE_VNODE vp 2)) FP_CLOEXEC 0).
Definition socket_file (so : Z) : option fileproc := Some (Fileproc (Some (Fileglob 3 0 DTYPE_SOCKET so 1)) 0 3).
Definition sample_table : filedesc :=
  Filedesc 8 5 [vnode_file 100; vnode_file 100; None; socket_file 200; vnode_file 300; None; None; None] [0; 0; 0; 0; 4; 0; 0; 0].

Lemma sample_table_wf : table_wf sample_table.
Proof. split; by vm_compute. Qed.

Lemma fdlist_complete_witness :
  yields (proc_fdlist_ (λ _, sample_table) 5) (Some (0, [ProcFdinfo 0 1; ProcFdinfo 1 1; ProcFdinfo 3 2])).
Proof. apply (fdlist_complete sample_table 5 sample_table_wf). Defined.

Lemma fd_object_listed_witness :
  exists r, yields (fd_object (λ _, sample_table) DTYPE_SOCKET 3) (Some r).
Proof.
  destruct (fd_object_listed sample_table DTYPE_SOCKET 3) as (r & Hr & _).
  - exact sample_table_wf.
  - by right.
  - intros k Hk x. cbn [sample_table fd_afterlast] in Hk. do 8 (destruct k as [|k]; [vm_compute; (done || lia)|]). done.
  - by exists r.
Defined.

(** ** The kernel interface *)

(** The system [k] with the descriptor lists of these functions; [tab p] is the table of
    the process. *)
Definition with_tables (k : KernelOps) (tab : @proc_t k -> filedesc) : KernelOps := {|
  proc_t := @proc_t k; kauth_cred_t := @kauth_cred_t k; proc_find_at := @proc_find_at k; proc_pid := @proc_pid k;
  proc_name := @proc_name k; malloc_at := @malloc_at k; kauth_cred_proc_ref := @kauth_cred_proc_ref k;
  cr_uid := @cr_uid k; cr_groups0 := @cr_groups0 k; kauth_cred_getuid := @kauth_cred_getuid k;
  kauth_cred_getruid := @kauth_cred_getruid k; kauth_cred_getgid := @kauth_cred_getgid k;
  kauth_cred_getrgid := @kauth_cred_getrgid k; p_uthlist_at := @p_uthlist_at k; kernel_mapped := @kernel_mapped k;
  thread_tid := @thread_tid k; current_proc := @current_proc k; current_thread := @current_thread k;
  proc_fdlist_bound_at _ p := if procfs_fd_layout_ok (tab p) then (0, fd_afterlast (tab p)) else (EINVAL, 0);
  proc_fdlist_at _ p n :=
    if procfs_fd_layout_ok (tab p) then (0, proc_fd <$> take (Z.to_nat n) (open_fds (tab p))) else (EINVAL, []) |}.

#[export] Instance with_tables_stable k tab : @KernelStable k -> @KernelStable (with_tables k tab).
Proof. intros [H1 H2 H3 H4 _ _]. by split. Qed.

(** C19. The descriptor directory is built on this list: in a system whose descriptor lists
    come from these functions, the array that lookup and readdir walk holds exactly the
    open descriptors of the process, in increasing order. *)
Theorem fd_list_from_table (k : KernelOps) (stable : @KernelStable k) (tab : @proc_t k -> filedesc) (p : @proc_t k) :
  table_wf (tab p) ->
  (forall n, yields (proc_fdlist_bound_ (λ _, tab p)) (@proc_fdlist_bound_at (with_tables k tab) n p)
    ∧ forall room, yields (proc_fdlist_ (λ _, tab p) room)
        (Some (0, take room (open_fds (tab p))))
      ∧ @proc_fdlist_at (with_tables k tab) n p (Z.of_nat room) = (0, proc_fd <$> take room (open_fds (tab p))))
  ∧ exists size, value (@procfs_get_fd_list (with_tables k tab) (Some p)) (0, proc_fd <$> open_fds (tab p), size).
Proof.
  intros Hwf. pose proof (layout_ok_wf _ Hwf) as Hl. split.
  - intros n. simpl. rewrite Hl. split.
    + apply yields_tick. intros _. rewrite Hl. simpl. eapply yields_bind; [by apply yields_now|apply yields_ret].
    + intros room. rewrite Nat2Z.id. split; [|done].
      apply yields_tick. intros _. rewrite Hl. simpl. eapply yields_bind; [by apply yields_now|].
      pose proof Hwf as [_ _ Hla _]. rewrite fdlist_loop_spec by (done || lia). apply yields_ret.
  - pose proof (open_fds_length _ Hwf) as Hn. pose proof (with_tables_stable k tab stable) as Hs.
    unfold procfs_get_fd_list. destruct (Z.eqb_spec (fd_afterlast (tab p)) 0) as [E|E].
    + exists None. assert (Ho : open_fds (tab p) = []) by (destruct (open_fds (tab p)); simpl in Hn; [done|lia]).
      eapply value_bind; [apply value_fdlist_bound|]. cbn [with_tables proc_fdlist_bound_at]. rewrite Hl, E, Ho. apply value_ret.
    + eexists. eapply value_bind; [apply value_fdlist_bound|]. cbn [with_tables proc_fdlist_bound_at]. rewrite Hl.
      apply Z.eqb_neq in E. rewrite E. cbn [Z.eqb negb orb]. eapply value_bind; [apply value_OSMalloc|].
      eapply value_bind; [apply value_fdlist|]. cbn [with_tables proc_fdlist_at]. rewrite Hl. cbn [Z.eqb negb].
      rewrite take_ge by lia. apply value_ret.
Qed.

Lemma fd_list_from_table_witness :
  exists size, value (@procfs_get_fd_list (with_tables (simple_kernel []) (λ _, sample_table)) (Some (SimpleProc 1 "launchd" 0 0 [] [])))
    (0, [0; 1; 3], size).
Proof.
  destruct (fd_list_from_table (simple_kernel []) (simple_kernel_stable []) (λ _, sample_table)
    (SimpleProc 1 "launchd" 0 0 [] []) sample_table_wf) as [_ H]. exact H.
Defined.
