(* ===== verification/Status.v ===== *)
(** * Process and thread information (kext/procfs_status.c, kext/procfs_regs.c,
    kext/procfs_fpregs.c, kext/procfs_note.c, kext/lib/kern.c)

    The nodes that show binary structures: identifiers of a process, its short status, task
    and thread information, and registers.  A structure is the list of its bytes,
    little-endian. *)

From Stdlib Require Import Btauto.
From S2P Require Import Prelude Kernel Structure Subr Sbuf Text Phys Procargs Map Bridge Fdtable.

(** What the nodes use of a process besides its pid and credentials. *)
Class ProcInfo `{KernelOps} := {
  proc_ppid : proc_t -> Z;
  proc_pgrpid : proc_t -> Z;
  proc_sessionid : proc_t -> Z;
  p_stat : proc_t -> Z;
  p_flag : proc_t -> Z;
  p_lflag : proc_t -> Z;
  p_pcaction : proc_t -> Z;
  p_comm : proc_t -> list Byte.byte;
  proc_exiting : proc_t -> bool;
  proc_is64bit : proc_t -> bool;
  kauth_cred_getsvuid : kauth_cred_t -> Z;
  kauth_cred_getsvgid : kauth_cred_t -> Z;
  (** the controlling terminal: the path of its vnode when there is one ([None]: no
      terminal; [Some None]: the path cannot be had); [None] as a whole when proc_gettty is
      not resolved *)
  proc_gettty : option (proc_t -> option (option string));
  (** the field of the read-only part, and two fields of the task *)
  pr_task : proc_t -> Z;
  task_thread_count : proc_t -> Z;
  task_priority : proc_t -> Z;
}.

(** Private functions of the kernel: symbols.c makes a pointer for each, which is NULL and
    which nothing sets.  Those that [resolve_symbols] looks up are other variables. *)
Definition _proc_issetugid `{KernelOps} : option (proc_t -> bool) := None.
Definition _proc_get_darwinbgstate `{KernelOps} : option (proc_t -> Z -> Z) := None.
Definition _fill_taskprocinfo `{KernelOps} : option (proc_t -> list Byte.byte) := None.
Definition _fill_taskthreadinfo `{KernelOps} : option (proc_t -> Z -> list Byte.byte) := None.

Definition P_LHASTASK : Z := 2.
Definition TASK_NULL : Z := 0.

Definition proc_task `{ProcInfo} (p : proc_t) : Z := if (p_lflag p &? P_LHASTASK)%C then pr_task p else TASK_NULL.

(** [proc_task(p) != TASK_NULL] *)
Definition has_task `{ProcInfo} (p : proc_t) : bool := negb (proc_task p =? TASK_NULL).

Definition SIDL : Z := 1.
Definition SRUN : Z := 2.
Definition SSLEEP : Z := 3.
Definition SSTOP : Z := 4.
Definition SZOMB : Z := 5.
Definition P_CONTROLT : Z := 2.
Definition P_SYSTEM : Z := 512.
Definition P_LTRACED : Z := 1024.
Definition P_LPPWAIT : Z := 8192.
Definition P_EXEC : Z := 16384.
Definition P_DELAYIDLESLEEP : Z := 262144.
Definition P_THCWD : Z := 16777216.
Definition P_PCTHROTTLE : Z := 1.
Definition P_PCSUSP : Z := 2.
Definition P_PCKILL : Z := 3.
Definition PROC_FLAG_SYSTEM : Z := 1.
Definition PROC_FLAG_TRACED : Z := 2.
Definition PROC_FLAG_INEXIT : Z := 4.
Definition PROC_FLAG_PPWAIT : Z := 8.
Definition PROC_FLAG_LP64 : Z := 16.
Definition PROC_FLAG_CONTROLT : Z := 128.
Definition PROC_FLAG_THCWD : Z := 256.
Definition PROC_FLAG_PC_THROTTLE : Z := 512.
Definition PROC_FLAG_PC_SUSP : Z := 1024.
Definition PROC_FLAG_PC_KILL : Z := 1536.
Definition PROC_FLAG_PA_THROTTLE : Z := 2048.
Definition PROC_FLAG_PA_SUSP : Z := 4096.
Definition PROC_FLAG_PSUGID : Z := 8192.
Definition PROC_FLAG_EXEC : Z := 16384.
Definition POLICY_TIMESHARE : Z := 1.

(** A field of a structure. *)
Definition get_field (off n : nat) (b : list Byte.byte) : Z := le_value (take n (drop off b)).
Definition put_field (off n : nat) (v : Z) (b : list Byte.byte) : list Byte.byte :=
  take off b ++ le_bytes n v ++ drop (off + n) b.

Definition PROC_FLAG_DELAYIDLESLEEP : Z := 262144.

(** [(flags & f) == f] *)
Definition has_all (flags f : Z) : bool := Z.land flags f =? f.

Section Status.
Context `{KernelOps} `{PageSize} `{UioOps} `{!ProcInfo} `{!VmOps} `{CtlOps}.

Definition copy_out (data : list Byte.byte) (uio : uio_t) : option (Z * uio_t) :=
  procfs_copy_data (Some data) (Z.of_nat (length data)) uio.

(** ** Identifiers *)

Definition procfs_read_pid_data (pnp : pfsnode) (uio : uio_t) : K (option (Z * uio_t)) :=
  mret (copy_out (le_bytes 4 (nodeid_pid (node_id pnp))) uio).

(** ppid, pgid and sid: a number of the process. *)
Definition read_number (number : proc_t -> Z) (pnp : pfsnode) (uio : uio_t) : K (option (Z * uio_t)) :=
  p ← proc_find (nodeid_pid (node_id pnp));
  match p with
  | Some p => let r := copy_out (le_bytes 4 (number p)) uio in _ ← proc_rele p; mret r
  | None => mret (Some (ESRCH, uio))
  end.
Definition procfs_read_ppid_data := read_number proc_ppid.
Definition procfs_read_pgid_data := read_number proc_pgrpid.
Definition procfs_read_sid_data := read_number proc_sessionid.

Definition procfs_read_tty_data (pnp : pfsnode) (uio : uio_t) : K (option (Z * uio_t)) :=
  match proc_gettty with
  | None => mret (Some (ENOTSUP, uio))
  | Some gettty =>
    p ← proc_find (nodeid_pid (node_id pnp));
    match p with
    | None => mret (Some (ESRCH, uio))
    | Some p =>
      let r := match gettty p with
               | Some (Some path) => copy_out (bytes_of_string path) uio
               | Some None => Some (EIO, uio)
               | None => copy_out [] uio
               end in
      _ ← proc_rele p; mret r
    end
  end.

(** ** Short status *)

Definition control_flag (s : Z) : Z :=
  if s =? P_PCTHROTTLE then PROC_FLAG_PC_THROTTLE else if s =? P_PCSUSP then PROC_FLAG_PC_SUSP
  else if s =? P_PCKILL then PROC_FLAG_PC_KILL else 0.
Definition action_flag (s : Z) : Z :=
  if s =? P_PCTHROTTLE then PROC_FLAG_PA_THROTTLE else if s =? P_PCSUSP then PROC_FLAG_PA_SUSP else 0.

(** pbsi_flags *)
Definition short_flags (p : proc_t) : Z :=
  let f := p_flag p in
  let fl := flag_if (has_all f P_SYSTEM) PROC_FLAG_SYSTEM 0 in
  let fl := flag_if (has_all f P_LTRACED) PROC_FLAG_TRACED fl in
  let fl := flag_if (proc_exiting p) PROC_FLAG_INEXIT fl in
  let fl := flag_if (has_all f P_LPPWAIT) PROC_FLAG_PPWAIT fl in
  let fl := flag_if (proc_is64bit p) PROC_FLAG_LP64 fl in
  let fl := flag_if (has_all f P_CONTROLT) PROC_FLAG_CONTROLT fl in
  let fl := flag_if (has_all f P_THCWD) PROC_FLAG_THCWD fl in
  let fl := flag_if (match _proc_issetugid with Some issetugid => issetugid p | None => false end) PROC_FLAG_PSUGID fl in
  let fl := flag_if (has_all f P_EXEC) PROC_FLAG_EXEC fl in
  let fl := flag_if (has_all f P_DELAYIDLESLEEP) PROC_FLAG_DELAYIDLESLEEP fl in
  let fl := Z.lor fl (control_flag (Z.land (p_pcaction p) 3)) in
  let fl := Z.lor fl (action_flag (Z.land (Z.shiftr (p_pcaction p) 16) 3)) in
  match _proc_get_darwinbgstate with
  | Some darwinbgstate => if negb (p_stat p =? SZOMB) && has_task p then darwinbgstate p fl else fl
  | None => fl
  end.

(** struct proc_bsdshortinfo; [p_comm] has more than MAXCOMLEN bytes. *)
Definition proc_pidshortbsdinfo (p : proc_t) : list Byte.byte :=
  let cred := kauth_cred_proc_ref p in
  le_bytes 4 (proc_pid p) ++ le_bytes 4 (proc_ppid p) ++ le_bytes 4 (proc_pgrpid p) ++ le_bytes 4 (p_stat p)
  ++ (take 15 (p_comm p) ++ [Byte.x00])
  ++ le_bytes 4 (short_flags p)
  ++ le_bytes 4 (kauth_cred_getuid cred) ++ le_bytes 4 (kauth_cred_getgid cred)
  ++ le_bytes 4 (kauth_cred_getruid cred) ++ le_bytes 4 (kauth_cred_getrgid cred)
  ++ le_bytes 4 (kauth_cred_getsvuid cred) ++ le_bytes 4 (kauth_cred_getsvgid cred)
  ++ le_bytes 4 0.

(** [linux]: the Linux presentation is on, with that handler. *)
Definition procfs_dostatus (linux : option (K (option (Z * uio_t)))) (pnp : pfsnode) (uio : uio_t) :
    K (option (Z * uio_t)) :=
  match linux with
  | Some m => m
  | None =>
    p ← proc_find (nodeid_pid (node_id pnp));
    match p with
    | Some p => let r := copy_out (proc_pidshortbsdinfo p) uio in _ ← proc_rele p; mret r
    | None => mret (Some (0, uio))
    end
  end.

(** ** Task and thread information *)

Definition sizeof_taskinfo : nat := 96.
Definition sizeof_threadinfo : nat := 112.

Definition proc_pidtaskinfo (p : proc_t) : list Byte.byte :=
  match _fill_taskprocinfo with Some f => f p | None => replicate sizeof_taskinfo Byte.x00 end.
Definition proc_pidthreadinfo (p : proc_t) (arg : Z) : list Byte.byte :=
  match _fill_taskthreadinfo with Some f => f p arg | None => replicate sizeof_threadinfo Byte.x00 end.

(** The fields the kext computes itself. *)
Definition patch_taskinfo (p : proc_t) (tcount : Z) (info : list Byte.byte) : list Byte.byte :=
  let '(e, vsize, rsize) := procfs_task_vm_sizes (λ p, negb (has_task p)) p in
  let info := if e =? 0 then put_field 8 8 rsize (put_field 0 8 vsize info) else info in
  let info := if 0 <? tcount then put_field 84 4 tcount info else info in
  let info := if get_field 48 4 info =? 0 then put_field 48 4 POLICY_TIMESHARE info else info in
  if has_task p && (0 <? tcount) && (task_thread_count p =? tcount) && (0 <=? task_priority p) && (task_priority p <=? 127)
  then put_field 92 4 (task_priority p) info else info.

(** [known]: the size of the thread structure, once it was found. *)
Definition procfs_read_task_info (known : option Z) (pnp : pfsnode) (uio : uio_t) : K (option (Z * uio_t)) :=
  p ← proc_find (nodeid_pid (node_id pnp));
  match p with
  | None => mret (Some (0, uio))
  | Some p =>
    r ← ctl_request PROCFS_REQ_TASKINFO (nodeid_pid (node_id pnp)) 0 sizeof_taskinfo;
    match whole sizeof_taskinfo r with
    | Some info => let r := copy_out info uio in _ ← proc_rele p; mret r
    | None =>
      tc ← procfs_get_task_thread_count (Some p) known;
      let r := copy_out (patch_taskinfo p tc.1 (proc_pidtaskinfo p)) uio in
      _ ← proc_rele p; mret r
    end
  end.

Definition procfs_read_thread_info (pnp : pfsnode) (uio : uio_t) : K (option (Z * uio_t)) :=
  p ← proc_find (nodeid_pid (node_id pnp));
  match p with
  | None => mret (Some (0, uio))
  | Some p =>
    let tid := nodeid_objectid (node_id pnp) in
    r ← ctl_request PROCFS_REQ_THREADINFO (nodeid_pid (node_id pnp)) tid sizeof_threadinfo;
    let r := copy_out (default (proc_pidthreadinfo p tid) (whole sizeof_threadinfo r)) uio in
    _ ← proc_rele p; mret r
  end.

(** ** Registers *)

(** The process exists and has a user thread. *)
Definition has_registers (pnp : pfsnode) : K bool :=
  p ← proc_find (nodeid_pid (node_id pnp));
  match p with
  | None => mret false
  | Some p =>
    let sysproc := (p_stat p =? SZOMB) || (p_flag p &? P_SYSTEM)%C in
    _ ← proc_rele p; mret (negb sysproc)
  end.

(** [size]: the size of the register structure of the machine. *)
Definition read_registers (req : Z) (size : nat) (linux : option (K (option (Z * uio_t)))) (pnp : pfsnode) (uio : uio_t) :
    K (option (Z * uio_t)) :=
  if negb (uio_is_read uio) then mret (Some (EOPNOTSUPP, uio)) else
  match linux with
  | Some m => m
  | None =>
    ok ← has_registers pnp;
    if (ok : bool) then
      r ← ctl_request req (nodeid_pid (node_id pnp)) 0 size;
      mret match r with
           | inl rc => Some (if rc =? ENOTCONN then ENOTSUP else rc, uio)
           | inr state => copy_out state uio
           end
    else mret (Some (ESRCH, uio))
  end.
Definition procfs_doregs := read_registers PROCFS_REQ_REGS.
Definition procfs_dofpregs := read_registers PROCFS_REQ_FPREGS.

End Status.

(** ** Notes *)

Definition PROCFS_NOTELEN : nat := 64.

(** The loop that removes newlines from the end. *)
Fixpoint strip_newlines (xlen : nat) (buf : list Byte.byte) : nat :=
  match xlen with
  | O => O
  | S n => if bool_decide (buf !! n = Some Byte.x0a) then strip_newlines n buf else S n
  end.

(** [data]: what uiomove delivers, or its error.  The result is the note. *)
Definition procfs_getuserstr (data : Z + list Byte.byte) (resid cap : nat) : Z + list Byte.byte :=
  if (cap <? resid)%nat then inl EMSGSIZE else
  match data with
  | inl e => inl e
  | inr d => inr (take (strip_newlines resid d) d)
  end.

Definition procfs_donote (is_write : bool) (data : Z + list Byte.byte) (resid : nat) : Z :=
  if negb is_write then EINVAL else
  match procfs_getuserstr data resid PROCFS_NOTELEN with inl e => e | inr _ => EOPNOTSUPP end.

(** ** Fields *)

Lemma get_here n v r : 0 <= v < 256 ^ Z.of_nat n -> get_field 0 n (le_bytes n v ++ r) = v.
Proof.
  intros Hv. unfold get_field. rewrite drop_0, take_app_length' by (by rewrite le_bytes_length). by apply le_bytes_value.
Qed.

Lemma get_skip a k off n b v : length a = k -> get_field off n b = v -> get_field (k + off) n (a ++ b) = v.
Proof. intros <- <-. unfold get_field. by rewrite drop_app_add. Qed.

Lemma put_length off n v b : (off + n <= length b)%nat -> length (put_field off n v b) = length b.
Proof. intros Hn. unfold put_field. rewrite !length_app, length_take, length_drop, le_bytes_length. lia. Qed.

Lemma get_put off n v b : (off + n <= length b)%nat -> 0 <= v < 256 ^ Z.of_nat n -> get_field off n (put_field off n v b) = v.
Proof.
  intros Hn Hv. unfold put_field. rewrite <- (Nat.add_0_r off) at 1.
  apply get_skip; [rewrite length_take; lia|by apply get_here].
Qed.

(** A field behind or before the one that is set. *)
Lemma get_put_other off n v off' n' b : (off + n <= length b)%nat -> (off' + n' <= off ∨ off + n <= off')%nat ->
  get_field off' n' (put_field off n v b) = get_field off' n' b.
Proof.
  intros Hn [Hl|Hr]; unfold get_field, put_field; f_equal.
  - rewrite drop_app_le by (rewrite length_take; lia). rewrite take_app_le by (rewrite length_drop, length_take; lia).
    rewrite skipn_firstn_comm, take_take. f_equal. lia.
  - f_equal. rewrite drop_app_ge by (rewrite length_take; lia). rewrite length_take, drop_app_ge by (rewrite le_bytes_length; lia).
    rewrite le_bytes_length, drop_drop. f_equal. lia.
Qed.

(** Reaches a field of four bytes. *)
Ltac field4 :=
  repeat first [refine (get_skip _ 4 _ _ _ _ (le_bytes_length _ _) _) | refine (get_skip _ 16 _ _ _ _ _ _); [eassumption|]];
  apply get_here; simpl; lia.

Section StatusFacts.
Context `{KernelOps} `{PageSize} `{UioLaws} `{!ProcInfo} `{!VmOps} `{CtlLaws}.

Lemma copy_out_shows data u st : Z.of_nat (length data) <= INT_MAX -> shows (mret (copy_out data u)) data u st.
Proof. intros Hl Hoff Hw. destruct (copy_data_run data u Hl Hoff Hw) as (u' & E & Ho & _). by exists u'. Qed.

Definition id_ok (v : Z) : Prop := 0 <= v < 4294967296.

(** The identifiers of the process are 32-bit numbers and its name fills its field. *)
Record info_ok (p : proc_t) : Prop := {
  io_pid : id_ok (proc_pid p); io_ppid : id_ok (proc_ppid p); io_pgid : id_ok (proc_pgrpid p); io_stat : id_ok (p_stat p);
  io_comm : (16 <= length (p_comm p))%nat;
  io_uid : id_ok (kauth_cred_getuid (kauth_cred_proc_ref p)); io_gid : id_ok (kauth_cred_getgid (kauth_cred_proc_ref p));
  io_ruid : id_ok (kauth_cred_getruid (kauth_cred_proc_ref p)); io_rgid : id_ok (kauth_cred_getrgid (kauth_cred_proc_ref p));
  io_svuid : id_ok (kauth_cred_getsvuid (kauth_cred_proc_ref p)); io_svgid : id_ok (kauth_cred_getsvgid (kauth_cred_proc_ref p)) }.

Lemma short_length p : (16 <= length (p_comm p))%nat -> length (proc_pidshortbsdinfo p) = 64%nat.
Proof.
  intros Hc. unfold proc_pidshortbsdinfo. rewrite !length_app, !le_bytes_length, length_take. cbn [length]. lia.
Qed.

(** The flags, bit by bit: the place of each in [pbsi_flags] with what it shows of the process;
    all other bits, the one for changed user ids among them, are 0. *)
Definition flag_bits (p : proc_t) : list (Z * bool) :=
  let f := Z.testbit (p_flag p) in
  let a := Z.testbit (p_pcaction p) in
  [(0, f 9); (1, f 10); (2, proc_exiting p); (3, f 13); (4, proc_is64bit p); (7, f 1); (8, f 24);
   (9, a 0); (10, a 1); (11, a 16 && negb (a 17)); (12, a 17 && negb (a 16)); (14, f 14); (18, f 18)].
Definition flag_bit (p : proc_t) (i : Z) : bool := existsb (λ e, (e.1 =? i) && e.2) (flag_bits p).

Lemma flag_if_bit b f acc i : Z.testbit (flag_if b f acc) i = Z.testbit acc i || (b && Z.testbit f i).
Proof. unfold flag_if. destruct b; [by rewrite Z.lor_spec|by rewrite orb_false_r]. Qed.

Lemma has_all_bit f k : 0 <= k -> has_all f (2 ^ k) = Z.testbit f k.
Proof.
  intros Hk. unfold has_all. destruct (Z.testbit f k) eqn:E.
  - apply Z.eqb_eq, Z.bits_inj'. intros i Hi. rewrite Z.land_spec, Z.pow2_bits_eqb by lia.
    destruct (Z.eqb_spec k i) as [->|]; [by rewrite E|by rewrite andb_false_r].
  - apply Z.eqb_neq. intros E'. assert (Z.testbit (Z.land f (2 ^ k)) k = Z.testbit (2 ^ k) k) as Ht by (by rewrite E').
    rewrite Z.land_spec, E, Z.pow2_bits_true in Ht by lia. done.
Qed.

(** A state of two bits. *)
Lemma two_bits a : exists s, Z.land a 3 = s ∧ 0 <= s < 4 ∧ Z.testbit a 0 = Z.testbit s 0 ∧ Z.testbit a 1 = Z.testbit s 1.
Proof.
  exists (Z.land a 3). split; [done|]. split; [|by rewrite !Z.land_spec, !andb_true_r].
  change 3 with (Z.ones 2). rewrite Z.land_ones by lia. apply Z.mod_pos_bound. lia.
Qed.

Lemma control_flag_bit s i : 0 <= s < 4 -> 0 <= i ->
  Z.testbit (control_flag s) i = ((9 =? i) && Z.testbit s 0) || ((10 =? i) && Z.testbit s 1).
Proof.
  intros Hs Hi. assert (s = 0 ∨ s = 1 ∨ s = 2 ∨ s = 3) as [->|[->|[->| ->]]] by lia.
  - change (Z.testbit 0 i = ((9 =? i) && false) || ((10 =? i) && false)). rewrite Z.bits_0. btauto.
  - change (Z.testbit (2 ^ 9) i = ((9 =? i) && true) || ((10 =? i) && false)). rewrite Z.pow2_bits_eqb by lia. btauto.
  - change (Z.testbit (2 ^ 10) i = ((9 =? i) && false) || ((10 =? i) && true)). rewrite Z.pow2_bits_eqb by lia. btauto.
  - change (Z.testbit (Z.lor (2 ^ 9) (2 ^ 10)) i = ((9 =? i) && true) || ((10 =? i) && true)).
    rewrite Z.lor_spec, !Z.pow2_bits_eqb by lia. btauto.
Qed.

Lemma action_flag_bit s i : 0 <= s < 4 -> 0 <= i ->
  Z.testbit (action_flag s) i =
  ((11 =? i) && (Z.testbit s 0 && negb (Z.testbit s 1))) || ((12 =? i) && (Z.testbit s 1 && negb (Z.testbit s 0))).
Proof.
  intros Hs Hi. assert (s = 0 ∨ s = 1 ∨ s = 2 ∨ s = 3) as [->|[->|[->| ->]]] by lia.
  - change (Z.testbit 0 i = ((11 =? i) && false) || ((12 =? i) && false)). rewrite Z.bits_0. btauto.
  - change (Z.testbit (2 ^ 11) i = ((11 =? i) && true) || ((12 =? i) && false)). rewrite Z.pow2_bits_eqb by lia. btauto.
  - change (Z.testbit (2 ^ 12) i = ((11 =? i) && false) || ((12 =? i) && true)). rewrite Z.pow2_bits_eqb by lia. btauto.
  - change (Z.testbit 0 i = ((11 =? i) && false) || ((12 =? i) && false)). rewrite Z.bits_0. btauto.
Qed.

Lemma short_flags_bits p i : 0 <= i -> Z.testbit (short_flags p) i = flag_bit p i.
Proof.
  intros Hi. unfold short_flags. cbv zeta. cbn [_proc_get_darwinbgstate _proc_issetugid].
  change P_SYSTEM with (2 ^ 9). change P_LTRACED with (2 ^ 10). change P_LPPWAIT with (2 ^ 13). change P_CONTROLT with (2 ^ 1).
  change P_THCWD with (2 ^ 24). change P_EXEC with (2 ^ 14). change P_DELAYIDLESLEEP with (2 ^ 18).
  change PROC_FLAG_SYSTEM with (2 ^ 0). change PROC_FLAG_TRACED with (2 ^ 1). change PROC_FLAG_INEXIT with (2 ^ 2).
  change PROC_FLAG_PPWAIT with (2 ^ 3). change PROC_FLAG_LP64 with (2 ^ 4). change PROC_FLAG_CONTROLT with (2 ^ 7).
  change PROC_FLAG_THCWD with (2 ^ 8). change PROC_FLAG_PSUGID with (2 ^ 13). change PROC_FLAG_EXEC with (2 ^ 14).
  change PROC_FLAG_DELAYIDLESLEEP with (2 ^ 18).
  destruct (two_bits (p_pcaction p)) as (c & -> & Hc & E0 & E1).
  destruct (two_bits (Z.shiftr (p_pcaction p) 16)) as (d & -> & Hd & E16 & E17).
  rewrite Z.shiftr_spec in E16, E17 by lia. change (0 + 16) with 16 in E16. change (1 + 16) with 17 in E17.
  rewrite !Z.lor_spec, !flag_if_bit, !has_all_bit, control_flag_bit, action_flag_bit, !Z.pow2_bits_eqb, Z.bits_0 by lia.
  unfold flag_bit, flag_bits. cbn [existsb fst snd]. rewrite E0, E1, E16, E17. btauto.
Qed.

Lemma short_flags_id p : id_ok (short_flags p).
Proof.
  assert (E : short_flags p = Z.land (short_flags p) (Z.ones 19)).
  { apply Z.bits_inj'. intros i Hi. rewrite Z.land_spec, Z.testbit_ones by lia. rewrite (proj2 (Z.leb_le 0 i)) by done. cbn [andb].
    destruct (Z.ltb_spec i 19); [by rewrite andb_true_r|]. rewrite andb_false_r, short_flags_bits by lia.
    unfold flag_bit, flag_bits. cbn [existsb fst snd]. by repeat rewrite (proj2 (Z.eqb_neq _ i)) by lia. }
  unfold id_ok. rewrite E, Z.land_ones by lia. pose proof (Z.mod_pos_bound (short_flags p) (2 ^ 19) ltac:(lia)). lia.
Qed.

(** C28. The status node: its 64 bytes, read in any pieces, decode to the identifiers, the
    state and the effective, real and saved credentials of the process, to the first 15
    bytes of its name, and to the flags, bit by bit ([flag_bits]: those for traced and for a
    waiting parent show other bits of the process than they mean to, and the one for changed
    ids is never set); the process reference is released. *)
Theorem status_fields pnp u st p :
  proc_find_at (k_clock st) (nodeid_pid (node_id pnp)) = Some p -> info_ok p ->
  let b := proc_pidshortbsdinfo p in
  let cred := kauth_cred_proc_ref p in
  shows (procfs_dostatus None pnp u) b u st ∧ same_res st (procfs_dostatus None pnp u st).2
  ∧ length b = 64%nat
  ∧ get_field 0 4 b = proc_pid p ∧ get_field 4 4 b = proc_ppid p ∧ get_field 8 4 b = proc_pgrpid p
  ∧ get_field 12 4 b = p_stat p ∧ take 16 (drop 16 b) = take 15 (p_comm p) ++ [Byte.x00]
  ∧ (forall i, 0 <= i -> Z.testbit (get_field 32 4 b) i = flag_bit p i)
  ∧ get_field 36 4 b = kauth_cred_getuid cred ∧ get_field 40 4 b = kauth_cred_getgid cred
  ∧ get_field 44 4 b = kauth_cred_getruid cred ∧ get_field 48 4 b = kauth_cred_getrgid cred
  ∧ get_field 52 4 b = kauth_cred_getsvuid cred ∧ get_field 56 4 b = kauth_cred_getsvgid cred ∧ get_field 60 4 b = 0.
Proof.
  intros Hp Hok b cred. destruct Hok as [? ? ? ? Hc ? ? ? ? ? ?]. pose proof (short_flags_id p). unfold id_ok in *.
  assert (Hrun : procfs_dostatus None pnp u st = (copy_out b u, Kstate (S (k_clock st)) (k_procrefs st + 1 + -1) (k_mem st))).
  { unfold procfs_dostatus, proc_find. rewrite !K_bind_run. cbn [now fst snd]. rewrite Hp. done. }
  assert (Hlen : length (take 15 (p_comm p) ++ [Byte.x00]) = 16%nat) by (rewrite length_app, length_take; cbn [length]; lia).
  assert (Hfl : get_field 32 4 b = short_flags p) by (unfold b, cred, proc_pidshortbsdinfo; field4).
  split_and!; try (unfold b, cred, proc_pidshortbsdinfo; field4).
  - unfold shows. rewrite Hrun. apply (copy_out_shows b u st). subst b. rewrite short_length by done. by vm_compute.
  - rewrite Hrun. split; simpl; lia.
  - by apply short_length.
  - unfold b, proc_pidshortbsdinfo.
    do 4 (rewrite drop_app_ge by (rewrite le_bytes_length; lia); rewrite le_bytes_length; cbn [Nat.sub]).
    by rewrite drop_0, take_app_length' by done.
  - intros i Hi. rewrite Hfl. by apply short_flags_bits.
  - unfold b, proc_pidshortbsdinfo. rewrite <- (app_nil_r (le_bytes 4 0)). field4.
Qed.

(** The flags for a traced process and for a parent that waits are taken from [p_flag],
    where those bits say that the process sleeps with a timeout and that it exits; being
    traced is recorded in [p_lflag], which the flags do not depend on. *)
Theorem status_traced_flag p :
  Z.testbit (short_flags p) 1 = Z.testbit (p_flag p) 10 ∧ Z.testbit (short_flags p) 3 = Z.testbit (p_flag p) 13.
Proof. rewrite !short_flags_bits by lia. unfold flag_bit, flag_bits. cbn [existsb fst snd Z.eqb Pos.eqb andb]. split; btauto. Qed.

(** ** References and errors *)

Lemma refs_rele_ret {A} p (r : A) s : k_procrefs ((_ ← proc_rele p; mret r) s).2 = k_procrefs s - 1.
Proof. simpl. lia. Qed.

Lemma refs_kept_request ty pid arg cap : refs_kept (ctl_request ty pid arg cap).
Proof. intros s. done. Qed.

Lemma refs_then {A B} (m : K A) (f : A -> K B) s :
  refs_kept m -> (forall a s, k_procrefs (f a s).2 = k_procrefs s - 1) -> k_procrefs ((m ≫= f) s).2 = k_procrefs s - 1.
Proof. intros Hm Hf. rewrite K_bind_run, Hf, Hm. done. Qed.

(** Every node of this file releases the process it looks up, whatever the daemon answers. *)
Theorem status_nodes_release known number size req pnp u :
  refs_kept (read_number number pnp u) ∧ refs_kept (procfs_read_tty_data pnp u) ∧ refs_kept (procfs_dostatus None pnp u)
  ∧ refs_kept (procfs_read_task_info known pnp u) ∧ refs_kept (procfs_read_thread_info pnp u)
  ∧ refs_kept (read_registers req size None pnp u).
Proof.
  split_and!.
  - apply refs_kept_proc_find; [intros; apply refs_rele_ret|apply refs_kept_ret].
  - unfold procfs_read_tty_data. case_match; [|apply refs_kept_ret].
    apply refs_kept_proc_find; [intros; apply refs_rele_ret|apply refs_kept_ret].
  - apply refs_kept_proc_find; [intros; apply refs_rele_ret|apply refs_kept_ret].
  - apply refs_kept_proc_find; [|apply refs_kept_ret]. intros p s. apply refs_then; [apply refs_kept_request|].
    intros r s1. case_match; [apply refs_rele_ret|]. apply refs_then; [apply refs_kept_thread_count|]. intros; apply refs_rele_ret.
  - apply refs_kept_proc_find; [|apply refs_kept_ret]. intros p s. apply refs_then; [apply refs_kept_request|].
    intros; apply refs_rele_ret.
  - unfold read_registers. case_match; [apply refs_kept_ret|]. apply refs_kept_bind.
    + apply refs_kept_proc_find; [intros; apply refs_rele_ret|apply refs_kept_ret].
    + intros [|]; [|apply refs_kept_ret]. apply refs_kept_bind; [apply refs_kept_request|intros; apply refs_kept_ret].
Qed.

(** A process that has gone: the nodes status, task information and thread information
    report success and no data, the other nodes ESRCH. *)
Theorem status_process_gone known number pnp u st :
  proc_find_at (k_clock st) (nodeid_pid (node_id pnp)) = None ->
  (procfs_dostatus None pnp u st).1 = Some (0, u) ∧ (procfs_read_task_info known pnp u st).1 = Some (0, u)
  ∧ (procfs_read_thread_info pnp u st).1 = Some (0, u) ∧ (read_number number pnp u st).1 = Some (ESRCH, u).
Proof.
  intros Hp. unfold procfs_dostatus, procfs_read_task_info, procfs_read_thread_info, read_number, proc_find.
  rewrite !K_bind_run. cbn [now fst snd]. rewrite Hp. done.
Qed.

(** ** Task information *)

Lemma sizes_loop_range fuel map : forall addr v r, 0 <= v < 18446744073709551616 -> 0 <= r < 18446744073709551616 ->
  0 <= (sizes_loop fuel map addr v r).1 < 18446744073709551616 ∧ 0 <= (sizes_loop fuel map addr v r).2 < 18446744073709551616.
Proof.
  induction fuel as [|fuel IH]; intros addr v r Hv Hr; [done|]. cbn [sizes_loop].
  case_match; [|done]. cbv zeta. pose proof (u64_range (v + vr_size v0)). pose proof (u64_range (r + resident_size v0)).
  case_match; [done|]. by apply IH.
Qed.

Lemma vm_sizes_range task_null p e v r : procfs_task_vm_sizes task_null p = (e, v, r) ->
  0 <= v < 18446744073709551616 ∧ 0 <= r < 18446744073709551616.
Proof.
  unfold procfs_task_vm_sizes. case_match; [intros; simplify_eq; lia|]. case_match; [intros; simplify_eq; lia|].
  destruct (task_map p) as [map|]; [|intros; simplify_eq; lia].
  pose proof (sizes_loop_range (Z.to_nat PROCFS_MAP_MAX_REGIONS) map 0 0 0) as Hr.
  destruct (sizes_loop _ _ _ _ _) as [v' r']. intros [= _ <- <-]. apply Hr; lia.
Qed.

(** Task information without the daemon: the structure keeps its 96 bytes; it holds the
    sizes of the region walk when that succeeds, the thread count when there is one and a
    policy that is not 0, and the times are left as the kernel filled them in. *)
Theorem taskinfo_patched p tcount info :
  length info = 96%nat -> tcount < 4294967296 ->
  let '(e, vsize, rsize) := procfs_task_vm_sizes (λ p, negb (has_task p)) p in
  let b := patch_taskinfo p tcount info in
  length b = 96%nat
  ∧ (e = 0 -> get_field 0 8 b = vsize ∧ get_field 8 8 b = rsize)
  ∧ (0 < tcount -> get_field 84 4 b = tcount)
  ∧ get_field 48 4 b ≠ 0
  ∧ forall off n, (16 <= off)%nat -> (off + n <= 48)%nat -> get_field off n b = get_field off n info.
Proof.
  intros Hlen Htc. unfold patch_taskinfo. destruct (procfs_task_vm_sizes _ p) as [[e v] r] eqn:Es.
  destruct (vm_sizes_range _ _ _ _ _ Es) as [Hv Hr]. cbv zeta.
  set (b1 := if e =? 0 then _ else info). assert (L1 : length b1 = 96%nat).
  { subst b1. case_match; [|done]. by rewrite !put_length by (rewrite ?put_length; lia). }
  set (b2 := if 0 <? tcount then _ else b1). assert (L2 : length b2 = 96%nat).
  { subst b2. case_match; [|done]. by rewrite put_length by lia. }
  set (b3 := if get_field 48 4 b2 =? 0 then _ else b2). assert (L3 : length b3 = 96%nat).
  { subst b3. case_match; [|done]. by rewrite put_length by lia. }
  match goal with |- context [if ?c then put_field 92 4 ?v b3 else b3] => set (b4 := if c then put_field 92 4 v b3 else b3) end.
  assert (L4 : length b4 = 96%nat).
  { subst b4. case_match; [|done]. by rewrite put_length by lia. }
  (* fields survive the writes to other places *)
  assert (K4 : forall off n, (off + n <= 92)%nat -> get_field off n b4 = get_field off n b3).
  { intros off n Ho. subst b4. case_match; [|done]. apply get_put_other; lia. }
  assert (K3 : forall off n, (off + n <= 48 ∨ 52 <= off)%nat -> get_field off n b3 = get_field off n b2).
  { intros off n Ho. subst b3. case_match; [|done]. apply get_put_other; lia. }
  assert (K2 : forall off n, (off + n <= 84)%nat -> get_field off n b2 = get_field off n b1).
  { intros off n Ho. subst b2. case_match; [|done]. apply get_put_other; lia. }
  split; [done|]. split_and!.
  - intros ->. rewrite !K4, !K3, !K2 by lia. subst b1. cbn [Z.eqb]. split.
    + rewrite get_put_other by (rewrite ?put_length; lia). apply get_put; [lia|done].
    + apply get_put; [rewrite put_length; lia|done].
  - intros Hpos. rewrite K4, K3 by lia. subst b2. rewrite (proj2 (Z.ltb_lt 0 tcount)) by done.
    apply get_put; [lia|]. change (256 ^ Z.of_nat 4) with 4294967296. lia.
  - rewrite K4 by lia. subst b3. destruct (Z.eqb_spec (get_field 48 4 b2) 0) as [|]; [|done].
    rewrite get_put by (done || lia). done.
  - intros off n H1' H2'. rewrite K4, K3, K2 by lia. subst b1. case_match; [|done].
    by rewrite !get_put_other by (rewrite ?put_length; lia).
Qed.

(** ** Registers *)

(** The register nodes: for a process with a user thread the reader gets the structure the
    daemon sent, however long it is; without a daemon the answer is ENOTSUP, and any other
    error of the daemon is passed on; zombies and system processes are answered with
    ESRCH. *)
Theorem registers_read req size pnp u st p :
  uio_is_read u = true -> proc_find_at (k_clock st) (nodeid_pid (node_id pnp)) = Some p -> (size <= 4096)%nat ->
  let m := read_registers req size None pnp u in
  if (p_stat p =? SZOMB) || (p_flag p &? P_SYSTEM)%C then (m st).1 = Some (ESRCH, u)
  else match ctl_request_at (S (k_clock st)) req (nodeid_pid (node_id pnp)) 0 size with
       | inl rc => (m st).1 = Some (if rc =? ENOTCONN then ENOTSUP else rc, u)
       | inr state => shows m state u st
       end.
Proof.
  intros Hrd Hp Hsz m.
  assert (E : (m st).1 = if (p_stat p =? SZOMB) || (p_flag p &? P_SYSTEM)%C then Some (ESRCH, u)
    else match ctl_request_at (S (k_clock st)) req (nodeid_pid (node_id pnp)) 0 size with
         | inl rc => Some (if rc =? ENOTCONN then ENOTSUP else rc, u)
         | inr state => copy_out state u end).
  { subst m. unfold read_registers, has_registers, proc_find. rewrite Hrd. cbn [negb]. rewrite !K_bind_run.
    cbn [now fst snd]. rewrite Hp, !K_bind_run. cbn [fst snd mret K_ret].
    rewrite !K_bind_run. cbn [fst snd mret K_ret]. by destruct (_ || _)%bool. }
  destruct (_ || _)%bool; [done|].
  destruct (ctl_request_at _ _ _ _ _) as [rc|state] eqn:Er; [done|]. pose proof (ctl_capacity _ _ _ _ _ _ Er).
  unfold shows. rewrite E. apply (copy_out_shows state u st). unfold INT_MAX. lia.
Qed.
End StatusFacts.

(** ** Notes *)

(** The note a writer hands over: a text of at most 64 bytes is taken without the newlines
    at its end; more is refused.  The terminator goes to an index of the 65-byte buffer. *)
Theorem note_read data resid :
  length data = resid ->
  if (PROCFS_NOTELEN <? resid)%nat then procfs_getuserstr (inr data) resid PROCFS_NOTELEN = inl EMSGSIZE
  else exists note k, procfs_getuserstr (inr data) resid PROCFS_NOTELEN = inr note ∧ data = note ++ replicate k Byte.x0a
    ∧ last note ≠ Some Byte.x0a.
Proof.
  intros Hl. unfold procfs_getuserstr. case_match; [done|].
  assert (Hs : forall n, (n <= length data)%nat ->
    exists k, (strip_newlines n data + k = n)%nat ∧ take n data = take (strip_newlines n data) data ++ replicate k Byte.x0a
      ∧ last (take (strip_newlines n data) data) ≠ Some Byte.x0a).
  { induction n as [|n IH]; intros Hn; [exists 0%nat; split_and!; done|]. cbn [strip_newlines].
    destruct (lookup_lt_is_Some_2 data n ltac:(lia)) as [c Hc]. case_bool_decide as E.
    - destruct (IH ltac:(lia)) as (k & Hk & Ht & Hlast). exists (S k). split_and!; [lia| |done].
      rewrite (take_S_r data n Byte.x0a) by done. rewrite Ht, <- app_assoc. f_equal. by rewrite <- replicate_cons_app.
    - exists 0%nat. split_and!; [lia|by rewrite app_nil_r|]. rewrite (take_S_r data n c) by done. rewrite last_snoc.
      congruence. }
  destruct (Hs resid ltac:(lia)) as (k & _ & Ht & Hlast). eexists _, k. split; [done|]. split; [|done].
  rewrite <- Ht, take_ge by lia. done.
Qed.

(** ** Example *)

Definition status_kernel : KernelOps := simple_kernel [SimpleProc 501 "bash" 501 20 [] []].
Definition status_info : @ProcInfo status_kernel :=
  @Build_ProcInfo status_kernel (λ _, 1) (λ _, 501) (λ _, 400) (λ _, SRUN) (λ _, 16386) (λ _, 1026) (λ _, 0)
    (λ _, bytes_of_string "bash" ++ replicate 13 Byte.x00) (λ _, false) (λ _, true)
    sc_uid sc_gid None (λ _, 1) (λ _, 3) (λ _, 31).
Definition status_vm : @VmOps status_kernel := @Build_VmOps status_kernel unit (λ _, Some tt) (λ _ _, None) true.
Definition no_daemon : CtlOps := {| ctl_request_at _ _ _ _ _ := inl ENOTCONN |}.
Definition bash : @proc_t status_kernel := SimpleProc 501 "bash" 501 20 [] [].

Lemma bash_info_ok : @info_ok status_kernel status_info bash.
Proof. split; vm_compute; (split; [congruence|reflexivity]) || lia. Qed.

Lemma status_fields_witness :
  let b := @proc_pidshortbsdinfo status_kernel status_info bash in
  length b = 64%nat ∧ get_field 0 4 b = 501 ∧ (forall i, 0 <= i -> Z.testbit (get_field 32 4 b) i = ((4 =? i) || (7 =? i) || (14 =? i))).
Proof.
  destruct (@status_fields status_kernel simple_uio_ops simple_uio_laws status_info (Pfsnode (Pfsid 501 0 30) 29%N)
    (SimpleUio 0 20 true [] true) (Kstate 0 0 0) bash eq_refl bash_info_ok)
    as (_ & _ & Hl & Hpid & _ & _ & _ & _ & Hf & _).
  split; [exact Hl|]. split; [exact Hpid|]. intros i Hi. rewrite (Hf i Hi).
  cbn -[Z.eqb]. destruct (4 =? i), (7 =? i), (14 =? i); repeat (destruct (_ =? i)); reflexivity.
Defined.

Lemma taskinfo_patched_witness :
  let b := @patch_taskinfo status_kernel small_pages status_info status_vm bash 3 (replicate 96 Byte.x00) in
  length b = 96%nat ∧ get_field 84 4 b = 3.
Proof.
  pose proof (@taskinfo_patched status_kernel small_pages status_info status_vm bash 3 (replicate 96 Byte.x00) eq_refl ltac:(lia)) as H.
  destruct (procfs_task_vm_sizes _ bash) as [[e v] r]. destruct H as (Hl & _ & Ht & _).
  split; [exact Hl|]. apply Ht. lia.
Defined.
