(* ===== verification/Fdnode.v ===== *)
(** * Files and sockets of a process (kext/procfs_fd.c, kext/lib/kern.c)

    The nodes that show what a descriptor refers to: the [vnode_info] of a file, whose
    stat is never filled in, and the [socket_info] put together from the public socket
    interface.  A structure is the list of its bytes, little-endian. *)

From S2P Require Import Prelude Kernel Structure Subr Sbuf Text Phys Procargs Map Bridge Fdtable Status.

(** What vn_stat fills in. *)
Record stat64 := Stat64 {
  st_dev : Z; st_mode : Z; st_nlink : Z; st_ino : Z; st_uid : Z; st_gid : Z;
  st_atimespec : Z * Z; st_mtimespec : Z * Z; st_ctimespec : Z * Z; st_birthtimespec : Z * Z;
  st_size : Z; st_blocks : Z; st_blksize : Z; st_flags : Z; st_gen : Z; st_rdev : Z; st_qspare : Z * Z;
}.

(** Vnodes and sockets.  An address is the list of the bytes of its structure; only so many
    as it has are copied to the buffer of the caller.  [vn_getpath_at] is what is left in
    the buffer. *)
Class FdOps `{KernelOps} := {
  fd_table : proc_t -> nat -> filedesc;
  vnode_vid : Z -> Z;
  vnode_getwithvid_at : nat -> Z -> Z -> Z;
  vn_getpath_at : nat -> Z -> list Byte.byte;
  vnode_mount_at : nat -> Z -> Z;
  mnt_fsid : Z -> Z * Z;
  vnode_vtype : Z -> Z;
  (** domain, type and protocol *)
  sock_gettype : Z -> Z * Z * Z;
  sock_getsockname_at : nat -> Z -> Z + list Byte.byte;
  sock_getpeername_at : nat -> Z -> Z + list Byte.byte;
}.

(** Private functions and data of the kernel: symbols.c makes a pointer for each, which is
    NULL and which nothing sets.  Those that [resolve_symbols] looks up are other variables. *)
Definition _vn_stat : option (nat -> Z -> Z * stat64) := None.
Definition _dead_mountp : option Z := None.

Definition zeros (n : nat) : list Byte.byte := replicate n Byte.x00.

Definition timespec_bytes (ts : Z * Z) : list Byte.byte := le_bytes 8 ts.1 ++ le_bytes 8 ts.2.

(** The conversions of the assignments are those of [le_bytes]. *)
Definition munge_vinfo_stat (sb : stat64) : list Byte.byte :=
  le_bytes 4 (st_dev sb) ++ le_bytes 2 (st_mode sb) ++ le_bytes 2 (st_nlink sb) ++ le_bytes 8 (st_ino sb)
  ++ le_bytes 4 (st_uid sb) ++ le_bytes 4 (st_gid sb)
  ++ timespec_bytes (st_atimespec sb) ++ timespec_bytes (st_mtimespec sb)
  ++ timespec_bytes (st_ctimespec sb) ++ timespec_bytes (st_birthtimespec sb)
  ++ le_bytes 8 (st_size sb) ++ le_bytes 8 (st_blocks sb) ++ le_bytes 4 (st_blksize sb) ++ le_bytes 4 (st_flags sb)
  ++ le_bytes 4 (st_gen sb) ++ le_bytes 4 (st_rdev sb) ++ timespec_bytes (st_qspare sb).

Definition sizeof_vinfo_stat : nat := 136.

Definition AF_UNIX : Z := 1.
Definition AF_INET : Z := 2.
Definition AF_INET6 : Z := 30.
Definition IPPROTO_TCP : Z := 6.
Definition INI_IPV4 : Z := 1.
Definition INI_IPV6 : Z := 2.
Definition SOCKINFO_GENERIC : Z := 0.
Definition SOCKINFO_IN : Z := 1.
Definition SOCKINFO_TCP : Z := 2.
Definition SOCKINFO_UN : Z := 3.
Definition sizeof_socket_info : nat := 768.
Definition sizeof_sockaddr_un : nat := 106.

(** Bytes stored into a structure. *)
Definition put_bytes (off : nat) (l b : list Byte.byte) : list Byte.byte :=
  take off b ++ l ++ drop (off + length l) b.

(** A field of an address; [None]: the bytes were never written. *)
Definition addr_field (off n : nat) (ss : list Byte.byte) : option (list Byte.byte) :=
  if (off + n <=? length ss)%nat then Some (take n (drop off ss)) else None.

(** Offsets of [soi_proto] and of the fields of [struct in_sockinfo] in a [socket_info]; the
    [in_sockinfo] is the first member of the structure for TCP. *)
Definition soi_proto : nat := 240.
Definition insi_fport : nat := soi_proto + 0.
Definition insi_lport : nat := soi_proto + 4.
Definition insi_vflag : nat := soi_proto + 24.
Definition insi_faddr : nat := soi_proto + 32.
Definition insi_laddr : nat := soi_proto + 48.
Definition unsi_addr : nat := soi_proto + 16.
Definition unsi_caddr : nat := soi_proto + 271.

(** The port and the address of one end, and where they go: an IPv4 address to the last four
    bytes of the field. *)
Definition put_end (dom : Z) (port addr : nat) (ss si : list Byte.byte) : option (list Byte.byte) :=
  p ← addr_field 2 2 ss;
  if dom =? AF_INET then
    a ← addr_field 4 4 ss; Some (put_bytes (addr + 12) a (put_bytes port (p ++ zeros 2) si))
  else
    a ← addr_field 8 16 ss; Some (put_bytes addr a (put_bytes port (p ++ zeros 2) si)).

Definition fileinfo_bytes (fi : proc_fileinfo) : list Byte.byte :=
  le_bytes 4 (fi_openflags fi) ++ le_bytes 4 (fi_status fi) ++ le_bytes 8 (fi_offset fi)
  ++ le_bytes 4 (fi_type fi) ++ le_bytes 4 (fi_guardflags fi).

(** The path buffer: terminated, and zero behind the string. *)
Definition clean_path (b : list Byte.byte) : list Byte.byte :=
  let b := take 1023 b ++ [Byte.x00] in
  let plen := strnlen b in
  take plen b ++ replicate (1024 - plen) Byte.x00.

Section FdNodes.
Context `{KernelOps} `{UioOps} `{!FdOps}.

(** The file system of a vnode that is not dead. *)
Definition vi_fsid (mp : Z) : Z * Z :=
  match _dead_mountp with
  | Some dead => if negb (mp =? dead) then mnt_fsid mp else (0, 0)
  | None => (0, 0)
  end.

(** The result on a [vnode_info] of zeros. *)
Definition fill_vnodeinfo (vp : Z) : K (Z + list Byte.byte) :=
  s ← match _vn_stat with
      | Some vn_stat => t ← now; let '(error, sb) := vn_stat t vp in mret (error, munge_vinfo_stat sb)
      | None => mret (0, zeros sizeof_vinfo_stat)
      end;
  let '(error, vi_stat) := s in
  if negb (error =? 0) then mret (inl error) else
  t ← now;
  let fsid := vi_fsid (vnode_mount_at t vp) in
  mret (inr (vi_stat ++ le_bytes 4 (vnode_vtype vp) ++ zeros 4 ++ le_bytes 4 fsid.1 ++ le_bytes 4 fsid.2)).

(** The result on a [socket_info] of zeros; [None]: a byte is used that was never written. *)
Definition procfs_fill_socketinfo (so : Z) : K (option (list Byte.byte)) :=
  let '(dom, type, proto) := sock_gettype so in
  let si := put_bytes 160 (le_bytes 4 dom) (put_bytes 156 (le_bytes 4 proto)
              (put_bytes 152 (le_bytes 4 type) (put_bytes 136 (le_bytes 8 so) (zeros sizeof_socket_info)))) in
  let kind k si := put_bytes 232 (le_bytes 4 k) si in
  if (dom =? AF_INET) || (dom =? AF_INET6) then
    let si := kind (if proto =? IPPROTO_TCP then SOCKINFO_TCP else SOCKINFO_IN) si in
    t ← now;
    let si := match sock_getsockname_at t so with
              | inr ss =>
                put_end dom insi_lport insi_laddr ss
                  (put_bytes insi_vflag (le_bytes 1 (if dom =? AF_INET then INI_IPV4 else INI_IPV6)) si)
              | inl _ => Some si
              end in
    t ← now;
    mret (si ← si; match sock_getpeername_at t so with
                   | inr ss => put_end dom insi_fport insi_faddr ss si
                   | inl _ => Some si
                   end)
  else if dom =? AF_UNIX then
    let si := kind SOCKINFO_UN si in
    t ← now;
    let si := match sock_getsockname_at t so with
              | inr ss => put_bytes unsi_addr (take sizeof_sockaddr_un ss) si
              | inl _ => si
              end in
    t ← now;
    mret (Some match sock_getpeername_at t so with
               | inr ss => put_bytes unsi_caddr (take sizeof_sockaddr_un ss) si
               | inl _ => si
               end)
  else mret (Some (kind SOCKINFO_GENERIC si)).

(** The result, and the iocounts of the vnode taken and not given back. *)
Definition procfs_read_fd_data (pnp : pfsnode) (uio : uio_t) : K (option (Z * uio_t) * Z) :=
  let fd := s32 (nodeid_objectid (node_id pnp)) in
  p ← proc_find (nodeid_pid (node_id pnp));
  match p with
  | None => mret (Some (ESRCH, uio), 0)
  | Some p =>
    v ← procfs_fd_vnode_info (fd_table p) fd;
    r ← match v with
        | None => mret (None, 0)
        | Some (inl error) => mret (Some (error, uio), 0)
        | Some (inr (vp, fi)) =>
          t ← now;
          let error := vnode_getwithvid_at t vp (vnode_vid vp) in
          if negb (error =? 0) then mret (Some (error, uio), 0) else
          vi ← fill_vnodeinfo vp;
          match vi with
          | inl error => mret (Some (error, uio), 1 - 1)
          | inr vi =>
            t ← now;
            mret (copy_out (fileinfo_bytes fi ++ vi ++ clean_path (vn_getpath_at t vp)) uio, 1 - 1)
          end
        end;
    _ ← proc_rele p; mret r
  end.

(** The result, and the references on the socket. *)
Definition procfs_read_socket_data (pnp : pfsnode) (uio : uio_t) : K (option (Z * uio_t) * Z) :=
  let fd := s32 (nodeid_objectid (node_id pnp)) in
  p ← proc_find (nodeid_pid (node_id pnp));
  match p with
  | None => mret (Some (ESRCH, uio), 0)
  | Some p =>
    v ← procfs_fd_socket (fd_table p) fd;
    r ← match v with
        | None => mret (None, 0)
        | Some (inl error) => mret (Some (error, uio), 0)
        | Some (inr (so, fi)) =>
          psi ← procfs_fill_socketinfo so;
          mret (psi ← psi; copy_out (fileinfo_bytes fi ++ psi) uio, 1 - 1)
        end;
    _ ← proc_rele p; mret r
  end.

End FdNodes.

Lemma strnlen_le b : (strnlen b <= length b)%nat.
Proof. induction b as [|c b IH]; simpl; [lia|]. case_bool_decide; lia. Qed.

Lemma strnlen_nul b : Byte.x00 ∈ b -> (strnlen b < length b)%nat.
Proof.
  induction b as [|c b IH]; [by intros ?%elem_of_nil|]. simpl. case_bool_decide as E; [lia|].
  intros [Heq|Hin]%elem_of_cons; [congruence|]. specialize (IH Hin). lia.
Qed.

Lemma strnlen_take b : Byte.x00 ∉ take (strnlen b) b.
Proof.
  induction b as [|c b IH]; simpl; [by apply not_elem_of_nil|]. case_bool_decide as E; [by apply not_elem_of_nil|].
  apply not_elem_of_cons. split; [congruence|done].
Qed.

(** The path field has 1024 bytes: the string up to its first NUL, and zeros only behind
    it, whatever the path lookup left in the buffer. *)
Lemma clean_path_spec b :
  length b = 1024%nat ->
  exists path, clean_path b = path ++ replicate (1024 - length path) Byte.x00 ∧ (Byte.x00 ∉ path)
    ∧ (length path < 1024)%nat ∧ prefix path b ∧ length (clean_path b) = 1024%nat.
Proof.
  intros Hb. unfold clean_path. set (b' := take 1023 b ++ [Byte.x00]).
  assert (Hl : length b' = 1024%nat) by (subst b'; rewrite length_app, length_take; cbn [length]; lia).
  assert (Hn : (strnlen b' < 1024)%nat).
  { rewrite <- Hl. apply strnlen_nul. subst b'. apply elem_of_app. right. by apply list_elem_of_singleton. }
  assert (Hp : length (take (strnlen b') b') = strnlen b') by (rewrite length_take; lia).
  exists (take (strnlen b') b'). rewrite Hp. split_and!; [done|apply strnlen_take|done| |].
  - subst b'. rewrite take_app_le by (rewrite length_take; lia). rewrite take_take. apply prefix_take.
  - rewrite length_app, length_replicate, Hp. lia.
Qed.

Section FdFacts.
Context `{KernelOps} `{UioLaws} `{!FdOps}.

Lemma refs_kept_object tab want fd : refs_kept (fd_object tab want fd).
Proof. apply refs_kept_bind; [intros s; done|]. intros n. case_match; [apply refs_kept_ret|]. intros s. done. Qed.

Lemma refs_kept_vnodeinfo vp : refs_kept (fill_vnodeinfo vp).
Proof.
  apply refs_kept_bind; [apply refs_kept_ret|]. intros [e vi]. case_match; [apply refs_kept_ret|]. intros s. done.
Qed.

Lemma refs_kept_socketinfo so : refs_kept (procfs_fill_socketinfo so).
Proof.
  unfold procfs_fill_socketinfo. destruct (sock_gettype so) as [[dom type] proto]. cbv zeta.
  case_match; [|case_match; [|apply refs_kept_ret]]; (apply refs_kept_bind; [intros s; done|]; intros t s; done).
Qed.

(** The descriptor nodes give back the process reference and the iocount (or the socket
    reference) they take, on every path. *)
Theorem fd_nodes_release pnp u st :
  refs_kept (procfs_read_fd_data pnp u) ∧ (procfs_read_fd_data pnp u st).1.2 = 0
  ∧ refs_kept (procfs_read_socket_data pnp u) ∧ (procfs_read_socket_data pnp u st).1.2 = 0.
Proof.
  assert (Hbind : forall {A B} (m : K A) (f : A -> K (B * Z)) s, (forall a s, (f a s).1.2 = 0) -> ((m ≫= f) s).1.2 = 0).
  { intros A B m f s Hf. rewrite K_bind_run. apply Hf. }
  assert (Hrele : forall {A} (m : K (A * Z)) p s, (m s).1.2 = 0 -> ((r ← m; _ ← proc_rele p; mret r) s).1.2 = 0).
  { intros A m p s Hm. rewrite K_bind_run. exact Hm. }
  split_and!.
  - apply refs_kept_proc_find; [|apply refs_kept_ret]. intros p s. apply refs_then; [apply refs_kept_object|]. intros v s1.
    apply refs_then; [|intros; apply refs_rele_ret]. destruct v as [[|[vp fi]]|]; [apply refs_kept_ret| |apply refs_kept_ret].
    apply refs_kept_bind; [intros ?; done|]. intros t. cbv beta zeta. destruct (negb _); [apply refs_kept_ret|].
    apply refs_kept_bind; [apply refs_kept_vnodeinfo|]. intros [|]; [apply refs_kept_ret|]. intros ?; done.
  - apply Hbind. intros [p|] s; [|done]. apply Hbind. intros v s1. apply Hrele.
    destruct v as [[|[vp fi]]|]; [done| |done]. apply Hbind. intros t s2. cbv beta zeta.
    destruct (negb _); [done|]. apply Hbind. by intros [|] s3.
  - apply refs_kept_proc_find; [|apply refs_kept_ret]. intros p s. apply refs_then; [apply refs_kept_object|]. intros v s1.
    apply refs_then; [|intros; apply refs_rele_ret]. destruct v as [[|[vp fi]]|]; [apply refs_kept_ret| |apply refs_kept_ret].
    apply refs_kept_bind; [apply refs_kept_socketinfo|]. intros ?. apply refs_kept_ret.
  - apply Hbind. intros [p|] s; [|done]. apply Hbind. intros v s1. apply Hrele. destruct v as [[|[vp fi]]|]; [done| |done].
    by apply Hbind.
Qed.

(** The calls that lead to an open descriptor of the wanted type. *)
Lemma fd_object_run tab t fd want st fp fg :
  (forall n, tab n = t) -> table_wf t -> 0 <= fd < fd_nfiles t ->
  fd_entry t (Z.to_nat fd) = Some (Some (fp, fg)) -> fg_type fg = want -> fg_data fg ≠ 0 ->
  fd_object tab want fd st = (Some (inr (fg_data fg, fill_fileinfo fp fg)), tick (tick st)).
Proof.
  intros Ht Hwf Hfd He Hty Hd. unfold fd_object, proc_fdlock. rewrite K_bind_run. cbn [now fst snd].
  rewrite Ht, (layout_ok_wf t Hwf). cbn [negb]. rewrite K_bind_run. cbn [now fst snd mret K_ret].
  rewrite Ht, He. cbn [mbind option_bind]. rewrite (proj2 (Z.ltb_ge fd 0)), (proj2 (Z.leb_gt _ _)) by lia.
  cbn [orb]. rewrite Hty, Z.eqb_refl. cbn [negb]. apply Z.eqb_neq in Hd. by rewrite Hd.
Qed.

(** The frame of both nodes: the process is found and the descriptor is one of the type. *)
Lemma descriptor_run {A} pid p t fd want st fp fg (none : K A) (f : _ -> K A) :
  proc_find_at (k_clock st) pid = Some p ->
  (forall n, fd_table p n = t) -> table_wf t -> 0 <= fd < fd_nfiles t ->
  fd_entry t (Z.to_nat fd) = Some (Some (fp, fg)) -> fg_type fg = want -> fg_data fg ≠ 0 ->
  ((p ← proc_find pid;
    match p with
    | None => none
    | Some p => v ← fd_object (fd_table p) want fd; r ← f v; _ ← proc_rele p; mret r
    end) st).1
  = (f (Some (inr (fg_data fg, fill_fileinfo fp fg)))
       (Kstate (k_clock st + 3) (k_procrefs st + 1) (k_mem st))).1.
Proof.
  intros Hp Ht Hwf Hfd He Hty Hd. unfold proc_find. rewrite K_bind_run, K_bind_run. cbn [now fst snd].
  rewrite Hp. rewrite K_bind_run. cbn [fst snd mret K_ret]. rewrite K_bind_run.
  rewrite (fd_object_run _ t fd want _ fp fg) by done. cbn [fst snd]. rewrite K_bind_run. cbn [fst snd].
  assert (Es : tick (tick (add_refs 1 (tick st)).2) = Kstate (k_clock st + 3) (k_procrefs st + 1) (k_mem st)).
  { unfold tick, add_refs. cbn. f_equal; lia. }
  by rewrite Es.
Qed.

(** ** What the structures hold *)

(** Without [vn_stat] and [dead_mountp] the vnode information is the type of the vnode. *)
Definition vnode_info (vp : Z) : list Byte.byte := zeros sizeof_vinfo_stat ++ le_bytes 4 (vnode_vtype vp) ++ zeros 12.

Lemma fill_vnodeinfo_run vp st : fill_vnodeinfo vp st = (inr (vnode_info vp), tick st).
Proof. reflexivity. Qed.

Lemma vnode_info_length vp : length (vnode_info vp) = 152%nat.
Proof. unfold vnode_info, zeros. by rewrite !length_app, le_bytes_length, !length_replicate. Qed.

(** Every field of a stat can be read back from the structure, at its offset and as far as its
    type goes. *)
Theorem munge_vinfo_stat_fields sb :
  let b := munge_vinfo_stat sb in
  get_field 0 4 b = u32 (st_dev sb) ∧ get_field 4 2 b = u16 (st_mode sb) ∧ get_field 6 2 b = u16 (st_nlink sb)
  ∧ get_field 8 8 b = u64 (st_ino sb) ∧ get_field 16 4 b = u32 (st_uid sb) ∧ get_field 20 4 b = u32 (st_gid sb)
  ∧ get_field 24 8 b = u64 (st_atimespec sb).1 ∧ get_field 32 8 b = u64 (st_atimespec sb).2
  ∧ get_field 40 8 b = u64 (st_mtimespec sb).1 ∧ get_field 56 8 b = u64 (st_ctimespec sb).1
  ∧ get_field 72 8 b = u64 (st_birthtimespec sb).1 ∧ get_field 80 8 b = u64 (st_birthtimespec sb).2
  ∧ get_field 88 8 b = u64 (st_size sb) ∧ get_field 96 8 b = u64 (st_blocks sb)
  ∧ get_field 104 4 b = u32 (st_blksize sb) ∧ get_field 108 4 b = u32 (st_flags sb)
  ∧ get_field 112 4 b = u32 (st_gen sb) ∧ get_field 116 4 b = u32 (st_rdev sb).
Proof.
  cbv zeta. unfold munge_vinfo_stat, timespec_bytes, get_field.
  rewrite <- (app_nil_r (le_bytes 8 (st_qspare sb).2)), <- !app_assoc. split_and!; wire_fields; done.
Qed.

(** C36. A descriptor that refers to an open file with a live vnode: the node shows the file
    information, the type of the vnode and its path, once and padded with zeros.  The stat
    and the file system are always zero, because the pointers they are taken through are
    never set.  An error of the vnode is the error of the read. *)
Theorem fd_node_read pnp u st p t fp fg :
  proc_find_at (k_clock st) (nodeid_pid (node_id pnp)) = Some p -> (forall n, fd_table p n = t) -> table_wf t ->
  let fd := nodeid_objectid (node_id pnp) in
  0 <= fd < fd_nfiles t -> fd_entry t (Z.to_nat fd) = Some (Some (fp, fg)) -> fg_type fg = DTYPE_VNODE -> fg_data fg ≠ 0 ->
  (forall n, length (vn_getpath_at n (fg_data fg)) = 1024%nat) ->
  let vp := fg_data fg in
  let c := k_clock st in
  let m := λ s, let r := procfs_read_fd_data pnp u s in (r.1.1, r.2) in
  let e := vnode_getwithvid_at (c + 3) vp (vnode_vid vp) in
  if negb (e =? 0) then (m st).1 = Some (e, u) else
  shows m (fileinfo_bytes (fill_fileinfo fp fg)
           ++ (zeros 136 ++ le_bytes 4 (vnode_vtype vp) ++ zeros 12)
           ++ clean_path (vn_getpath_at (c + 5) vp)) u st.
Proof.
  intros Hp Ht Hwf fd Hfd He Hty Hd Hpath vp c m e. pose proof Hwf as [_ _ _ Hmax]. unfold PROCFS_FD_NFILES_MAX in Hmax.
  change (zeros 136 ++ _ ++ zeros 12) with (vnode_info vp). set (data := fileinfo_bytes _ ++ _).
  assert (Hl : Z.of_nat (length data) <= INT_MAX).
  { subst data. rewrite !length_app, vnode_info_length. unfold fileinfo_bytes. rewrite !length_app, !le_bytes_length.
    destruct (clean_path_spec _ (Hpath (c + 5)%nat)) as (_ & _ & _ & _ & _ & Hc). fold vp in Hc. rewrite Hc. unfold INT_MAX. lia. }
  assert (E : (m st).1 = if negb (e =? 0) then Some (e, u) else copy_out data u).
  { subst m. cbv zeta beta. unfold procfs_read_fd_data, procfs_fd_vnode_info. fold fd.
    rewrite s32_small by (unfold INT_MIN, INT_MAX; lia). cbn [fst].
    rewrite (descriptor_run _ p t fd DTYPE_VNODE st fp fg) by done. rewrite K_bind_run. cbn [now fst snd k_clock]. fold c.
    fold vp. fold e. destruct (e =? 0); cbn [negb]; [|done].
    rewrite K_bind_run, fill_vnodeinfo_run. cbn [fst snd]. rewrite K_bind_run. cbn [fst snd mret K_ret now k_clock tick].
    by replace (S (S (c + 3))) with (c + 5)%nat by lia. }
  destruct (negb (e =? 0)); [done|]. unfold shows. rewrite E. apply (copy_out_shows data u st Hl).
Qed.


(** ** Sockets *)

(** The port, two bytes in network order, and the address of one end as [in_sockinfo] has
    them; zeros when the end has no name. *)
Definition end_of (dom : Z) (r : Z + list Byte.byte) : list Byte.byte * list Byte.byte :=
  match r with
  | inl _ => (zeros 2, zeros 16)
  | inr ss => (take 2 (drop 2 ss), if dom =? AF_INET then zeros 12 ++ take 4 (drop 4 ss) else take 16 (drop 8 ss))
  end.

Definition name_of (r : Z + list Byte.byte) : list Byte.byte :=
  match r with inl _ => zeros 106 | inr ss => take 106 ss ++ zeros (106 - length ss) end.

Definition is_name (r : Z + list Byte.byte) : bool := match r with inr _ => true | inl _ => false end.

(** The information about a socket of a domain, type and protocol whose ends have the
    names [here] and [peer]. *)
Definition socket_info (so dom type proto : Z) (here peer : Z + list Byte.byte) : list Byte.byte :=
  let inet := (dom =? AF_INET) || (dom =? AF_INET6) in
  let kind := if inet then if proto =? IPPROTO_TCP then SOCKINFO_TCP else SOCKINFO_IN
              else if dom =? AF_UNIX then SOCKINFO_UN else SOCKINFO_GENERIC in
  zeros 136 ++ le_bytes 8 so ++ zeros 8 ++ le_bytes 4 type ++ le_bytes 4 proto ++ le_bytes 4 dom ++ zeros 68
  ++ le_bytes 4 kind ++ zeros 4
  ++ (if inet then
        (end_of dom peer).1 ++ zeros 2 ++ (end_of dom here).1 ++ zeros 18
        ++ le_bytes 1 (if is_name here then if dom =? AF_INET then INI_IPV4 else INI_IPV6 else 0) ++ zeros 7
        ++ (end_of dom peer).2 ++ (end_of dom here).2 ++ zeros 464
      else if dom =? AF_UNIX then zeros 16 ++ name_of here ++ zeros 149 ++ name_of peer ++ zeros 151
      else zeros 528).

(** What the socket layer hands over holds the port and the address. *)
Definition name_ok (dom : Z) (r : Z + list Byte.byte) : Prop :=
  match r with
  | inl _ => True
  | inr ss => if dom =? AF_INET then (8 <= length ss)%nat else if dom =? AF_INET6 then (24 <= length ss)%nat else True
  end.

Lemma put_here off l a m r : length a = off -> length m = length l -> put_bytes off l (a ++ m ++ r) = a ++ l ++ r.
Proof.
  intros <- Hm. unfold put_bytes. rewrite take_app_length, <- Hm, drop_app_add, drop_app_length. done.
Qed.

Lemma put_skip a k off l b : length a = k -> put_bytes (k + off) l (a ++ b) = a ++ put_bytes off l b.
Proof.
  intros <-. unfold put_bytes. rewrite take_app_add, <- Nat.add_assoc, drop_app_add. by rewrite <- app_assoc.
Qed.

Lemma explode {A} (l : list A) n : length l = n -> exists l', l = l' ∧ length l' = n.
Proof. by exists l. Qed.

Ltac explode_list l :=
  let l' := fresh "l" in let H := fresh in
  destruct (explode l _ (le_bytes_length _ _)) as (l' & -> & H);
  repeat (destruct l' as [|? l']; [discriminate H|]; apply Nat.succ_inj in H); destruct l'; [clear H|discriminate H].

(** What all sockets have in common. *)
Definition socket_head (so dom type proto kind : Z) : list Byte.byte :=
  zeros 136 ++ le_bytes 8 so ++ zeros 8 ++ le_bytes 4 type ++ le_bytes 4 proto ++ le_bytes 4 dom ++ zeros 68
  ++ le_bytes 4 kind ++ zeros 4.

Lemma socket_head_length so dom type proto kind : length (socket_head so dom type proto kind) = soi_proto.
Proof. unfold socket_head, zeros. by rewrite !length_app, !le_bytes_length, !length_replicate. Qed.

Lemma socket_head_run so dom type proto kind :
  put_bytes 232 (le_bytes 4 kind) (put_bytes 160 (le_bytes 4 dom) (put_bytes 156 (le_bytes 4 proto)
    (put_bytes 152 (le_bytes 4 type) (put_bytes 136 (le_bytes 8 so) (zeros sizeof_socket_info)))))
  = socket_head so dom type proto kind ++ zeros 528.
Proof.
  unfold socket_head. explode_list (le_bytes 4 kind). explode_list (le_bytes 4 dom). explode_list (le_bytes 4 proto).
  explode_list (le_bytes 4 type). explode_list (le_bytes 8 so). reflexivity.
Qed.
Lemma in_sockinfo_run dom vflag here peer head :
  dom = AF_INET ∨ dom = AF_INET6 -> name_ok dom here -> name_ok dom peer -> length head = soi_proto ->
  (si ← match here with
        | inr ss => put_end dom insi_lport insi_laddr ss (put_bytes insi_vflag (le_bytes 1 vflag) (head ++ zeros 528))
        | inl _ => Some (head ++ zeros 528)
        end;
   match peer with inr ss => put_end dom insi_fport insi_faddr ss si | inl _ => Some si end)
  = Some (head ++ (end_of dom peer).1 ++ zeros 2 ++ (end_of dom here).1 ++ zeros 18
        ++ le_bytes 1 (if is_name here then vflag else 0) ++ zeros 7
        ++ (end_of dom peer).2 ++ (end_of dom here).2 ++ zeros 464).
Proof.
  intros Hd Hh Hp Hlen. unfold put_end, insi_lport, insi_laddr, insi_vflag, insi_fport, insi_faddr.
  destruct Hd as [-> | ->], here as [|ss1], peer as [|ss2]; cbn in Hh, Hp; cbn [is_name]; try explode_list (le_bytes 1 vflag).
  all: repeat (match goal with H : (S _ <= length ?ss)%nat |- _ => destruct ss; cbn [length] in H; [lia|apply le_S_n in H] end).
  all: unfold addr_field; cbn [length Nat.leb Nat.add mbind option_bind fst snd end_of take drop app Z.eqb AF_INET AF_INET6 Pos.eqb].
  all: rewrite ?take_0, <- ?Nat.add_assoc, ?put_skip by done; f_equal; f_equal; reflexivity.
Qed.

Lemma zeros_split n m : zeros (n + m) = zeros n ++ zeros m.
Proof. apply replicate_add. Qed.

Lemma name_length r : length (name_of r) = 106%nat.
Proof.
  destruct r as [|ss]; [done|]. cbn [name_of]. unfold zeros. rewrite length_app, length_take, length_replicate. lia.
Qed.

Lemma put_name off ss r : (* the rest of the field stays zero *)
  put_bytes off (take sizeof_sockaddr_un ss) (zeros off ++ zeros 106 ++ r) = zeros off ++ name_of (inr ss) ++ r.
Proof.
  cbn [name_of]. set (n := length (take sizeof_sockaddr_un ss)).
  assert (n <= 106 /\ 106 - length ss = 106 - n)%nat as [Hn ->]
    by (subst n; rewrite length_take; unfold sizeof_sockaddr_un; lia).
  assert (E : zeros 106 = zeros n ++ zeros (106 - n)) by (rewrite <- zeros_split; f_equal; lia).
  rewrite E, <- !app_assoc. apply put_here; unfold zeros; by rewrite length_replicate.
Qed.

Lemma end_lengths dom r : name_ok dom r -> dom = AF_INET ∨ dom = AF_INET6 ->
  length (end_of dom r).1 = 2%nat ∧ length (end_of dom r).2 = 16%nat.
Proof.
  destruct r as [|ss]; [done|]. cbn [end_of name_ok fst snd]. intros Hl [->| ->]; cbn in Hl |- *;
    rewrite ?length_app, !length_take, !length_drop; cbn [length]; lia.
Qed.

Lemma un_sockinfo_run here peer head :
  length head = soi_proto ->
  let si := match here with
            | inr ss => put_bytes unsi_addr (take sizeof_sockaddr_un ss) (head ++ zeros 528)
            | inl _ => head ++ zeros 528
            end in
  match peer with inr ss => put_bytes unsi_caddr (take sizeof_sockaddr_un ss) si | inl _ => si end
  = head ++ zeros 16 ++ name_of here ++ zeros 149 ++ name_of peer ++ zeros 151.
Proof.
  intros Hl si. assert (E : si = head ++ zeros 16 ++ name_of here ++ zeros 149 ++ zeros 106 ++ zeros 151).
  { subst si. change (zeros 528) with (zeros 16 ++ zeros 106 ++ zeros 149 ++ zeros 106 ++ zeros 151).
    destruct here as [|ss]; [done|]. unfold unsi_addr. by rewrite put_skip, put_name by done. }
  rewrite E. destruct peer as [|ss]; [done|]. unfold unsi_caddr.
  rewrite put_skip by done. change 271%nat with (16 + (106 + 149))%nat.
  by rewrite (put_skip (zeros 16)), (put_skip (name_of here)), put_name by (done || apply name_length).
Qed.

(** The information is that of the public socket interface, and no byte of it is anything
    else. *)
Lemma fill_socketinfo_run so st :
  let '(dom, type, proto) := sock_gettype so in
  let here := sock_getsockname_at (k_clock st) so in
  let peer := sock_getpeername_at (S (k_clock st)) so in
  name_ok dom here -> name_ok dom peer ->
  (procfs_fill_socketinfo so st).1 = Some (socket_info so dom type proto here peer).
Proof.
  destruct (sock_gettype so) as [[dom type] proto] eqn:Eg. intros here peer Hh Hp.
  unfold procfs_fill_socketinfo, socket_info. rewrite Eg. cbv zeta.
  destruct ((dom =? AF_INET) || (dom =? AF_INET6))%bool eqn:Ed.
  - repeat (rewrite K_bind_run; cbn [now fst snd mret K_ret]).
    rewrite socket_head_run. change (k_clock (tick st)) with (S (k_clock st)). fold here peer.
    assert (dom = AF_INET ∨ dom = AF_INET6) by (apply orb_true_iff in Ed as [Ed|Ed]; apply Z.eqb_eq in Ed; auto).
    rewrite in_sockinfo_run by (try done; by apply socket_head_length). f_equal.
    unfold socket_head. rewrite <- !app_assoc. done.
  - destruct (dom =? AF_UNIX) eqn:Eu.
    + repeat (rewrite K_bind_run; cbn [now fst snd mret K_ret]).
      rewrite socket_head_run. change (k_clock (tick st)) with (S (k_clock st)). fold here peer.
      rewrite un_sockinfo_run by apply socket_head_length. unfold socket_head. by rewrite <- !app_assoc.
    + rewrite socket_head_run. unfold socket_head. cbn [fst mret K_ret]. by rewrite <- !app_assoc.
Qed.

Lemma socket_info_length so dom type proto here peer :
  name_ok dom here -> name_ok dom peer -> length (socket_info so dom type proto here peer) = sizeof_socket_info.
Proof.
  intros Hh Hp. unfold socket_info. rewrite !length_app, !le_bytes_length. unfold zeros. rewrite !length_replicate.
  destruct (_ || _)%bool eqn:Ed.
  - apply orb_true_iff in Ed as [Ed|Ed]; apply Z.eqb_eq in Ed; destruct (end_lengths dom here), (end_lengths dom peer);
      auto; rewrite !length_app, !length_replicate, le_bytes_length; unfold sizeof_socket_info; lia.
  - destruct (dom =? AF_UNIX); [|by rewrite length_replicate].
    rewrite !length_app, !length_replicate, !name_length. done.
Qed.

(** C37. A descriptor that refers to a socket: the node shows the file information and what
    the public socket interface tells about the socket: domain, type, protocol, kind, and
    the ports and addresses (IP) or names (UNIX) of both ends.  Every other byte is zero. *)
Theorem socket_node_read pnp u st p t fp fg dom type proto :
  proc_find_at (k_clock st) (nodeid_pid (node_id pnp)) = Some p -> (forall n, fd_table p n = t) -> table_wf t ->
  let fd := nodeid_objectid (node_id pnp) in
  0 <= fd < fd_nfiles t -> fd_entry t (Z.to_nat fd) = Some (Some (fp, fg)) -> fg_type fg = DTYPE_SOCKET -> fg_data fg ≠ 0 ->
  let so := fg_data fg in
  let here := sock_getsockname_at (k_clock st + 3) so in
  let peer := sock_getpeername_at (k_clock st + 4) so in
  sock_gettype so = (dom, type, proto) -> name_ok dom here -> name_ok dom peer ->
  shows (λ s, let r := procfs_read_socket_data pnp u s in (r.1.1, r.2))
    (fileinfo_bytes (fill_fileinfo fp fg) ++ socket_info so dom type proto here peer) u st.
Proof.
  intros Hp Ht Hwf fd Hfd He Hty Hd so here peer Eg Hh Hpn. pose proof Hwf as [_ _ _ Hmax]. unfold PROCFS_FD_NFILES_MAX in Hmax.
  set (data := fileinfo_bytes _ ++ _).
  assert (Hl : Z.of_nat (length data) <= INT_MAX).
  { subst data. rewrite length_app, socket_info_length by done. unfold fileinfo_bytes.
    rewrite !length_app, !le_bytes_length. unfold sizeof_socket_info, INT_MAX. lia. }
  assert (E : (procfs_read_socket_data pnp u st).1.1 = copy_out data u).
  { unfold procfs_read_socket_data, procfs_fd_socket. fold fd.
    rewrite s32_small by (unfold INT_MIN, INT_MAX; lia).
    rewrite (descriptor_run _ p t fd DTYPE_SOCKET st fp fg) by done. rewrite K_bind_run. fold so.
    match goal with |- context [procfs_fill_socketinfo so ?s] => set (s1 := s); pose proof (fill_socketinfo_run so s1) as Hr end.
    replace (k_clock s1) with (k_clock st + 3)%nat in Hr by (subst s1; cbn; lia).
    replace (S (k_clock st + 3)) with (k_clock st + 4)%nat in Hr by lia. fold here peer in Hr.
    rewrite Eg in Hr. rewrite Hr by done. done. }
  unfold shows. rewrite E. apply (copy_out_shows data u st Hl).
Qed.
End FdFacts.

(** ** Example *)

(** A file at /tmp/a, and a TCP connection from
    port 0x1f90 of 127.0.0.1 whose other end is not connected. *)
Definition sample_end : list Byte.byte :=
  [Byte.x10; Byte.x02; Byte.x1f; Byte.x90; Byte.x7f; Byte.x00; Byte.x00; Byte.x01] ++ zeros 8.
Definition sample_path : list Byte.byte := bytes_of_string "/tmp/a" ++ zeros 900 ++ replicate 118 Byte.x2f.
Definition sample_fd_ops : @FdOps status_kernel :=
  @Build_FdOps status_kernel (λ _ _, sample_table) (λ _, 9) (λ _ _ _, 0) (λ _ _, sample_path)
    (λ _ _, 3) (λ _, (7, 20)) (λ _, 1)
    (λ _, (AF_INET, 1, IPPROTO_TCP)) (λ _ _, inr sample_end) (λ _ _, inl 57).

Definition fd_data (fd : Z) : pfsnode := Pfsnode (Pfsid 501 fd 30) 29%N.
Definition fd_reader : simple_uio := SimpleUio 0 2000 true [] true.

Lemma fd_node_read_witness :
  exists out, (@procfs_read_fd_data status_kernel simple_uio_ops sample_fd_ops (fd_data 0) fd_reader (Kstate 0 0 0)).1.1
    = Some (0, out) ∧ length (su_out out) = 1200%nat ∧ get_field (24 + 136) 4 (su_out out) = 1 ∧ take 6 (drop 176 (su_out out)) = bytes_of_string "/tmp/a".
Proof.
  destruct (@fd_node_read status_kernel simple_uio_ops simple_uio_laws sample_fd_ops (fd_data 0) fd_reader (Kstate 0 0 0)
    bash sample_table (Fileproc (Some (Fileglob 1 0 DTYPE_VNODE 100 2)) FP_CLOEXEC 0) (Fileglob 1 0 DTYPE_VNODE 100 2)
    eq_refl (λ _, eq_refl) sample_table_wf ltac:(vm_compute; split; congruence) eq_refl eq_refl
    ltac:(done) (λ _, eq_refl) ltac:(vm_compute; split; congruence) eq_refl) as (out & E & Eo).
  exists out. split; [exact E|]. change (su_out out) with (uio_out out). rewrite Eo. vm_compute. split_and!; reflexivity.
Defined.

Lemma socket_node_read_witness :
  exists out, (@procfs_read_socket_data status_kernel simple_uio_ops sample_fd_ops (fd_data 3) fd_reader (Kstate 0 0 0)).1.1
    = Some (0, out) ∧ length (su_out out) = 792%nat ∧ take 4 (drop (24 + insi_lport) (su_out out)) = [Byte.x1f; Byte.x90; Byte.x00; Byte.x00].
Proof.
  destruct (@socket_node_read status_kernel simple_uio_ops simple_uio_laws sample_fd_ops (fd_data 3) fd_reader (Kstate 0 0 0)
    bash sample_table (Fileproc (Some (Fileglob 3 0 DTYPE_SOCKET 200 1)) 0 3) (Fileglob 3 0 DTYPE_SOCKET 200 1)
    AF_INET 1 IPPROTO_TCP eq_refl (λ _, eq_refl) sample_table_wf ltac:(vm_compute; split; congruence) eq_refl eq_refl
    ltac:(done) eq_refl ltac:(vm_compute; lia) I ltac:(vm_compute; split; congruence) eq_refl) as (out & E & Eo).
  exists out. split; [exact E|]. change (su_out out) with (uio_out out). rewrite Eo. vm_compute. split; reflexivity.
Defined.
