(* ===== verification/Linux.v ===== *)
(** * System-wide Linux nodes (kext/procfs_linux.c)

    The text nodes stat, vmstat, meminfo, partitions, mtab, filesystems, uptime and swaps.
    Their sources of data (the tick counters, system controls, the list of mounts, the
    block devices, the daemon) are parameters; what the kext makes of them is here. *)

From Stdlib Require Import Ascii.
From S2P Require Import Prelude Kernel Structure Subr Sbuf Text Bridge Loadavg.

(** ** Formats *)

Fixpoint spaces (n : nat) : string := match n with O => "" | S n' => String " " (spaces n') end.

(** [%<n>d] *)
Definition fmt_w (n : nat) (z : Z) : string := let s := fmt_d z in spaces (n - String.length s) +:+ s.

Definition tab : string := String (ascii_of_nat 9) "".

Section TextNode.
Context `{KernelOps} `{PageSize} `{UioOps}.

(** A node that prints into a growing buffer. *)
Definition text_node (len : Z) (texts : list string) (uio : uio_t) : K (option (Z * uio_t)) :=
  sb ← sbuf_new true None len SBUF_AUTOEXTEND; reply_text sb texts uio.

(** A node that prints into an array of [n] bytes with snprintf. *)
Definition buffer_node (n : nat) (text : string) (uio : uio_t) : option (Z * uio_t) :=
  procfs_copy_data (Some (bytes_of_string (snprintf n text) ++ [Byte.x00])) (Z.of_nat (String.length text)) uio.

End TextNode.

(** ** stat *)

Definition ticks_zero : cpu_ticks := CpuTicks 0 0 0 0.

(** The lines of the processors and their sum. *)
Definition stat_cpus (resolved : bool) (load : cpu_load) (ncpu : nat) : list cpu_ticks :=
  (λ i, if resolved then default ticks_zero (load i) else ticks_zero) <$> seq 0 ncpu.

Definition add_ticks (a b : cpu_ticks) : cpu_ticks :=
  CpuTicks (u64 (tk_user a + tk_user b)) (u64 (tk_system a + tk_system b)) (u64 (tk_idle a + tk_idle b)) (u64 (tk_nice a + tk_nice b)).

Definition fmt_ticks (name : string) (k : cpu_ticks) : string :=
  name +:+ " " +:+ fmt_d (tk_user k) +:+ " " +:+ fmt_d (tk_nice k) +:+ " " +:+ fmt_d (tk_system k) +:+ " "
  +:+ fmt_d (tk_idle k) +:+ " 0 0 0 0 0 0" +:+ nl.

Definition stat_cpu_texts (cl : list cpu_ticks) : list string :=
  fmt_ticks "cpu " (foldl add_ticks ticks_zero cl) :: imap (λ i k, fmt_ticks ("cpu" +:+ fmt_d (Z.of_nat i)) k) cl.

Definition stat_rest_texts (btime total_procs : Z) : list string :=
  ["intr 0" +:+ nl; "ctxt 0" +:+ nl; "btime " +:+ fmt_d btime +:+ nl; "processes " +:+ fmt_d total_procs +:+ nl;
   "procs_running 1" +:+ nl; "procs_blocked 0" +:+ nl]%string.

(** hw.logicalcpu, as the nodes use it. *)
Definition cpu_count (ncpu : option Z) : Z := match ncpu with Some n => if 0 <? n then n else 1 | None => 1 end.

(** What vmstat shows of vm_statistics64. *)
Record vm_statistics64 := VmStatistics64 {
  free_count : Z; active_count : Z; inactive_count : Z; wire_count : Z; internal_page_count : Z; external_page_count : Z;
  purgeable_count : Z; speculative_count : Z; throttled_count : Z; compressor_page_count : Z;
  pageins : Z; pageouts : Z; swapins : Z; swapouts : Z; faults : Z; reactivations : Z; cow_faults : Z;
  decompressions : Z; compressions : Z }.

(** The system: hw.logicalcpu and kern.boottime when they can be read, whether
    cpu_to_processor was resolved, and the tick counters at a time. *)
Class SysOps := {
  hw_logicalcpu : option Z;
  kern_boottime : option Z;
  cpu_resolved : bool;
  cpu_load_at : nat -> cpu_load;
  (** hw.memsize, 0 when it cannot be read, and the wired page count when it is resolved *)
  hw_memsize : Z;
  vm_page_wire_count : option Z;
  (** microuptime: seconds and microseconds *)
  microuptime_at : nat -> Z * Z;
  (** vm.swapusage: total and used *)
  vm_swapusage : option (Z * Z);
  (** the size and the fields of the structure *)
  sizeof_vm_statistics64 : nat;
  decode_vm_statistics64 : list Byte.byte -> vm_statistics64;
}.

Section Nodes.
Context `{KernelOps} `{PageSize} `{UioOps} `{CtlOps} `{SysOps}.

Definition procfs_dostat (creds : kauth_cred_t) (uio : uio_t) : K (option (Z * uio_t)) :=
  sb ← sbuf_new true None 2048 SBUF_AUTOEXTEND;
  match sb with
  | None => mret (Some (ENOMEM, uio))
  | Some sb =>
    let ncpu := cpu_count hw_logicalcpu in
    ok ← OSMalloc (ncpu * 32);
    if negb ok then _ ← sbuf_delete sb; mret (Some (ENOMEM, uio)) else
    t ← now;
    let cl := stat_cpus cpu_resolved (cpu_load_at t) (Z.to_nat ncpu) in
    sb ← print_all (stat_cpu_texts cl) sb;
    _ ← OSFree (ncpu * 32);
    total_procs ← procfs_get_process_count creds;
    match sb with
    | None => mret None
    | Some sb =>
      sb ← print_all (stat_rest_texts (default 0 kern_boottime) total_procs) sb;
      match sb with None => mret None | Some sb => finish_and_copy sb uio end
    end
  end.

(** ** vmstat *)

(** The reply, copied over a structure of zeros. *)
Definition zero_filled (size : nat) (r : Z + list Byte.byte) : list Byte.byte :=
  match r with inr out => out ++ replicate (size - length out) Byte.x00 | inl _ => replicate size Byte.x00 end.

Definition vmstat_text (v : vm_statistics64) : string :=
  let line name z := (name +:+ " " +:+ fmt_d z +:+ nl)%string in
  line "nr_free_pages" (free_count v)
  +:+ line "nr_inactive_anon" 0 +:+ line "nr_active_anon" 0
  +:+ line "nr_inactive_file" (inactive_count v) +:+ line "nr_active_file" (active_count v)
  +:+ line "nr_anon_pages" (internal_page_count v) +:+ line "nr_file_pages" (external_page_count v)
  +:+ line "nr_wired" (wire_count v) +:+ line "nr_purgeable" (purgeable_count v)
  +:+ line "nr_speculative" (speculative_count v) +:+ line "nr_throttled" (throttled_count v)
  +:+ line "nr_compressed" (compressor_page_count v)
  +:+ line "pgpgin" (pageins v) +:+ line "pgpgout" (pageouts v)
  +:+ line "pswpin" (swapins v) +:+ line "pswpout" (swapouts v)
  +:+ line "pgfault" (faults v) +:+ line "pgmajfault" (pageins v)
  +:+ line "pgreactivate" (reactivations v) +:+ line "cow_faults" (cow_faults v)
  +:+ line "decompressions" (decompressions v) +:+ line "compressions" (compressions v).

Definition procfs_dovmstat (uio : uio_t) : K (option (Z * uio_t)) :=
  r ← ctl_request PROCFS_REQ_VMSTAT 0 0 sizeof_vm_statistics64;
  text_node 2048 [vmstat_text (decode_vm_statistics64 (zero_filled sizeof_vm_statistics64 r))] uio.

(** ** meminfo *)

Definition B2K (x : Z) : Z := Z.shiftr x 10.

Definition memfree : Z :=
  match vm_page_wire_count with
  | Some n => let wired := u64 (n * PAGE_SIZE) in if wired <? hw_memsize then hw_memsize - wired else 0
  | None => 0
  end.

Definition meminfo_text : string :=
  let line name z := (name +:+ fmt_w 9 z +:+ " kB" +:+ nl)%string in
  line "MemTotal: " (B2K hw_memsize) +:+ line "MemFree:  " (B2K memfree) +:+ line "MemShared:" 0
  +:+ line "Buffers:  " (B2K 0) +:+ line "Cached:   " (B2K 0) +:+ line "SwapTotal:" (B2K 0) +:+ line "SwapFree: " (B2K 0).

Definition procfs_domeminfo (uio : uio_t) : K (option (Z * uio_t)) :=
  sb ← sbuf_new true (Some (replicate 512 None)) 512 0;
  reply_text sb [meminfo_text] uio.

(** ** uptime and swaps *)

Definition uptime_text (tv : Z * Z) : string :=
  fmt_d tv.1 +:+ "." +:+ fmt_02d (Z.quot tv.2 10000) +:+ " 0.00" +:+ nl.

Definition procfs_douptime (uio : uio_t) : K (option (Z * uio_t)) :=
  t ← now; mret (buffer_node 64 (uptime_text (microuptime_at t)) uio).

Definition swaps_texts : list string :=
  ("Filename" +:+ tab +:+ tab +:+ tab +:+ tab +:+ "Type" +:+ tab +:+ tab +:+ "Size" +:+ tab +:+ "Used" +:+ tab
   +:+ "Priority" +:+ nl)%string ::
  match vm_swapusage with
  | Some (total, used) =>
    if 0 <? total then
      ["/private/var/vm/swapfile" +:+ tab +:+ "file" +:+ tab +:+ tab +:+ fmt_d (total / 1024) +:+ tab +:+ fmt_d (used / 1024)
       +:+ tab +:+ "-1" +:+ nl]%string
    else []
  | None => []
  end.

Definition procfs_doswaps (uio : uio_t) : K (option (Z * uio_t)) := text_node 256 swaps_texts uio.

End Nodes.

(** ** Mounts *)

(** What the nodes use of struct vfsstatfs; [f_fsid0] is f_fsid.val[0]. *)
Record vfsstatfs := Vfsstatfs {
  f_mntfromname : string; f_mntonname : string; f_fstypename : string; f_flags : Z; f_fsid0 : Z; f_blocks : Z; f_bsize : Z }.

Definition MFSTYPENAMELEN : nat := 16.
Definition MNT_RDONLY : Z := 1.

Definition mtab_tab : list (Z * string) :=
  [(8, ",nosuid"); (16, ",nodev"); (4, ",noexec"); (2, ",sync"); (64, ",async"); (268435456, ",noatime");
   (32, ",union"); (8388608, ",journaled"); (4096, ",local"); (1048576, ",nobrowse")]%string.

(** [strlcat(dst, s, n)] *)
Definition strlcat (n : nat) (dst s : string) : string :=
  if (n <=? String.length dst)%nat then dst else dst +:+ String.substring 0 (n - 1 - String.length dst) s.

Definition procfs_mtab_options (flags : Z) (cap : nat) : string :=
  foldl (λ out e, if (flags &? e.1)%C then strlcat cap out e.2 else out)
    (strlcpy cap (if (flags &? MNT_RDONLY)%C then "ro" else "rw")) mtab_tab.

Definition mtab_line (st : vfsstatfs) : string :=
  f_mntfromname st +:+ " " +:+ f_mntonname st +:+ " " +:+ f_fstypename st +:+ " "
  +:+ procfs_mtab_options (f_flags st) 160 +:+ " 0 0" +:+ nl.

(** The callbacks of vfs_iterate print at most one line for each mount. *)
Definition procfs_mtab_cb (st : option vfsstatfs) : list string :=
  match st with Some st => [mtab_line st] | None => [] end.

Definition major (dev : Z) : Z := Z.land (Z.shiftr (u32 dev) 24) 255.
Definition minor (dev : Z) : Z := Z.land dev 16777215.

Definition procfs_partitions_cb (st : option vfsstatfs) : list string :=
  match st with
  | Some st =>
    if String.eqb (String.substring 0 5 (f_mntfromname st)) "/dev/" then
      [fmt_w 4 (major (f_fsid0 st)) +:+ " " +:+ fmt_w 7 (minor (f_fsid0 st)) +:+ " "
       +:+ fmt_w 10 (Z.shiftr (u64 (f_blocks st * f_bsize st)) 10) +:+ " "
       +:+ String.substring 5 (String.length (f_mntfromname st) - 5) (f_mntfromname st) +:+ nl]%string
    else []
  | None => []
  end.

(** struct procfs_partition *)
Record procfs_partition := ProcfsPartition { pt_major : Z; pt_minor : Z; pt_size : Z; pt_name : string }.

Definition partition_line (d : procfs_partition) : string :=
  fmt_w 4 (pt_major d) +:+ " " +:+ fmt_w 7 (pt_minor d) +:+ " " +:+ fmt_w 10 (pt_size d / 1024) +:+ " " +:+ pt_name d +:+ nl.

Definition PROCFS_MAX_PARTS : Z := 128.

Definition nodev_types : list string :=
  ["devfs"; "procfs"; "autofs"; "nullfs"; "fdesc"; "tmpfs"; "mtmfs"; "lifs"; "bindfs"; "webdav"; "nfs"; "smbfs"; "ftp"]%string.

(** [strncmp(a, b, MFSTYPENAMELEN) == 0] *)
Definition same_type (a b : string) : bool :=
  String.eqb (String.substring 0 MFSTYPENAMELEN a) (String.substring 0 MFSTYPENAMELEN b).

Definition procfs_fs_is_nodev (type : string) : bool := existsb (same_type type) nodev_types.

(** The callback that collects the types into an array of 32. *)
Definition procfs_fstypes_cb (names : list string) (st : option vfsstatfs) : list string :=
  match st with
  | None => names
  | Some st =>
    if existsb (λ n, same_type n (f_fstypename st)) names then names
    else if (length names <? 32)%nat then names ++ [strlcpy MFSTYPENAMELEN (f_fstypename st)] else names
  end.

Definition filesystem_line (name : string) : string :=
  (if procfs_fs_is_nodev name then "nodev" else "") +:+ tab +:+ name +:+ nl.

Section Mounts.
Context `{KernelOps} `{PageSize} `{UioOps}.
(** The mounts vfs_iterate visits, and the block devices IOKit finds. *)
Context (mounts_at : nat -> list (option vfsstatfs)) (partitions_at : nat -> option (list procfs_partition)).

Definition procfs_domtab (uio : uio_t) : K (option (Z * uio_t)) :=
  sb ← sbuf_new true None 4096 SBUF_AUTOEXTEND;
  match sb with
  | None => mret (Some (ENOMEM, uio))
  | Some sb => t ← now; reply_text (Some sb) (concat (procfs_mtab_cb <$> mounts_at t)) uio
  end.

(** [None] of [partitions_at]: the enumeration fails. *)
Definition procfs_dopartitions (uio : uio_t) : K (option (Z * uio_t)) :=
  sb ← sbuf_new true None 2048 SBUF_AUTOEXTEND;
  match sb with
  | None => mret (Some (ENOMEM, uio))
  | Some sb =>
    sb ← print_all ["major minor  #blocks  name" +:+ nl +:+ nl]%string sb;
    ok ← OSMalloc (PROCFS_MAX_PARTS * 80);
    t ← now;
    let parts := if (ok : bool) then default [] (partitions_at t) else [] in
    t ← now;
    let texts := match parts with
      | [] => concat (procfs_partitions_cb <$> mounts_at t)
      | _ => partition_line <$> take (Z.to_nat PROCFS_MAX_PARTS) parts
      end in
    sb ← match sb with Some sb => print_all texts sb | None => mret None end;
    _ ← (if ok then OSFree (PROCFS_MAX_PARTS * 80) else mret tt);
    match sb with None => mret None | Some sb => finish_and_copy sb uio end
  end.

Definition procfs_dofilesystems (uio : uio_t) : K (option (Z * uio_t)) :=
  t ← now;
  text_node 512 (filesystem_line <$> foldl procfs_fstypes_cb [] (mounts_at t)) uio.

End Mounts.

(** ** Text nodes *)

Section LinuxFacts.
Context `{KernelOps} `{PageSize} `{UioLaws} `{CtlOps} `{SysOps}.

Lemma text_node_run len texts u st :
  0 <= len <= 65536 -> (forall t m, malloc_at t m = true) ->
  Z.of_nat (length (joined texts)) <= INT_MAX - PAGE_SIZE ->
  shows (text_node len texts u) (joined texts) u st ∧ same_res st (text_node len texts u st).2.
Proof.
  intros Hlen Hmem Hfit. apply new_reply_run.
  - split; [unfold INT_MIN, INT_MAX; lia|done].
  - by apply new_auto_some.
  - change (limit_of len SBUF_AUTOEXTEND) with (None : option Z). done.
Qed.

Lemma buffer_node_run n text u st :
  (String.length text < n)%nat -> Z.of_nat (String.length text) <= INT_MAX ->
  shows (mret (buffer_node n text u)) (bytes_of_string text) u st.
Proof.
  intros Hn Hm Hoff Hw. unfold buffer_node, snprintf. rewrite strlcpy_fits by done.
  rewrite <- bytes_of_string_length in *. destruct (copy_data_buffer (bytes_of_string text) [Byte.x00] u) as (u' & E & Ho & _); try done.
  by exists u'.
Qed.

(** ** Lengths *)

Lemma spaces_length n : String.length (spaces n) = n.
Proof. induction n as [|n IH]; [done|]. exact (f_equal S IH). Qed.

Lemma fmt_w_length n k z : (0 < k)%nat -> Z.abs z < 10 ^ Z.of_nat k -> (String.length (fmt_w n z) <= Nat.max n (S k))%nat.
Proof.
  intros Hk Hz. unfold fmt_w. rewrite string_length_app, spaces_length. pose proof (fmt_d_length k z Hk Hz). lia.
Qed.

Lemma b2k_range x : 0 <= x < 18446744073709551616 -> 0 <= B2K x < 10 ^ Z.of_nat 17.
Proof.
  intros Hx. unfold B2K. rewrite Z.shiftr_div_pow2 by lia. change (2 ^ 10) with 1024.
  change (10 ^ Z.of_nat 17) with 100000000000000000. split; [apply Z.div_pos; lia|apply Z.div_lt_upper_bound; lia].
Qed.

Lemma meminfo_length : 0 <= hw_memsize < 18446744073709551616 -> (String.length meminfo_text <= 7 * 32)%nat.
Proof.
  intros Hm. assert (Hf : 0 <= memfree < 18446744073709551616).
  { unfold memfree. destruct vm_page_wire_count as [n|]; [|lia]. pose proof (u64_range (n * PAGE_SIZE)). case_match; b2p; lia. }
  unfold meminfo_text. rewrite !string_length_app.
  pose proof (b2k_range _ Hm). pose proof (b2k_range _ Hf).
  pose proof (fmt_w_length 9 17 (B2K hw_memsize) ltac:(lia) ltac:(lia)).
  pose proof (fmt_w_length 9 17 (B2K memfree) ltac:(lia) ltac:(lia)).
  change (fmt_w 9 (B2K 0)) with (fmt_w 9 0). change (String.length (fmt_w 9 0)) with 9%nat.
  change (String.length nl) with 1%nat. cbn [String.length]. lia.
Qed.

(** meminfo: whatever the size of the memory and the number of wired pages, the seven
    lines fit the 512-byte buffer on the stack, free memory is the total less the wired
    pages and never negative, and the reader gets the part of the text it asked for. *)
Theorem meminfo_read u st :
  0 <= hw_memsize < 18446744073709551616 ->
  shows (procfs_domeminfo u) (bytes_of_string meminfo_text) u st
  ∧ (String.length meminfo_text < 512)%nat
  ∧ (forall n, vm_page_wire_count = Some n -> 0 <= n < 4294967296 -> memfree = Z.max 0 (hw_memsize - n * PAGE_SIZE)).
Proof.
  intros Hm. pose proof (meminfo_length Hm) as Hl. split_and!; [|lia|].
  - assert (Ej : joined [meminfo_text] = bytes_of_string meminfo_text) by (unfold joined; simpl; by rewrite app_nil_r).
    rewrite <- Ej. apply (new_reply_run (Some (replicate 512 None)) 512 0 [meminfo_text] u st).
    + split; [by vm_compute|]. intros b [= <-]. by vm_compute.
    + by eexists.
    + rewrite Ej, bytes_of_string_length. change (limit_of 512 0) with (Some 512). unfold has_room, INT_MAX. lia.
  - intros n Hn Hr. unfold memfree. rewrite Hn. pose proof page_size_cases.
    rewrite u64_small by (destruct (page_size_cases) as [-> | ->]; lia). case_match; b2p; lia.
Qed.

(** ** Mounts *)

Lemma strlcat_fits n dst s : (String.length dst + String.length s < n)%nat -> strlcat n dst s = dst +:+ s.
Proof.
  intros Hn. unfold strlcat. rewrite (proj2 (Nat.leb_gt n _)) by lia. by rewrite substring_full by lia.
Qed.

(** The options of a mount, without a bound. *)
Definition mount_options (flags : Z) : list string :=
  (if (flags &? MNT_RDONLY)%C then "ro" else "rw")%string
  :: omap (λ e, if (flags &? e.1)%C then Some e.2 else None) mtab_tab.

Lemma options_fold flags l cap : forall out,
  (String.length out + foldr (λ e n, String.length e.2 + n) 0 l < cap)%nat ->
  foldl (λ out e, if (flags &? e.1)%C then strlcat cap out e.2 else out) out l
  = foldl String.append out (omap (λ e : Z * string, if (flags &? e.1)%C then Some e.2 else None) l).
Proof.
  induction l as [|[f o] l IH]; intros out Hn; [done|]. cbn [foldl foldr omap list_omap fst snd] in *.
  destruct (flags &? f)%C.
  - rewrite strlcat_fits by lia. cbn [foldl]. apply IH. rewrite string_length_app. lia.
  - apply IH. lia.
Qed.

(** Mount options: every option of a mount is shown, in the order of the table and after
    ro or rw, and none is cut off, because together they fit the buffer of 160 bytes. *)
Theorem mtab_options_complete flags :
  procfs_mtab_options flags 160 = foldl String.append "" (mount_options flags)
  ∧ (String.length (procfs_mtab_options flags 160) < 160)%nat.
Proof.
  assert (E : procfs_mtab_options flags 160 = foldl String.append "" (mount_options flags)).
  { unfold procfs_mtab_options, mount_options. rewrite strlcpy_fits by (destruct (flags &? MNT_RDONLY)%C; by vm_compute; lia).
    rewrite options_fold; [done|]. destruct (flags &? MNT_RDONLY)%C; vm_compute; lia. }
  split; [done|]. rewrite E. unfold mount_options, mtab_tab. cbn [omap list_omap fst snd].
  repeat match goal with |- context [(flags &? ?m)%C] => destruct (flags &? m)%C end; vm_compute; lia.
Qed.

(** The types in the order in which they are first seen. *)
Definition see (acc : list string) (x : string) : list string := if bool_decide (x ∈ acc) then acc else acc ++ [x].
Definition first_seen (l : list string) : list string := foldl see [] l.

Lemma first_seen_spec l : forall acc, NoDup acc ->
  NoDup (foldl see acc l) ∧ forall x, x ∈ foldl see acc l <-> x ∈ acc ∨ x ∈ l.
Proof.
  induction l as [|y l IH]; intros acc Hn; cbn [foldl].
  - split; [done|]. intros x. rewrite elem_of_nil. tauto.
  - assert (Hn' : NoDup (see acc y)).
    { unfold see. case_bool_decide; [done|]. apply NoDup_app. split_and!; [done| |apply NoDup_singleton].
      intros x Hx ->%list_elem_of_singleton. done. }
    destruct (IH _ Hn') as [Hd Hx]. split; [done|]. intros x. rewrite Hx, elem_of_cons. unfold see.
    case_bool_decide; [naive_solver|]. rewrite elem_of_app, list_elem_of_singleton. tauto.
Qed.

Definition type_ok (t : string) : Prop := (String.length t < MFSTYPENAMELEN)%nat.

Lemma same_type_eq a b : type_ok a -> type_ok b -> same_type a b = bool_decide (a = b).
Proof.
  intros Ha Hb. unfold same_type, type_ok, MFSTYPENAMELEN in *. rewrite !substring_full by lia.
  case_bool_decide as E; [by apply String.eqb_eq|by apply String.eqb_neq].
Qed.

Lemma seen_types acc t : Forall type_ok acc -> type_ok t -> existsb (λ n, same_type n t) acc = bool_decide (t ∈ acc).
Proof.
  intros Ha Ht. induction Ha as [|a acc Hok _ IH]; [done|]. cbn [existsb]. rewrite IH, same_type_eq by done.
  repeat case_bool_decide; set_solver.
Qed.

Lemma fstypes_fold ms : forall acc, Forall type_ok acc -> Forall (λ o, forall st, o = Some st -> type_ok (f_fstypename st)) ms ->
  foldl procfs_fstypes_cb (take 32 acc) ms = take 32 (foldl see acc (f_fstypename <$> omap id ms)).
Proof.
  induction ms as [|o ms IH]; intros acc Hacc Hms; [done|]. apply Forall_cons in Hms as [Ho Hms].
  destruct o as [st|]; [|by apply IH]. specialize (Ho st eq_refl). cbn [foldl omap list_omap id fmap list_fmap].
  assert (Hstep : procfs_fstypes_cb (take 32 acc) (Some st) = take 32 (see acc (f_fstypename st))).
  { cbn [procfs_fstypes_cb]. rewrite seen_types by (done || by apply Forall_take). unfold see.
    rewrite strlcpy_fits by done. rewrite length_take. case_bool_decide as Hin.
    - rewrite bool_decide_true; [done|]. rewrite <- (take_drop 32 acc). apply elem_of_app. by left.
    - destruct (Nat.ltb_spec (32 `min` length acc) 32).
      + rewrite take_ge in Hin by lia. rewrite bool_decide_false by done.
        rewrite (take_ge acc) by lia. rewrite take_ge; [done|]. rewrite length_app. cbn [length]. lia.
      + case_bool_decide; [done|]. by rewrite take_app_le by lia. }
  change (foldl procfs_fstypes_cb (procfs_fstypes_cb (take 32 acc) (Some st)) ms
    = take 32 (foldl see (see acc (f_fstypename st)) (f_fstypename <$> omap id ms))).
  rewrite Hstep. apply IH; [|done]. unfold see. case_bool_decide; [done|].
  apply Forall_app. split; [done|]. by apply Forall_singleton.
Qed.

(** C29. filesystems: the node lists the types of the mounted file systems, each once and in
    the order in which they are first mounted, up to 32 of them; up to that number no
    type is missing. *)
Theorem filesystems_read mounts u st :
  (forall t m, malloc_at t m = true) ->
  Forall (λ o, forall st, o = Some st -> type_ok (f_fstypename st)) mounts ->
  let types := f_fstypename <$> omap id mounts in
  let names := take 32 (first_seen types) in
  shows (procfs_dofilesystems (λ _, mounts) u) (joined (filesystem_line <$> names)) u st
  ∧ NoDup names ∧ ((length (first_seen types) <= 32)%nat -> forall t, t ∈ names <-> t ∈ types).
Proof.
  intros Hmem Hok types names. destruct (first_seen_spec types [] (NoDup_nil_2)) as [Hd Hx].
  assert (En : foldl procfs_fstypes_cb [] mounts = names) by (apply (fstypes_fold mounts []); [constructor|done]).
  split_and!.
  - assert (Hl : Z.of_nat (length (joined (filesystem_line <$> names))) <= INT_MAX - PAGE_SIZE).
    { assert (Hn : Forall type_ok names).
      { apply Forall_take, Forall_forall. intros t Ht. apply Hx in Ht as [Ht|Ht]; [by apply elem_of_nil in Ht|].
        apply list_elem_of_fmap in Ht as (s & -> & Hs). apply list_elem_of_omap in Hs as (o & Ho & E). unfold id in E. subst o.
        rewrite Forall_forall in Hok. by apply (Hok _ Ho). }
      assert (Hb : forall l, Forall type_ok l -> (length (joined (filesystem_line <$> l)) <= 22 * length l)%nat).
      { induction 1 as [|a l Ha _ IH]; [done|]. unfold joined in *. rewrite !fmap_cons. cbn [concat length].
        rewrite length_app, bytes_of_string_length. unfold filesystem_line at 1. rewrite !string_length_app.
        change (String.length tab) with 1%nat. change (String.length nl) with 1%nat. unfold type_ok, MFSTYPENAMELEN in Ha.
        destruct (procfs_fs_is_nodev a); cbn [String.length]; lia. }
      specialize (Hb names Hn). assert (length names <= 32)%nat by (subst names; rewrite length_take; lia).
      pose proof page_size_cases. unfold INT_MAX. lia. }
    unfold shows, procfs_dofilesystems. rewrite K_bind_run. cbn [now fst snd]. rewrite En.
    apply (text_node_run 512 (filesystem_line <$> names) u (tick st)); [lia|done|done].
  - eapply sublist_NoDup; [exact Hd|apply sublist_take].
  - intros Hle t. subst names. rewrite take_ge by done. unfold first_seen. rewrite Hx, elem_of_nil. tauto.
Qed.

(** ** stat *)

Lemma joined_length_le texts b : Forall (λ t, (String.length t <= b)%nat) texts ->
  (length (joined texts) <= length texts * b)%nat.
Proof.
  unfold joined. induction 1 as [|t texts Ht _ IH]; [done|]. rewrite fmap_cons. cbn [concat length].
  rewrite length_app, bytes_of_string_length. lia.
Qed.

Lemma joined_app a b : joined (a ++ b) = joined a ++ joined b.
Proof. unfold joined. by rewrite fmap_app, concat_app. Qed.

(** Counters that are printed with at most 20 digits. *)
Definition counter_ok (k : cpu_ticks) : Prop :=
  0 <= tk_user k < 18446744073709551616 ∧ 0 <= tk_system k < 18446744073709551616
  ∧ 0 <= tk_idle k < 18446744073709551616 ∧ 0 <= tk_nice k < 18446744073709551616.

Lemma counter_length z : 0 <= z < 18446744073709551616 -> (String.length (fmt_d z) <= 21)%nat.
Proof. intros Hz. apply (fmt_d_length 20); [lia|]. change (10 ^ Z.of_nat 20) with 100000000000000000000. lia. Qed.

Lemma fmt_ticks_length name k : counter_ok k -> (String.length (fmt_ticks name k) <= String.length name + 102)%nat.
Proof.
  intros (H1' & H2' & H3' & H4'). unfold fmt_ticks. rewrite !string_length_app. change (String.length nl) with 1%nat.
  pose proof (counter_length _ H1'). pose proof (counter_length _ H2'). pose proof (counter_length _ H3').
  pose proof (counter_length _ H4'). cbn [String.length]. lia.
Qed.

Lemma stat_cpus_ok resolved load n : ticks_ok load -> Forall (λ k, tk_user k < 4294967296 ∧ tk_system k < 4294967296
    ∧ tk_idle k < 4294967296 ∧ tk_nice k < 4294967296 ∧ counter_ok k) (stat_cpus resolved load n).
Proof.
  intros Hok. unfold stat_cpus. apply Forall_fmap, Forall_forall. intros i _. unfold compose, counter_ok.
  destruct resolved; [|simpl; lia]. destruct (load i) as [k|] eqn:E; simpl; [|lia]. destruct (Hok i k E) as (? & ? & ? & ?). lia.
Qed.

Definition sum_over (f : cpu_ticks -> Z) (cl : list cpu_ticks) : Z := foldr Z.add 0 (f <$> cl).

(** The sums of the first line do not wrap around. *)
Lemma total_ticks cl : forall a, counter_ok a -> (length cl <= 512)%nat ->
  tk_user a + Z.of_nat (length cl) * 4294967296 <= 2 ^ 63 -> tk_system a + Z.of_nat (length cl) * 4294967296 <= 2 ^ 63 ->
  tk_idle a + Z.of_nat (length cl) * 4294967296 <= 2 ^ 63 -> tk_nice a + Z.of_nat (length cl) * 4294967296 <= 2 ^ 63 ->
  Forall (λ k, tk_user k < 4294967296 ∧ tk_system k < 4294967296 ∧ tk_idle k < 4294967296 ∧ tk_nice k < 4294967296
    ∧ counter_ok k) cl ->
  let t := foldl add_ticks a cl in
  counter_ok t ∧ tk_user t = tk_user a + sum_over tk_user cl ∧ tk_system t = tk_system a + sum_over tk_system cl
  ∧ tk_idle t = tk_idle a + sum_over tk_idle cl ∧ tk_nice t = tk_nice a + sum_over tk_nice cl.
Proof.
  unfold sum_over. induction cl as [|k cl IH]; intros a Ha Hlen Hu Hs Hi Hn Hcl; cbn [foldl length] in *.
  - split; [done|]. simpl. lia.
  - apply Forall_cons in Hcl as [(H1' & H2' & H3' & H4' & Hk) Hcl]. destruct Ha as (A1 & A2 & A3 & A4).
    destruct Hk as (K1 & K2 & K3 & K4). rewrite !fmap_cons. cbn [foldr].
    assert (E : add_ticks a k = CpuTicks (tk_user a + tk_user k) (tk_system a + tk_system k) (tk_idle a + tk_idle k) (tk_nice a + tk_nice k)).
    { unfold add_ticks. by rewrite !u64_small by lia. }
    rewrite E. destruct (IH (CpuTicks (tk_user a + tk_user k) (tk_system a + tk_system k) (tk_idle a + tk_idle k) (tk_nice a + tk_nice k)))
      as (Hc & E1 & E2 & E3 & E4); try (unfold counter_ok; simpl; lia); [done|].
    rewrite E1, E2, E3, E4. split; [done|]. cbn [tk_user tk_system tk_idle tk_nice]. lia.
Qed.

Lemma stat_texts_length load n btime procs :
  ticks_ok load -> (n <= 512)%nat -> -9223372036854775808 <= btime < 9223372036854775808 -> 0 <= procs <= 1024 ->
  (length (joined (stat_cpu_texts (stat_cpus cpu_resolved load n))) <= 513 * 130)%nat
  ∧ (length (joined (stat_rest_texts btime procs)) <= 6 * 130)%nat.
Proof.
  intros Hok Hn Hb Hp. pose proof (stat_cpus_ok cpu_resolved load n Hok) as Hcl.
  assert (Hlen : length (stat_cpus cpu_resolved load n) = n) by (unfold stat_cpus; by rewrite length_fmap, length_seq).
  set (cl := stat_cpus _ _ _) in *. split.
  - assert (Hf : Forall (λ t, (String.length t <= 130)%nat) (stat_cpu_texts cl)).
    { unfold stat_cpu_texts. constructor.
      - destruct (total_ticks cl ticks_zero) as [Hc _]; try (unfold counter_ok; simpl; lia); [done|].
        pose proof (fmt_ticks_length "cpu " _ Hc). simpl in *. lia.
      - apply Forall_lookup_2. intros i t Ht. rewrite list_lookup_imap in Ht. destruct (cl !! i) as [k|] eqn:Ek; [|done].
        injection Ht as <-. pose proof (Forall_lookup_1 _ _ _ _ Hcl Ek) as (_ & _ & _ & _ & Hk).
        pose proof (fmt_ticks_length ("cpu" +:+ fmt_d (Z.of_nat i)) k Hk) as Hl. rewrite string_length_app in Hl.
        apply lookup_lt_Some in Ek. pose proof (fmt_d_length 3 (Z.of_nat i) ltac:(lia)) as Hi.
        change (10 ^ Z.of_nat 3) with 1000 in Hi. specialize (Hi ltac:(lia)). cbn [String.length] in Hl. lia. }
    etrans; [by apply joined_length_le|]. unfold stat_cpu_texts. cbn [length]. rewrite length_imap, Hlen. lia.
  - pose proof (fmt_d_length 19 btime ltac:(lia)) as L1. pose proof (fmt_d_length 4 procs ltac:(lia)) as L2.
    change (10 ^ Z.of_nat 19) with 10000000000000000000 in L1. change (10 ^ Z.of_nat 4) with 10000 in L2.
    specialize (L1 ltac:(lia)). specialize (L2 ltac:(lia)).
    apply (joined_length_le (stat_rest_texts btime procs) 130). unfold stat_rest_texts.
    rewrite !Forall_cons, Forall_nil. split_and!; [..|done];
      rewrite ?string_length_app; change (String.length nl) with 1%nat; cbn [String.length]; lia.
Qed.

Lemma process_count_value `{!KernelStable} creds :
  value (procfs_get_process_count creds)
    (Z.of_nat (length (visible_pids (if procfs_issuser creds =? 0 then None else Some creds)))).
Proof.
  intros s. unfold procfs_get_process_count. rewrite K_bind_run.
  destruct (get_pids_run (if procfs_issuser creds =? 0 then None else Some creds) s) as [-> _].
  rewrite K_bind_run. done.
Qed.

(** stat: the reader gets the part it asked for of the complete text: a line for every
    processor and, before them, a line with the sums over the processors (which do not
    wrap around), then the boot time and the number of processes the reader may see. *)
Theorem stat_read `{!KernelStable} creds u st load :
  cpu_count hw_logicalcpu <= 512 -> (forall t, cpu_load_at t = load) -> ticks_ok load ->
  -9223372036854775808 <= default 0 kern_boottime < 9223372036854775808 ->
  let cl := stat_cpus cpu_resolved load (Z.to_nat (cpu_count hw_logicalcpu)) in
  let procs := Z.of_nat (length (visible_pids (if procfs_issuser creds =? 0 then None else Some creds))) in
  shows (procfs_dostat creds u) (joined (stat_cpu_texts cl ++ stat_rest_texts (default 0 kern_boottime) procs)) u st
  ∧ let total := foldl add_ticks ticks_zero cl in
    tk_user total = sum_over tk_user cl ∧ tk_system total = sum_over tk_system cl
    ∧ tk_idle total = sum_over tk_idle cl ∧ tk_nice total = sum_over tk_nice cl.
Proof.
  intros Hn Hload Hok Hbt cl procs. pose proof (stat_cpus_ok cpu_resolved load (Z.to_nat (cpu_count hw_logicalcpu)) Hok) as Hcl.
  assert (Hlen : length cl = Z.to_nat (cpu_count hw_logicalcpu)) by (subst cl; unfold stat_cpus; by rewrite length_fmap, length_seq).
  split.
  2: { destruct (total_ticks cl ticks_zero) as (_ & E1 & E2 & E3 & E4); try (unfold counter_ok; simpl; lia); [done|].
       simpl in E1, E2, E3, E4. done. }
  assert (Hmem : forall t m, malloc_at t m = true) by (intros; apply stable_malloc).
  assert (Hprocs : 0 <= procs <= 1024).
  { subst procs. pose proof (visible_pids_length (if procfs_issuser creds =? 0 then None else Some creds)).
    unfold PROCFS_MAX_PROCS in *. lia. }
  destruct (stat_texts_length load (Z.to_nat (cpu_count hw_logicalcpu)) _ procs Hok ltac:(lia) Hbt Hprocs) as [L1 L2]. fold cl in L1.
  pose proof page_size_cases as Hps.
  assert (Hb : buffer_ok None 2048) by (split; [unfold INT_MIN, INT_MAX; lia|done]).
  pose proof (new_ok true None 2048 SBUF_AUTOEXTEND st Hb) as Hc. pose proof (new_auto_some 2048 st ltac:(lia) Hmem) as Hs.
  unfold shows, procfs_dostat. rewrite K_bind_run. destruct (sbuf_new true None 2048 SBUF_AUTOEXTEND st) as [[sb|] st1]; [|by destruct Hs].
  destruct Hc as [Himp _]. cbn [fst snd]. rewrite K_bind_run. unfold OSMalloc at 1. rewrite K_bind_run. cbn [now fst snd].
  rewrite Hmem. rewrite K_bind_run. cbn [fst snd mret K_ret negb]. rewrite K_bind_run. cbn [now fst snd].
  rewrite Hload. fold cl. rewrite K_bind_run.
  match goal with |- context [print_all (stat_cpu_texts cl) sb ?s] => set (st2 := s) end.
  destruct (print_all_room (stat_cpu_texts cl) None false sb [] st2) as (sb1 & st3 & E1 & I1 & _);
    [exact Himp|split; [unfold INT_MAX; cbn [length]; lia|done]|].
  rewrite E1. cbn [fst snd]. rewrite K_bind_run. cbn [fst snd]. rewrite K_bind_run.
  rewrite process_count_value. fold procs. cbn [fst snd]. rewrite K_bind_run.
  match goal with |- context [print_all (stat_rest_texts ?b procs) sb1 ?s] => set (st4 := s); set (bt := b) in * end.
  rewrite app_nil_l in I1.
  destruct (print_all_room (stat_rest_texts bt procs) None false sb1 _ st4 I1) as (sb2 & st5 & E2 & I2 & _);
    [split; [unfold INT_MAX; lia|done]|].
  rewrite E2. cbn [fst snd]. rewrite joined_app.
  apply (finish_and_copy_run None sb2 _ false u st5 I2). rewrite length_app. unfold INT_MAX. lia.
Qed.

End LinuxFacts.

(** ** Examples *)

Definition small_kernel : KernelOps := simple_kernel [SimpleProc 1 "launchd" 0 0 [] []; SimpleProc 501 "bash" 501 20 [] []].
Definition zero_stats (_ : list Byte.byte) : vm_statistics64 := VmStatistics64 0 0 0 0 0 0 0 0 0 0 0 0 0 0 0 0 0 0 0.
Definition small_system : SysOps :=
  Build_SysOps (Some 2) (Some 1700000000) true (λ _, idle_machine 100 900) 17179869184 (Some 100000) (λ _, (4711, 250000)) None
    152 zero_stats.

Lemma meminfo_read_witness :
  shows (@procfs_domeminfo small_kernel small_pages simple_uio_ops small_system (SimpleUio 0 20 true [] true))
    (bytes_of_string ("MemTotal:  16777216 kB" +:+ nl +:+ "MemFree:   16377216 kB" +:+ nl +:+ "MemShared:        0 kB" +:+ nl
      +:+ "Buffers:          0 kB" +:+ nl +:+ "Cached:           0 kB" +:+ nl +:+ "SwapTotal:        0 kB" +:+ nl
      +:+ "SwapFree:         0 kB" +:+ nl)) (SimpleUio 0 20 true [] true : @uio_t simple_uio_ops) (Kstate 0 0 0).
Proof.
  destruct (@meminfo_read small_kernel small_pages simple_uio_ops simple_uio_laws small_system (SimpleUio 0 20 true [] true)
    (Kstate 0 0 0) ltac:(by vm_compute)) as [H _]. exact H.
Defined.

Definition sample_mounts : list (option vfsstatfs) :=
  [Some (Vfsstatfs "/dev/disk1s1" "/" "apfs" 1 16777220 1000 4096); None; Some (Vfsstatfs "devfs" "/dev" "devfs" 0 0 0 512);
   Some (Vfsstatfs "/dev/disk1s2" "/Volumes/x" "apfs" 8 16777221 1000 4096)]%string.

Lemma filesystems_read_witness :
  shows (@procfs_dofilesystems small_kernel small_pages simple_uio_ops (λ _, sample_mounts) (SimpleUio 0 20 true [] true))
    (bytes_of_string (tab +:+ "apfs" +:+ nl +:+ "nodev" +:+ tab +:+ "devfs" +:+ nl))
    (SimpleUio 0 20 true [] true : @uio_t simple_uio_ops) (Kstate 0 0 0).
Proof.
  destruct (@filesystems_read small_kernel small_pages simple_uio_ops simple_uio_laws sample_mounts (SimpleUio 0 20 true [] true)
    (Kstate 0 0 0)) as [H _].
  - done.
  - unfold sample_mounts. rewrite !Forall_cons, Forall_nil. split_and!; [..|done]; intros st E; simplify_eq; vm_compute; lia.
  - exact H.
Defined.

Lemma stat_read_witness :
  let cl := stat_cpus true (idle_machine 100 900) 2 in
  tk_user (foldl add_ticks ticks_zero cl) = 200 ∧ tk_idle (foldl add_ticks ticks_zero cl) = 1800.
Proof.
  destruct (@stat_read small_kernel small_pages simple_uio_ops simple_uio_laws small_system (simple_kernel_stable _)
    (SimpleCred 0 0) (SimpleUio 0 20 true [] true) (Kstate 0 0 0) (idle_machine 100 900)) as (_ & E1 & _ & E2 & _).
  - by vm_compute.
  - done.
  - intros j k. unfold idle_machine. case_match; intros; simplify_eq. simpl. lia.
  - by vm_compute.
  - split; [exact E1|exact E2].
Defined.
