(* ===== verification/Iokit.v ===== *)
(** * Block devices (kext/procfs_iokit.cpp)

    The partitions node asks IOKit for the media in its registry.  The registry and the two
    IOKit calls are parameters; the objects they return are counted references, which the
    function holds and gives back. *)

From S2P Require Import Prelude Kernel Structure Subr Sbuf Text Bridge Loadavg Linux.

(** ** Objects of the registry *)

(** What a property can be, as far as [OSDynamicCast] tells the classes apart. *)
Inductive osobject : Set := OSString (s : string) | OSNumber (n : Z) | OSOther.

(** An object of the iterator: a registry entry with its properties, or something else. *)
Inductive ioobject : Type := IORegistryEntry (props : gmap string osobject) | IOOther.

Definition as_string (o : option osobject) : option string := match o with Some (OSString s) => Some s | _ => None end.
Definition as_number (o : option osobject) : option Z := match o with Some (OSNumber n) => Some n | _ => None end.

Definition PROCFS_IOMEDIA_CLASS : string := "IOMedia".
Definition PROCFS_KEY_BSD_NAME : string := "BSD Name".
Definition PROCFS_KEY_BSD_MAJOR : string := "BSD Major".
Definition PROCFS_KEY_BSD_MINOR : string := "BSD Minor".
Definition PROCFS_KEY_SIZE : string := "Size".
Definition sizeof_name : nat := 64.

(** A program that may take and release references to objects; the state is the number held. *)
Definition R (A : Type) : Type := Z -> A * Z.
#[export] Instance R_ret : MRet R := λ A a n, (a, n).
#[export] Instance R_bind : MBind R := λ A B f m n, let (a, n') := m n in f a n'.
Definition retain : R unit := λ n, (tt, n + 1).
Definition release : R unit := λ n, (tt, n - 1).

Section Iokit.
(** [IOService::serviceMatching]: whether there is a dictionary; [getMatchingServices]: the
    objects the iterator gives, in order. *)
Variable serviceMatching : string -> bool.
Variable getMatchingServices : string -> option (list ioobject).

Definition matching_dictionary (class : string) : R bool :=
  if serviceMatching class then _ ← retain; mret true else mret false.
Definition matching_iterator (class : string) : R (option (list ioobject)) :=
  match getMatchingServices class with Some l => _ ← retain; mret (Some l) | None => mret None end.

(** The device of an object, if it is an entry with a BSD name. *)
Definition partition_of (o : ioobject) : option procfs_partition :=
  match o with
  | IOOther => None
  | IORegistryEntry props =>
    name ← as_string (props !! PROCFS_KEY_BSD_NAME);
    Some (ProcfsPartition (default 0 (u32 <$> as_number (props !! PROCFS_KEY_BSD_MAJOR)))
            (default 0 (u32 <$> as_number (props !! PROCFS_KEY_BSD_MINOR)))
            (default 0 (u64 <$> as_number (props !! PROCFS_KEY_SIZE)))
            (strlcpy sizeof_name name))
  end.

(** The loop: [n] of at most [max] entries are filled in. *)
Fixpoint fill_partitions (n max : Z) (l : list ioobject) : list procfs_partition :=
  match l with
  | [] => []
  | o :: l' =>
    if n <? max then
      match partition_of o with
      | None => fill_partitions n max l'
      | Some p => p :: fill_partitions (n + 1) max l'
      end
    else []
  end.

(** The result, [*count] where it is set, and the entries of [out]; [out] and [count] tell
    whether the pointers are not NULL. *)
Definition procfs_iokit_get_partitions (out : bool) (max : Z) (count : bool) : R (Z * option Z * list procfs_partition) :=
  if negb out || negb count || (max <=? 0) then mret (EINVAL, None, []) else
  match_ ← matching_dictionary PROCFS_IOMEDIA_CLASS;
  if negb match_ then mret (ENOMEM, Some 0, []) else
  it ← matching_iterator PROCFS_IOMEDIA_CLASS;
  _ ← release;
  match it with
  | None => mret (EIO, Some 0, [])
  | Some objects =>
    let parts := fill_partitions 0 max objects in
    _ ← release;
    mret (0, Some (Z.of_nat (length parts)), parts)
  end.

(** What the partitions node makes of the result: nothing, when it is an error. *)
Definition partitions_found : option (list procfs_partition) :=
  let '((error, _, parts), _) := procfs_iokit_get_partitions true PROCFS_MAX_PARTS true 0 in
  if error =? 0 then Some parts else None.

Lemma fill_partitions_spec l : forall n max,
  0 <= n <= max -> fill_partitions n max l = take (Z.to_nat (max - n)) (omap partition_of l).
Proof.
  induction l as [|o l IH]; intros n max Hn; cbn [fill_partitions omap list_omap]; [by rewrite take_nil|].
  destruct (Z.ltb_spec n max).
  - destruct (partition_of o); cbn; [|by apply IH].
    replace (Z.to_nat (max - n)) with (S (Z.to_nat (max - (n + 1)))) by lia. cbn. f_equal. apply IH. lia.
  - by replace (Z.to_nat (max - n)) with 0%nat by lia.
Qed.

(** Every path gives back the references it takes; on success the entries are the devices
    with a BSD name, in the order of the registry, as many as fit, and the count is theirs. *)
Theorem iokit_partitions max held :
  let '((error, count, parts), held') := procfs_iokit_get_partitions true max true held in
  held' = held
  ∧ (length parts <= Z.to_nat max)%nat
  ∧ (error = 0 <-> 0 < max ∧ serviceMatching PROCFS_IOMEDIA_CLASS = true ∧ is_Some (getMatchingServices PROCFS_IOMEDIA_CLASS))
  ∧ forall objects, error = 0 -> getMatchingServices PROCFS_IOMEDIA_CLASS = Some objects ->
      parts = take (Z.to_nat max) (omap partition_of objects) ∧ count = Some (Z.of_nat (length parts)).
Proof.
  unfold procfs_iokit_get_partitions, matching_dictionary, matching_iterator, retain, release.
  unfold EINVAL, ENOMEM, EIO. cbn [negb orb].
  destruct (Z.leb_spec max 0); [cbv [mbind R_bind mret R_ret]; cbn [fst snd negb]; split_and!; [done|apply Nat.le_0_l|naive_solver lia|done]|].
  destruct (serviceMatching PROCFS_IOMEDIA_CLASS); [|cbv [mbind R_bind mret R_ret]; cbn [fst snd negb]; split_and!; [done|apply Nat.le_0_l|naive_solver|done]].
  destruct (getMatchingServices PROCFS_IOMEDIA_CLASS) as [objects|]; cbv [mbind R_bind mret R_ret]; cbn [fst snd negb].
  - rewrite fill_partitions_spec, Z.sub_0_r by lia. split_and!; [lia| | |].
    + rewrite length_take. lia.
    + split; [|done]. intros _. split_and!; [done..|by eexists].
    + by intros ? _ [= ->].
  - split_and!; [lia|apply Nat.le_0_l| |done]. split; [done|]. intros (_ & _ & [? [=]]).
Qed.

End Iokit.

(** ** The node *)

Definition partitions_header : string := "major minor  #blocks  name" +:+ nl +:+ nl.

(** The lines: those of the devices, or of the mounted file systems when there are none. *)
Definition partitions_lines (devices : list procfs_partition) (mounts : list (option vfsstatfs)) : list string :=
  match devices with
  | [] => concat (procfs_partitions_cb <$> mounts)
  | _ => partition_line <$> devices
  end.

Section Node.
Context `{KernelOps} `{PageSize} `{UioLaws}.

Lemma OSMalloc_run n st :
  (forall t m, malloc_at t m = true) -> OSMalloc n st = (true, Kstate (S (k_clock st)) (k_procrefs st) (k_mem st + n)).
Proof. intros Hm. unfold OSMalloc. rewrite K_bind_run. simpl. by rewrite Hm. Qed.

(** C40. The partitions node shows the block devices of the registry that have a BSD name, the
    first 128 in the order of IOKit, with their numbers, their size in kilobytes and their
    name, or, when the registry cannot be asked or has none, the mounted file systems on
    devices; the buffer and the array are given back. *)
Theorem partitions_read (sm : string -> bool) (gms : string -> option (list ioobject)) mounts u st :
  (forall t m, malloc_at t m = true) ->
  let devices := if sm PROCFS_IOMEDIA_CLASS then take 128 (omap partition_of (default [] (gms PROCFS_IOMEDIA_CLASS))) else [] in
  let text := joined (partitions_header :: partitions_lines devices mounts) in
  Z.of_nat (length text) <= INT_MAX - PAGE_SIZE ->
  shows (procfs_dopartitions (λ _, mounts) (λ _, partitions_found sm gms) u) text u st
  ∧ k_mem (procfs_dopartitions (λ _, mounts) (λ _, partitions_found sm gms) u st).2 = k_mem st.
Proof.
  intros Hmem devices text Hfit.
  assert (Hparts : default [] (partitions_found sm gms) = devices ∧ take (Z.to_nat PROCFS_MAX_PARTS) devices = devices).
  { subst devices. unfold partitions_found. pose proof (iokit_partitions sm gms PROCFS_MAX_PARTS 0) as Hi.
    destruct (procfs_iokit_get_partitions sm gms true PROCFS_MAX_PARTS true 0) as [[[e c] parts] h].
    destruct Hi as (_ & _ & He & Hp). change (Z.to_nat PROCFS_MAX_PARTS) with 128%nat in *. split.
    - destruct (Z.eqb_spec e 0) as [E0|E0]; cbn [default].
      + destruct (proj1 He E0) as (_ & Es & [objects Eg]). rewrite Es, Eg. apply (Hp objects E0 Eg).
      + destruct (sm PROCFS_IOMEDIA_CLASS) eqn:Es; [|done]. destruct (gms PROCFS_IOMEDIA_CLASS) eqn:Eg; [|done].
        destruct E0. apply (proj2 He). split; [unfold PROCFS_MAX_PARTS; lia|]. by split; [|eexists].
    - destruct (sm _); [|done]. by rewrite take_take. }
  destruct Hparts as [Hparts Htake].
  assert (Htext : text = joined [partitions_header] ++ joined (partitions_lines devices mounts)) by apply (joined_app [_]).
  rewrite Htext, length_app in Hfit.
  assert (Hb : buffer_ok None 2048) by (split; [unfold INT_MIN, INT_MAX; lia|done]).
  pose proof (new_ok true None 2048 SBUF_AUTOEXTEND st Hb) as Hc. pose proof (new_auto_some 2048 st ltac:(lia) Hmem) as Hs.
  assert (E : exists sb2 st2, procfs_dopartitions (λ _, mounts) (λ _, partitions_found sm gms) u st = finish_and_copy sb2 u st2
    ∧ implements None sb2 (Text text false false) ∧ k_mem st2 - owned sb2 = k_mem st).
  { unfold procfs_dopartitions. rewrite K_bind_run.
    destruct (sbuf_new true None 2048 SBUF_AUTOEXTEND st) as [[sb|] st1]; [|by destruct Hs]. destruct Hc as [Himp Hm1].
    cbn [fst snd]. rewrite K_bind_run.
    destruct (print_all_room [partitions_header] None false sb [] st1 Himp) as (sb1 & st2 & E1 & I1 & M1);
      [split; [cbn [length]; lia|done]|].
    unfold partitions_header in E1. rewrite E1. cbn [fst snd]. rewrite K_bind_run, OSMalloc_run by done. cbn [fst snd].
    rewrite K_bind_run. cbn [now fst snd]. rewrite K_bind_run. cbn [now fst snd]. rewrite Hparts, Htake.
    change (match devices with [] => _ | _ => _ end) with (partitions_lines devices mounts).
    rewrite K_bind_run.
    match goal with |- context [print_all (partitions_lines devices mounts) sb1 ?s] => set (st3 := s) end.
    destruct (print_all_room (partitions_lines devices mounts) None false sb1 _ st3 I1) as (sb2 & st4 & E2 & I2 & M2);
      [split; [rewrite app_nil_l; lia|done]|].
    rewrite E2. cbn [fst snd]. rewrite K_bind_run. cbn [fst snd OSFree add_mem].
    exists sb2. eexists. split; [reflexivity|]. split.
    - rewrite app_nil_l in I2. rewrite Htext. exact I2.
    - cbn [k_mem]. subst st3. cbn [k_mem tick] in *. change (owned (Sbuf None 0 0 0)) with 0 in *. lia. }
  destruct E as (sb2 & st2 & E & I2 & M2). rewrite E.
  pose proof page_size_cases. destruct (finish_and_copy_run None sb2 text false u st2 I2) as [Hsh Hk]; [rewrite Htext, length_app; unfold INT_MAX in *; lia|].
  unfold shows. rewrite E. split; [exact Hsh|lia].
Qed.
End Node.

(** ** Example *)

Definition sample_registry (class : string) : option (list ioobject) :=
  if String.eqb class "IOMedia" then Some
    [IORegistryEntry (<["BSD Name" := OSString "disk0"]> (<["Size" := OSNumber 1024000]> (<["BSD Major" := OSNumber 1]> ∅)));
     IOOther; IORegistryEntry (<["Size" := OSNumber 5]> ∅);
     IORegistryEntry (<["BSD Name" := OSString "disk0s1"]> (<["BSD Minor" := OSNumber 2]> (<["Size" := OSString "?"]> ∅)))]%string
  else None.

Lemma partitions_read_witness :
  shows (@procfs_dopartitions small_kernel small_pages simple_uio_ops (λ _, sample_mounts) (λ _, partitions_found (λ _, true) sample_registry)
      (SimpleUio 0 200 true [] true))
    (bytes_of_string ("major minor  #blocks  name" +:+ nl +:+ nl +:+ "   1       0       1000 disk0" +:+ nl
      +:+ "   0       2          0 disk0s1" +:+ nl))
    (SimpleUio 0 200 true [] true : @uio_t simple_uio_ops) (Kstate 0 0 0).
Proof.
  destruct (@partitions_read small_kernel small_pages simple_uio_ops simple_uio_laws (λ _, true) sample_registry sample_mounts
    (SimpleUio 0 200 true [] true) (Kstate 0 0 0)) as [Hs _]; [done|by vm_compute|exact Hs].
Defined.
