(* ===== verification/Linuxproc.v ===== *)
(** * Linux nodes of processes and threads (kext/procfs_linux.c)

    comm, stat, statm and status of a process and comm, stat, status and sched of a thread,
    the Linux renderings of auxv and the registers, and the conversion of states. *)

From Stdlib Require Import Ascii.
From S2P Require Import Prelude Kernel Structure Subr Sbuf Text Phys Procargs Map Bridge Loadavg Fdtable Status Linux.

Definition PROCFS_NS_PER_TICK : Z := 10000000.

(** ** States *)

Definition procfs_proc_state (p_stat : Z) : ascii :=
  if p_stat =? SIDL then "I" else if p_stat =? SRUN then "R" else if p_stat =? SSTOP then "T"
  else if p_stat =? SZOMB then "Z" else "S".

Definition TH_STATE_RUNNING : Z := 1.
Definition TH_STATE_STOPPED : Z := 2.
Definition TH_STATE_UNINTERRUPTIBLE : Z := 4.

Definition procfs_thread_state (run_state : Z) : ascii :=
  if run_state =? TH_STATE_RUNNING then "R" else if run_state =? TH_STATE_STOPPED then "T"
  else if run_state =? TH_STATE_UNINTERRUPTIBLE then "D" else "S".

Definition procfs_thread_state_word (c : ascii) : string :=
  if Ascii.eqb c "R" then "running" else if Ascii.eqb c "T" then "stopped" else if Ascii.eqb c "D" then "disk sleep"
  else if Ascii.eqb c "Z" then "zombie" else if Ascii.eqb c "I" then "idle" else "sleeping".

Definition chr (c : ascii) : string := String c "".

(** ** Context *)

(** struct procfs_pctx *)
Record procfs_pctx := Pctx {
  c_pid : Z; c_ppid : Z; c_pgid : Z; c_sid : Z; c_nthreads : Z; c_vsize : Z; c_rsize : Z; c_comm : string; c_state : ascii }.

(** struct proc_threadinfo and proc_taskinfo, as the daemon sends them. *)
Definition pth_user_time (b : list Byte.byte) : Z := get_field 0 8 b.
Definition pth_system_time (b : list Byte.byte) : Z := get_field 8 8 b.
Definition pth_policy (b : list Byte.byte) : Z := s32 (get_field 20 4 b).
Definition pth_run_state (b : list Byte.byte) : Z := s32 (get_field 24 4 b).
Definition pth_curpri (b : list Byte.byte) : Z := s32 (get_field 36 4 b).
Definition pti_total_user (b : list Byte.byte) : Z := get_field 16 8 b.
Definition pti_total_system (b : list Byte.byte) : Z := get_field 24 8 b.

(** The thread's name or, when it has none, [comm]; [None]: the name has no terminator and
    printing it reads on behind the structure. *)
Definition thread_name (b : list Byte.byte) (comm : string) : option string :=
  let field := take 64 (drop 48 b) in
  let n := strnlen field in
  if (n =? 0)%nat then Some comm
  else if (n <? 64)%nat then Some (String.string_of_list_byte (take n field)) else None.

Section Proc.
Context `{KernelOps} `{PageSize} `{UioOps} `{CtlOps} `{!ProcInfo} `{!VmOps}.

(** Replies shorter than the structure leave zeros behind them. *)
Definition procfs_thread_info (pnp : pfsnode) : K (list Byte.byte) :=
  r ← ctl_request PROCFS_REQ_THREADINFO (nodeid_pid (node_id pnp)) (nodeid_objectid (node_id pnp)) sizeof_threadinfo;
  mret (zero_filled sizeof_threadinfo r).

Definition procfs_task_info (pnp : pfsnode) : K (list Byte.byte) :=
  r ← ctl_request PROCFS_REQ_TASKINFO (nodeid_pid (node_id pnp)) 0 sizeof_taskinfo;
  mret (zero_filled sizeof_taskinfo r).

Definition procfs_pctx_get (known : option Z) (pnp : pfsnode) : K procfs_pctx :=
  let pid := nodeid_pid (node_id pnp) in
  p ← proc_find pid;
  match p with
  | None => mret (Pctx pid 0 0 0 0 0 0 "" "S")
  | Some p =>
    tc ← procfs_get_task_thread_count (Some p) known;
    let '(_, vsize, rsize) := procfs_task_vm_sizes (λ p, negb (has_task p)) p in
    let c := Pctx pid (proc_ppid p) (proc_pgrpid p) (proc_sessionid p) tc.1 vsize rsize
               (strlcpy (MAXCOMLEN + 1) (proc_name pid)) (procfs_proc_state (p_stat p)) in
    _ ← proc_rele p; mret c
  end.

(** ** Process nodes *)

Definition comm_text (c : procfs_pctx) : string := c_comm c +:+ nl.
Definition procfs_docomm (known : option Z) (pnp : pfsnode) (uio : uio_t) : K (option (Z * uio_t)) :=
  c ← procfs_pctx_get known pnp; mret (buffer_node (MAXCOMLEN + 2) (comm_text c) uio).

Definition statm_text (c : procfs_pctx) : string :=
  fmt_d (c_vsize c / PAGE_SIZE) +:+ " " +:+ fmt_d (c_rsize c / PAGE_SIZE) +:+ " 0 0 0 0 0" +:+ nl.
Definition procfs_dostatm (known : option Z) (pnp : pfsnode) (uio : uio_t) : K (option (Z * uio_t)) :=
  c ← procfs_pctx_get known pnp; mret (buffer_node 128 (statm_text c) uio).

(** The line of stat, of a process or a thread: id, name, state, times, priority, policy. *)
Definition stat_line (id : Z) (name : string) (state : ascii) (c : procfs_pctx) (utime stime : Z) (pri policy : string) : string :=
  fmt_d id +:+ " (" +:+ name +:+ ") " +:+ chr state +:+ " " +:+ fmt_d (c_ppid c) +:+ " " +:+ fmt_d (c_pgid c) +:+ " "
  +:+ fmt_d (c_sid c) +:+ " 0 -1 0 0 0 0 0 "
  +:+ fmt_d utime +:+ " " +:+ fmt_d stime +:+ " 0 0 " +:+ pri +:+ " 0 " +:+ fmt_d (c_nthreads c) +:+ " 0 0 "
  +:+ fmt_d (c_vsize c) +:+ " " +:+ fmt_d (c_rsize c / PAGE_SIZE) +:+ " 18446744073709551615 "
  +:+ "0 0 0 0 0 0 0 0 0 0 0 0 0 0 0 "
  +:+ policy +:+ " "
  +:+ "0 0 0 0 0 0 0 0 0 0 0" +:+ nl.

Definition procstat_text (c : procfs_pctx) (ti : list Byte.byte) : string :=
  stat_line (c_pid c) (c_comm c) (c_state c) c (pti_total_user ti / PROCFS_NS_PER_TICK) (pti_total_system ti / PROCFS_NS_PER_TICK)
    "20" "0".
Definition procfs_doprocstat (known : option Z) (pnp : pfsnode) (uio : uio_t) : K (option (Z * uio_t)) :=
  c ← procfs_pctx_get known pnp;
  ti ← procfs_task_info pnp;
  mret (buffer_node 640 (procstat_text c ti) uio).

Definition status_text (c : procfs_pctx) (ids : Z * Z * Z * (Z * Z * Z)) : string :=
  let '(ruid, euid, svuid, (rgid, egid, svgid)) := ids in
  let row name a b d e := (name +:+ tab +:+ fmt_d a +:+ tab +:+ fmt_d b +:+ tab +:+ fmt_d d +:+ tab +:+ fmt_d e +:+ nl)%string in
  "Name:" +:+ tab +:+ c_comm c +:+ nl
  +:+ "State:" +:+ tab +:+ chr (c_state c) +:+ " (" +:+ procfs_thread_state_word (c_state c) +:+ ")" +:+ nl
  +:+ "Tgid:" +:+ tab +:+ fmt_d (c_pid c) +:+ nl +:+ "Pid:" +:+ tab +:+ fmt_d (c_pid c) +:+ nl
  +:+ "PPid:" +:+ tab +:+ fmt_d (c_ppid c) +:+ nl +:+ "TracerPid:" +:+ tab +:+ "0" +:+ nl
  +:+ row "Uid:"%string ruid euid svuid euid +:+ row "Gid:"%string rgid egid svgid egid
  +:+ "VmSize:" +:+ tab +:+ fmt_w 8 (Z.shiftr (c_vsize c) 10) +:+ " kB" +:+ nl
  +:+ "VmRSS:" +:+ tab +:+ fmt_w 8 (Z.shiftr (c_rsize c) 10) +:+ " kB" +:+ nl
  +:+ "Threads:" +:+ tab +:+ fmt_d (c_nthreads c) +:+ nl
  +:+ "voluntary_ctxt_switches:" +:+ tab +:+ "0" +:+ nl +:+ "nonvoluntary_ctxt_switches:" +:+ tab +:+ "0" +:+ nl.

Definition procfs_doprocstatus_linux (known : option Z) (pnp : pfsnode) (uio : uio_t) : K (option (Z * uio_t)) :=
  c ← procfs_pctx_get known pnp;
  p ← proc_find (nodeid_pid (node_id pnp));
  ids ← match p with
        | Some p =>
          let cr := kauth_cred_proc_ref p in
          let ids := (kauth_cred_getruid cr, kauth_cred_getuid cr, kauth_cred_getsvuid cr,
                      (kauth_cred_getrgid cr, kauth_cred_getgid cr, kauth_cred_getsvgid cr)) in
          _ ← proc_rele p; mret ids
        | None => mret (0, 0, 0, (0, 0, 0))
        end;
  text_node 1024 [status_text c ids] uio.

(** ** Thread nodes *)

Definition named (name : option string) (f : string -> option (Z * uio_t)) : option (Z * uio_t) := name ≫= f.

Definition procfs_dothreadcomm (pnp : pfsnode) (uio : uio_t) : K (option (Z * uio_t)) :=
  ti ← procfs_thread_info pnp;
  let comm := strlcpy (MAXCOMLEN + 1) (proc_name (nodeid_pid (node_id pnp))) in
  mret (named (thread_name ti comm) (λ name, buffer_node 66 (name +:+ nl) uio)).

Definition threadstat_text (tid : Z) (name : string) (c : procfs_pctx) (ti : list Byte.byte) : string :=
  stat_line tid name (procfs_thread_state (pth_run_state ti)) c (pth_user_time ti / PROCFS_NS_PER_TICK)
    (pth_system_time ti / PROCFS_NS_PER_TICK) (fmt_d (pth_curpri ti)) (fmt_d (pth_policy ti)).

Definition threadstatus_text (tid : Z) (name : string) (c : procfs_pctx) (ti : list Byte.byte) : string :=
  let st := procfs_thread_state (pth_run_state ti) in
  "Name:" +:+ tab +:+ name +:+ nl
  +:+ "State:" +:+ tab +:+ chr st +:+ " (" +:+ procfs_thread_state_word st +:+ ")" +:+ nl
  +:+ "Tgid:" +:+ tab +:+ fmt_d (c_pid c) +:+ nl +:+ "Pid:" +:+ tab +:+ fmt_d tid +:+ nl
  +:+ "PPid:" +:+ tab +:+ fmt_d (c_ppid c) +:+ nl
  +:+ "VmSize:" +:+ tab +:+ fmt_w 8 (Z.shiftr (c_vsize c) 10) +:+ " kB" +:+ nl
  +:+ "VmStk:" +:+ tab +:+ fmt_w 8 0 +:+ " kB" +:+ nl
  +:+ "Threads:" +:+ tab +:+ fmt_d (c_nthreads c) +:+ nl
  +:+ "voluntary_ctxt_switches:" +:+ tab +:+ "0" +:+ nl +:+ "nonvoluntary_ctxt_switches:" +:+ tab +:+ "0" +:+ nl.

Definition threadsched_text (tid : Z) (name : string) (c : procfs_pctx) (ti : list Byte.byte) : string :=
  name +:+ " (" +:+ fmt_d tid +:+ ", #threads: " +:+ fmt_d (c_nthreads c) +:+ ")" +:+ nl
  +:+ "-------------------------------------------------------------------" +:+ nl
  +:+ "se.sum_exec_runtime  : " +:+ fmt_w 20 (u64 (pth_user_time ti + pth_system_time ti)) +:+ nl
  +:+ "policy               : " +:+ fmt_w 20 (pth_policy ti) +:+ nl
  +:+ "prio                 : " +:+ fmt_w 20 (pth_curpri ti) +:+ nl.

(** The handlers of stat, status and sched of a thread: thread information, process
    context, a text in a buffer of [size] bytes. *)
Definition thread_node (size : nat) (text : Z -> string -> procfs_pctx -> list Byte.byte -> string) (known : option Z)
    (pnp : pfsnode) (uio : uio_t) : K (option (Z * uio_t)) :=
  ti ← procfs_thread_info pnp;
  c ← procfs_pctx_get known pnp;
  mret (named (thread_name ti (c_comm c)) (λ name, buffer_node size (text (nodeid_objectid (node_id pnp)) name c ti) uio)).
Definition procfs_dothreadstat := thread_node 640 threadstat_text.
Definition procfs_dothreadstatus := thread_node 512 threadstatus_text.
Definition procfs_dothreadsched := thread_node 512 threadsched_text.

(** ** Renderings of native nodes *)

Definition auxv_texts (cr : kauth_cred_t) : list string :=
  let line name z := (name +:+ tab +:+ fmt_d z +:+ nl)%string in
  [line "AT_PAGESZ" PAGE_SIZE; line "AT_CLKTCK" 100; line "AT_UID" (kauth_cred_getruid cr); line "AT_EUID" (kauth_cred_getuid cr);
   line "AT_GID" (kauth_cred_getrgid cr); line "AT_EGID" (kauth_cred_getgid cr); line "AT_SECURE" 0]%string.

Definition procfs_doauxv_linux (pnp : pfsnode) (uio : uio_t) : K (option (Z * uio_t)) :=
  if negb (uio_is_read uio) then mret (Some (EOPNOTSUPP, uio)) else
  p ← proc_find (nodeid_pid (node_id pnp));
  match p with
  | None => mret (Some (ESRCH, uio))
  | Some p =>
    sb ← sbuf_new true None 512 SBUF_AUTOEXTEND;
    match sb with
    | None => _ ← proc_rele p; mret (Some (ENOMEM, uio))
    | Some sb => r ← reply_text (Some sb) (auxv_texts (kauth_cred_proc_ref p)) uio; _ ← proc_rele p; mret r
    end
  end.

(** Registers on arm64.  The structure is on the stack and not initialised: a reply that is
    shorter leaves the rest undefined.  [decode] reads the registers from it, and is [None]
    when it meets undefined bytes; [lines] are the texts of the registers. *)
Definition registers_linux {R} (req : Z) (size : nat) (len : Z) (decode : list (option Byte.byte) -> option R)
    (lines : R -> list string) (pnp : pfsnode) (uio : uio_t) : K (option (Z * uio_t)) :=
  if negb (uio_is_read uio) then mret (Some (EOPNOTSUPP, uio)) else
  ok ← has_registers pnp;
  if negb ok then mret (Some (ESRCH, uio)) else
  sb ← sbuf_new true None len SBUF_AUTOEXTEND;
  match sb with
  | None => mret (Some (ENOMEM, uio))
  | Some sb =>
    r ← ctl_request req (nodeid_pid (node_id pnp)) 0 size;
    match r with
    | inr (b :: out) =>
      match decode ((Some <$> (b :: out)) ++ replicate (size - S (length out)) None) with
      | Some regs => reply_text (Some sb) (lines regs) uio
      | None => mret None
      end
    | _ => reply_text (Some sb) [] uio
    end
  end.

(** arm_thread_state64 and arm_neon_state64, as far as they are printed. *)
Record arm_regs := ArmRegs { ar_x : list Z; ar_fp : Z; ar_lr : Z; ar_sp : Z; ar_pc : Z; ar_cpsr : Z }.
Record neon_regs := NeonRegs { nr_q : list (Z * Z); nr_fpsr : Z; nr_fpcr : Z }.

(** [%-2d] *)
Definition fmt_l2 (z : Z) : string := let s := fmt_d z in s +:+ spaces (2 - String.length s).
Definition hex8 (z : Z) : string := hex_digits 8 z.

Definition regs_lines (r : arm_regs) : list string :=
  imap (λ i x, "x" +:+ fmt_l2 (Z.of_nat i) +:+ "  0x" +:+ fmt_016x x +:+ nl)%string (take 29 (ar_x r))
  ++ ["fp   0x" +:+ fmt_016x (ar_fp r) +:+ nl; "lr   0x" +:+ fmt_016x (ar_lr r) +:+ nl; "sp   0x" +:+ fmt_016x (ar_sp r) +:+ nl;
      "pc   0x" +:+ fmt_016x (ar_pc r) +:+ nl; "cpsr 0x" +:+ hex8 (ar_cpsr r) +:+ nl]%string.

(** A q register is its low and high half. *)
Definition fpregs_lines (r : neon_regs) : list string :=
  imap (λ i q, "q" +:+ fmt_l2 (Z.of_nat i) +:+ "  0x" +:+ fmt_016x q.2 +:+ fmt_016x q.1 +:+ nl)%string (take 32 (nr_q r))
  ++ ["fpsr 0x" +:+ hex8 (nr_fpsr r) +:+ nl; "fpcr 0x" +:+ hex8 (nr_fpcr r) +:+ nl]%string.

Definition procfs_doregs_linux (size : nat) (decode : list (option Byte.byte) -> option arm_regs) :=
  registers_linux PROCFS_REQ_REGS size 1024 decode regs_lines.
Definition procfs_dofpregs_linux (size : nat) (decode : list (option Byte.byte) -> option neon_regs) :=
  registers_linux PROCFS_REQ_FPREGS size 2048 decode fpregs_lines.

End Proc.

(** ** Fields *)

(** The parts of a text between its spaces. *)
Fixpoint words (s : string) : list string :=
  match s with
  | EmptyString => [""%string]
  | String c s' =>
    if Ascii.eqb c " " then ""%string :: words s'
    else match words s' with w :: ws => String c w :: ws | [] => [chr c] end
  end.

Fixpoint no_space (s : string) : bool :=
  match s with EmptyString => true | String c s' => negb (Ascii.eqb c " ") && no_space s' end.

Lemma words_app a b : no_space a = true -> words (a +:+ String " " b) = a :: words b.
Proof.
  induction a as [|c a IH]; [done|]. cbn [no_space]. intros [Hc Ha]%andb_true_iff. apply negb_true_iff in Hc.
  change (String c a +:+ String " " b)%string with (String c (a +:+ String " " b)). cbn [words]. rewrite Hc, (IH Ha). done.
Qed.

Lemma digits_no_space s : all_digits s -> no_space s = true.
Proof.
  unfold all_digits. induction s as [|c s IH]; [done|]. cbn [span_digits no_space].
  destruct (digit_of c) eqn:E; [|done]. destruct (span_digits s) as [d t]. cbn [snd] in *. intros Ht. rewrite IH by done.
  rewrite andb_true_r. apply negb_true_iff, Ascii.eqb_neq. intros ->. done.
Qed.

Lemma fmt_d_no_space z : no_space (fmt_d z) = true.
Proof.
  destruct (Z.le_gt_cases 0 z) as [Hz|Hz]; [by apply digits_no_space, fmt_d_digits|].
  destruct z as [|p|p]; [lia|lia|]. change (fmt_d (Z.neg p)) with ("-" +:+ fmt_d (Z.pos p))%string.
  change (no_space (String "-" (fmt_d (Z.pos p))) = true). cbn [no_space]. apply digits_no_space, fmt_d_digits. lia.
Qed.

Lemma words_here a : no_space a = true -> words a = [a].
Proof. induction a as [|c a IH]; [done|]. cbn [no_space words]. intros [Hc Ha]%andb_true_iff. apply negb_true_iff in Hc. by rewrite Hc, IH. Qed.

Lemma words_step a b l : no_space a = true -> words b = l -> words (a +:+ String " " b) = a :: l.
Proof. intros Ha <-. by apply words_app. Qed.

(** Splits off the next field. *)
Ltac next_word :=
  first [ refine (words_step (fmt_d _) _ _ (fmt_d_no_space _) _)
        | refine (words_step "0" _ _ eq_refl _) | refine (words_step "-1" _ _ eq_refl _)
        | refine (words_step "18446744073709551615" _ _ eq_refl _)
        | refine (words_step _ _ _ _ _); [eassumption|] ].

Section LinuxprocFacts.
Context `{KernelOps} `{PageSize} `{UioLaws} `{CtlOps} `{!ProcInfo} `{!VmOps}.

(** The text behind the name, without the newline. *)
Definition stat_rest (state : ascii) (c : procfs_pctx) (utime stime : Z) (pri policy : string) : string :=
  chr state +:+ " " +:+ fmt_d (c_ppid c) +:+ " " +:+ fmt_d (c_pgid c) +:+ " "
  +:+ fmt_d (c_sid c) +:+ " 0 -1 0 0 0 0 0 "
  +:+ fmt_d utime +:+ " " +:+ fmt_d stime +:+ " 0 0 " +:+ pri +:+ " 0 " +:+ fmt_d (c_nthreads c) +:+ " 0 0 "
  +:+ fmt_d (c_vsize c) +:+ " " +:+ fmt_d (c_rsize c / PAGE_SIZE) +:+ " 18446744073709551615 "
  +:+ "0 0 0 0 0 0 0 0 0 0 0 0 0 0 0 "
  +:+ policy +:+ " "
  +:+ "0 0 0 0 0 0 0 0 0 0 0".

Lemma string_assoc (a b c : string) : ((a +:+ b) +:+ c = a +:+ (b +:+ c))%string.
Proof. induction a as [|x a IH]; [done|]. exact (f_equal (String x) IH). Qed.

Lemma stat_line_rest id name state c utime stime pri policy :
  stat_line id name state c utime stime pri policy
  = fmt_d id +:+ " (" +:+ name +:+ ") " +:+ stat_rest state c utime stime pri policy +:+ nl.
Proof. unfold stat_line, stat_rest. by rewrite !string_assoc. Qed.

Lemma stat_rest_words state c utime stime pri policy :
  Ascii.eqb state " " = false -> no_space pri = true -> no_space policy = true ->
  words (stat_rest state c utime stime pri policy) =
    chr state :: fmt_d (c_ppid c) :: fmt_d (c_pgid c) :: fmt_d (c_sid c) :: ["0"; "-1"; "0"; "0"; "0"; "0"; "0"]%string
    ++ [fmt_d utime; fmt_d stime; "0"; "0"; pri; "0"; fmt_d (c_nthreads c); "0"; "0"; fmt_d (c_vsize c);
        fmt_d (c_rsize c / PAGE_SIZE); "18446744073709551615"]%string
    ++ replicate 15 "0"%string ++ policy :: replicate 11 "0"%string.
Proof.
  intros Hs Hp Hq. unfold stat_rest. cbn [app replicate].
  assert (Hc : no_space (chr state) = true) by (cbn [no_space chr]; by rewrite Hs).
  do 49 next_word. reflexivity.
Qed.

(** ** Ranges *)

Lemma count_uthreads_range l : forall n, 0 <= n <= PROCFS_MAX_THREADS -> 0 <= count_uthreads n l <= PROCFS_MAX_THREADS.
Proof.
  induction l as [|u l IH]; intros n Hn; cbn [count_uthreads]; [done|]. repeat case_match; b2p; try done. apply IH. lia.
Qed.

Lemma collect_tids_length size count l : forall n, n <= count -> Z.of_nat (length (collect_tids size n count l)) <= count - n.
Proof.
  induction l as [|u l IH]; intros n Hn; cbn [collect_tids]; [simpl; lia|]. repeat case_match; b2p; cbn [length]; try lia.
  - specialize (IH (n + 1) ltac:(lia)). lia.
  - by apply IH.
Qed.

Lemma thread_count_range p known s : 0 <= (procfs_get_task_thread_count p known s).1.1 <= 100000.
Proof.
  unfold procfs_get_task_thread_count, procfs_get_thread_ids_for_task. rewrite !K_bind_run.
  destruct (procfs_thread_size_init known s) as [[size|] s1]; [|simpl; lia]. destruct p as [p|]; [|simpl; lia].
  cbn [fst snd]. rewrite K_bind_run. cbv zeta. set (l := (uthlist p s1).1).
  pose proof (count_uthreads_range l 0 ltac:(unfold PROCFS_MAX_THREADS; lia)) as Hc.
  destruct (count_uthreads 0 l =? 0); [simpl; lia|]. rewrite K_bind_run. destruct (OSMalloc _ _) as [[|] s2]; [|simpl; lia].
  cbn [fst snd]. rewrite K_bind_run. cbn [fst snd mret K_ret]. change (KERN_SUCCESS =? 0) with true. cbv iota.
  rewrite K_bind_run. cbn [fst snd mret K_ret].
  match goal with |- context [collect_tids ?a ?b ?c ?d] => pose proof (collect_tids_length a c d b ltac:(lia)) end.
  unfold PROCFS_MAX_THREADS in *. lia.
Qed.

Definition int_ok (z : Z) : Prop := INT_MIN <= z <= INT_MAX.
Definition u64_ok (z : Z) : Prop := 0 <= z < 18446744073709551616.

(** Process numbers are [int]s. *)
Definition numbers_ok : Prop := forall p, int_ok (proc_ppid p) ∧ int_ok (proc_pgrpid p) ∧ int_ok (proc_sessionid p).

Record pctx_ok (c : procfs_pctx) : Prop := {
  po_pid : int_ok (c_pid c); po_ppid : int_ok (c_ppid c); po_pgid : int_ok (c_pgid c); po_sid : int_ok (c_sid c);
  po_threads : 0 <= c_nthreads c <= 100000; po_vsize : u64_ok (c_vsize c); po_rsize : u64_ok (c_rsize c);
  po_comm : (String.length (c_comm c) <= 16)%nat; po_state : Ascii.eqb (c_state c) " " = false }.

Lemma substring_le n s : (String.length (String.substring 0 n s) <= n)%nat.
Proof. revert n. induction s as [|c s IH]; intros [|n]; simpl; [lia..|]. specialize (IH n). lia. Qed.

Lemma pctx_get_ok known pnp s : numbers_ok -> int_ok (nodeid_pid (node_id pnp)) -> pctx_ok (procfs_pctx_get known pnp s).1.
Proof.
  intros Hn Hpid. unfold procfs_pctx_get, proc_find. rewrite !K_bind_run. cbn [now fst snd].
  destruct (proc_find_at _ _) as [p|].
  2: { split; simpl; try done; unfold int_ok, u64_ok, INT_MIN, INT_MAX; lia. }
  rewrite K_bind_run. cbn [fst snd mret K_ret]. rewrite K_bind_run.
  match goal with |- context [procfs_get_task_thread_count ?a ?b ?s] => pose proof (thread_count_range a b s) as Ht;
    destruct (procfs_get_task_thread_count a b s) as [[n kn] s1] end.
  destruct (procfs_task_vm_sizes _ p) as [[e v] r] eqn:Es. pose proof (vm_sizes_range _ _ _ _ _ Es) as [Hv Hr].
  destruct (Hn p) as (H1' & H2' & H3'). cbn [fst snd] in *.
  split; cbn [fst snd K_bind mbind mret K_ret add_refs proc_rele c_pid c_ppid c_pgid c_sid c_nthreads c_vsize c_rsize c_comm c_state];
    try done.
  - apply substring_le.
  - unfold procfs_proc_state. by repeat case_match.
Qed.

(** ** Lengths *)

Lemma int_length z : int_ok z -> (String.length (fmt_d z) <= 11)%nat.
Proof.
  intros Hz. unfold int_ok, INT_MIN, INT_MAX in Hz. apply (fmt_d_length 10); [lia|]. change (10 ^ Z.of_nat 10) with 10000000000. lia.
Qed.

Lemma u64_length z : u64_ok z -> (String.length (fmt_d z) <= 21)%nat.
Proof. apply counter_length. Qed.

Lemma u64_div z d : u64_ok z -> 0 < d -> u64_ok (z / d).
Proof.
  unfold u64_ok. intros Hz Hd. split; [apply Z.div_pos; lia|]. apply Z.div_lt_upper_bound; [lia|]. nia.
Qed.

Lemma field_u64 off b : u64_ok (get_field off 8 b).
Proof.
  unfold get_field, u64_ok. assert (Hl : forall l, 0 <= le_value l < 256 ^ Z.of_nat (length l)).
  { induction l as [|x l IH]; [done|]. cbn [le_value length]. rewrite Nat2Z.inj_succ, Z.pow_succ_r by lia.
    pose proof (Byte.to_N_bounded x). lia. }
  specialize (Hl (take 8 (drop off b))). split; [apply Hl|]. eapply Z.lt_le_trans; [apply Hl|].
  change 18446744073709551616 with (256 ^ Z.of_nat 8). apply Z.pow_le_mono_r; [lia|]. rewrite length_take. lia.
Qed.

Lemma stat_line_length id name state c utime stime pri policy :
  pctx_ok c -> u64_ok id ∨ int_ok id -> u64_ok utime -> u64_ok stime ->
  (String.length name <= 64)%nat -> (String.length pri <= 11)%nat -> (String.length policy <= 11)%nat ->
  (String.length (stat_line id name state c utime stime pri policy) < 640)%nat.
Proof.
  intros [] Hid Hu Hs Hn Hp Hq. unfold stat_line. rewrite !string_length_app. pose proof page_size_cases.
  assert (Hidl : (String.length (fmt_d id) <= 21)%nat).
  { destruct Hid as [Hi|Hi]; [by apply u64_length|]. pose proof (int_length _ Hi). lia. }
  pose proof (int_length _ po_ppid0). pose proof (int_length _ po_pgid0). pose proof (int_length _ po_sid0).
  pose proof (u64_length _ Hu). pose proof (u64_length _ Hs). pose proof (u64_length _ po_vsize0).
  assert (Hps : 0 < PAGE_SIZE) by lia. pose proof (u64_length _ (u64_div _ PAGE_SIZE po_rsize0 Hps)).
  assert (int_ok (c_nthreads c)) as Hnt by (unfold int_ok, INT_MIN, INT_MAX; lia). pose proof (int_length _ Hnt).
  change (String.length nl) with 1%nat. cbn [String.length chr]. lia.
Qed.

(** C31. stat of a process, whatever the process and the daemon answer, and also when the
    process has gone: the text fits the 640-byte buffer and the reader gets the part of it
    it asked for; it is the pid, the name in parentheses and behind them 50 fields, so
    that a reader that looks for the closing parenthesis finds all 52, with the times,
    the thread count, the sizes and the policy at the positions of Linux. *)
Theorem procstat_read known pnp u st :
  numbers_ok -> int_ok (nodeid_pid (node_id pnp)) ->
  let c := (procfs_pctx_get known pnp st).1 in
  let ti := (procfs_task_info pnp (procfs_pctx_get known pnp st).2).1 in
  exists rest, procstat_text c ti = fmt_d (c_pid c) +:+ " (" +:+ c_comm c +:+ ") " +:+ rest +:+ nl
    ∧ shows (procfs_doprocstat known pnp u) (bytes_of_string (procstat_text c ti)) u st
    ∧ length (words rest) = 50%nat
    ∧ words rest !! 0%nat = Some (chr (c_state c)) ∧ words rest !! 1%nat = Some (fmt_d (c_ppid c))
    ∧ words rest !! 11%nat = Some (fmt_d (pti_total_user ti / PROCFS_NS_PER_TICK))
    ∧ words rest !! 12%nat = Some (fmt_d (pti_total_system ti / PROCFS_NS_PER_TICK))
    ∧ words rest !! 17%nat = Some (fmt_d (c_nthreads c)) ∧ words rest !! 20%nat = Some (fmt_d (c_vsize c))
    ∧ words rest !! 21%nat = Some (fmt_d (c_rsize c / PAGE_SIZE)) ∧ words rest !! 38%nat = Some "0"%string.
Proof.
  intros Hn Hpid c ti. pose proof (pctx_get_ok known pnp st Hn Hpid) as Hc. fold c in Hc. pose proof Hc as Hc'. destruct Hc'.
  eexists. split; [apply stat_line_rest|]. rewrite stat_rest_words by done. split; [|done].
  assert (Hl : (String.length (procstat_text c ti) < 640)%nat).
  { apply stat_line_length; try done; [by right|apply u64_div; [apply field_u64|done]|apply u64_div; [apply field_u64|done]|lia|simpl; lia|simpl; lia]. }
  unfold shows, procfs_doprocstat. rewrite !K_bind_run. fold c ti.
  apply (buffer_node_run 640 (procstat_text c ti) u st Hl). unfold INT_MAX. lia.
Qed.

(** The small nodes: the names and numbers of a process always fit the buffers of comm and
    statm. *)
Theorem comm_statm_read known pnp u st :
  numbers_ok -> int_ok (nodeid_pid (node_id pnp)) ->
  let c := (procfs_pctx_get known pnp st).1 in
  shows (procfs_docomm known pnp u) (bytes_of_string (comm_text c)) u st
  ∧ shows (procfs_dostatm known pnp u) (bytes_of_string (statm_text c)) u st.
Proof.
  intros Hn Hpid c. pose proof (pctx_get_ok known pnp st Hn Hpid) as Hc. fold c in Hc. destruct Hc.
  unfold shows, procfs_docomm, procfs_dostatm. rewrite !K_bind_run. fold c. split.
  - apply (buffer_node_run (MAXCOMLEN + 2) (comm_text c) u st); unfold comm_text, MAXCOMLEN; rewrite string_length_app;
      change (String.length nl) with 1%nat; unfold INT_MAX; lia.
  - pose proof page_size_cases. assert (Hps : 0 < PAGE_SIZE) by lia.
    pose proof (u64_length _ (u64_div _ PAGE_SIZE po_rsize0 Hps)). pose proof (u64_length _ (u64_div _ PAGE_SIZE po_vsize0 Hps)).
    apply (buffer_node_run 128 (statm_text c) u st); unfold statm_text; rewrite !string_length_app;
      change (String.length nl) with 1%nat; cbn [String.length]; unfold INT_MAX; lia.
Qed.

(** ** Threads *)

Lemma thread_name_length b comm name : (String.length comm <= 16)%nat -> thread_name b comm = Some name -> (String.length name < 64)%nat.
Proof.
  intros Hc. unfold thread_name. case_match; [intros; simplify_eq; lia|]. case_match eqn:E; [|done]. intros [= <-].
  apply Nat.ltb_lt in E. assert (Hs : forall l, String.length (String.string_of_list_byte l) = length l).
  { induction l as [|x l IH]; [done|]. exact (f_equal S IH). }
  rewrite Hs, length_take. lia.
Qed.

Lemma kb_length z : u64_ok z -> (String.length (fmt_w 8 (Z.shiftr z 10)) <= 18)%nat.
Proof. intros Hz. pose proof (b2k_range z Hz) as Hb. apply (fmt_w_length 8 17); [lia|]. unfold B2K in Hb. lia. Qed.

Lemma s32_length z : (String.length (fmt_d (s32 z)) <= 11)%nat.
Proof. apply int_length, s32_range. Qed.

Lemma w20_length z : u64_ok z ∨ int_ok z -> (String.length (fmt_w 20 z) <= 21)%nat.
Proof.
  intros Hz. apply (fmt_w_length 20 20); [lia|]. change (10 ^ Z.of_nat 20) with 100000000000000000000.
  unfold u64_ok, int_ok, INT_MIN, INT_MAX in Hz. lia.
Qed.

(** The nodes of a thread: whatever thread information arrives, as long as the name in it
    is terminated, the text of each node fits its buffer (640 and 512 bytes) and the
    reader gets the part it asked for; a name that fills its field is read on behind the
    structure. *)
Theorem thread_nodes_read known pnp u st :
  numbers_ok -> int_ok (nodeid_pid (node_id pnp)) -> u64_ok (nodeid_objectid (node_id pnp)) ->
  let ti := (procfs_thread_info pnp st).1 in
  let c := (procfs_pctx_get known pnp (procfs_thread_info pnp st).2).1 in
  let tid := nodeid_objectid (node_id pnp) in
  match thread_name ti (c_comm c) with
  | Some name =>
    shows (procfs_dothreadstat known pnp u) (bytes_of_string (threadstat_text tid name c ti)) u st
    ∧ shows (procfs_dothreadstatus known pnp u) (bytes_of_string (threadstatus_text tid name c ti)) u st
    ∧ shows (procfs_dothreadsched known pnp u) (bytes_of_string (threadsched_text tid name c ti)) u st
  | None => (procfs_dothreadstat known pnp u st).1 = None
  end.
Proof.
  intros Hn Hpid Htid ti c tid. pose proof (pctx_get_ok known pnp (procfs_thread_info pnp st).2 Hn Hpid) as Hc. fold c in Hc.
  assert (Hrun : forall size text, (thread_node size text known pnp u st).1
    = named (thread_name ti (c_comm c)) (λ name, buffer_node size (text tid name c ti) u)).
  { intros size text. unfold thread_node. rewrite !K_bind_run. done. }
  pose proof (thread_name_length ti (c_comm c)) as Hname.
  destruct (thread_name ti (c_comm c)) as [name|]; [|apply Hrun]. specialize (Hname name (po_comm c Hc) eq_refl).
  assert (Hshow : forall size text, (String.length (text tid name c ti) < size)%nat -> (size <= 640)%nat ->
    shows (thread_node size text known pnp u) (bytes_of_string (text tid name c ti)) u st).
  { intros size text Hl Hs. unfold shows. rewrite Hrun. apply (buffer_node_run size (text tid name c ti) u st Hl). unfold INT_MAX. lia. }
  pose proof (int_length _ (po_pid c Hc)). pose proof (int_length _ (po_ppid c Hc)). pose proof (u64_length _ Htid).
  pose proof (kb_length _ (po_vsize c Hc)).
  assert (int_ok (c_nthreads c)) as Hnt by (pose proof (po_threads c Hc); unfold int_ok, INT_MIN, INT_MAX; lia).
  pose proof (int_length _ Hnt).
  split_and!; apply Hshow; try lia.
  - apply stat_line_length; try done; [by left|apply u64_div; [apply field_u64|done]|apply u64_div; [apply field_u64|done]|lia
      |apply s32_length|apply s32_length].
  - unfold threadstatus_text. cbv zeta. rewrite !string_length_app.
    assert (Hw : (String.length (procfs_thread_state_word (procfs_thread_state (pth_run_state ti))) <= 10)%nat).
    { unfold procfs_thread_state_word. repeat case_match; simpl; lia. }
    change (String.length nl) with 1%nat. change (String.length tab) with 1%nat. change (String.length (fmt_w 8 0)) with 8%nat.
    unfold tid in *. cbn [String.length chr]. lia.
  - unfold threadsched_text. rewrite !string_length_app.
    pose proof (w20_length (u64 (pth_user_time ti + pth_system_time ti)) (or_introl (u64_range _))).
    pose proof (w20_length (pth_policy ti) (or_intror (s32_range _))). pose proof (w20_length (pth_curpri ti) (or_intror (s32_range _))).
    change (String.length nl) with 1%nat. unfold tid in *. cbn [String.length]. lia.
Qed.

(** ** References *)

Lemma refs_kept_pctx known pnp : refs_kept (procfs_pctx_get known pnp).
Proof.
  apply refs_kept_proc_find; [|apply refs_kept_ret]. intros p s. apply refs_then; [apply refs_kept_thread_count|].
  intros tc s1. destruct (procfs_task_vm_sizes _ p) as [[e v] r]. apply refs_rele_ret.
Qed.

(** The Linux nodes of a process release it on every path. *)
Theorem linux_nodes_release known pnp u size text :
  refs_kept (procfs_docomm known pnp u) ∧ refs_kept (procfs_dostatm known pnp u) ∧ refs_kept (procfs_doprocstat known pnp u)
  ∧ refs_kept (procfs_doprocstatus_linux known pnp u) ∧ refs_kept (thread_node size text known pnp u)
  ∧ refs_kept (procfs_doauxv_linux pnp u).
Proof.
  assert (Hr : forall ty pid arg cap n, refs_kept (r ← ctl_request ty pid arg cap; mret (zero_filled n r))).
  { intros ty pid arg cap n. apply refs_kept_bind; [apply refs_kept_request|intros; apply refs_kept_ret]. }
  assert (Ht : forall len texts, refs_kept (text_node len texts u)).
  { intros len texts. apply refs_kept_bind; [apply refs_kept_new|intros; apply refs_kept_reply]. }
  split_and!.
  - apply refs_kept_bind; [apply refs_kept_pctx|intros; apply refs_kept_ret].
  - apply refs_kept_bind; [apply refs_kept_pctx|intros; apply refs_kept_ret].
  - apply refs_kept_bind; [apply refs_kept_pctx|intros]. apply refs_kept_bind; [apply Hr|intros; apply refs_kept_ret].
  - apply refs_kept_bind; [apply refs_kept_pctx|intros c]. apply refs_kept_proc_find.
    + intros p s. rewrite K_bind_run, Ht. apply refs_rele_ret.
    + apply refs_kept_bind; [apply refs_kept_ret|intros ids; apply Ht].
  - apply refs_kept_bind; [apply Hr|intros]. apply refs_kept_bind; [apply refs_kept_pctx|intros; apply refs_kept_ret].
  - unfold procfs_doauxv_linux. case_match; [apply refs_kept_ret|]. apply refs_kept_proc_find; [|apply refs_kept_ret].
    intros p s. apply refs_then; [apply refs_kept_new|]. intros [sb|] s1; [|apply refs_rele_ret].
    apply refs_then; [apply refs_kept_reply|intros; apply refs_rele_ret].
Qed.

(** A reply that is shorter than the register structure makes the Linux rendering print
    memory of the stack that nothing has written, unless no register lies there. *)
Theorem registers_linux_short_reply {R} req size len (decode : list (option Byte.byte) -> option R) lines pnp u st p b out :
  uio_is_read u = true -> proc_find_at (k_clock st) (nodeid_pid (node_id pnp)) = Some p ->
  (p_stat p =? SZOMB) || (p_flag p &? P_SYSTEM)%C = false -> 0 <= len <= 65536 -> (forall t m, malloc_at t m = true) ->
  (forall t, ctl_request_at t req (nodeid_pid (node_id pnp)) 0 size = inr (b :: out)) -> (length (b :: out) < size)%nat ->
  (forall l, None ∈ l -> decode l = None) ->
  (registers_linux req size len decode lines pnp u st).1 = None.
Proof.
  intros Hrd Hp Hz Hlen Hmem Hreq Hsz Hdec. unfold registers_linux. rewrite Hrd. cbn [negb]. rewrite K_bind_run.
  unfold has_registers at 1. unfold proc_find. rewrite !K_bind_run. cbn [now fst snd]. rewrite Hp, !K_bind_run.
  cbn [fst snd mret K_ret]. rewrite !K_bind_run. cbn [fst snd mret K_ret]. rewrite Hz. cbn [negb]. rewrite K_bind_run.
  match goal with |- context [sbuf_new _ _ _ _ ?s] => pose proof (new_auto_some len s Hlen Hmem) as Hs;
    destruct (sbuf_new true None len SBUF_AUTOEXTEND s) as [[sb|] st1] end; [|by destruct Hs].
  cbn [fst snd]. unfold ctl_request. rewrite !K_bind_run. cbn [now fst snd mret K_ret]. rewrite Hreq, Hdec; [done|].
  apply elem_of_app. right. cbn [length] in Hsz. apply elem_of_replicate. split; [done|lia].
Qed.

End LinuxprocFacts.

(** ** Example *)

Lemma procstat_read_witness :
  let c := Pctx 501 1 501 400 0 0 0 "bash" "R" in
  let ti := replicate 96 Byte.x00 in
  exists rest, @procstat_text small_pages c ti = "501 (bash) " +:+ rest +:+ nl ∧ length (words rest) = 50%nat.
Proof.
  destruct (@procstat_read status_kernel small_pages simple_uio_ops simple_uio_laws no_daemon status_info status_vm None
    (Pfsnode (Pfsid 501 0 30) 29%N) (SimpleUio 0 20 true [] true) (Kstate 0 0 0)) as (rest & E & _ & Hl & _).
  - intros p. split_and!; vm_compute; split; congruence.
  - vm_compute. split; congruence.
  - exists rest. split; [|exact Hl]. exact E.
Defined.

Lemma thread_nodes_read_witness :
  shows (@procfs_dothreadstatus status_kernel small_pages simple_uio_ops no_daemon status_info status_vm None
      (Pfsnode (Pfsid 501 7000 30) 29%N) (SimpleUio 0 20 true [] true))
    (bytes_of_string (@threadstatus_text 7000 "bash" (Pctx 501 1 501 400 0 0 0 "bash" "R") (replicate 112 Byte.x00)))
    (SimpleUio 0 20 true [] true : @uio_t simple_uio_ops) (Kstate 0 0 0).
Proof.
  destruct (@thread_nodes_read status_kernel small_pages simple_uio_ops simple_uio_laws no_daemon status_info status_vm None
    (Pfsnode (Pfsid 501 7000 30) 29%N) (SimpleUio 0 20 true [] true) (Kstate 0 0 0)) as (_ & H & _).
  - intros p. split_and!; vm_compute; split; congruence.
  - vm_compute. split; congruence.
  - vm_compute. split; congruence.
  - exact H.
Defined.
