(* ===== verification/Daemon.v ===== *)
(** * The daemon (tools/procfsd.c) at the other end of the bridge

    procfsd receives the requests of the kext, asks the system for the data and sends the
    reply.  Its answer to a message is a function of the message and of what the system
    services return.  Put behind the transition system of [Ctl] it gives the end-to-end
    property of the bridge: the data a call returns is the daemon's answer to that very
    call. *)

From S2P Require Import Prelude Ctl Bridge.

(** ** Messages *)

Definition sizeof_req : nat := 24.

Definition req_bytes (q : procfs_ctl_req) : list Byte.byte :=
  le_bytes 4 (req_magic q) ++ le_bytes 4 (req_seq q) ++ le_bytes 4 (req_type q) ++ le_bytes 4 (req_pid q)
  ++ le_bytes 8 (req_arg q).

Definition parse_req (m : list Byte.byte) : procfs_ctl_req :=
  CtlReq (le_value (take 4 m)) (le_value (take 4 (drop 4 m))) (le_value (take 4 (drop 8 m)))
    (s32 (le_value (take 4 (drop 12 m)))) (le_value (take 8 (drop 16 m))).

(** ** What the system answers *)

Definition PROC_PIDTASKINFO : Z := 4.
Definition PROC_PIDTHREADID64INFO : Z := 15.
Definition sizeof_proc_taskinfo : nat := 96.
Definition sizeof_proc_threadinfo : nat := 112.

Record services := Services {
  (** result, bytes stored, errno *)
  proc_pidinfo : Z -> Z -> Z -> nat -> Z * list Byte.byte * Z;
  (** count of 32-bit words and the structure *)
  host_statistics64 : option (nat * list Byte.byte);
  (** the three load averages, scaled by 100 and rounded *)
  load_x100 : list Z;
  task_for_pid : Z -> option Z;
  task_threads : Z -> option (list Z);
  thread_get_state : Z -> Z -> nat -> option (nat * list Byte.byte);
}.

(** The documented results of the services: a structure is stored whole, a failed call sets
    errno, a count is never raised. *)
Record services_ok (sv : services) : Prop := {
  so_pidinfo pid fl arg n r data e : proc_pidinfo sv pid fl arg n = (r, data, e) ->
    (r = Z.of_nat n -> length data = n) ∧ (r < 0 -> 0 < e <= 1000);
  so_vm cnt vm : host_statistics64 sv = Some (cnt, vm) -> (cnt * 4 <= length vm)%nat;
  so_load : length (load_x100 sv) = 3%nat;
  so_state th fl cnt got data : thread_get_state sv th fl cnt = Some (got, data) ->
    (got <= cnt)%nat ∧ length data = (got * 4)%nat;
}.

Section Daemon.
(** The register flavors of the processor and the size of each in words. *)
Variables (regs_flavor : Z -> Z) (regs_count : Z -> nat).
Variable sv : services.

(** On the processors with register flavors (the others give ENOTSUP); the Mach ports that are
    released on every path are left out. *)
Definition procfsd_handle_regs (type pid : Z) : Z * list Byte.byte :=
  match task_for_pid sv pid with
  | None => (EPERM, [])
  | Some task =>
    match task_threads sv task with
    | None | Some [] => (ESRCH, [])
    | Some (th :: _) =>
      let cnt := regs_count type in
      if Z.of_nat (cnt * 4) <=? PROCFS_CTL_MAXPAYLOAD then
        match thread_get_state sv th (regs_flavor type) cnt with
        | Some (got, data) => (0, data)
        | None => (EIO, [])
        end
      else (EMSGSIZE, [])
    end
  end.

Definition pid_record (size : nat) (r : Z * list Byte.byte * Z) : Z * list Byte.byte :=
  let '(n, data, errno) := r in
  if n =? Z.of_nat size then (0, data) else (if n <? 0 then errno else ESRCH, []).

(** The error and the payload for a request. *)
Definition daemon_answer (q : procfs_ctl_req) : Z * list Byte.byte :=
  let ty := req_type q in
  if ty =? PROCFS_REQ_TASKINFO then
    pid_record sizeof_proc_taskinfo (proc_pidinfo sv (req_pid q) PROC_PIDTASKINFO 0 sizeof_proc_taskinfo)
  else if ty =? PROCFS_REQ_THREADINFO then
    pid_record sizeof_proc_threadinfo (proc_pidinfo sv (req_pid q) PROC_PIDTHREADID64INFO (req_arg q) sizeof_proc_threadinfo)
  else if ty =? PROCFS_REQ_VMSTAT then
    match host_statistics64 sv with
    | Some (cnt, vm) =>
      let n := Z.of_nat (cnt * 4) in
      let n := if PROCFS_CTL_MAXPAYLOAD <? n then PROCFS_CTL_MAXPAYLOAD else n in
      (0, take (Z.to_nat n) vm)
    | None => (EIO, [])
    end
  else if ty =? PROCFS_REQ_LOADAVG then (0, concat (map (le_bytes 4) (load_x100 sv)))
  else if (ty =? PROCFS_REQ_REGS) || (ty =? PROCFS_REQ_FPREGS) then procfsd_handle_regs ty (req_pid q)
  else (EINVAL, []).

(** What the loop does with the result of recv. *)
Inductive received := RecvError (interrupted : bool) | Recv (m : list Byte.byte).
Inductive action := Again | Reconnect | Send (m : list Byte.byte).

Definition procfsd_turn (r : received) : action :=
  match r with
  | RecvError interrupted => if interrupted then Again else Reconnect
  | Recv m =>
    let rbuf := take 256 m in
    if (length rbuf <? sizeof_req)%nat then Again
    else
      let q := parse_req rbuf in
      if negb (req_magic q =? PROCFS_CTL_MAGIC) then Again
      else
        let '(e, payload) := daemon_answer q in
        Send (reply (req_seq q) e (Z.of_nat (length payload)) payload)
  end.

End Daemon.

(** ** Messages survive the wire *)

Lemma s32_wire z : s32 (z mod 4294967296) = s32 z.
Proof. unfold s32. by rewrite Zplus_mod_idemp_l. Qed.

Record req_typed (q : procfs_ctl_req) : Prop := {
  rt_magic : 0 <= req_magic q < 4294967296; rt_seq : 0 <= req_seq q < 4294967296;
  rt_type : 0 <= req_type q < 4294967296; rt_pid : INT_MIN <= req_pid q <= INT_MAX;
  rt_arg : 0 <= req_arg q < 18446744073709551616 }.

Lemma req_bytes_length q : length (req_bytes q) = sizeof_req.
Proof. unfold req_bytes. by rewrite !length_app, !le_bytes_length. Qed.

Lemma parse_req_bytes q : req_typed q -> parse_req (req_bytes q) = q.
Proof.
  intros [Hm Hs Ht Hp Ha]. destruct q as [m s t p a]. simpl in *. unfold parse_req, req_bytes. simpl req_magic. simpl req_seq.
  simpl req_type. simpl req_pid. simpl req_arg. rewrite <- (app_nil_r (le_bytes 8 a)).
  wire_fields.
  rewrite s32_wire, s32_small, !Z.mod_small by (done || lia). done.
Qed.

Lemma parse_reply q e n payload :
  0 <= q < 4294967296 -> INT_MIN <= e <= INT_MAX -> 0 <= n < 4294967296 ->
  parse_resp (reply q e n payload) = CtlResp PROCFS_CTL_MAGIC q e n
  ∧ drop sizeof_resp (reply q e n payload) = payload
  ∧ length (reply q e n payload) = (sizeof_resp + length payload)%nat.
Proof.
  intros Hq He Hn. unfold parse_resp, reply, sizeof_resp. split; [|split].
  - wire_fields. rewrite s32_wire, s32_small, !Z.mod_small by (done || lia). done.
  - by wire_fields.
  - rewrite !length_app, !le_bytes_length. lia.
Qed.

(** ** Answers *)

Section Answers.
Variables (regs_flavor : Z -> Z) (regs_count : Z -> nat).

Lemma pid_record_ok sv n pid fl arg :
  services_ok sv -> (n <= 2048)%nat ->
  let a := pid_record n (proc_pidinfo sv pid fl arg n) in
  0 <= a.1 <= 1000 ∧ (length a.2 <= 2048)%nat.
Proof.
  intros Hsv Hn. destruct (proc_pidinfo sv pid fl arg n) as [[r data] e] eqn:E.
  destruct (so_pidinfo sv Hsv _ _ _ _ _ _ _ E) as [H1 H2]. unfold pid_record. cbv zeta.
  destruct (Z.eqb_spec r (Z.of_nat n)); cbn [fst snd]; [rewrite H1 by done; lia|].
  destruct (Z.ltb_spec r 0); cbn [length]; unfold ESRCH; [|lia]. specialize (H2 ltac:(lia)). lia.
Qed.

Lemma regs_ok sv ty pid :
  services_ok sv -> let a := procfsd_handle_regs regs_flavor regs_count sv ty pid in
  0 <= a.1 <= 1000 ∧ (length a.2 <= 2048)%nat.
Proof.
  intros Hsv. unfold procfsd_handle_regs. destruct (task_for_pid sv pid) as [task|]; [|simpl; unfold EPERM; lia].
  destruct (task_threads sv task) as [[|th ths]|]; [simpl; unfold ESRCH; lia| |simpl; unfold ESRCH; lia].
  cbv zeta. destruct (Z.leb_spec (Z.of_nat (regs_count ty * 4)) PROCFS_CTL_MAXPAYLOAD); [|simpl; unfold EMSGSIZE; lia].
  destruct (thread_get_state sv th _ _) as [[got data]|] eqn:E; [|simpl; unfold EIO; lia].
  apply (so_state sv Hsv) in E as [Hg Hl]. cbn [fst snd]. rewrite Hl. unfold PROCFS_CTL_MAXPAYLOAD in *. lia.
Qed.

(** Every answer fits a reply. *)
Lemma daemon_answer_ok sv q :
  services_ok sv -> let a := daemon_answer regs_flavor regs_count sv q in
  0 <= a.1 <= 1000 ∧ (length a.2 <= 2048)%nat.
Proof.
  intros Hsv. unfold daemon_answer. cbv zeta. case_match; [apply pid_record_ok; [done|unfold sizeof_proc_taskinfo; lia]|].
  case_match; [apply pid_record_ok; [done|unfold sizeof_proc_threadinfo; lia]|]. case_match.
  { destruct (host_statistics64 sv) as [[cnt vm]|]; [|simpl; unfold EIO; lia]. cbn [fst snd]. rewrite length_take.
    split; [lia|]. case_match; b2p; unfold PROCFS_CTL_MAXPAYLOAD in *; lia. }
  case_match.
  { cbn [fst snd]. pose proof (so_load sv Hsv) as Hl. destruct (load_x100 sv) as [|a [|b [|c [|]]]]; try done.
    cbn [map concat]. rewrite !length_app, !le_bytes_length. simpl. lia. }
  case_match; [by apply regs_ok|simpl; unfold EINVAL; lia].
Qed.

End Answers.

(** ** The bridge with the daemon behind it *)

Section System.
Variables (regs_flavor : Z -> Z) (regs_count : Z -> nat).

(** What the system services answer after so many steps. *)
Variable world : nat -> services.

(** The message of a call. *)
Definition req_of (r : request) : procfs_ctl_req :=
  CtlReq PROCFS_CTL_MAGIC (rq_seq r) (rq_type r) (rq_pid r) (rq_arg r).

Definition args_typed (ty pid arg : Z) : Prop :=
  0 <= ty < 4294967296 ∧ INT_MIN <= pid <= INT_MAX ∧ 0 <= arg < 18446744073709551616.

(** A step of the system, the [n]-th: arguments have their C types, and a reply is what a turn
    of the daemon sends, with the services as they are then, for a message that was sent. *)
Definition daemon_step (n : nat) (l : label) (s : cstate) : Prop :=
  match l with
  | LRequest _ ty pid arg _ => args_typed ty pid arg
  | LReply m => exists u q, (u, q) ∈ c_sent s ∧ procfsd_turn regs_flavor regs_count (world n) (Recv (req_bytes q)) = Send m
  | _ => True
  end.

Inductive dreach : list label -> cstate -> Prop :=
| dreach_boot : dreach [] ctl_boot
| dreach_step ls l s s' : dreach ls s -> daemon_step (length ls) l s -> step l s = Some s' -> dreach (ls ++ [l]) s'.

Lemma dreach_reach ls s : dreach ls s -> reach ls s.
Proof. induction 1; econstructor; eauto. Qed.

Definition enqueuing (r : request) : bool := match rq_pc r with Enqueue _ _ => true | _ => false end.

(** Messages and calls belong together by their numbers. *)
Record paired (s : cstate) : Prop := Paired {
  pd_sent u m : (u, m) ∈ c_sent s -> 0 < req_seq m <= g_ctl_seq s ∧ req_typed m;
  pd_calls t r : c_calls s !! t = Some r -> 0 <= rq_seq r <= g_ctl_seq s ∧ args_typed (rq_type r) (rq_pid r) (rq_arg r);
  pd_distinct t t' r r' : c_calls s !! t = Some r -> c_calls s !! t' = Some r' -> rq_seq r = rq_seq r' ->
    0 < rq_seq r -> t = t';
  pd_match t r u m : c_calls s !! t = Some r -> (u, m) ∈ c_sent s -> req_seq m = rq_seq r ->
    enqueuing r = false ∧ m = req_of r;
}.

Definition same_call (r r' : request) : Prop :=
  req_of r' = req_of r ∧ rq_outcap r' = rq_outcap r ∧ (enqueuing r' = true -> enqueuing r = true).

(** A step that sends nothing and takes no number. *)
Lemma paired_frame s s' :
  paired s -> g_ctl_seq s' = g_ctl_seq s -> c_sent s' = c_sent s ->
  (forall t r', c_calls s' !! t = Some r' ->
     (rq_seq r' = 0 ∧ args_typed (rq_type r') (rq_pid r') (rq_arg r'))
     ∨ exists r, c_calls s !! t = Some r ∧ same_call r r') ->
  0 <= g_ctl_seq s -> paired s'.
Proof.
  intros [Hs Hc Hd Hm] Eq Es Hf Hpos. split.
  - rewrite Es, Eq. exact Hs.
  - intros t r' Hr'. rewrite Eq. destruct (Hf t r' Hr') as [[-> ?]|(r & Hr & [= Esq Et Ep Ea] & _)]; [split; [lia|done]|].
    rewrite Esq, Et, Ep, Ea. eauto.
  - intros t1 t2 r1' r2' H1 H2 E Hq.
    destruct (Hf t1 r1' H1) as [[E1 _]|(r1 & Hr1 & [= Es1 _ _ _] & _)]; [lia|].
    destruct (Hf t2 r2' H2) as [[E2 _]|(r2 & Hr2 & [= Es2 _ _ _] & _)]; [lia|].
    apply (Hd t1 t2 r1 r2); auto; congruence.
  - intros t r' u m Hr' Hin E. rewrite Es in Hin.
    destruct (Hf t r' Hr') as [[E' _]|(r & Hr & Eq' & _ & He)]; [destruct (Hs u m Hin); lia|].
    destruct (Hm t r u m Hr Hin) as [Hn ->]; [injection Eq'; congruence|]. split; [|done].
    destruct (enqueuing r'); [|done]. by rewrite He in Hn.
Qed.

Lemma same_call_pc r pc : (forall i u, pc ≠ Enqueue i u) -> same_call r (set_pc r pc).
Proof. intros Hpc. split_and!; [done..|]. unfold enqueuing. simpl. destruct pc; naive_solver. Qed.

Lemma same_call_refl r : same_call r r.
Proof. by split_and!. Qed.

Lemma same_call_wake p r : same_call r (wake_call p r).
Proof.
  unfold wake_call. destruct (rq_pc r) eqn:E; try apply same_call_refl. case_match; [|apply same_call_refl].
  apply same_call_pc. done.
Qed.

(** One call changes, as [same_call] allows. *)
Lemma paired_call s s' t r r' :
  paired s -> 0 <= g_ctl_seq s -> c_calls s !! t = Some r -> same_call r r' ->
  g_ctl_seq s' = g_ctl_seq s -> c_sent s' = c_sent s -> c_calls s' = <[t := r']> (c_calls s) -> paired s'.
Proof.
  intros Hp Hq Hr Hsame Eq Es Ec. apply (paired_frame s); auto. rewrite Ec. intros t' x.
  destruct (decide (t' = t)) as [->|Hne].
  - rewrite lookup_insert_eq. intros [= <-]. right. eauto.
  - rewrite lookup_insert_ne by done. intros Hx. right. exists x. split; [done|apply same_call_refl].
Qed.

Lemma paired_wake s s' p :
  paired s -> 0 <= g_ctl_seq s -> g_ctl_seq s' = g_ctl_seq s -> c_sent s' = c_sent s ->
  c_calls s' = wake_call p <$> c_calls s -> paired s'.
Proof.
  intros Hp Hq Eq Es Ec. apply (paired_frame s); auto. rewrite Ec. intros t x. rewrite lookup_fmap.
  destruct (c_calls s !! t) as [r|]; [|done]. intros [= <-]. right. exists r. split; [done|apply same_call_wake].
Qed.

Lemma paired_reserve s t r :
  paired s -> 0 <= g_ctl_seq s < 4294967294 -> c_calls s !! t = Some r -> rq_pc r = Reserve ->
  paired (request_reserve t r s).
Proof.
  intros Hp Hq Hr Hpc. unfold request_reserve. destruct (find_slot _ 0 _) as [i|].
  2: { eapply (paired_call s _ t r); eauto; [lia|by apply same_call_pc]. }
  rewrite next_seq_small by lia. destruct Hp as [Hs Hc Hd Hm]. destruct (Hc t r Hr) as [_ Hty].
  assert (Hcall : forall t' x, <[t := set_pc (set_seq r (g_ctl_seq s + 1)) (Enqueue i (g_ctl_unit s))]> (c_calls s) !! t' = Some x ->
    (t' = t ∧ x = set_pc (set_seq r (g_ctl_seq s + 1)) (Enqueue i (g_ctl_unit s))) ∨ (t' ≠ t ∧ c_calls s !! t' = Some x)).
  { intros t' x [[<- <-]|[? ?]]%lookup_insert_Some; auto. }
  split; cbn [c_sent g_ctl_seq c_calls].
  - intros u m Hin. destruct (Hs u m Hin). split; [lia|done].
  - intros t' x [[-> ->]|[_ Hx]]%Hcall; [split; [simpl; lia|done]|]. destruct (Hc t' x Hx). split; [lia|done].
  - intros t1 t2 x y [[-> ->]|[_ Hx]]%Hcall [[-> ->]|[_ Hy]]%Hcall E Hz; auto.
    + destruct (Hc t2 y Hy). simpl in E. lia.
    + destruct (Hc t1 x Hx). simpl in E. lia.
    + by apply (Hd t1 t2 x y).
  - intros t' x u m [[-> ->]|[_ Hx]]%Hcall Hin E; [destruct (Hs u m Hin); simpl in E; lia|eauto].
Qed.

Lemma paired_enqueue s t r i u e :
  paired s -> 0 <= g_ctl_seq s < 4294967295 -> c_calls s !! t = Some r -> rq_pc r = Enqueue i u -> 0 < rq_seq r ->
  paired (request_enqueue t r i u e s).
Proof.
  intros Hp Hq Hr Hpc Hpos. unfold request_enqueue. destruct (e =? 0).
  2: { eapply (paired_call s _ t r); eauto; [lia|by apply same_call_pc]. }
  assert (Hfree : forall u' m, (u', m) ∈ c_sent s -> req_seq m ≠ rq_seq r).
  { intros u' m Hin E. destruct (pd_match s Hp t r u' m Hr Hin E) as [He _]. unfold enqueuing in He. by rewrite Hpc in He. }
  destruct Hp as [Hs Hc Hd Hm]. destruct (Hc t r Hr) as [Hsq Hty].
  assert (Hcall : forall t' x, <[t := set_pc r (Locking i)]> (c_calls s) !! t' = Some x ->
    (t' = t ∧ x = set_pc r (Locking i)) ∨ (t' ≠ t ∧ c_calls s !! t' = Some x)).
  { intros t' x [[<- <-]|[? ?]]%lookup_insert_Some; auto. }
  split; cbn [c_sent g_ctl_seq c_calls].
  - intros u' m [Hin|[= -> ->]%list_elem_of_singleton]%elem_of_app; [eauto|]. split; [simpl; lia|].
    destruct Hty as (? & ? & ?). split; simpl; try lia. done.
  - intros t' x [[-> ->]|[_ Hx]]%Hcall; eauto.
  - intros t1 t2 x y [[-> ->]|[_ Hx]]%Hcall [[-> ->]|[_ Hy]]%Hcall E Hz; auto; [by apply (Hd t t2 r y)|by apply (Hd t1 t x r)|eauto].
  - intros t' x u' m [[-> ->]|[Hne Hx]]%Hcall [Hin|[= -> ->]%list_elem_of_singleton]%elem_of_app E; [by destruct (Hfree u' m Hin)|done|eauto|].
    exfalso. apply Hne, (Hd t' t x r); auto. simpl in E. lia.
Qed.

Lemma paired_step ls l s s' :
  reach ls s -> reservations (ls ++ [l]) < 4294967295 -> paired s -> daemon_step (length ls) l s -> step l s = Some s' -> paired s'.
Proof.
  intros Hr Hn Hp Hd Hs.
  assert (Hres : reservations (ls ++ [l]) = reservations ls + Z.b2z (is_reserve l)).
  { unfold reservations. rewrite List.filter_app, length_app. simpl. destruct (is_reserve l); simpl; lia. }
  assert (Hok : seqs_ok (reservations ls) s) by (apply seqs_reach; [done|destruct (is_reserve l); simpl in *; lia]).
  pose proof (sq_bound _ _ Hok) as Hb. pose proof (inv_reach ls s Hr) as Hinv.
  assert (Hq : 0 <= g_ctl_seq s) by lia.
  assert (Hsame : g_ctl_seq s' = g_ctl_seq s -> c_sent s' = c_sent s -> c_calls s' = c_calls s -> paired s').
  { intros E1 E2 E3. apply (paired_frame s); auto. rewrite E3. intros t r Ht. right. eauto using same_call_refl. }
  destruct l as [a b e| | u| |m|t ty pid arg cap|t|t e|t|t e|t|t]; simpl in Hs.
  - destruct (g_ctl_lock s); [done|]. simplify_eq. apply Hsame; unfold procfs_ctl_register; by case_match.
  - simplify_eq. by apply Hsame.
  - destruct (g_ctl_lock s); [|done]. simplify_eq. by apply Hsame.
  - destruct (g_ctl_lock s); [|done]. simplify_eq. by eapply (paired_wake s).
  - destruct (g_ctl_lock s); [|done]. simplify_eq. unfold procfs_ctl_send in *. cbv zeta in *.
    destruct (_ && _)%bool; [|by apply Hsame]. destruct (find_slot _ 0 _) as [i|]; [|by apply Hsame].
    destruct (g_ctl_slots s !! i) as [x|]; [|by apply Hsame]. by eapply (paired_wake s).
  - destruct (c_calls s !! t) eqn:Ht; [done|]. simplify_eq. apply (paired_frame s); auto.
    cbn [set_call with_calls c_calls]. intros t' x [[<- <-]|[_ Hx]]%lookup_insert_Some; [by left|].
    right. eauto using same_call_refl.
  - destruct (c_calls s !! t) as [r|] eqn:Ht; [|done]. simpl in Hs. destruct (rq_pc r) eqn:Hpc; try done.
    destruct (g_ctl_lock s); [|done]. simplify_eq. apply paired_reserve; auto. simpl in Hres. lia.
  - destruct (c_calls s !! t) as [r|] eqn:Ht; [|done]. simpl in Hs. destruct (rq_pc r) as [|i u| | | |] eqn:Hpc; try done.
    simplify_eq. apply paired_enqueue; auto; [simpl in *; lia|].
    destruct (i_calls _ _ Hinv t r Ht) as [Hsl _]. rewrite Hpc in Hsl. destruct (Hsl i eq_refl) as (x & Hx & Hu & Esq & _).
    rewrite <- Esq. by apply (sq_slots _ _ Hok i x).
  - destruct (c_calls s !! t) as [r|] eqn:Ht; [|done]. simpl in Hs. destruct (rq_pc r) as [| |i| | |] eqn:Hpc; try done.
    destruct (g_ctl_lock s); [|done]. unfold request_wait in Hs. destruct (g_ctl_slots s !! i); [|done]. simpl in Hs.
    repeat case_match; simplify_eq; (eapply (paired_call s _ t r); eauto; by apply same_call_pc).
  - destruct (c_calls s !! t) as [r|] eqn:Ht; [|done]. simpl in Hs. destruct (rq_pc r) as [| | |i w| |] eqn:Hpc; try done.
    case_match; [done|]. destruct (g_ctl_lock s); [|done]. unfold request_wait in Hs.
    destruct (g_ctl_slots s !! i); [|done]. simpl in Hs.
    repeat case_match; simplify_eq; (eapply (paired_call s _ t r); eauto; by apply same_call_pc).
  - destruct (c_calls s !! t) as [r|] eqn:Ht; [|done]. simpl in Hs. destruct (rq_pc r) as [| | | |i e out|] eqn:Hpc; try done.
    destruct (g_ctl_lock s); [|done]. unfold request_release in Hs. destruct (g_ctl_slots s !! i) as [x|] eqn:Hx; [|done].
    simplify_eq/=. eapply (paired_call s _ t r); eauto. by apply same_call_pc.
  - destruct (c_calls s !! t) as [r|] eqn:Ht; [|done]. simpl in Hs. destruct (rq_pc r) eqn:Hpc; try done.
    simplify_eq. apply (paired_frame s); auto. cbn [with_calls c_calls].
    intros t' x [_ Hx]%lookup_delete_Some. right. eauto using same_call_refl.
Qed.

Lemma paired_dreach ls s : dreach ls s -> reservations ls < 4294967295 -> paired s.
Proof.
  induction 1 as [|ls l s s' Hr IH Hd Hs]; intros Hn.
  - split.
    + by intros u m ?%not_elem_of_nil.
    + by intros t r ?%boot_calls.
    + by intros t t' r r' ?%boot_calls.
    + by intros t r u m ?%boot_calls.
  - eapply paired_step; eauto using dreach_reach. apply IH.
    unfold reservations in *. rewrite List.filter_app, length_app in Hn. lia.
Qed.

(** Messages are never taken back. *)
Lemma sent_step l s s' x : step l s = Some s' -> x ∈ c_sent s -> x ∈ c_sent s'.
Proof.
  intros Hs Hx. destruct l as [a b e| | u| |m|t ty pid arg cap|t|t e|t|t e|t|t]; simpl in Hs;
    try (destruct (c_calls s !! t) as [r|]; [|done]; simpl in Hs; destruct (rq_pc r); try done);
    repeat (case_match; try done); simplify_eq; try done;
    try (unfold request_wait, request_release in Hs; destruct (g_ctl_slots s !! _); [|done]; simpl in Hs; repeat case_match; by simplify_eq);
    unfold procfs_ctl_register, procfs_ctl_send, request_reserve, request_enqueue; cbv zeta; repeat case_match; try done.
  simpl. apply elem_of_app. by left.
Qed.

Lemma replies_answer ls s k m :
  dreach ls s -> ls !! k = Some (LReply m) -> exists u q, (u, q) ∈ c_sent s
    ∧ procfsd_turn regs_flavor regs_count (world k) (Recv (req_bytes q)) = Send m.
Proof.
  induction 1 as [|ls l s s' Hr IH Hd Hs]; [done|]. intros [Hk|[E Hk]]%lookup_app_Some.
  - destruct (IH Hk) as (u & q & Hq & H). exists u, q. split; [by eapply sent_step|done].
  - apply list_lookup_singleton_Some in Hk as [Hz ->]. assert (k = length ls) as -> by lia.
    destruct Hd as (u & q & Hq & H). exists u, q. split; [by eapply sent_step|done].
Qed.

(** The daemon answers a message of the kext with a complete reply to its number. *)
Lemma turn_reply sv q m :
  services_ok sv -> req_typed q -> procfsd_turn regs_flavor regs_count sv (Recv (req_bytes q)) = Send m ->
  let a := daemon_answer regs_flavor regs_count sv q in
  parse_resp m = CtlResp PROCFS_CTL_MAGIC (req_seq q) a.1 (Z.of_nat (length a.2))
  ∧ drop sizeof_resp m = a.2 ∧ length m = (sizeof_resp + length a.2)%nat.
Proof.
  intros Hsv Hq. unfold procfsd_turn. rewrite take_ge, req_bytes_length, parse_req_bytes by (rewrite ?req_bytes_length; unfold sizeof_req; (done || lia)).
  change ((sizeof_req <? sizeof_req)%nat) with false. cbv iota. case_match; [done|].
  pose proof (daemon_answer_ok regs_flavor regs_count sv q Hsv) as [Ha Hl].
  destruct (daemon_answer _ _ sv q) as [e p]. intros [= <-]. cbn [fst snd] in *.
  apply parse_reply; [apply (rt_seq q Hq)|unfold INT_MIN, INT_MAX; lia|lia].
Qed.

(** What the caller gets of a payload that is complete in the slot. *)
Lemma payload_room (p b m : list Byte.byte) cap :
  (length p <= 2048)%nat -> drop sizeof_resp m = p -> length m = (sizeof_resp + length p)%nat ->
  (Z.of_nat sizeof_resp + Z.min (Z.of_nat (length p)) PROCFS_CTL_MAXPAYLOAD <= Z.of_nat (length m) ->
   take (Z.to_nat (Z.min (Z.of_nat (length p)) PROCFS_CTL_MAXPAYLOAD)) b
   = take (Z.to_nat (Z.min (Z.of_nat (length p)) PROCFS_CTL_MAXPAYLOAD)) (drop sizeof_resp m)) ->
  take (Z.to_nat (Z.min cap (Z.min (Z.of_nat (length p)) PROCFS_CTL_MAXPAYLOAD))) b = take (Z.to_nat cap) p.
Proof.
  intros Hlen Ed El Hb.
  assert (En : Z.min (Z.of_nat (length p)) PROCFS_CTL_MAXPAYLOAD = Z.of_nat (length p)) by (unfold PROCFS_CTL_MAXPAYLOAD; lia).
  rewrite En in *. specialize (Hb ltac:(lia)). rewrite Nat2Z.id, Ed, (take_ge p) in Hb by lia.
  destruct (Z.le_ge_cases cap (Z.of_nat (length p))) as [Hc|Hc].
  - rewrite Z.min_l by done. rewrite <- Hb, take_take. f_equal. lia.
  - rewrite Z.min_r, Nat2Z.id, Hb by done. by rewrite take_ge by lia.
Qed.

(** C7. The bridge from end to end: with procfsd as the only client of the control, and
    with fewer than 2^32 - 1 requests since the start, a request that returns success returns
    the reply of a turn that the daemon made after the request was begun, for the message of
    this very request (its number, type, process and argument), with what the services
    answered at that moment; complete up to the room of the caller, whatever other requests,
    replies, time-outs and reconnections happened in between. *)
Theorem daemon_answers_own_request ls s t r out :
  (forall n, services_ok (world n)) ->
  dreach ls s -> reservations ls < 4294967295 -> c_calls s !! t = Some r -> rq_pc r = Returned 0 out ->
  exists l1 m l2 payload, ls = l1 ++ LReply m :: l2 ∧ LReserve t ∈ l1 ∧ (LReserve t ∉ l2)
    ∧ procfsd_turn regs_flavor regs_count (world (length l1)) (Recv (req_bytes (req_of r))) = Send m
    ∧ daemon_answer regs_flavor regs_count (world (length l1)) (req_of r) = (0, payload)
    ∧ (length payload <= 2048)%nat ∧ out = Some (take (Z.to_nat (rq_outcap r)) payload).
Proof.
  intros Hworld Hr Hn Ht Hpc. pose proof (paired_dreach ls s Hr Hn) as Hp.
  destruct (i_calls _ _ (inv_reach ls s (dreach_reach ls s Hr)) t r Ht) as [_ Hres]. unfold result_ok in Hres.
  rewrite Hpc in Hres. destruct out as [o|]; [|done].
  destruct Hres as (_ & n & b & (l0 & l2 & m & Els & Hlast & Hm & Hans) & ->).
  apply list_elem_of_split in Hm as (l3 & l4 & ->).
  set (l1 := l0 ++ LReserve t :: l3). assert (Els' : ls = l1 ++ LReply m :: l4) by (subst l1; rewrite <- app_assoc; exact Els).
  destruct (replies_answer ls s (length l1) m Hr) as (u & q & Hq & Hturn); [rewrite Els'; by apply list_lookup_middle|].
  destruct Hans as (_ & Hseq & Herr & -> & Hb). pose proof (Hworld (length l1)) as Hsv.
  destruct (pd_sent s Hp u q Hq) as [_ Hty]. destruct (turn_reply (world (length l1)) q m Hsv Hty Hturn) as (Ep & Ed & El).
  rewrite Ep in *. cbn [resp_seq resp_error resp_len] in *.
  destruct (pd_match s Hp t r u q Ht Hq Hseq) as [_ ->].
  pose proof (daemon_answer_ok regs_flavor regs_count (world (length l1)) (req_of r) Hsv) as [_ Hlen].
  destruct (daemon_answer _ _ (world (length l1)) (req_of r)) as [e p] eqn:Ea. cbn [fst snd] in *. subst e.
  exists l1, m, l4, p. split; [exact Els'|]. split; [subst l1; apply elem_of_app; right; apply list_elem_of_here|].
  split; [intros Hx; apply Hlast, elem_of_app; right; by apply list_elem_of_further|].
  split; [done|]. split; [done|]. split; [done|]. f_equal. by eapply payload_room.
Qed.

End System.

(** ** A session *)

Definition quiet (l : label) : Prop :=
  match l with LReply _ => False | LRequest _ ty pid arg _ => args_typed ty pid arg | _ => True end.

Lemma dreach_run fl cnt world ls ls1 s s' :
  dreach fl cnt world ls s -> Forall quiet ls1 -> run ls1 s = Some s' -> dreach fl cnt world (ls ++ ls1) s'.
Proof.
  intros Hr Hq. revert ls s Hr. induction Hq as [|l ls1 Hl Hq IH]; intros ls s Hr Hrun; cbn [run] in Hrun.
  - simplify_eq. by rewrite app_nil_r.
  - destruct (step l s) as [s1|] eqn:E; [|done]. change (l :: ls1) with ([l] ++ ls1). rewrite app_assoc.
    eapply IH; [|done]. econstructor; [done| |done]. by destruct l.
Qed.

Definition idle_services : services :=
  Services (λ _ _ _ n, (Z.of_nat n, replicate n Byte.xaa, 0)) None [0; 0; 0] (λ _, None) (λ _, None) (λ _ _ _, None).

Lemma idle_services_ok : services_ok idle_services.
Proof. split; [intros ? ? ? ? ? ? ? [= <- <- <-]; split; [intros _; apply length_replicate|lia]|done..]. Qed.

Definition session_reply : list Byte.byte :=
  match procfsd_turn (λ _, 6) (λ _, 68%nat) idle_services (Recv (req_bytes (CtlReq PROCFS_CTL_MAGIC 1 1 501 0))) with
  | Send m => m | _ => [] end.
Definition session : list label := [LRegister true true 0; LConnect 1] ++ call_steps 7 session_reply.

Lemma session_dreach : dreach (λ _, 6) (λ _, 68%nat) (λ _, idle_services) session (after session).
Proof.
  assert (H1 : dreach (λ _, 6) (λ _, 68%nat) (λ _, idle_services) (take 6 session) (after (take 6 session))).
  { apply (dreach_run _ _ _ [] _ ctl_boot); [constructor| |by vm_compute]. repeat constructor; by vm_compute. }
  assert (H2 : dreach (λ _, 6) (λ _, 68%nat) (λ _, idle_services) (take 7 session) (after (take 7 session))).
  { change (take 7 session) with (take 6 session ++ [LReply session_reply]). econstructor; [exact H1| |by vm_compute].
    exists 1, (CtlReq PROCFS_CTL_MAGIC 1 1 501 0). split; [vm_compute; constructor|by vm_compute]. }
  apply (dreach_run _ _ _ (take 7 session) (drop 7 session) _ _ H2); [repeat constructor|by vm_compute].
Qed.

Lemma daemon_answers_own_request_witness :
  exists payload, daemon_answer (λ _, 6) (λ _, 68%nat) idle_services (CtlReq PROCFS_CTL_MAGIC 1 1 501 0) = (0, payload)
    ∧ Some (replicate 96 Byte.xaa) = Some (take 96 payload).
Proof.
  destruct (daemon_answers_own_request (λ _, 6) (λ _, 68%nat) (λ _, idle_services) session (after session) 7%N
    (Request 1 501 0 96 1 (Returned 0 (Some (replicate 96 Byte.xaa)))) (Some (replicate 96 Byte.xaa)))
    as (l1 & m & l2 & payload & _ & _ & _ & _ & Ha & _ & Ho).
  - intros _. exact idle_services_ok.
  - exact session_dreach.
  - by vm_compute.
  - by vm_compute.
  - done.
  - exists payload. split; [exact Ha|exact Ho].
Defined.
