(* ===== verification/Boot.v ===== *)
(** * Starting and mounting (tools/procfsd.c, fs/mount_procfs.c)

    What the user-space programs do before and beside the service of requests (module
    Daemon): procfsd stages the symbols and loads the kext, keeps the file system mounted,
    and holds the control socket; mount_procfs mounts on request. *)

From S2P Require Import Prelude Kernel Structure Subr Vfsops Daemon.

#[local] Open Scope string_scope.

(** ** Bootstrap *)

Definition PROCFS_KEXT_PATH : string := "/Library/Extensions/procfs.kext".
Definition PROCFS_STAGER : string := "/usr/local/sbin/procfs_ksyms".
Definition KMUTIL : string := "/usr/bin/kmutil".
Definition STAGER_NAME : string := "procfs_ksyms".

Definition slash : ascii := "/".

Fixpoint has_slash (s : string) : bool :=
  match s with EmptyString => false | String c s' => bool_decide (c = slash) || has_slash s' end.

(** [strrchr(s, '/') + 1], or the whole string. *)
Fixpoint last_component (s : string) : string :=
  match s with
  | EmptyString => EmptyString
  | String c s' => if has_slash s' then last_component s' else if bool_decide (c = slash) then s' else s
  end.

(** The name procfsd is invoked under. *)
Definition invoked_name (argv : list string) : string :=
  match argv with argv0 :: _ => last_component argv0 | [] => "" end.

(** What is installed at a path: procfsd, or a program that ends. *)
Inductive program : Set := Procfsd | OtherProgram.

(** [Ended]: the program has come to its end; [Serving]: it has reached the state in which it
    serves the kext; [Waiting]: it waits for a program it has spawned. *)
Inductive outcome : Set := Ended (code : Z) | Serving | Waiting.

Section Bootstrap.
Variable installed : string -> option program.
Variable executable : string -> bool.    (** access(path, X_OK) *)
Variable armed : bool.                   (** PROCFS_ARM_FLAG exists *)

Section Spawn.
(** Runs a program: its outcome and the processes spawned, by their arguments. *)
Variable exec : string -> list string -> option (outcome * list (list string)).

(** posix_spawn and waitpid; the result says whether the wait came to an end. *)
Definition run_to_completion (path : string) (argv : list string) : option (bool * list (list string)) :=
  match installed path with
  | None => Some (true, [])
  | Some _ =>
    '(o, spawned) ← exec path argv;
    Some (match o with Ended _ => true | _ => false end, argv :: spawned)
  end.

Definition procfsd_bootstrap : option (bool * list (list string)) :=
  '(ended, l1) ← (if executable PROCFS_STAGER then run_to_completion PROCFS_STAGER [PROCFS_STAGER] else Some (true, []));
  if negb ended then Some (false, l1) else
  '(ended, l2) ← (if armed then run_to_completion KMUTIL [KMUTIL; "load"; "-p"; PROCFS_KEXT_PATH] else Some (true, []));
  Some (ended, l1 ++ l2)%list.

(** main, up to the service loop. *)
Definition procfsd_start (argv : list string) : option (outcome * list (list string)) :=
  if String.eqb (invoked_name argv) STAGER_NAME then Some (Ended 2, [])
  else '(ended, l) ← procfsd_bootstrap; Some (if ended : bool then Serving else Waiting, l).
End Spawn.

(** Running a program, with fuel for the depth of processes that spawn processes. *)
Fixpoint run_program (fuel : nat) (path : string) (argv : list string) : option (outcome * list (list string)) :=
  match fuel with
  | O => None
  | S fuel' =>
    match installed path with
    | Some Procfsd => procfsd_start (run_program fuel') argv
    | _ => Some (Ended 0, [])
    end
  end.

(** C24. The bootstrap ends whatever is installed under the name of the symbol stager, procfsd
    itself included: at most two processes are spawned, and procfsd comes to serve
    requests; started under the stager's name it spawns nothing and exits with 2.  The
    system's kmutil is not procfsd. *)
Theorem bootstrap_terminates path argv fuel :
  installed path = Some Procfsd -> installed KMUTIL ≠ Some Procfsd -> (2 <= fuel)%nat ->
  exists o spawned, run_program fuel path argv = Some (o, spawned) ∧ (length spawned <= 2)%nat
    ∧ if String.eqb (invoked_name argv) STAGER_NAME then o = Ended 2 ∧ spawned = [] else o = Serving.
Proof.
  intros Hp Hk Hf. destruct fuel as [|[|fuel]]; [lia..|].
  cbn [run_program]. rewrite Hp. unfold procfsd_start at 1.
  destruct (String.eqb (invoked_name argv) STAGER_NAME) eqn:Hn; [eexists _, _; split; [done|]; split; [simpl; lia|done]|].
  assert (Hstage : exists l1, (if executable PROCFS_STAGER then run_to_completion (run_program (S fuel)) PROCFS_STAGER [PROCFS_STAGER]
      else Some (true, [])) = Some (true, l1) ∧ (length l1 <= 1)%nat).
  { destruct (executable PROCFS_STAGER); [|eexists; split; [done|simpl; lia]]. unfold run_to_completion. cbn [run_program].
    destruct (installed PROCFS_STAGER) as [[|]|]; [|eexists; split; [done|simpl; lia]..].
    unfold procfsd_start at 1. replace (String.eqb (invoked_name [PROCFS_STAGER]) STAGER_NAME) with true by reflexivity.
    eexists. split; [done|simpl; lia]. }
  assert (Hload : exists l2, (if armed then run_to_completion (run_program (S fuel)) KMUTIL [KMUTIL; "load"; "-p"; PROCFS_KEXT_PATH]
      else Some (true, [])) = Some (true, l2) ∧ (length l2 <= 1)%nat).
  { destruct armed; [|eexists; split; [done|simpl; lia]]. unfold run_to_completion. cbn [run_program].
    destruct (installed KMUTIL) as [[|]|]; [done|eexists; split; [done|simpl; lia]..]. }
  destruct Hstage as (l1 & E1 & H1), Hload as (l2 & E2 & H2).
  unfold procfsd_bootstrap. cbn [run_program] in E1, E2 |- *. rewrite E1. bind_some. rewrite E2. bind_some.
  eexists _, _. split; [done|]. rewrite length_app. split; [lia|done].
Qed.
End Bootstrap.

(** A stager that is a copy of procfsd: the copy is started once and refuses. *)
Lemma bootstrap_terminates_witness :
  exists o spawned,
    run_program (λ p, if String.eqb p KMUTIL then Some OtherProgram else Some Procfsd) (λ _, true) true 2
      "/usr/local/sbin/procfsd" ["/usr/local/sbin/procfsd"] = Some (o, spawned)
    ∧ o = Serving ∧ spawned = [[PROCFS_STAGER]; [KMUTIL; "load"; "-p"; PROCFS_KEXT_PATH]].
Proof.
  destruct (bootstrap_terminates (λ p, if String.eqb p KMUTIL then Some OtherProgram else Some Procfsd) (λ _, true) true
    "/usr/local/sbin/procfsd" ["/usr/local/sbin/procfsd"] 2 eq_refl ltac:(done) ltac:(lia)) as (o & l & E & _ & Ho).
  exists o, l. split; [exact E|]. split; [exact Ho|]. vm_compute in E. by injection E as <- <-.
Defined.

(** ** The mount thread *)

Definition PROCFS_MOUNTPOINT : string := "/proc".
Definition FSTYPE : string := "procfs".

(** What a pass sees and what the kernel answers to its mount call. *)
Record tick_env := TickEnv {
  tk_armed : bool;
  tk_is_dir : bool;        (** stat(2) finds a directory at /proc *)
  tk_statfs_ok : bool;
  tk_mount_ok : bool;
}.

(** The file systems mounted on /proc, the one in sight first, by their types; below them is
    the root file system. *)
Definition mounts : Type := list string.

Definition f_fstypename (ms : mounts) : string := match ms with t :: _ => t | [] => "apfs" end.

(** The new mounts, and whether mount(2) was called. *)
Definition procfsd_try_mount (e : tick_env) (ms : mounts) : mounts * bool :=
  if negb (tk_armed e) then (ms, false)
  else if negb (tk_is_dir e) then (ms, false)
  else if tk_statfs_ok e && String.eqb (f_fstypename ms) FSTYPE then (ms, false)
  else if tk_mount_ok e then (FSTYPE :: ms, true)
  else (ms, true).

(** Passes of the thread, between which the file system in sight may be unmounted. *)
Inductive mount_event : Set := Tick (e : tick_env) | Unmount.

Definition mount_step (ev : mount_event) (ms : mounts) : mounts :=
  match ev with Tick e => (procfsd_try_mount e ms).1 | Unmount => tail ms end.
Definition mount_run (evs : list mount_event) (ms : mounts) : mounts := fold_left (λ ms ev, mount_step ev ms) evs ms.

(** statfs(2) does not fail while a pass runs. *)
Definition statfs_works (ev : mount_event) : Prop := match ev with Tick e => tk_statfs_ok e = true | Unmount => True end.

Definition proc_mounts (ms : mounts) : list string := filter (λ t, t = FSTYPE) ms.

Lemma mount_run_inv evs : forall ms,
  Forall statfs_works evs -> (ms = [] ∨ ms = [FSTYPE]) -> mount_run evs ms = [] ∨ mount_run evs ms = [FSTYPE].
Proof.
  induction evs as [|ev evs IH]; intros ms Hs Hms; [done|]. inversion_clear Hs as [|? ? Hev Hevs].
  apply (IH (mount_step ev ms)); [done|]. destruct ev as [e|]; simpl.
  - unfold procfsd_try_mount. simpl in Hev. rewrite Hev. destruct Hms as [->| ->]; cbn [f_fstypename andb]; repeat case_match; auto; done.
  - destruct Hms as [->| ->]; auto.
Qed.

(** However often the thread runs, and whatever is unmounted in between, procfs is mounted
    on /proc at most once; and when the machine is armed, /proc is a directory and the
    kernel accepts the mount, one pass mounts it, and the next passes do nothing. *)
Theorem mount_thread_once evs e :
  Forall statfs_works evs ->
  let ms := mount_run evs [] in
  (length ms <= 1)%nat
  ∧ (tk_armed e = true -> tk_is_dir e = true -> tk_statfs_ok e = true -> tk_mount_ok e = true ->
     (procfsd_try_mount e ms).1 = [FSTYPE] ∧ forall e', tk_statfs_ok e' = true -> procfsd_try_mount e' [FSTYPE] = ([FSTYPE], false)).
Proof.
  intros Hs ms. destruct (mount_run_inv evs [] Hs (or_introl eq_refl)) as [E|E]; fold ms in E; rewrite E.
  all: split; [simpl; lia|]; intros Ha Hd Hf Hm; split; [by unfold procfsd_try_mount; rewrite Ha, Hd, Hf, ?Hm|].
  all: intros e' He'; unfold procfsd_try_mount; rewrite He'; by destruct (tk_armed e'), (tk_is_dir e').
Qed.

(** While statfs fails the thread mounts again on top of what it has mounted. *)
Example mount_thread_stacks :
  let e := TickEnv true true false true in mount_run [Tick e; Tick e; Tick e] [] = [FSTYPE; FSTYPE; FSTYPE].
Proof. reflexivity. Qed.

(** ** The control socket *)

(** What the calls of connect_ctl return. *)
Record connect_env := ConnectEnv { ce_socket : option N; ce_ioctl_ok : bool; ce_connect_ok : bool }.

(** The connected socket, and the sockets that are open. *)
Definition connect_ctl (e : connect_env) (open : gset N) : option N * gset N :=
  match ce_socket e with
  | None => (None, open)
  | Some fd =>
    let open := {[fd]} ∪ open in
    if negb (ce_ioctl_ok e) then (None, open ∖ {[fd]})
    else if negb (ce_connect_ok e) then (None, open ∖ {[fd]})
    else (Some fd, open)
  end.

(** Attempts, one second apart, until one succeeds; [None] when all those given fail. *)
Fixpoint wait_connect (es : list connect_env) (open : gset N) : option (N * list connect_env * gset N) :=
  match es with
  | [] => None
  | e :: es' =>
    match connect_ctl e open with
    | (Some fd, open') => Some (fd, es', open')
    | (None, open') => wait_connect es' open'
    end
  end.

Section Serve.
Context (regs_flavor : Z -> Z) (regs_count : Z -> nat) (sv : services).

(** The loop of main over what recv returns: the socket in use, the sockets that are open and
    the replies sent.  It stops when a connection cannot be had again. *)
Fixpoint serve (rs : list received) (es : list connect_env) (fd : N) (open : gset N) : option (N * gset N * list (list Byte.byte)) :=
  match rs with
  | [] => Some (fd, open, [])
  | r :: rs' =>
    match procfsd_turn regs_flavor regs_count sv r with
    | Again => serve rs' es fd open
    | Reconnect => '(fd', es', open') ← wait_connect es (open ∖ {[fd]}); serve rs' es' fd' open'
    | Send m => '(fd', open', ms) ← serve rs' es fd open; Some (fd', open', m :: ms)
    end
  end.
End Serve.

Definition connects (e : connect_env) : bool :=
  bool_decide (is_Some (ce_socket e)) && ce_ioctl_ok e && ce_connect_ok e.

Lemma connect_ctl_clean e : 
  (connects e = false -> connect_ctl e ∅ = (None, ∅))
  ∧ (connects e = true -> exists fd, connect_ctl e ∅ = (Some fd, {[fd]})).
Proof.
  assert (E : forall fd : N, ({[fd]} ∪ ∅) ∖ {[fd]} = (∅ : gset N)) by (intros; set_solver).
  unfold connects, connect_ctl. destruct (ce_socket e) as [fd|]; [|split; [done|by rewrite bool_decide_eq_false_2 by (by intros [])]].
  rewrite bool_decide_eq_true_2 by by eexists. cbn [andb].
  destruct (ce_ioctl_ok e), (ce_connect_ok e); cbn [negb andb]; rewrite ?E; (split; [done|]); try done.
  intros _. exists fd. f_equal. set_solver.
Qed.

Lemma wait_connect_spec es :
  match wait_connect es ∅ with
  | Some (fd, es', open) => open = {[fd]} ∧ exists bad e, es = (bad ++ e :: es')%list ∧ connects e = true ∧ Forall (λ e, connects e = false) bad
  | None => Forall (λ e, connects e = false) es
  end.
Proof.
  induction es as [|e es IH]; cbn [wait_connect]; [done|]. destruct (connect_ctl_clean e) as [Hno Hyes].
  destruct (connects e) eqn:Ec.
  - destruct (Hyes eq_refl) as (fd & ->). split; [done|]. by exists [], e.
  - rewrite Hno by done. destruct (wait_connect es ∅) as [[[fd es'] open]|].
    + destruct IH as (-> & bad & e' & -> & He & Hb). split; [done|]. exists (e :: bad), e'. split_and!; try done. by constructor.
    + by constructor.
Qed.

(** procfsd keeps one control socket: whatever recv returns and however often the
    connection is lost, the socket in use is open and no other is; and the replies sent are
    those to the requests received, in order. *)
Theorem daemon_one_socket flavor count sv rs es fd fd' open ms :
  serve flavor count sv rs es fd {[fd]} = Some (fd', open, ms) ->
  open = {[fd']} ∧ ms = omap (λ r, match procfsd_turn flavor count sv r with Send m => Some m | _ => None end) rs.
Proof.
  revert es fd ms. induction rs as [|r rs IH]; intros es fd ms; cbn [serve omap list_omap]; [by intros [= <- <- <-]|].
  destruct (procfsd_turn flavor count sv r) as [| |m] eqn:Et; cbn [omap list_omap].
  - intros H. apply IH in H. exact H.
  - replace ({[fd]} ∖ {[fd]}) with (∅ : gset N) by set_solver. pose proof (wait_connect_spec es) as Hw.
    destruct (wait_connect es ∅) as [[[fd1 es'] open']|]; [|done]. bind_some. destruct Hw as [-> _]. intros H. by apply IH in H.
  - destruct (serve flavor count sv rs es fd {[fd]}) as [[[fd1 open1] ms1]|] eqn:Es; [|done]. bind_some.
    intros [= <- <- <-]. destruct (IH es fd ms1 Es) as [-> ->]. done.
Qed.

Lemma daemon_one_socket_witness :
  exists ms, serve (λ _, 0) (λ _, 0%nat) (Services (λ _ _ _ n, (0, [], 0)) None [0; 0; 0] (λ _, None) (λ _, None) (λ _ _ _, None))
    [Recv []; RecvError false; RecvError true; Recv []] [ConnectEnv None true true; ConnectEnv (Some 4%N) false true; ConnectEnv (Some 4%N) true true]
    3%N {[3%N]} = Some (4%N, {[4%N]}, ms) ∧ ms = [].
Proof.
  assert (E : serve (λ _, 0) (λ _, 0%nat) (Services (λ _ _ _ n, (0, [], 0)) None [0; 0; 0] (λ _, None) (λ _, None) (λ _ _ _, None))
    [Recv []; RecvError false; RecvError true; Recv []] [ConnectEnv None true true; ConnectEnv (Some 4%N) false true; ConnectEnv (Some 4%N) true true]
    3%N {[3%N]} = Some (4%N, {[4%N]}, [])) by (vm_compute; reflexivity).
  exists []. split; [exact E|]. etrans; [exact (proj2 (daemon_one_socket _ _ _ _ _ _ _ _ _ E))|]. vm_compute. reflexivity.
Defined.

(** ** mount_procfs *)

(** An entry of the table for getmntopts(3): [m_altloc] says whether the flag belongs to the
    second word of flags, here the options of procfs. *)
Record mntopt := Mntopt { m_option : string; m_inverse : bool; m_flag : Z; m_altloc : Z }.

Definition MOPT_PROCFS : mntopt := Mntopt "procperms" true PROCFS_MOPT_NOPROCPERMS 0.

(** The call of mount(2). *)
Record mount_call := MountCall { mc_type : string; mc_dir : string; mc_flags : Z; mc_data : list Byte.byte }.

(** The page passed as data: the options, and zeros. *)
Definition mount_buffer (procfs_options : Z) : list Byte.byte := le_bytes 4 procfs_options ++ replicate 4092 Byte.x00.

(** copyin of a [pfsmount_args_t] by [procfs_mount]. *)
Definition copyin_args (data : list Byte.byte) : mount_data := Options (s32 (le_value (take 4 data))).

Section MountProcfs.
(** The standard options of the system's header, and the library function, from the option
    argument, the table and the two words of flags. *)
Variable MOPT_STDOPTS : list mntopt.
Variable getmntopts : string -> list mntopt -> Z -> Z -> Z * Z.

Definition mopts : list mntopt := (MOPT_STDOPTS ++ [MOPT_PROCFS])%list.

(** The loop over what getopt returns; [None]: usage, which exits. *)
Fixpoint options_loop (opts : list (ascii * string)) (generic procfs : Z) : option (Z * Z) :=
  match opts with
  | [] => Some (generic, procfs)
  | (option, optarg) :: opts' =>
    if bool_decide (option = "v"%char) then options_loop opts' generic procfs
    else if bool_decide (option = "o"%char) then
      let '(generic, procfs) := getmntopts optarg mopts generic procfs in options_loop opts' generic procfs
    else None
  end.

(** The exit code and the call made; [rest] are the arguments behind the options. *)
Definition mount_procfs (mount : mount_call -> Z) (opts : list (ascii * string)) (rest : list string) : Z * option mount_call :=
  match options_loop opts 0 0 with
  | None => (1, None)
  | Some (generic, procfs) =>
    match rest with
    | [_; mntdir] =>
      let call := MountCall FSTYPE mntdir generic (mount_buffer procfs) in
      (if (mount call =? 0)%Z then 0 else 1, Some call)
    | _ => (1, None)
    end
  end.

(** getmntopts(3): only options whose [m_altloc] is not zero change the second word; the
    standard options have none. *)
Hypothesis getmntopts_altloc : forall arg table flags altflags,
  Forall (λ o, m_altloc o = 0) table -> (getmntopts arg table flags altflags).2 = altflags.
Hypothesis stdopts_altloc : Forall (λ o, m_altloc o = 0) MOPT_STDOPTS.

Lemma options_loop_procfs opts : forall g p g' p', options_loop opts g p = Some (g', p') -> p' = p.
Proof.
  assert (Ht : Forall (λ o, m_altloc o = 0) mopts) by (apply Forall_app; split; [done|]; by repeat constructor).
  induction opts as [|[o arg] opts IH]; intros g p g' p'; cbn [options_loop]; [by intros [= _ <-]|].
  case_bool_decide; [apply IH|]. case_bool_decide; [|done]. pose proof (getmntopts_altloc arg mopts g p Ht) as Ha.
  destruct (getmntopts arg mopts g p) as [g1 p1]. simpl in Ha. subst p1. apply IH.
Qed.

(** The procperms and noprocperms options of mount_procfs have no effect on procfs: the
    entry of the table sends the flag to the generic word, so that whatever options are
    given, the file system is mounted with the access checks on. *)
Theorem noprocperms_ignored mount opts rest code call :
  mount_procfs mount opts rest = (code, Some call) ->
  mc_data call = mount_buffer 0
  ∧ forall num mp now osmalloc s s', vs_mounts s !! mp = None ->
      procfs_mount num mp (copyin_args (mc_data call)) now true osmalloc s = Some (0, s') ->
      exists m, vs_mounts s' !! mp = Some m ∧ procfs_should_access_check (mnt_private m) = true.
Proof.
  unfold mount_procfs. destruct (options_loop opts 0 0) as [[g p]|] eqn:E; [|done].
  apply options_loop_procfs in E. subst p. destruct rest as [|r0 [|dir [|r1 r2]]]; try done. intros [= _ <-]. split; [done|].
  intros num mp now osm s s' Hm. unfold procfs_mount. rewrite Hm. cbn [negb].
  destruct (procfs_structure_init osm (vs_structure s)) as [[[] st]|]; [|done]. intros [= <-]. cbn [vs_mounts].
  eexists. split; [apply lookup_insert_eq|]. reflexivity.
Qed.
End MountProcfs.

(** A library function for option arguments of one name: with or without "no" in front, it
    sets or clears the flag in the word the entry names. *)
Definition one_option (arg : string) (table : list mntopt) (flags altflags : Z) : Z * Z :=
  let negative := String.prefix "no" arg in
  let name := if negative then String.substring 2 (String.length arg - 2) arg else arg in
  match filter (λ o, m_option o = name) table with
  | o :: _ =>
    let upd f := if Bool.eqb negative (m_inverse o) then Z.lor f (m_flag o) else Z.land f (Z.lnot (m_flag o)) in
    if (m_altloc o =? 0)%Z then (upd flags, altflags) else (flags, upd altflags)
  | [] => (flags, altflags)
  end.

Lemma one_option_altloc arg table flags altflags :
  Forall (λ o, m_altloc o = 0) table -> (one_option arg table flags altflags).2 = altflags.
Proof.
  intros Ht. unfold one_option. destruct (filter _ table) as [|o l] eqn:E; [done|].
  assert (Ho : o ∈ table).
  { eapply list_elem_of_filter. rewrite E. by constructor. }
  rewrite (proj1 (Forall_forall _ _) Ht o Ho). done.
Qed.

Definition sample_stdopts : list mntopt := [Mntopt "ro" false 1 0; Mntopt "exec" true 4 0].
Definition sample_mount (opts : list (ascii * string)) : Z * option mount_call :=
  mount_procfs sample_stdopts one_option (λ _, 0) opts ["procfs"; "/proc"].

(** What noprocperms does instead: its flag is MNT_RDONLY in the generic word. *)
Lemma noprocperms_ignored_witness :
  exists call, sample_mount [("o"%char, "noprocperms")] = (0, Some call) ∧ mc_flags call = 1 ∧ mc_data call = mount_buffer 0.
Proof.
  eexists. split; [reflexivity|]. split; [reflexivity|].
  apply (noprocperms_ignored sample_stdopts one_option one_option_altloc ltac:(repeat constructor) (λ _, 0)
    [("o"%char, "noprocperms")] ["procfs"; "/proc"] 0 _ eq_refl).
Defined.
