(* ===== verification/Fileio.v ===== *)
(** * Reading files inside the kernel (lib/libreadfile/fs.c, lib/libkext/libkext.c, lib/libklookup/klookup.c)

    Three functions read a file through the vnode interface.  Each takes a context, a
    vnode reference and a uio; the state monad [F] counts what is held, so that a theorem
    can say which of them gives everything back. *)

From S2P Require Import Prelude.

(** ** Resources *)

Record fstate := Fstate {
  f_tag : bool;       (** klookup's allocation tag exists *)
  f_mem : Z;          (** bytes allocated and not freed *)
  f_vnodes : Z;       (** vnode references *)
  f_uios : Z;
  f_ctxs : Z;
}.

Definition F (A : Type) : Type := fstate -> A * fstate.
#[export] Instance F_ret : MRet F := λ A a s, (a, s).
#[export] Instance F_bind : MBind F := λ A B f m s, let (a, s') := m s in f a s'.

Lemma F_bind_run {A B} (m : F A) (f : A -> F B) s : (m ≫= f) s = f (m s).1 (m s).2.
Proof. unfold mbind, F_bind. by destruct (m s). Qed.

Definition hold (mem vnodes uios ctxs : Z) : F unit := λ s,
  (tt, Fstate (f_tag s) (f_mem s + mem) (f_vnodes s + vnodes) (f_uios s + uios) (f_ctxs s + ctxs)).

(** What the kernel answers.  A file is what vnode_lookup finds; VNOP_READ returns an
    error and the bytes it stored, at most as many as the uio has room for. *)
Class FileOps := {
  vnode_t : Type;
  vnode_lookup : string -> Z + vnode_t;
  vnop_read : vnode_t -> Z -> nat -> Z * list Byte.byte;
  vnop_read_room vp off n : (length (vnop_read vp off n).2 <= n)%nat;
  vfs_context_ok : bool;
  uio_ok : bool;
  uio_addiov_error : Z;
}.

Section Fileio.
Context `{FileOps}.

Definition vfs_context_create : F bool :=
  if vfs_context_ok then _ ← hold 0 0 0 1; mret true else mret false.
(** Releasing a context that was not created does nothing. *)
Definition vfs_context_rele (c : bool) : F unit := if c then hold 0 0 0 (-1) else mret tt.
Definition uio_create : F bool := if uio_ok then _ ← hold 0 0 1 0; mret true else mret false.
Definition uio_free : F unit := hold 0 0 (-1) 0.
Definition vnode_get (path : string) : F (Z + vnode_t) :=
  match vnode_lookup path with
  | inl e => mret (inl e)
  | inr vp => _ ← hold 0 1 0 0; mret (inr vp)
  end.
Definition vnode_put : F unit := hold 0 (-1) 0 0.

(** kl_slurp: up to [cap] bytes of the file, with the error of the read. *)
Definition kl_slurp (path : string) (cap : nat) : F (Z * list Byte.byte) :=
  v ← vnode_get path;
  match v with
  | inl _ => mret (ENOENT, [])
  | inr vp =>
    u ← uio_create;
    if (u : bool) then _ ← uio_free; _ ← vnode_put; mret (vnop_read vp 0 cap)
    else _ ← vnode_put; mret (ENOMEM, [])
  end.

(** read_file: the whole range or an error. *)
Definition read_file (path : string) (offset : Z) (size : nat) : F (Z * list Byte.byte) :=
  c ← vfs_context_create;
  if negb c then mret (EIO, [])
  else
    v ← vnode_get path;
    match v with
    | inl _ => _ ← vfs_context_rele true; mret (ENOENT, [])
    | inr vp =>
      u ← uio_create;
      let r :=
        if u : bool then
          if negb (uio_addiov_error =? 0) then (EIO, [])
          else
            let (e, data) := vnop_read vp offset size in
            if negb (e =? 0) then (EIO, data)
            else if (length data <? size)%nat then (EIO, data) else (0, data)
        else (EIO, []) in
      _ ← vnode_put; _ ← vfs_context_rele true; mret r
    end.

(** libkext_file_read: the bytes read, [None] in place of [*read] when it is not set. *)
Definition libkext_file_read (path : string) (len : nat) (off : Z) : F (Z * option (list Byte.byte)) :=
  c ← vfs_context_create;
  if negb c then mret (ENOMEM, None)
  else
    u ← uio_create;
    r ← (if negb u then mret (ENOMEM, None)
         else
           r ← (if negb (uio_addiov_error =? 0) then mret (uio_addiov_error, None)
                else
                  v ← vnode_get path;
                  match v with
                  | inl e => mret (e, None)
                  | inr vp =>
                    let (e, data) := vnop_read vp off len in
                    _ ← vnode_put; mret (e, if e =? 0 then Some data else None)
                  end);
           _ ← uio_free; mret r);
    _ ← vfs_context_rele true; mret r.

(** ** What is held afterwards *)

Definition holds_same (s s' : fstate) : Prop :=
  f_mem s' = f_mem s ∧ f_vnodes s' = f_vnodes s ∧ f_uios s' = f_uios s ∧ f_ctxs s' = f_ctxs s.

Definition releases_all {A} (m : F A) : Prop := forall s, holds_same s (m s).2.

Ltac run_file :=
  intros s; unfold vfs_context_create, vnode_get, uio_create, uio_free, vnode_put, vfs_context_rele, hold, holds_same;
  repeat (rewrite F_bind_run || case_match || (progress cbn [fst snd f_mem f_vnodes f_uios f_ctxs f_tag negb mret F_ret]));
  simplify_eq/=; split_and!; lia.

Lemma kl_slurp_releases path cap : releases_all (kl_slurp path cap).
Proof. unfold kl_slurp. run_file. Qed.

(** libkext_file_read and klookup's reader give back what they took on every path; the
    reader of libreadfile does so except for the uio, which it never frees: a call that
    got one leaves it allocated, whether it succeeds or not. *)
Theorem file_readers_release path off n :
  releases_all (libkext_file_read path n off) ∧ releases_all (kl_slurp path n)
  ∧ forall s, let s' := (read_file path off n s).2 in
      f_mem s' = f_mem s ∧ f_vnodes s' = f_vnodes s ∧ f_ctxs s' = f_ctxs s
      ∧ (f_uios s' = f_uios s + 1 <-> vfs_context_ok = true ∧ uio_ok = true ∧ exists vp, vnode_lookup path = inr vp).
Proof.
  split; [|split; [apply kl_slurp_releases|]].
  - unfold libkext_file_read. run_file.
  - unfold read_file, vfs_context_create, vnode_get, uio_create, vnode_put, vfs_context_rele, hold. intros s.
    destruct vfs_context_ok, (vnode_lookup path) as [e|vp], uio_ok;
      repeat (rewrite F_bind_run; cbn [fst snd f_mem f_vnodes f_uios f_ctxs f_tag negb mret F_ret]);
      cbn [fst snd f_mem f_vnodes f_uios f_ctxs f_tag mret F_ret]; split_and!; try lia;
      (split; [intros; first [lia|eauto]|intros (? & ? & ? & ?); (done || lia)]).
Qed.

(** A successful read_file returns the whole range, and the range only. *)
Lemma read_file_whole path off n s data :
  (read_file path off n s).1 = (0, data) -> length data = n.
Proof.
  unfold read_file. rewrite F_bind_run. destruct (vfs_context_create s).1; simpl; [|done].
  rewrite F_bind_run. case_match; rewrite !F_bind_run; simpl; [done|].
  destruct (uio_create _).1; [|done]. case_match; [done|].
  pose proof (vnop_read_room v off n). destruct (vnop_read v off n) as [e d]. case_match; [done|].
  destruct (Nat.ltb_spec (length d) n); [done|]. intros [= <-]. simpl in *. lia.
Qed.

End Fileio.
