(* ===== verification/Ksyms.v ===== *)
(** * Private kernel symbols (tools/procfs_ksyms.c, lib/libklookup/klookup.c, kext/lib/symbols.c)

    A user-space tool reads the symbol table of the kernel file, checks that it is the
    running build and writes the addresses the kext wants to a text file.  When the kext
    is loaded, klookup reads the file, finds how far the running kernel was moved by
    comparing one symbol, checks a second one and returns the moved addresses.  The main
    theorem is about both ends: what the tool stages for the running kernel is what the
    kext resolves, and the file of another kernel resolves nothing. *)

From S2P Require Import Prelude Fileio.

(** ** The reader: klookup.c *)

Definition KL_STAGED_PATH : string := "/var/db/procfs.ksyms".
Definition KL_MAX : Z := 8192.

Definition hexval (c : Byte.byte) : option Z :=
  let n := Z.of_N (Byte.to_N c) in
  if (48 <=? n) && (n <=? 57) then Some (n - 48)
  else if (97 <=? n) && (n <=? 102) then Some (n - 97 + 10)
  else if (65 <=? n) && (n <=? 70) then Some (n - 65 + 10)
  else None.

Fixpoint hex_loop (v : Z) (h : list Byte.byte) : Z :=
  match h with
  | [] => v
  | c :: h' =>
    match hexval c with
    | Some d => hex_loop (Z.lor (u64 (Z.shiftl v 4)) d) h'
    | None => v
    end
  end.

Definition skip_0x (h : list Byte.byte) : list Byte.byte :=
  match h with
  | a :: b :: h' =>
    if bool_decide (a = Byte.x30) && (bool_decide (b = Byte.x78) || bool_decide (b = Byte.x58)) then h' else h
  | _ => h
  end.

(** The value on a line that starts with the name and a space. *)
Definition symbol_value (name line : list Byte.byte) : option Z :=
  let nl := length name in
  if (nl + 1 <? length line)%nat && bool_decide (take nl line = name) && bool_decide (line !! nl = Some Byte.x20)
  then Some (hex_loop 0 (skip_0x (drop (S nl) line))) else None.

(** The length of the line at [p]: up to the newline, or to the end. *)
Fixpoint line_end (p : list Byte.byte) : nat :=
  match p with
  | [] => 0
  | c :: p' => if bool_decide (c = Byte.x0a) then 0 else S (line_end p')
  end.

Fixpoint kl_loop (fuel : nat) (p name : list Byte.byte) : Z :=
  match fuel, p with
  | O, _ | _, [] => 0
  | S fuel', _ =>
    let n := line_end p in
    match symbol_value name (take n p) with
    | Some v => v
    | None => kl_loop fuel' (drop (S n) p) name
    end
  end.

(** Every pass moves at least one byte on. *)
Definition kl_line_value (buf name : list Byte.byte) : Z := kl_loop (length buf) buf name.

Section Klookup.
Context `{FileOps}.

(** Runtime addresses of [version] and [kernel_pmap], and what the allocator answers. *)
Variables (version kernel_pmap : Z) (tag_ok malloc_ok : bool).

Definition slide_of (version_raw : Z) : Z := s64 (version - version_raw).
Definition runtime (slide raw : Z) : Z := u64 (raw + slide).

(** The addresses for a file that was read: 0 is NULL. *)
Definition resolve_in (buf : list Byte.byte) (names : list string) : Z * list Z :=
  let null := map (λ _, 0) names in
  let version_raw := kl_line_value buf (bytes_of_string "_version") in
  let kpmap_raw := kl_line_value buf (bytes_of_string "_kernel_pmap") in
  if version_raw =? 0 then (0, null)
  else
    let slide := slide_of version_raw in
    if negb (kpmap_raw =? 0) && negb (runtime slide kpmap_raw =? kernel_pmap) then (0, null)
    else
      let raws := map (λ n, kl_line_value buf (bytes_of_string n)) names in
      (Z.of_nat (length (filter (λ r, r ≠ 0) raws)), map (λ r, if r =? 0 then 0 else runtime slide r) raws).

(** The allocation tag is made by the first call and kept. *)
Definition get_tag : F bool := λ s,
  if f_tag s then (true, s)
  else (tag_ok, Fstate tag_ok (f_mem s) (f_vnodes s) (f_uios s) (f_ctxs s)).

Definition klookup_resolve (names : list string) : F (Z * list Z) :=
  let null := map (λ _, 0) names in
  t ← get_tag;
  if negb t then mret (0, null)
  else if negb malloc_ok then mret (0, null)
  else
    _ ← hold KL_MAX 0 0 0;
    c ← vfs_context_create;
    r ← kl_slurp KL_STAGED_PATH (Z.to_nat (KL_MAX - 1));
    _ ← vfs_context_rele c;
    let (err, buf) := r : Z * list Byte.byte in
    let out := if negb (err =? 0) || (length buf =? 0)%nat then (0, null) else resolve_in buf names in
    _ ← hold (- KL_MAX) 0 0 0;
    mret out.

Definition SymbolLookup (symbol : string) : F Z :=
  r ← klookup_resolve [symbol]; mret (default 0 (head r.2)).

(** ** kext/lib/symbols.c *)

Record symbols := Symbols {
  procfs_klookup_ok : bool;
  procfs_proc_gettty : Z;
  procfs_kl_cpu_to_processor : Z;
  procfs_kl_get_task_map : Z;
  procfs_kl_mach_vm_region : Z;
  procfs_vm_page_wire_count : Z;
}.
Definition symbols_boot : symbols := Symbols false 0 0 0 0 0.

Definition symbol_names : list string :=
  ["_version"; "_proc_gettty"; "_cpu_to_processor"; "_vm_page_wire_count"; "_get_task_map"; "_mach_vm_region"]%string.

(** Making a function address callable, on machines with pointer signatures. *)
Variable KL_SIGN_FN : Z -> Z.

Definition resolve_symbols (g : symbols) : F symbols :=
  r ← klookup_resolve symbol_names;
  let addr i := default 0 (r.2 !! i) in
  if negb (addr 0%nat =? version) then mret g
  else mret (Symbols true
    (if addr 1%nat =? 0 then procfs_proc_gettty g else KL_SIGN_FN (addr 1%nat))
    (addr 2%nat) (addr 4%nat) (addr 5%nat) (addr 3%nat)).

End Klookup.

(** ** The writer: tools/procfs_ksyms.c *)

Definition WANTED : list string :=
  ["_version"; "_kernel_pmap"; "_proc_gettty"; "_cpu_to_processor"; "_vm_page_wire_count"; "_get_task_map";
   "_mach_vm_region"]%string.

(** [strstr(s, pat)] (and memmem): the rest of [s] from the first occurrence on. *)
Fixpoint strstr (pat s : list Byte.byte) : option (list Byte.byte) :=
  if bool_decide (take (length pat) s = pat) then Some s
  else match s with [] => None | _ :: s' => strstr pat s' end.

(** The characters up to a NUL or a space, at most [n]. *)
Fixpoint token (n : nat) (s : list Byte.byte) : list Byte.byte :=
  match n, s with
  | S n', c :: s' => if bool_decide (c = Byte.x00) || bool_decide (c = Byte.x20) then [] else c :: token n' s'
  | _, _ => []
  end.

(** A NUL-terminated text in a larger area. *)
Definition cstring (s : list Byte.byte) : list Byte.byte := take (strnlen s) s.

Definition xnu_token (s : list Byte.byte) (outsz : nat) : option (list Byte.byte) :=
  p ← strstr (bytes_of_string "xnu-") s; Some (token (outsz - 1) p).

(** The text of the kernel's version in a decompressed kernel file. *)
Definition kernel_version (dec : list Byte.byte) : option (list Byte.byte) :=
  vs ← strstr (bytes_of_string "Darwin Kernel Version") dec; Some (take 255 (cstring vs)).

(** The first kernel file whose build is the running one; a file that cannot be read or
    decompressed is [None]. *)
Fixpoint pick_kernelcache (want : list Byte.byte) (caches : list (option (list Byte.byte))) : option (list Byte.byte) :=
  match caches with
  | [] => None
  | c :: caches' =>
    match (dec ← c; v ← kernel_version dec; t ← xnu_token v 64; if bool_decide (t = want) then Some dec else None) with
    | Some dec => Some dec
    | None => pick_kernelcache want caches'
    end
  end.

(** ** Reading the Mach-O image

    The tool reads structures at offsets of the image; a read outside it is [None]. *)

Definition LC_SYMTAB : Z := 2.
Definition LC_FILESET_ENTRY : Z := 2147483701.
Definition sizeof_mach_header_64 : nat := 32.
Definition sizeof_nlist_64 : nat := 16.

Definition word (n : nat) (img : list Byte.byte) (off : nat) : option Z :=
  if (off + n <=? length img)%nat then Some (le_value (take n (drop off img))) else None.

(** A NUL-terminated string of the image. *)
Definition string_at (img : list Byte.byte) (off : nat) : option (list Byte.byte) :=
  let s := drop off img in if (strnlen s <? length s)%nat then Some (cstring s) else None.

(** The load commands: [f] gets the command word and the offset of each. *)
Fixpoint commands {A} (img : list Byte.byte) (f : Z -> nat -> A -> option A) (n : nat) (off : nat) (a : A) : option A :=
  match n with
  | O => Some a
  | S n' =>
    cmd ← word 4 img off;
    a' ← f cmd off a;
    size ← word 4 img (off + 4);
    commands img f n' (off + Z.to_nat size) a'
  end.

(** The offset of the com.apple.kernel slice, 0 when there is none. *)
Definition kernel_slice (img : list Byte.byte) : option Z :=
  ncmds ← word 4 img 16;
  commands img (λ cmd off kfo,
      if cmd =? LC_FILESET_ENTRY then
        ido ← word 4 img (off + 24);
        nm ← string_at img (off + Z.to_nat ido);
        if bool_decide (nm = bytes_of_string "com.apple.kernel") then word 8 img (off + 16) else Some kfo
      else Some kfo)
    (Z.to_nat ncmds) sizeof_mach_header_64 0.

(** The offset of the first LC_SYMTAB command. *)
Fixpoint find_symtab (img : list Byte.byte) (n : nat) (off : nat) : option (option nat) :=
  match n with
  | O => Some None
  | S n' =>
    cmd ← word 4 img off;
    if cmd =? LC_SYMTAB then Some (Some off)
    else size ← word 4 img (off + 4); find_symtab img n' (off + Z.to_nat size)
  end.

(** The addresses found so far, one for each wanted name. *)
Definition note_symbol (nm : list Byte.byte) (value : Z) (addr : list Z) : list Z :=
  zip_with (λ w a, if (a =? 0) && bool_decide (nm = bytes_of_string w) then value else a) WANTED addr.

Fixpoint scan_symbols (img : list Byte.byte) (stroff strsize : Z) (n : nat) (off : nat) (addr : list Z) : option (list Z) :=
  match n with
  | O => Some addr
  | S n' =>
    sx ← word 4 img off;
    value ← word 8 img (off + 8);
    addr' ← (if (sx =? 0) || (strsize <=? sx) || (value =? 0) then Some addr
             else nm ← string_at img (Z.to_nat (stroff + sx)); Some (note_symbol nm value addr));
    scan_symbols img stroff strsize n' (off + sizeof_nlist_64) addr'
  end.

(** The wanted addresses of an image; [Some None] is an error message of the tool. *)
Definition image_symbols (img : list Byte.byte) : option (option (list Z)) :=
  kfo ← kernel_slice img;
  if kfo =? 0 then Some None
  else
    ncmds ← word 4 img (Z.to_nat kfo + 16);
    sc ← find_symtab img (Z.to_nat ncmds) (Z.to_nat kfo + sizeof_mach_header_64);
    match sc with
    | None => Some None
    | Some sc =>
      symoff ← word 4 img (sc + 8); nsyms ← word 4 img (sc + 12);
      stroff ← word 4 img (sc + 16); strsize ← word 4 img (sc + 20);
      addr ← scan_symbols img stroff strsize (Z.to_nat nsyms) (Z.to_nat symoff) (map (λ _, 0) WANTED);
      Some (if (default 0 (addr !! 0%nat) =? 0) || (default 0 (addr !! 1%nat) =? 0) then None else Some addr)
    end.

(** The staged file. *)
Definition symbol_line (name : string) (a : Z) : list Byte.byte :=
  bytes_of_string name ++ bytes_of_string " 0x" ++ bytes_of_string (fmt_llx a).

Definition staged_lines (build : list Byte.byte) (addr : list Z) : list (list Byte.byte) :=
  [bytes_of_string "# procfs kernel symbols (auto-generated; do not edit)"; bytes_of_string "# build " ++ build]
  ++ omap (λ '(w, a), if a =? 0 then None else Some (symbol_line w a)) (zip WANTED addr).

Definition staged_file (build : list Byte.byte) (addr : list Z) : list Byte.byte :=
  concat (map (λ l, l ++ [Byte.x0a]) (staged_lines build addr)).

(** The tool: the file it leaves, or [Some None] when it gives up. *)
Definition procfs_ksyms (uname_v : list Byte.byte) (caches : list (option (list Byte.byte))) : option (option (list Byte.byte)) :=
  match xnu_token (cstring uname_v) 64 with
  | None => Some None
  | Some want =>
    match pick_kernelcache want caches with
    | None => Some None
    | Some img =>
      addr ← image_symbols img;
      Some (addr ← addr; Some (staged_file want addr))
    end
  end.

(** ** Lines *)

Definition file_of (lines : list (list Byte.byte)) : list Byte.byte := concat (map (λ l, l ++ [Byte.x0a]) lines).

Lemma line_end_app l r : Byte.x0a ∉ l -> line_end (l ++ Byte.x0a :: r) = length l.
Proof.
  induction l as [|c l IH]; intros Hl; simpl; [done|]. apply not_elem_of_cons in Hl as [Hc Hl].
  rewrite bool_decide_eq_false_2 by congruence. by rewrite IH.
Qed.

Lemma kl_loop_lines lines name fuel :
  Forall (λ l, Byte.x0a ∉ l) lines -> (length (file_of lines) <= fuel)%nat ->
  kl_loop fuel (file_of lines) name = default 0 (head (omap (symbol_value name) lines)).
Proof.
  intros Hl. revert fuel. induction Hl as [|l lines Hn Hl IH]; intros fuel Hf; [by destruct fuel|].
  unfold file_of in *. cbn [map concat] in *. rewrite <- app_assoc in *. cbn [app] in *.
  rewrite length_app in Hf. cbn [length] in Hf. destruct fuel as [|fuel]; [lia|].
  cbn [kl_loop]. destruct (l ++ Byte.x0a :: _) eqn:E; [by destruct l|]. rewrite <- E.
  rewrite line_end_app, take_app_length by done. change (omap ?f (l :: ?ls)) with
    (match f l with Some y => y :: omap f ls | None => omap f ls end).
  destruct (symbol_value name l); [done|].
  replace (S (length l)) with (length l + 1)%nat by lia. rewrite drop_app_add. cbn [drop]. apply IH. lia.
Qed.

Lemma hex_digit_byte d : 0 <= d < 16 -> exists b, bytes_of_string (String (hex_digit d) "") = [b] ∧ hexval b = Some d ∧ b ≠ Byte.x0a.
Proof.
  intros Hd. assert (Hc : Forall (λ d, exists b, bytes_of_string (String (hex_digit d) "") = [b] ∧ hexval b = Some d ∧ b ≠ Byte.x0a) (seqZ 0 16)).
  { repeat constructor; by eexists. }
  rewrite Forall_forall in Hc. apply Hc, elem_of_seqZ. lia.
Qed.

Lemma hex_loop_min n z rest : (n <= 16)%nat -> 0 <= z < 16 ^ Z.of_nat n ->
  hex_loop 0 (bytes_of_string (hex_min n z) ++ rest) = hex_loop z rest.
Proof.
  revert z rest. induction n as [|n IH]; intros z rest Hn Hz.
  - simpl in *. by assert (z = 0) as -> by lia.
  - cbn [hex_min]. destruct (Z.eqb_spec z 0) as [->|Hne]; [done|].
    rewrite Nat2Z.inj_succ, Z.pow_succ_r in Hz by lia.
    assert (Hp : 16 ^ Z.of_nat n <= 16 ^ 15) by (apply Z.pow_le_mono_r; lia).
    pose proof (Z.mod_pos_bound z 16). pose proof (Z.div_mod z 16).
    assert (Hq : 0 <= z / 16 < 16 ^ Z.of_nat n) by (split; [apply Z.div_pos; lia|apply Z.div_lt_upper_bound; lia]).
    destruct (hex_digit_byte (z mod 16)) as (b & Eb & Hb & _); [lia|].
    rewrite bytes_of_string_app, Eb, <- app_assoc, IH by (done || lia). cbn [app hex_loop]. rewrite Hb. f_equal.
    change (16 ^ 15) with 1152921504606846976 in Hp. rewrite Z.shiftl_mul_pow2 by lia. change (2 ^ 4) with 16.
    rewrite u64_small, Z.lor_comm by lia. replace (z / 16 * 16) with (Z.shiftl (z / 16) 4) by (rewrite Z.shiftl_mul_pow2; lia).
    rewrite lor_shiftl by lia. lia.
Qed.

(** Symbol names have no spaces and do not start with a number sign. *)
Definition name_ok (w : string) : Prop :=
  (Byte.x20 ∉ bytes_of_string w) ∧ (Byte.x0a ∉ bytes_of_string w) ∧ head (bytes_of_string w) ≠ Some Byte.x23 ∧ w ≠ ""%string.

Definition line_of (wa : string * Z) : option (list Byte.byte) :=
  let '(w, a) := wa in if a =? 0 then None else Some (symbol_line w a).

Lemma symbol_value_own w a :
  0 < a < 18446744073709551616 -> symbol_value (bytes_of_string w) (symbol_line w a) = Some a.
Proof.
  intros Ha. unfold symbol_value, symbol_line. cbv zeta. rewrite take_app_length, bool_decide_eq_true_2 by done.
  rewrite lookup_app_r, Nat.sub_diag by done. rewrite bool_decide_eq_true_2 by done.
  rewrite (proj2 (Nat.ltb_lt _ _)); [|rewrite !length_app; simpl; lia]. cbn [andb]. f_equal.
  replace (S (length (bytes_of_string w))) with (length (bytes_of_string w) + 1)%nat by lia. rewrite drop_app_add.
  unfold fmt_llx. rewrite (proj2 (Z.eqb_neq a 0)) by lia.
  change (skip_0x (drop 1 (bytes_of_string " 0x" ++ ?l))) with l.
  rewrite <- (app_nil_r (bytes_of_string _)), hex_loop_min; [done|lia|]. exact (conj (Z.lt_le_incl _ _ (proj1 Ha)) (proj2 Ha)).
Qed.

Lemma symbol_value_other n w a :
  name_ok n -> name_ok w -> n ≠ w -> symbol_value (bytes_of_string n) (symbol_line w a) = None.
Proof.
  intros (Hn & _) (Hw & _) Hne. unfold symbol_value, symbol_line. cbv zeta.
  change (bytes_of_string " 0x" ++ ?r) with (Byte.x20 :: (bytes_of_string "0x" ++ r)).
  generalize (bytes_of_string "0x" ++ bytes_of_string (fmt_llx a)) as rest. intros rest.
  destruct (decide (take (length (bytes_of_string n)) (bytes_of_string w ++ Byte.x20 :: rest) = bytes_of_string n)) as [Et|Et];
    [|by rewrite (bool_decide_eq_false_2 _ Et), andb_false_r].
  rewrite (bool_decide_eq_false_2 (_ !! _ = _)); [by rewrite andb_false_r|]. intros El.
  destruct (Nat.lt_trichotomy (length (bytes_of_string n)) (length (bytes_of_string w))) as [Hlt|[Heq|Hgt]].
  - rewrite lookup_app_l in El by done. by eapply Hw, list_elem_of_lookup_2.
  - apply Hne, bytes_of_string_inj. rewrite <- Et, Heq. by rewrite take_app_length.
  - apply Hn. rewrite <- Et. eapply (list_elem_of_lookup_2 _ (length (bytes_of_string w))).
    rewrite lookup_take_lt by done. by rewrite lookup_app_r, Nat.sub_diag by done.
Qed.

Definition addr_ok (a : Z) : Prop := 0 <= a < 18446744073709551616.

Lemma staged_absent ws addr n :
  Forall name_ok ws -> name_ok n -> n ∉ ws -> omap (symbol_value (bytes_of_string n)) (omap line_of (zip ws addr)) = [].
Proof.
  revert addr. induction ws as [|w ws IH]; intros [|a addr] Hws Hn Hni; try done.
  apply Forall_cons in Hws as [Hw Hws]. apply not_elem_of_cons in Hni as [Hnw Hni].
  cbn [zip zip_with]. change (omap line_of ((w, a) :: ?l)) with
    (match line_of (w, a) with Some y => y :: omap line_of l | None => omap line_of l end).
  unfold line_of at 1. destruct (a =? 0); [by apply IH|].
  change (omap ?f (?x :: ?l)) with (match f x with Some y => y :: omap f l | None => omap f l end).
  rewrite symbol_value_other by done. by apply IH.
Qed.

Lemma staged_value ws addr i w a :
  NoDup ws -> Forall name_ok ws -> Forall addr_ok addr -> ws !! i = Some w -> addr !! i = Some a ->
  default 0 (head (omap (symbol_value (bytes_of_string w)) (omap line_of (zip ws addr)))) = a.
Proof.
  revert addr i. induction ws as [|w' ws IH]; intros [|a' addr] i Hnd Hws Ha Hw Hi; try done.
  apply NoDup_cons in Hnd as [Hni Hnd]. apply Forall_cons in Hws as [Hw' Hws]. apply Forall_cons in Ha as [Ha' Ha].
  cbn [zip zip_with]. change (omap line_of ((w', a') :: ?l)) with
    (match line_of (w', a') with Some y => y :: omap line_of l | None => omap line_of l end).
  assert (Hok : name_ok w) by (eapply (Forall_lookup_1 _ (w' :: ws)); [by constructor|done]).
  unfold line_of at 1. destruct i as [|i]; simpl in Hw, Hi; simplify_eq.
  - destruct (Z.eqb_spec a 0) as [->|Hne]; [by rewrite staged_absent|].
    change (omap ?f (?x :: ?l)) with (match f x with Some y => y :: omap f l | None => omap f l end).
    rewrite symbol_value_own; [done|]. unfold addr_ok in *. lia.
  - assert (w ≠ w') by (intros ->; by eapply Hni, list_elem_of_lookup_2).
    destruct (a' =? 0); [by eapply IH|].
    change (omap ?f (?x :: ?l)) with (match f x with Some y => y :: omap f l | None => omap f l end).
    rewrite symbol_value_other by done. by eapply IH.
Qed.

Lemma hex_min_line n z : Byte.x0a ∉ bytes_of_string (hex_min n z).
Proof.
  revert z. induction n as [|n IH]; intros z; cbn [hex_min]; [apply not_elem_of_nil|].
  destruct (z =? 0); [apply not_elem_of_nil|].
  destruct (hex_digit_byte (z mod 16)) as (b & Eb & _ & Hb); [apply Z.mod_pos_bound; lia|].
  rewrite bytes_of_string_app, Eb. intros [Hi|Hi%list_elem_of_singleton]%elem_of_app; [by eapply IH|congruence].
Qed.

Lemma symbol_line_line w a : name_ok w -> Byte.x0a ∉ symbol_line w a.
Proof.
  intros (_ & Hw & _). unfold symbol_line. rewrite !elem_of_app. intros [?|[Hx|Hx]]; [done| |].
  - revert Hx. apply (bool_decide_unpack (_ ∉ _)). by vm_compute.
  - revert Hx. unfold fmt_llx. destruct (a =? 0); [|apply hex_min_line]. apply (bool_decide_unpack (_ ∉ _)). by vm_compute.
Qed.

Lemma symbol_value_comment w l : name_ok w -> symbol_value (bytes_of_string w) (Byte.x23 :: l) = None.
Proof.
  intros (_ & _ & Hh & Hne). unfold symbol_value. cbv zeta. rewrite (bool_decide_eq_false_2 (take _ _ = _)); [by rewrite andb_false_r|].
  destruct w as [|c w]; [done|]. intros E. apply Hh. by rewrite <- E.
Qed.

Lemma wanted_ok : Forall name_ok WANTED ∧ NoDup WANTED.
Proof.
  split; [|apply (bool_decide_unpack _); by vm_compute].
  repeat constructor; apply (bool_decide_unpack _); by vm_compute.
Qed.

Lemma staged_lines_ok build addr :
  (Byte.x0a ∉ build) -> Forall (λ l, Byte.x0a ∉ l) (staged_lines build addr).
Proof.
  intros Hb. unfold staged_lines. constructor; [apply (bool_decide_unpack _); by vm_compute|].
  constructor; [rewrite elem_of_app; intros [Hx|?]; [revert Hx; apply (bool_decide_unpack (_ ∉ _)); by vm_compute|done]|].
  destruct wanted_ok as [Hw _]. revert addr. induction Hw as [|w ws Hok Hw IH]; intros [|a addr]; try constructor.
  cbn [zip zip_with].
  change (omap ?f (?x :: ?l)) with (match f x with Some y => y :: omap f l | None => omap f l end). cbv iota beta.
  destruct (a =? 0); [apply IH|]. constructor; [by apply symbol_line_line|apply IH].
Qed.

(** What the tool writes for a symbol is what the kext reads. *)
Lemma staged_line_value build addr i w a :
  (Byte.x0a ∉ build) -> Forall addr_ok addr -> WANTED !! i = Some w -> addr !! i = Some a ->
  kl_line_value (staged_file build addr) (bytes_of_string w) = a.
Proof.
  intros Hb Ha Hw Hi. destruct wanted_ok as [Hok Hnd]. unfold kl_line_value.
  change (staged_file build addr) with (file_of (staged_lines build addr)).
  rewrite kl_loop_lines by (done || by apply staged_lines_ok).
  assert (Hn : name_ok w) by (by eapply Forall_lookup_1). unfold staged_lines. rewrite omap_app.
  assert (Ec : omap (symbol_value (bytes_of_string w))
    [bytes_of_string "# procfs kernel symbols (auto-generated; do not edit)"; bytes_of_string "# build " ++ build] = []).
  { change (omap ?f [?x; ?y]) with (match f x with Some v => v :: omap f [y] | None => omap f [y] end).
    change (bytes_of_string "# procfs kernel symbols (auto-generated; do not edit)") with
      (Byte.x23 :: bytes_of_string " procfs kernel symbols (auto-generated; do not edit)").
    rewrite symbol_value_comment by done.
    change (omap ?f [?y]) with (match f y with Some v => [v] | None => [] end).
    change (bytes_of_string "# build " ++ build) with (Byte.x23 :: (bytes_of_string " build " ++ build)).
    by rewrite symbol_value_comment. }
  rewrite Ec. cbn [app]. by eapply staged_value.
Qed.

(** The slide found from [version]. *)
Lemma runtime_slide a k r : runtime (slide_of (u64 (a + k)) a) r = u64 (r + k).
Proof.
  unfold runtime, slide_of. rewrite <- u64_add_r, s64_mod, u64_add_r.
  replace (r + (u64 (a + k) - a)) with (r - a + u64 (a + k)) by lia. rewrite u64_add_r. f_equal. lia.
Qed.

(** The tables of the running kernel: link-time addresses, all moved by [slide]. *)
Definition moved (slide a : Z) : Z := if a =? 0 then 0 else u64 (a + slide).
Definition wanted_addr (addr : list Z) (n : string) : Z :=
  default 0 (i ← list_find (λ w, w = n) WANTED; addr !! i.1).

Lemma wanted_raw build addr n :
  (Byte.x0a ∉ build) -> Forall addr_ok addr -> length addr = length WANTED -> n ∈ WANTED ->
  kl_line_value (staged_file build addr) (bytes_of_string n) = wanted_addr addr n.
Proof.
  intros Hb Ha Hlen Hn. unfold wanted_addr.
  destruct (list_find_elem_of (λ w, w = n) WANTED n Hn eq_refl) as [[i w] E]. rewrite E. simpl.
  apply list_find_Some in E as (Hi & -> & _).
  destruct (lookup_lt_is_Some_2 addr i) as [a Hai]; [rewrite Hlen; by eapply lookup_lt_Some|].
  rewrite Hai. simpl. by eapply staged_line_value.
Qed.

Lemma resolve_staged build addr slide names :
  (Byte.x0a ∉ build) -> Forall addr_ok addr -> length addr = length WANTED ->
  wanted_addr addr "_version" ≠ 0 -> wanted_addr addr "_kernel_pmap" ≠ 0 -> Forall (λ n, n ∈ WANTED) names ->
  resolve_in (u64 (wanted_addr addr "_version" + slide)) (u64 (wanted_addr addr "_kernel_pmap" + slide))
    (staged_file build addr) names
  = (Z.of_nat (length (filter (λ r, r ≠ 0) (map (wanted_addr addr) names))), map (λ n, moved slide (wanted_addr addr n)) names).
Proof.
  intros Hb Ha Hlen Hv Hk Hn. unfold resolve_in.
  rewrite !wanted_raw by (done || (apply (bool_decide_unpack (_ ∈ _)); by vm_compute)).
  rewrite (proj2 (Z.eqb_neq _ 0)) by done. rewrite runtime_slide, Z.eqb_refl, andb_false_r.
  assert (E : map (λ n, kl_line_value (staged_file build addr) (bytes_of_string n)) names = map (wanted_addr addr) names).
  { apply map_ext_in. intros n Hin%list_elem_of_In. apply wanted_raw; auto. by eapply Forall_forall in Hn. }
  rewrite E. f_equal. rewrite map_map. apply map_ext. intros n. unfold moved. by rewrite runtime_slide.
Qed.

Lemma word_range n img off v : word n img off = Some v -> 0 <= v < 256 ^ Z.of_nat n.
Proof.
  unfold word. destruct (Nat.leb_spec (off + n) (length img)); [|done]. intros [= <-].
  pose proof (le_value_bound (take n (drop off img))). rewrite length_take, length_drop in *.
  by rewrite Nat.min_l in * by lia.
Qed.

(** The symbols of the table, in order, without the entries the tool passes over. *)
Fixpoint table_symbols (img : list Byte.byte) (stroff strsize : Z) (n : nat) (off : nat) : option (list (list Byte.byte * Z)) :=
  match n with
  | O => Some []
  | S n' =>
    sx ← word 4 img off;
    value ← word 8 img (off + 8);
    e ← (if (sx =? 0) || (strsize <=? sx) || (value =? 0) then Some []
         else nm ← string_at img (Z.to_nat (stroff + sx)); Some [(nm, value)]);
    l ← table_symbols img stroff strsize n' (off + sizeof_nlist_64);
    Some (e ++ l)
  end.

(** The value of the first symbol with a name. *)
Definition first_symbol (l : list (list Byte.byte * Z)) (w : string) : Z :=
  default 0 (snd <$> List.find (λ e, bool_decide (e.1 = bytes_of_string w)) l).

Definition fill (l : list (list Byte.byte * Z)) (addr : list Z) : list Z :=
  zip_with (λ w a, if a =? 0 then first_symbol l w else a) WANTED addr.

Lemma scan_symbols_first img stroff strsize n off addr r :
  scan_symbols img stroff strsize n off addr = Some r -> length addr = length WANTED ->
  exists l, table_symbols img stroff strsize n off = Some l ∧ Forall (λ e, 0 < e.2 < 18446744073709551616) l ∧ r = fill l addr.
Proof.
  revert off addr. induction n as [|n IH]; intros off addr Hs Hlen; cbn [scan_symbols table_symbols] in *.
  - injection Hs as <-. exists []. split_and!; [done|constructor|]. unfold fill.
    symmetry. transitivity (zip_with (λ (_ : string) (a : Z), a) WANTED addr).
    + apply zip_with_ext; [|done..]. intros w a. by destruct (Z.eqb_spec a 0).
    + by apply zip_with_keep.
  - destruct (word 4 img off) as [sx|]; [|done]. destruct (word 8 img (off + 8)) as [value|] eqn:Ev; [|done].
    bind_some.
    destruct ((sx =? 0) || (strsize <=? sx) || (value =? 0)) eqn:Eg.
    + bind_some. apply IH in Hs as (l & El & Hl & ->); [|done].
      exists l. rewrite El. by split_and!.
    + destruct (string_at img (Z.to_nat (stroff + sx))) as [nm|]; [|done]. bind_some.
      apply IH in Hs as (l & El & Hl & ->); [|unfold note_symbol; rewrite length_zip_with_l_eq; (done || by rewrite Hlen)].
      exists ((nm, value) :: l). rewrite El. apply orb_false_iff in Eg as [_ Ez%Z.eqb_neq].
      split_and!; [done|constructor; [|done]; apply word_range in Ev; simpl in *; lia|].
      unfold fill, note_symbol. rewrite zip_with_comp. apply zip_with_ext; [|done..]. intros w a.
      unfold first_symbol. cbn [List.find fst]. destruct (Z.eqb_spec a 0) as [->|Ha].
      * cbn [andb]. destruct (bool_decide (nm = bytes_of_string w)); simpl; [by rewrite (proj2 (Z.eqb_neq value 0))|done].
      * cbn [andb]. by rewrite (proj2 (Z.eqb_neq a 0)).
Qed.

Lemma token_sub n s : forall c, c ∈ token n s -> c ∈ s.
Proof.
  revert s. induction n as [|n IH]; intros [|b s] c; simpl; try (by intros ?%not_elem_of_nil).
  case_match; [by intros ?%not_elem_of_nil|]. rewrite !elem_of_cons. naive_solver.
Qed.
Lemma token_length n s : (length (token n s) <= n)%nat.
Proof. revert s. induction n as [|n IH]; intros [|b s]; simpl; try lia. case_match; simpl; [lia|]. pose proof (IH s). lia. Qed.
Lemma strstr_sub pat s p : strstr pat s = Some p -> forall c, c ∈ p -> c ∈ s.
Proof.
  revert p. induction s as [|b s IH]; intros p; cbn [strstr]; case_match; try done; [by intros [= <-]..|].
  intros E c Hc. apply elem_of_cons. right. by eapply IH.
Qed.
Lemma xnu_token_ok s n t : xnu_token s n = Some t -> (Byte.x0a ∉ s) -> (Byte.x0a ∉ t) ∧ (length t <= n - 1)%nat.
Proof.
  unfold xnu_token. destruct (strstr _ s) as [p|] eqn:E; [|done]. intros [= <-] Hs. split; [|apply token_length].
  intros Hc%token_sub. by eapply Hs, strstr_sub.
Qed.

Lemma pick_in want caches img : pick_kernelcache want caches = Some img -> Some img ∈ caches.
Proof.
  induction caches as [|c caches IH]; cbn [pick_kernelcache]; [done|]. rewrite elem_of_cons.
  destruct (c ≫= _) as [dec|] eqn:E; [|auto]. intros [= ->]. left. destruct c as [d|]; [|done].
  bind_some. destruct (kernel_version d) as [v|]; [|done]. bind_some. destruct (xnu_token v 64); [|done].
  bind_some. case_match; congruence.
Qed.

Lemma image_symbols_ok img addr :
  image_symbols img = Some (Some addr) ->
  length addr = length WANTED ∧ Forall addr_ok addr
  ∧ wanted_addr addr "_version" ≠ 0 ∧ wanted_addr addr "_kernel_pmap" ≠ 0.
Proof.
  unfold image_symbols. destruct (kernel_slice img) as [kfo|]; [|done]. bind_some. case_match; [done|].
  destruct (word 4 img _) as [ncmds|]; [|done]. bind_some. destruct (find_symtab _ _ _) as [[sc|]|]; [|done..].
  bind_some. destruct (word 4 img (sc + 8)) as [?|]; [|done]. bind_some. destruct (word 4 img (sc + 12)) as [?|]; [|done].
  bind_some. destruct (word 4 img (sc + 16)) as [?|]; [|done]. bind_some. destruct (word 4 img (sc + 20)) as [?|]; [|done].
  bind_some.
  destruct (scan_symbols _ _ _ _ _ _) as [r|] eqn:Es; [|done]. bind_some.
  apply scan_symbols_first in Es as (l & _ & Hl & ->); [|done]. case_match eqn:Eg; [done|]. intros [= <-].
  apply orb_false_iff in Eg as [E0%Z.eqb_neq E1%Z.eqb_neq]. split; [done|]. split; [|by split].
  assert (Hf : forall w, addr_ok (first_symbol l w)).
  { intros w. unfold first_symbol, addr_ok. destruct (List.find _ l) as [e|] eqn:E; simpl; [|lia].
    apply List.find_some in E as [Hin%list_elem_of_In _]. rewrite Forall_forall in Hl. specialize (Hl e Hin). lia. }
  unfold fill. repeat constructor; cbn; apply Hf.
Qed.

Lemma hex_min_length n z : (String.length (hex_min n z) <= n)%nat.
Proof.
  revert z. induction n as [|n IH]; intros z; cbn [hex_min]; [simpl; lia|]. case_match; [simpl; lia|].
  rewrite string_length_app. cbn [String.length]. pose proof (IH (z / 16)). lia.
Qed.

Lemma staged_file_fits build addr : (length build <= 63)%nat -> Z.of_nat (length (staged_file build addr)) < KL_MAX.
Proof.
  intros Hb. unfold KL_MAX, staged_file, staged_lines. rewrite map_app, concat_app, length_app.
  assert (Hl : forall w a, (String.length w <= 20)%nat -> (length (symbol_line w a) <= 39)%nat).
  { intros w a Hw. unfold symbol_line. rewrite !length_app, !bytes_of_string_length. unfold fmt_llx.
    pose proof (hex_min_length 16 a). change (String.length " 0x") with 3%nat. destruct (a =? 0); [change (String.length "0") with 1%nat|]; lia. }
  assert (Hall : forall ws addr, Forall (λ w, (String.length w <= 20)%nat) ws ->
    (length (concat (map (λ l, l ++ [Byte.x0a]) (omap line_of (zip ws addr)))) <= 40 * length ws)%nat).
  { clear -Hl. induction ws as [|w ws IH]; intros [|a addr] Hw; try (simpl; lia).
    apply Forall_cons in Hw as [Hw Hws]. cbn [zip zip_with].
    change (omap ?f (?x :: ?l)) with (match f x with Some y => y :: omap f l | None => omap f l end).
    specialize (IH addr Hws). unfold line_of at 1. cbn [length]. destruct (a =? 0); [lia|].
    cbn [map concat]. rewrite !length_app. cbn [length]. pose proof (Hl w a Hw). lia. }
  assert (Hw : Forall (λ w, (String.length w <= 20)%nat) WANTED) by (repeat constructor; simpl; lia).
  specialize (Hall WANTED addr Hw). change (40 * length WANTED)%nat with 280%nat in Hall. unfold line_of in Hall.
  cbn [map concat]. rewrite !length_app, bytes_of_string_length. cbn [String.length length].
  change (length (bytes_of_string "# build ")) with 8%nat. lia.
Qed.

(** ** Both ends together *)

Section Resolve.
Context `{FileOps}.

(** The staged file can be read. *)
Definition staged (file : list Byte.byte) : Prop :=
  uio_ok = true ∧ exists vp, vnode_lookup KL_STAGED_PATH = inr vp ∧ vnop_read vp 0 (Z.to_nat (KL_MAX - 1)) = (0, file).

Lemma slurp_staged file s : staged file -> (kl_slurp KL_STAGED_PATH (Z.to_nat (KL_MAX - 1)) s).1 = (0, file).
Proof.
  intros (Hu & vp & Hv & Hr). unfold kl_slurp, vnode_get, uio_create. rewrite Hu, Hv.
  repeat (rewrite F_bind_run; cbn [fst snd mret F_ret]). by rewrite Hr.
Qed.

Lemma get_tag_ok s : (get_tag true s).1 = true ∧ holds_same s (get_tag true s).2.
Proof. unfold get_tag. by destruct (f_tag s). Qed.

Lemma klookup_staged v kp names file s :
  staged file -> file ≠ [] ->
  (klookup_resolve v kp true true names s).1 = resolve_in v kp file names
  ∧ holds_same s (klookup_resolve v kp true true names s).2.
Proof.
  intros Hst Hne. unfold klookup_resolve. rewrite F_bind_run. destruct (get_tag_ok s) as [-> H1].
  cbn [negb]. rewrite !F_bind_run, (slurp_staged file) by done. rewrite F_bind_run.
  assert (El : (length file =? 0)%nat = false) by (by destruct file). rewrite El. split; [done|].
  set (s1 := (vfs_context_create _).2). pose proof (kl_slurp_releases KL_STAGED_PATH (Z.to_nat (KL_MAX - 1)) s1) as H2.
  subst s1. unfold holds_same, vfs_context_create, vfs_context_rele, hold in *.
  destruct vfs_context_ok; cbn [fst snd mret F_ret f_mem f_vnodes f_uios f_ctxs] in *; rewrite ?F_bind_run in *;
    cbn [fst snd mret F_ret f_mem f_vnodes f_uios f_ctxs] in *; split_and!; lia.
Qed.

(** C8. Staging and resolving: whatever kernel file the tool picked, the file it leaves is
    short enough for the kext to read whole, and on a kernel that runs from that file,
    moved by any distance, the kext resolves exactly the symbols of the kernel file to
    where they are in memory, reports success, and releases what it took.  Symbols the
    kernel file does not have stay NULL. *)
Theorem ksyms_roundtrip uname caches file :
  procfs_ksyms uname caches = Some (Some file) -> (Byte.x0a ∉ uname) ->
  exists img addr, Some img ∈ caches ∧ image_symbols img = Some (Some addr) ∧ Z.of_nat (length file) < KL_MAX
  ∧ forall slide KL_SIGN_FN g s, staged file ->
      let at_ n := moved slide (wanted_addr addr n) in
      let m := resolve_symbols (at_ "_version"%string) (at_ "_kernel_pmap"%string) true true KL_SIGN_FN g in
      (m s).1 = Symbols true
        (if at_ "_proc_gettty"%string =? 0 then procfs_proc_gettty g else KL_SIGN_FN (at_ "_proc_gettty"%string))
        (at_ "_cpu_to_processor"%string) (at_ "_get_task_map"%string) (at_ "_mach_vm_region"%string)
        (at_ "_vm_page_wire_count"%string)
      ∧ holds_same s (m s).2.
Proof.
  unfold procfs_ksyms. destruct (xnu_token (cstring uname) 64) as [want|] eqn:Et; [|done].
  destruct (pick_kernelcache want caches) as [img|] eqn:Ep; [|done].
  destruct (image_symbols img) as [[addr|]|] eqn:Ei; [|done..]. intros [= <-] Hu. exists img, addr.
  destruct (image_symbols_ok img addr Ei) as (Hlen & Hok & Hv & Hk).
  destruct (xnu_token_ok _ _ _ Et) as [Hw Hwl];
    [unfold cstring; intros Hx%elem_of_take; destruct Hx as (? & Hx & _); by eapply Hu, list_elem_of_lookup_2|].
  split; [by eapply pick_in|]. split; [done|]. split; [by apply staged_file_fits|].
  intros slide sign g s Hs.
  assert (Ev : moved slide (wanted_addr addr "_version") = u64 (wanted_addr addr "_version" + slide))
    by (unfold moved; by rewrite (proj2 (Z.eqb_neq _ 0))).
  assert (Ek : moved slide (wanted_addr addr "_kernel_pmap") = u64 (wanted_addr addr "_kernel_pmap" + slide))
    by (unfold moved; by rewrite (proj2 (Z.eqb_neq _ 0))).
  destruct (klookup_staged (moved slide (wanted_addr addr "_version")) (moved slide (wanted_addr addr "_kernel_pmap"))
    symbol_names _ s Hs) as [Er Hh]; [done|].
  rewrite Ev, Ek in Er, Hh |- *. rewrite resolve_staged in Er; auto;
    [|repeat constructor; apply (bool_decide_unpack (_ ∈ _)); by vm_compute].
  unfold resolve_symbols. rewrite F_bind_run, Er. cbn [fst snd map symbol_names].
  change (default 0 ((?x :: _) !! 0%nat)) with x. rewrite Ev, Z.eqb_refl. cbn [negb]. by split.
Qed.

(** A stale file resolves nothing: when the distance between the two anchors in the
    file is not the distance in the running kernel, no address is returned, the globals of
    the kext stay as they were, and everything is released. *)
Theorem ksyms_stale_rejected build addr version kernel_pmap KL_SIGN_FN names g s :
  (Byte.x0a ∉ build) -> Forall addr_ok addr -> length addr = length WANTED ->
  wanted_addr addr "_version" ≠ 0 -> wanted_addr addr "_kernel_pmap" ≠ 0 -> addr_ok version -> 0 < version ->
  addr_ok kernel_pmap ->
  u64 (wanted_addr addr "_kernel_pmap" - wanted_addr addr "_version") ≠ u64 (kernel_pmap - version) ->
  staged (staged_file build addr) ->
  (klookup_resolve version kernel_pmap true true names s).1 = (0, map (λ _, 0) names)
  ∧ (resolve_symbols version kernel_pmap true true KL_SIGN_FN g s).1 = g
  ∧ holds_same s (resolve_symbols version kernel_pmap true true KL_SIGN_FN g s).2.
Proof.
  intros Hb Ha Hlen Hv Hk Hver Hpos Hkp Hd Hs.
  assert (Hnull : forall names, resolve_in version kernel_pmap (staged_file build addr) names = (0, map (λ _, 0) names)).
  { intros ns. unfold resolve_in. rewrite !wanted_raw by (done || (apply (bool_decide_unpack (_ ∈ _)); by vm_compute)).
    rewrite (proj2 (Z.eqb_neq (wanted_addr addr "_version") 0)), (proj2 (Z.eqb_neq (wanted_addr addr "_kernel_pmap") 0)) by done.
    rewrite (proj2 (Z.eqb_neq (runtime _ _) kernel_pmap)); [done|]. intros E. apply Hd.
    rewrite <- E. unfold runtime, slide_of. rewrite u64_sub_l.
    replace (wanted_addr addr "_kernel_pmap" + s64 (version - wanted_addr addr "_version") - version) with
      (wanted_addr addr "_kernel_pmap" - version + s64 (version - wanted_addr addr "_version")) by lia.
    rewrite <- u64_add_r, s64_mod, u64_add_r. f_equal. lia. }
  destruct (klookup_staged version kernel_pmap names _ s Hs) as [-> _]; [done|]. split; [apply Hnull|].
  destruct (klookup_staged version kernel_pmap symbol_names _ s Hs) as [Er Hh]; [done|].
  unfold resolve_symbols. rewrite F_bind_run, Er, Hnull. cbn [fst snd].
  change (default 0 (map _ symbol_names !! 0%nat)) with 0. rewrite (proj2 (Z.eqb_neq 0 version)) by lia. by split.
Qed.

End Resolve.

(** ** A small kernel file *)

Definition zeros (n : nat) : list Byte.byte := replicate n Byte.x00.
Definition sample_nlist (strx value : Z) : list Byte.byte := le_bytes 4 strx ++ zeros 4 ++ le_bytes 8 value.

Definition sample_image : list Byte.byte :=
  zeros 16 ++ le_bytes 4 1 ++ zeros 12
  ++ le_bytes 4 LC_FILESET_ENTRY ++ le_bytes 4 49 ++ zeros 8 ++ le_bytes 8 81 ++ le_bytes 4 32 ++ zeros 4
  ++ bytes_of_string "com.apple.kernel" ++ [Byte.x00]
  ++ zeros 16 ++ le_bytes 4 1 ++ zeros 12
  ++ le_bytes 4 LC_SYMTAB ++ le_bytes 4 24 ++ le_bytes 4 137 ++ le_bytes 4 3 ++ le_bytes 4 185 ++ le_bytes 4 36
  ++ sample_nlist 1 18446744005107777536 ++ sample_nlist 10 18446744005107781632 ++ sample_nlist 23 18446744005107785728
  ++ [Byte.x00] ++ bytes_of_string "_version" ++ [Byte.x00] ++ bytes_of_string "_kernel_pmap" ++ [Byte.x00]
  ++ bytes_of_string "_proc_gettty" ++ [Byte.x00]
  ++ bytes_of_string "Darwin Kernel Version 22.1.0: root:xnu-8792.41.9/RELEASE_ARM64" ++ [Byte.x00].

Definition sample_uname : list Byte.byte := bytes_of_string "Darwin Kernel Version 22.1.0: root:xnu-8792.41.9/RELEASE_ARM64".
Definition sample_addr : list Z := [18446744005107777536; 18446744005107781632; 18446744005107785728; 0; 0; 0; 0].

Lemma take_room (l : list Byte.byte) n : (length (take n l) <= n)%nat.
Proof. rewrite length_take. lia. Qed.

(** A system where every path leads to one file. *)
Definition one_file (file : list Byte.byte) : FileOps := {|
  vnode_t := unit; vnode_lookup _ := inr tt; vnop_read _ _ n := (0, take n file);
  vnop_read_room _ _ n := take_room file n; vfs_context_ok := true; uio_ok := true; uio_addiov_error := 0 |}.

Definition sample_build : list Byte.byte := bytes_of_string "xnu-8792.41.9/RELEASE_ARM64".
Definition sample_file : list Byte.byte := staged_file sample_build sample_addr.

Example sample_staged : procfs_ksyms sample_uname [None; Some sample_image] = Some (Some sample_file).
Proof. by vm_compute. Qed.

Lemma ksyms_roundtrip_witness :
  (@resolve_symbols (one_file sample_file) (u64 (18446744005107777536 + 65536)) (u64 (18446744005107781632 + 65536))
     true true id symbols_boot (Fstate false 0 0 0 0)).1
  = Symbols true (18446744005107785728 + 65536) 0 0 0 0.
Proof.
  destruct (@ksyms_roundtrip (one_file sample_file) sample_uname [None; Some sample_image] sample_file) as (img & addr & Hi & Ha & _ & Hr).
  - by vm_compute.
  - apply (bool_decide_unpack (_ ∉ _)). by vm_compute.
  - assert (img = sample_image) as -> by (apply elem_of_cons in Hi as [?|[[= ->]|?%not_elem_of_nil]%elem_of_cons]; done).
    assert (Ea : image_symbols sample_image = Some (Some sample_addr)) by (by vm_compute).
    assert (addr = sample_addr) as -> by congruence.
    destruct (Hr 65536 id symbols_boot (Fstate false 0 0 0 0)) as [Hm _].
    + split; [done|]. exists tt. split; [done|]. by vm_compute.
    + exact Hm.
Defined.

Lemma ksyms_stale_rejected_witness :
  (@resolve_symbols (one_file sample_file) 18446744005107777536 18446744005107800000 true true id symbols_boot (Fstate false 0 0 0 0)).1
  = symbols_boot.
Proof.
  destruct (@ksyms_stale_rejected (one_file sample_file) sample_build sample_addr 18446744005107777536 18446744005107800000 id
    symbol_names symbols_boot (Fstate false 0 0 0 0)) as (_ & Hm & _).
  - apply (bool_decide_unpack (_ ∉ _)). by vm_compute.
  - repeat constructor; unfold addr_ok; lia.
  - done.
  - by vm_compute.
  - by vm_compute.
  - unfold addr_ok. lia.
  - lia.
  - unfold addr_ok. lia.
  - by vm_compute.
  - split; [done|]. exists tt. split; [done|]. by vm_compute.
  - exact Hm.
Defined.

(** A file without the second anchor is not checked: its addresses are accepted whatever
    kernel runs. *)
Example ksyms_unchecked_without_anchor :
  let file := bytes_of_string ("_version 0x1000" +:+ nl +:+ "_proc_gettty 0x2000" +:+ nl) in
  (@resolve_symbols (one_file file) 90112 4096 true true id symbols_boot (Fstate false 0 0 0 0)).1
  = Symbols true (90112 + 4096) 0 0 0 0.
Proof. by vm_compute. Qed.
