(* ===== verification/Libkext.v ===== *)
(** * The kext support library (lib/libkext/libkext.c)

    The counter of active callbacks with its invalidation, as a transition system of atomic
    steps; the allocation functions with their count of live blocks; the UUID of a Mach-O
    image.  Reading a file is in module Fileio. *)

From S2P Require Import Prelude Sbuf Fileio Ksyms.

(** ** The callback counter *)

Module Kcb.

(** Where a thread is in [kcb].  Every access of the counter is a step of its own. *)
Inductive pc : Set :=
| Idle
| Holding                 (** outside, with a reference *)
| GetRead                 (** about to read the counter *)
| GetCas (rd : Z)         (** about to exchange [rd] for [rd + 1] *)
| InvRead                 (** the body of the do loop *)
| InvTest                 (** the test of the inner loop *)
| InvSleep                (** in msleep *)
| InvCas                  (** about to exchange 0 for -1 *)
| LastRead (inv : bool).  (** KCB_OPT_READ, where KCB_OPT_INVALIDATE falls through *)

Inductive kcb_opt : Set := KCB_OPT_GET | KCB_OPT_PUT | KCB_OPT_READ | KCB_OPT_INVALIDATE.

(** The counter, the threads, the calls that have returned with their results, the failed
    assertions reported, and the invalidations begun. *)
Record state := State {
  i : Z;
  threads : list pc;
  returned : list (nat * kcb_opt * Z);
  reports : nat;
  invalidations : nat;
}.

Definition boot (n : nat) : state := State 0 (replicate n Idle) [] 0 0.

Definition set_pc (t : nat) (p : pc) (s : state) : state :=
  State (i s) (<[t := p]> (threads s)) (returned s) (reports s) (invalidations s).
Definition set_i (v : Z) (s : state) : state := State v (threads s) (returned s) (reports s) (invalidations s).
Definition ret (t : nat) (o : kcb_opt) (r : Z) (s : state) : state :=
  State (i s) (threads s) ((t, o, r) :: returned s) (reports s) (invalidations s).
(** [kassertf]: a condition that fails is reported, and execution goes on. *)
Definition kassertf (b : bool) (s : state) : state :=
  State (i s) (threads s) (returned s) (if b then reports s else S (reports s)) (invalidations s).
Definition begun (s : state) : state :=
  State (i s) (threads s) (returned s) (reports s) (S (invalidations s)).

(** A call, or the next step inside a call.  A reference is only put by a thread that has one. *)
Inductive label : Set := Call (t : nat) (o : kcb_opt) | Run (t : nat).

Definition kcb_call (t : nat) (o : kcb_opt) (p : pc) (s : state) : option state :=
  match o, p with
  | KCB_OPT_GET, Idle => Some (set_pc t GetRead s)
  | KCB_OPT_READ, Idle => Some (set_pc t (LastRead false) s)
  | KCB_OPT_INVALIDATE, Idle => Some (set_pc t InvRead (begun s))
  | KCB_OPT_PUT, Holding =>
    let rd := i s in
    Some (ret t KCB_OPT_PUT rd (kassertf (0 <? rd) (set_pc t Idle (set_i (s32 (rd - 1)) s))))
  | _, _ => None
  end.

Definition kcb_run (t : nat) (p : pc) (s : state) : option state :=
  match p with
  | Idle | Holding => None
  | GetRead =>
    let rd := i s in
    Some (if rd <? 0 then ret t KCB_OPT_GET rd (set_pc t Idle s) else set_pc t (GetCas rd) s)
  | GetCas rd =>
    Some (if i s =? rd then ret t KCB_OPT_GET rd (set_pc t Holding (set_i (s32 (rd + 1)) s)) else set_pc t GetRead s)
  | InvRead => Some (kassertf (0 <=? i s) (set_pc t InvTest s))
  | InvTest => Some (set_pc t (if 0 <? i s then InvSleep else InvCas) s)
  | InvSleep => Some (set_pc t InvTest s)
  | InvCas => Some (if i s =? 0 then set_pc t (LastRead true) (set_i (-1) s) else set_pc t InvRead s)
  | LastRead inv => Some (ret t (if inv then KCB_OPT_INVALIDATE else KCB_OPT_READ) (i s) (set_pc t Idle s))
  end.

Definition step (l : label) (s : state) : option state :=
  match l with
  | Call t o => p ← threads s !! t; kcb_call t o p s
  | Run t => p ← threads s !! t; kcb_run t p s
  end.

Fixpoint run (ls : list label) (s : state) : option state :=
  match ls with [] => Some s | l :: ls' => s' ← step l s; run ls' s' end.

Inductive reach (n : nat) : state -> Prop :=
| reach_boot : reach n (boot n)
| reach_step l s s' : reach n s -> step l s = Some s' -> reach n s'.

Lemma reach_run n ls s s' : reach n s -> run ls s = Some s' -> reach n s'.
Proof.
  revert s. induction ls as [|l ls IH]; intros s Hr; cbn [run]; [by intros [= <-]|].
  destruct (step l s) as [s1|] eqn:E; [|done]. bind_some. apply IH. by econstructor.
Qed.

(** ** Counting threads *)

Definition holds (p : pc) : bool := match p with Holding => true | _ => false end.
Definition in_loop (p : pc) : bool := match p with InvRead | InvTest | InvSleep | InvCas => true | _ => false end.

Definition count (f : pc -> bool) (l : list pc) : Z := Z.of_nat (length (filter (λ p, f p = true) l)).

Lemma count_insert f l t p p' :
  l !! t = Some p -> count f (<[t := p']> l) = count f l - Z.b2z (f p) + Z.b2z (f p').
Proof.
  revert t. unfold count. induction l as [|q l IH]; intros [|t]; [done..| |]; simpl.
  - intros [= ->]. rewrite !filter_cons. destruct (f p), (f p'); cbn [decide]; repeat case_decide; simpl in *; try done; lia.
  - intros Ht. rewrite !filter_cons. specialize (IH t Ht). case_decide; cbn [length]; lia.
Qed.

Lemma count_pos f l t p : l !! t = Some p -> f p = true -> 0 < count f l.
Proof.
  intros Ht Hf. unfold count. assert (Hin : p ∈ filter (λ p, f p = true) l)
    by (apply list_elem_of_filter; split; [done|by eapply list_elem_of_lookup_2]).
  destruct (filter _ l); [by apply elem_of_nil in Hin|simpl; lia].
Qed.

Lemma count_bound f l : 0 <= count f l <= Z.of_nat (length l).
Proof. unfold count. pose proof (length_filter (λ p, f p = true) l). lia. Qed.

(** ** The invariant *)

Record inv (n : nat) (s : state) : Prop := Inv {
  inv_len : length (threads s) = n;
  (** the counter counts the references, or is -1 and there are none *)
  inv_refs : i s = count holds (threads s) ∨ i s = -1 ∧ count holds (threads s) = 0;
  (** what has been read before an exchange was not negative *)
  inv_cas t rd : threads s !! t = Some (GetCas rd) -> 0 <= rd;
  (** past the exchange, or returned from it: the counter is invalid *)
  inv_last t : threads s !! t = Some (LastRead true) -> i s = -1;
  inv_done t r : (t, KCB_OPT_INVALIDATE, r) ∈ returned s -> i s = -1 ∧ r = -1;
  inv_get t r : (t, KCB_OPT_GET, r) ∈ returned s -> r < 0 -> i s = -1;
  (** each thread in the loop has begun an invalidation, and one more has succeeded *)
  inv_begun : count in_loop (threads s) + (if i s <? 0 then 1 else 0) <= Z.of_nat (invalidations s);
  inv_reports : (invalidations s <= 1)%nat -> reports s = 0%nat;
}.

Definition event_ok (v : Z) (e : nat * kcb_opt * Z) : Prop :=
  match e with
  | (_, KCB_OPT_INVALIDATE, r) => v = -1 ∧ r = -1
  | (_, KCB_OPT_GET, r) => r < 0 -> v = -1
  | _ => True
  end.

(** One thread moves and the counter may change. *)
Lemma kcb_inv_move n s t p p' v es rp iv :
  inv n s -> threads s !! t = Some p ->
  (v = count holds (threads s) - Z.b2z (holds p) + Z.b2z (holds p')
   ∨ v = -1 ∧ count holds (threads s) - Z.b2z (holds p) + Z.b2z (holds p') = 0) ->
  (i s = -1 -> v = -1) ->
  (forall rd, p' = GetCas rd -> 0 <= rd) -> (p' = LastRead true -> v = -1) ->
  (es = returned s ∨ exists e, es = e :: returned s ∧ event_ok v e) ->
  count in_loop (threads s) - Z.b2z (in_loop p) + Z.b2z (in_loop p') + (if v <? 0 then 1 else 0) <= Z.of_nat iv ->
  ((iv <= 1)%nat -> rp = 0%nat) ->
  inv n (State v (<[t := p']> (threads s)) es rp iv).
Proof.
  intros [Hl Hr Hc Ha Hd Hg Hb Hp] Ht Hv Hm Hcas Hlast Hes Hbeg Hrep.
  assert (Hold : forall e, e ∈ es -> event_ok v e).
  { assert (Hret : forall e, e ∈ returned s -> event_ok v e).
    { intros [[t' []] r] He; simpl; try done; [intros Hneg; by eapply Hm, Hg|]. destruct (Hd t' r He). auto. }
    destruct Hes as [->|(e & -> & He)]; [done|]. intros e' [->|Hin]%elem_of_cons; auto. }
  split; cbn [threads i returned reports invalidations].
  - by rewrite length_insert.
  - rewrite (count_insert holds _ t p p' Ht). exact Hv.
  - intros t' rd [(-> & E & _)|[_ H]]%list_lookup_insert_Some; eauto.
  - intros t' [(-> & E & _)|[_ H]]%list_lookup_insert_Some; eauto.
  - intros t' r H. exact (Hold _ H).
  - intros t' r H. exact (Hold _ H).
  - rewrite (count_insert in_loop _ t p p' Ht). lia.
  - exact Hrep.
Qed.

Lemma kcb_inv_boot n : inv n (boot n).
Proof.
  assert (Hc : forall f, f Idle = false -> count f (replicate n Idle) = 0).
  { intros f Hf. unfold count. induction n as [|n IH]; [done|]. simpl. rewrite filter_cons, Hf. by case_decide. }
  split; simpl.
  - apply length_replicate.
  - left. by rewrite Hc.
  - by intros t rd [? _]%lookup_replicate.
  - by intros t [? _]%lookup_replicate.
  - by intros t r ?%elem_of_nil.
  - by intros t r ?%elem_of_nil.
  - rewrite Hc by done. lia.
  - done.
Qed.

(** Applies [kcb_inv_move] to a step and closes the conditions that do not depend on the case. *)
Ltac kmove Hi Ht :=
  intros [= <-]; eapply (kcb_inv_move _ _ _ _ _ _ _ _ _ Hi Ht);
  cbn [holds in_loop Z.b2z i set_i kassertf ret begun set_pc threads returned reports invalidations];
  [try lia|try lia|try (intros ? [= <-]; lia); try done|try done|
   try first [by left|right; eexists; split; [done|simpl; lia]]|
   try first [lia|repeat match goal with |- context [?a <? ?b] => destruct (Z.ltb_spec a b) end; lia]|try done].

Lemma kcb_inv_step n l s s' : Z.of_nat n <= INT_MAX -> inv n s -> step l s = Some s' -> inv n s'.
Proof.
  intros Hn Hi. pose proof Hi as [Hl Hr Hc Ha Hd Hg Hb Hp].
  pose proof (count_bound holds (threads s)) as Hh. pose proof (count_bound in_loop (threads s)) as Hlo.
  destruct l as [t o|t]; cbn [step]; destruct (threads s !! t) as [p|] eqn:Ht; try done; bind_some.
  - destruct o, p; cbn [kcb_call]; try done.
    + kmove Hi Ht.
    + pose proof (count_pos holds _ t _ Ht eq_refl) as Hpos.
      rewrite s32_small by (unfold INT_MIN, INT_MAX in *; lia).
      kmove Hi Ht; [|by rewrite (proj2 (Z.ltb_lt 0 (i s))) by lia].
      rewrite (proj2 (Z.ltb_ge (i s) 0)) in Hb by lia. rewrite (proj2 (Z.ltb_ge _ 0)) by lia. lia.
    + kmove Hi Ht.
    + kmove Hi Ht. intros Hiv. apply Hp. lia.
  - destruct p; cbn [kcb_run]; try done.
    + destruct (Z.ltb_spec (i s) 0); kmove Hi Ht.
    + pose proof (Hc t rd Ht). destruct (Z.eqb_spec (i s) rd) as [<-|]; [|kmove Hi Ht].
      pose proof (count_insert holds _ t _ Holding Ht) as Hone. cbn [holds Z.b2z] in Hone.
      pose proof (count_bound holds (<[t := Holding]> (threads s))) as Hb1. rewrite length_insert in Hb1.
      rewrite s32_small by (unfold INT_MIN, INT_MAX in *; lia).
      kmove Hi Ht.
      rewrite (proj2 (Z.ltb_ge (i s) 0)) in Hb by lia. rewrite (proj2 (Z.ltb_ge _ 0)) by lia. lia.
    + kmove Hi Ht. pose proof (count_pos in_loop _ t _ Ht eq_refl) as Hpos. intros Hiv.
      destruct (Z.leb_spec 0 (i s)); [by apply Hp|]. rewrite (proj2 (Z.ltb_lt (i s) 0)) in Hb by lia. lia.
    + destruct (0 <? i s); kmove Hi Ht.
    + kmove Hi Ht.
    + destruct (Z.eqb_spec (i s) 0) as [E0|]; kmove Hi Ht. rewrite E0 in *. simpl in Hb |- *. lia.
    + destruct inv0; [pose proof (Ha t Ht)|]; kmove Hi Ht.
Qed.

Lemma kcb_inv_reach n s : Z.of_nat n <= INT_MAX -> reach n s -> inv n s.
Proof. intros Hn. induction 1 as [|l s s' Hr IH Hs]; [apply kcb_inv_boot|by eapply kcb_inv_step]. Qed.

(** C23. The counter of callbacks, in every interleaving of up to 2^31 - 1 threads: it is the
    number of references held, or -1 when there are none; once libkext_invalidate_kcb has
    returned, nobody holds a reference, now and later; libkext_get_kcb fails only when the
    counter is invalid; and a program that invalidates once fails no assertion. *)
Theorem kcb_references n s :
  Z.of_nat n <= INT_MAX -> reach n s ->
  (i s = count holds (threads s) ∨ i s = -1 ∧ count holds (threads s) = 0)
  ∧ (forall t r, (t, KCB_OPT_INVALIDATE, r) ∈ returned s -> r = -1 ∧ forall t', threads s !! t' ≠ Some Holding)
  ∧ (forall t r, (t, KCB_OPT_GET, r) ∈ returned s -> r < 0 -> i s = -1)
  ∧ ((invalidations s <= 1)%nat -> reports s = 0%nat).
Proof.
  intros Hn Hr. destruct (kcb_inv_reach n s Hn Hr) as [_ Hc _ _ Hd Hg _ Hp]. split_and!; try done.
  intros t r Hin. destruct (Hd t r Hin) as [E ->]. split; [done|]. intros t' Ht.
  pose proof (count_pos holds _ t' _ Ht eq_refl). pose proof (count_bound holds (threads s)). lia.
Qed.

(** ** Progress *)

Lemma put_step n t s :
  Z.of_nat n <= INT_MAX -> inv n s -> threads s !! t = Some Holding ->
  exists s', step (Call t KCB_OPT_PUT) s = Some s' ∧ inv n s' ∧ threads s' = <[t := Idle]> (threads s)
    ∧ count holds (threads s') = count holds (threads s) - 1 ∧ (0 <= i s -> 0 <= i s').
Proof.
  intros Hn Hi Ht. assert (Hs : step (Call t KCB_OPT_PUT) s = kcb_call t KCB_OPT_PUT Holding s) by (cbn [step]; by rewrite Ht).
  eexists. split; [exact Hs|]. split; [by eapply kcb_inv_step|]. split; [done|].
  assert (E : count holds (<[t := Idle]> (threads s)) = count holds (threads s) - 1)
    by (rewrite (count_insert holds _ t _ Idle Ht); cbn [holds Z.b2z]; lia).
  split; [exact E|]. intros Hpos.
  pose proof (count_pos holds _ t _ Ht eq_refl). pose proof (count_bound holds (threads s)).
  destruct Hi as [Hl [Hr|Hr] _ _ _ _ _ _]; [|lia]. cbn. rewrite s32_small; unfold INT_MIN, INT_MAX in *; lia.
Qed.

(** The holders give their references back; [t] is not one of them. *)
Lemma drain n t p k : forall s,
  Z.of_nat n <= INT_MAX -> inv n s -> threads s !! t = Some p -> holds p = false -> 0 <= i s ->
  count holds (threads s) = Z.of_nat k ->
  exists ls s', run ls s = Some s' ∧ Forall (λ l, exists t', l = Call t' KCB_OPT_PUT) ls
    ∧ inv n s' ∧ threads s' !! t = Some p ∧ i s' = 0.
Proof.
  induction k as [|k IH]; intros s Hn Hi Ht Hp Hpos Hk.
  - exists [], s. split; [done|]. split; [constructor|]. split_and!; try done.
    destruct Hi as [_ [Hr|Hr] _ _ _ _ _ _]; lia.
  - assert (Hex : exists t', threads s !! t' = Some Holding).
    { unfold count in Hk. destruct (filter _ (threads s)) as [|q l] eqn:E; [simpl in Hk; lia|].
      assert (Hin : q ∈ filter (λ p, holds p = true) (threads s)) by (rewrite E; constructor).
      apply list_elem_of_filter in Hin as [Hq Hin]. apply list_elem_of_lookup_1 in Hin as [t' Ht']. exists t'.
      by destruct q. }
    destruct Hex as [t' Ht']. destruct (put_step n t' s Hn Hi Ht') as (s1 & E1 & Hi1 & Hth & Hc1 & Hp1).
    destruct (IH s1 Hn Hi1) as (ls & s2 & E2 & Hls & Hi2 & Ht2 & Hz); [|done|auto|lia|].
    { rewrite Hth, list_lookup_insert_ne by (intros ->; rewrite Ht in Ht'; simplify_eq; done). done. }
    exists (Call t' KCB_OPT_PUT :: ls), s2. cbn [run]. rewrite E1. bind_some. split; [done|].
    split; [constructor; [by eexists|done]|done].
Qed.

(** The steps that are left to a thread in the loop when the counter is 0. *)
Lemma finish_loop t p s :
  threads s !! t = Some p -> in_loop p = true -> i s = 0 ->
  exists m s', run (replicate m (Run t)) s = Some s' ∧ (t, KCB_OPT_INVALIDATE, -1) ∈ returned s'.
Proof.
  intros Ht Hp Hz.
  assert (Hstep : forall m q s0, threads s0 !! t = Some q ->
    run (replicate (S m) (Run t)) s0 = (s1 ← kcb_run t q s0; run (replicate m (Run t)) s1)) by (intros m q s0 E; cbn; by rewrite E).
  assert (Hset : forall q s0, is_Some (threads s0 !! t) -> threads (set_pc t q s0) !! t = Some q).
  { intros q s0 [? E]. cbn. apply list_lookup_insert_eq. by eapply lookup_lt_Some. }
  assert (Hcas : forall s0, is_Some (threads s0 !! t) -> threads s0 !! t = Some InvCas -> i s0 = 0 ->
    exists s', run (replicate 2 (Run t)) s0 = Some s' ∧ (t, KCB_OPT_INVALIDATE, -1) ∈ returned s').
  { intros s0 Hs Hq Hz0. rewrite (Hstep _ _ _ Hq). cbn [kcb_run]. rewrite Hz0. bind_some. cbn [Z.eqb].
    erewrite Hstep by (apply Hset; exact Hs). eexists. split; [done|]. apply elem_of_cons. by left. }
  assert (Htest : forall s0, is_Some (threads s0 !! t) -> threads s0 !! t = Some InvTest -> i s0 = 0 ->
    exists s', run (replicate 3 (Run t)) s0 = Some s' ∧ (t, KCB_OPT_INVALIDATE, -1) ∈ returned s').
  { intros s0 Hs Hq Hz0. rewrite (Hstep _ _ _ Hq). cbn [kcb_run]. rewrite Hz0. bind_some. cbn [Z.ltb Z.compare].
    apply Hcas; [rewrite Hset by done; by eexists|by apply Hset|done]. }
  assert (Hs : is_Some (threads s !! t)) by by eexists.
  destruct p; try done.
  - exists 4%nat. rewrite (Hstep _ _ _ Ht). cbn [kcb_run]. rewrite Hz. bind_some.
    apply Htest; [cbn; rewrite list_lookup_insert_eq by (by eapply lookup_lt_Some); by eexists|cbn; apply list_lookup_insert_eq; by eapply lookup_lt_Some|done].
  - exists 3%nat. by apply Htest.
  - exists 4%nat. rewrite (Hstep _ _ _ Ht). cbn [kcb_run]. bind_some.
    apply Htest; [rewrite Hset by done; by eexists|by apply Hset|done].
  - exists 2%nat. by apply Hcas.
Qed.

Lemma kcb_run_app ls1 ls2 s : run (ls1 ++ ls2) s = s' ← run ls1 s; run ls2 s'.
Proof. revert s. induction ls1 as [|l ls1 IH]; intros s; cbn; [done|]. destruct (step l s); [apply IH|done]. Qed.

(** C25. The first invalidation can always complete: from any state in which a thread is in
    the loop of libkext_invalidate_kcb and the counter is valid, when the holders put their
    references the thread leaves the loop with -1, whatever the other threads have read. *)
Theorem kcb_invalidate_returns n s t p :
  Z.of_nat n <= INT_MAX -> reach n s -> threads s !! t = Some p -> in_loop p = true -> 0 <= i s ->
  exists puts m s', run (puts ++ replicate m (Run t)) s = Some s' ∧ Forall (λ l, exists t', l = Call t' KCB_OPT_PUT) puts
    ∧ (t, KCB_OPT_INVALIDATE, -1) ∈ returned s'.
Proof.
  intros Hn Hr Ht Hp Hpos. pose proof (kcb_inv_reach n s Hn Hr) as Hi.
  destruct (drain n t p (Z.to_nat (count holds (threads s))) s) as (puts & s1 & E1 & Hputs & Hi1 & Ht1 & Hz); try done.
  { by destruct p. } { pose proof (count_bound holds (threads s)). lia. }
  destruct (finish_loop t p s1 Ht1 Hp Hz) as (m & s2 & E2 & Hin).
  exists puts, m, s2. rewrite kcb_run_app, E1. done.
Qed.

Lemma invalid_step n l s s' t p :
  inv n s -> i s = -1 -> threads s !! t = Some p -> in_loop p = true -> step l s = Some s' ->
  i s' = -1 ∧ exists p', threads s' !! t = Some p' ∧ in_loop p' = true.
Proof.
  intros Hi He Ht Hp. pose proof Hi as [_ Hr Hc _ _ _ _ _].
  assert (Hset : forall t' q, t' ≠ t \/ in_loop q = true ->
    exists p', <[t' := q]> (threads s) !! t = Some p' ∧ in_loop p' = true).
  { intros t' q Hq. destruct (decide (t' = t)) as [->|Hne].
    - exists q. split; [apply list_lookup_insert_eq; by eapply lookup_lt_Some|]. by destruct Hq.
    - exists p. by rewrite list_lookup_insert_ne. }
  assert (Hother : forall t' q, threads s !! t' = Some q -> in_loop q = false -> t' ≠ t) by (intros t' q E Hq ->; congruence).
  destruct l as [t' o|t']; cbn [step]; destruct (threads s !! t') as [q|] eqn:Eq; try done; bind_some.
  - destruct o, q; cbn [kcb_call]; try done; try (intros [= <-]; split; [exact He|]; apply Hset; eauto; fail).
    exfalso. pose proof (count_pos holds _ t' _ Eq eq_refl). pose proof (count_bound holds (threads s)). lia.
  - destruct q; cbn [kcb_run]; try done; intros [= <-]; [|pose proof (Hc t' rd Eq)|..].
    2: rewrite He, (proj2 (Z.eqb_neq (-1) rd)) by lia.
    all: rewrite ?He; cbn [Z.ltb Z.leb Z.eqb Z.compare].
    all: split; [exact He|]; cbn [threads ret set_pc kassertf]; apply Hset; eauto.
Qed.

(** A thread that invalidates a counter that is invalid never leaves the loop, in which it
    does not sleep. *)
Theorem kcb_second_invalidation ls n s s' t p :
  Z.of_nat n <= INT_MAX -> reach n s -> i s = -1 -> threads s !! t = Some p -> in_loop p = true -> run ls s = Some s' ->
  i s' = -1 ∧ exists p', threads s' !! t = Some p' ∧ in_loop p' = true.
Proof.
  intros Hn Hr. pose proof (kcb_inv_reach n s Hn Hr) as Hi. clear Hr. revert s p Hi.
  induction ls as [|l ls IH]; intros s p Hi He Ht Hp; cbn [run]; [intros [= <-]; eauto|].
  destruct (step l s) as [s1|] eqn:E; [|done]. bind_some.
  pose proof (kcb_inv_step n l s s1 Hn Hi E) as Hi1. 
  assert (H : i s1 = -1 ∧ exists p', threads s1 !! t = Some p' ∧ in_loop p' = true).
  { exact (invalid_step n l s s1 t p Hi He Ht Hp E). }
  destruct H as (He1 & p' & Ht1 & Hp1). by apply (IH s1 p').
Qed.

(** Two threads with references while a third invalidates. *)
Definition session : list label :=
  [Call 0 KCB_OPT_GET; Run 0; Call 1 KCB_OPT_GET; Run 1; Run 0; Run 1; Run 1; Run 1; Call 2 KCB_OPT_INVALIDATE; Run 2; Run 2].

Lemma session_reach s : run session (boot 3) = Some s -> reach 3 s.
Proof. intros H. by apply (reach_run 3 session (boot 3)); [constructor|]. Qed.

Definition session_state : state :=
  State 2 [Holding; Holding; InvSleep] [(1%nat, KCB_OPT_GET, 1); (0%nat, KCB_OPT_GET, 0)] 0 1.

Lemma kcb_references_witness : reach 3 session_state ∧ i session_state = 2 ∧ reports session_state = 0%nat.
Proof.
  assert (Hr : reach 3 session_state) by (apply session_reach; vm_compute; reflexivity).
  split; [exact Hr|]. destruct (kcb_references 3 session_state ltac:(done) Hr) as (_ & _ & _ & H).
  split; [reflexivity|]. by apply H; simpl; lia.
Defined.

Lemma kcb_invalidate_returns_witness :
  exists puts m s', run (puts ++ replicate m (Run 2)) session_state = Some s' ∧ Forall (λ l, exists t', l = Call t' KCB_OPT_PUT) puts
    ∧ (2%nat, KCB_OPT_INVALIDATE, -1) ∈ returned s'.
Proof.
  apply (kcb_invalidate_returns 3 session_state 2 InvSleep); [done| |done|done|done].
  apply session_reach. vm_compute. reflexivity.
Defined.

End Kcb.

(** ** Allocation *)

Module Malloc.

(** The blocks of the kernel's allocator, the counter of libkext_mstat and the complaints it
    has logged. *)
Record mem := Mem { heap : gmap N (list cell); cnt : Z; complaints : nat }.

Definition boot : mem := Mem ∅ 0 0.

(** OSDecrementAtomic64 and OSIncrementAtomic64 return the old value. *)
Definition libkext_mstat (opt : Z) (m : mem) : mem :=
  let complain b c := Mem (heap m) c (if b : bool then complaints m else S (complaints m)) in
  if opt =? 0 then complain (0 <? cnt m) (s64 (cnt m - 1))
  else if opt =? 1 then complain (0 <=? cnt m) (s64 (cnt m + 1))
  else complain (cnt m =? 0) (cnt m).

(** _MALLOC: no block for size 0, or when the allocator has none ([at_] is the address it
    picks); [None]: the address is in use.  _FREE of NULL does nothing; [None]: not a block. *)
Definition _MALLOC (at_ : option N) (size : nat) (m : mem) : option (option N * mem) :=
  match size, at_ with
  | O, _ | _, None => Some (None, m)
  | _, Some a =>
    match heap m !! a with
    | Some _ => None
    | None => Some (Some a, Mem (<[a := replicate size None]> (heap m)) (cnt m) (complaints m))
    end
  end.
Definition _FREE (addr : option N) (m : mem) : option mem :=
  match addr with
  | None => Some m
  | Some a => _ ← heap m !! a; Some (Mem (delete a (heap m)) (cnt m) (complaints m))
  end.

Definition libkext_malloc (at_ : option N) (size : nat) (m : mem) : option (option N * mem) :=
  '(addr, m) ← _MALLOC at_ size m;
  Some (addr, match addr with Some _ => libkext_mstat 1 m | None => m end).

(** [None] also for a copy outside a block.  The assertion that a NULL address comes with
    size 0 only logs. *)
Definition libkext_realloc2 (at_ : option N) (addr0 : option N) (sz0 sz1 : nat) (m : mem) : option (option N * mem) :=
  match addr0 with
  | None => _MALLOC at_ sz1 m
  | Some a0 =>
    if (sz1 =? sz0)%nat then Some (addr0, m) else
    '(addr1, m) ← _MALLOC at_ sz1 m;
    match addr1 with
    | None => Some (None, m)
    | Some a1 =>
      b0 ← heap m !! a0;
      b1 ← heap m !! a1;
      if (length b0 <? Nat.min sz0 sz1)%nat then None else
      b ← store b1 0 (take (Nat.min sz0 sz1) b0);
      m ← _FREE addr0 (Mem (<[a1 := b]> (heap m)) (cnt m) (complaints m));
      Some (addr1, m)
    end
  end.

Definition libkext_realloc (at_ : option N) (addr0 : option N) (sz0 sz1 : nat) (m : mem) : option (option N * mem) :=
  '(addr1, m) ← libkext_realloc2 at_ addr0 sz0 sz1 m;
  Some (addr1, match addr0, addr1 with None, Some _ => libkext_mstat 1 m | _, _ => m end).

Definition libkext_mfree (addr : option N) (m : mem) : option mem :=
  _FREE addr (match addr with Some _ => libkext_mstat 0 m | None => m end).

Definition libkext_massert (m : mem) : mem := libkext_mstat 2 m.

(** ** The counter *)

Inductive op : Set :=
| OMalloc (at_ : option N) (size : nat)
| ORealloc (at_ addr0 : option N) (sz0 sz1 : nat)
| OFree (addr : option N).

Definition step (o : op) (m : mem) : option mem :=
  match o with
  | OMalloc at_ size => snd <$> libkext_malloc at_ size m
  | ORealloc at_ addr0 sz0 sz1 => snd <$> libkext_realloc at_ addr0 sz0 sz1 m
  | OFree addr => libkext_mfree addr m
  end.
Fixpoint run (os : list op) (m : mem) : option mem :=
  match os with [] => Some m | o :: os' => m' ← step o m; run os' m' end.

(** The counter is the number of blocks, and nothing has been logged. *)
Definition counted (m : mem) : Prop := cnt m = Z.of_nat (size (heap m)) ∧ complaints m = 0%nat.

Lemma malloc_spec at_ sz m addr m' :
  _MALLOC at_ sz m = Some (addr, m') ->
  cnt m' = cnt m ∧ complaints m' = complaints m
  ∧ match addr with
    | Some a => heap m !! a = None ∧ heap m' = <[a := replicate sz None]> (heap m)
    | None => heap m' = heap m
    end.
Proof.
  unfold _MALLOC. destruct sz, at_; try (by intros [= <- <-]).
  destruct (heap m !! n) eqn:E; [done|]. intros [= <- <-]. done.
Qed.

Lemma counted_new at_ sz m addr m1 :
  counted m -> Z.of_nat (size (heap m)) < 9223372036854775807 -> _MALLOC at_ sz m = Some (addr, m1) ->
  let m' := match addr with Some _ => libkext_mstat 1 m1 | None => m1 end in
  counted m' ∧ (size (heap m') <= S (size (heap m)))%nat.
Proof.
  intros [Hc Hl] Hb E. destruct (malloc_spec _ _ _ _ _ E) as (Ec & El & Eh).
  destruct addr as [a|]; cbv zeta; unfold counted; simpl; [|rewrite Eh; split; [split; congruence|lia]].
  destruct Eh as [Hn ->]. rewrite Ec, Hc, map_size_insert_None by done.
  rewrite (proj2 (Z.leb_le _ _)), s64_small by lia. split; [split; [lia|congruence]|lia].
Qed.

Lemma counted_step o m m' :
  counted m -> Z.of_nat (size (heap m)) < 9223372036854775807 -> step o m = Some m' ->
  counted m' ∧ (size (heap m') <= S (size (heap m)))%nat.
Proof.
  intros [Hc Hl] Hb. destruct o as [at_ sz|at_ a0 sz0 sz1|a]; cbn [step].
  - unfold libkext_malloc. destruct (_MALLOC at_ sz m) as [[addr m1]|] eqn:E; [|done]. bind_some. intros [= <-].
    by apply (counted_new _ _ _ _ _ (conj Hc Hl) Hb E).
  - unfold libkext_realloc, libkext_realloc2. destruct a0 as [a0|].
    + destruct (sz1 =? sz0)%nat; [bind_some; intros [= <-]; split; [done|simpl; lia]|].
      destruct (_MALLOC at_ sz1 m) as [[addr m1]|] eqn:E; [|done]. bind_some.
      destruct (malloc_spec _ _ _ _ _ E) as (Ec & El & Eh). destruct addr as [a1|].
      2: { bind_some. intros [= <-]. simpl. rewrite Eh. split; [split; congruence|lia]. }
      destruct Eh as [Hn Eh]. destruct (heap m1 !! a0) as [b0|] eqn:E0; [|done]. bind_some.
      destruct (heap m1 !! a1) as [b1|] eqn:E1; [|done]. bind_some. case_match; [done|].
      destruct (store b1 0 _) as [b|]; [|done]. bind_some. cbn [_FREE heap cnt complaints].
      destruct (<[a1:=b]> (heap m1) !! a0) eqn:E2; [|done]. bind_some. intros [= <-]. unfold counted. simpl.
      assert (Hsz : size (heap m1) = S (size (heap m))) by (rewrite Eh; by apply map_size_insert_None).
      assert (size (delete a0 (<[a1:=b]> (heap m1))) = size (heap m)) as ->.
      { rewrite map_size_delete_Some by by eexists. rewrite map_size_insert_Some by by eexists. by rewrite Hsz. }
      rewrite Ec, El. split; [done|lia].
    + destruct (_MALLOC at_ sz1 m) as [[addr m1]|] eqn:E; [|done]. bind_some. intros [= <-].
      by apply (counted_new _ _ _ _ _ (conj Hc Hl) Hb E).
  - unfold libkext_mfree. destruct a as [a|]; cbn [_FREE]; [|intros [= <-]; split; [done|lia]].
    change (heap (libkext_mstat 0 m)) with (heap m). destruct (heap m !! a) as [b|] eqn:E; [|done]. bind_some. intros [= <-].
    assert (Hsz : size (heap m) = S (size (delete a (heap m)))).
    { rewrite <- (insert_delete_id (heap m) a b E) at 1. apply map_size_insert_None. apply lookup_delete_eq. }
    unfold counted, libkext_mstat. simpl. rewrite Hc, Hsz, (proj2 (Z.ltb_lt _ _)), s64_small by lia. split; [split; [lia|done]|lia].
Qed.

(** The allocation count: after any sequence of allocations, reallocations and releases
    of blocks the caller has, the counter is the number of live blocks, nothing has been
    logged, and libkext_massert complains exactly when a block is left. *)
Theorem malloc_counts os m :
  Z.of_nat (length os) < 9223372036854775808 -> run os boot = Some m ->
  cnt m = Z.of_nat (size (heap m)) ∧ complaints m = 0%nat
  ∧ (complaints (libkext_massert m) = 0%nat <-> heap m = ∅).
Proof.
  intros Hl Hr.
  assert (Hinv : forall os m0, counted m0 -> Z.of_nat (length os + size (heap m0)) < 9223372036854775808 ->
    run os m0 = Some m -> counted m).
  { clear os Hl Hr. induction os as [|o os IH]; intros m0 Hc Hb; cbn [run length] in *; [by intros [= <-]|].
    destruct (step o m0) as [m1|] eqn:E; [|done]. bind_some.
    destruct (counted_step o m0 m1 Hc ltac:(lia) E). apply IH; [done|lia]. }
  destruct (Hinv os boot) as [Hc Hz]; [split; done|by rewrite Nat.add_0_r|done|].
  split; [done|]. split; [done|]. unfold libkext_massert, libkext_mstat. simpl. rewrite Hc.
  destruct (Z.eqb_spec (Z.of_nat (size (heap m))) 0) as [E|E].
  - split; [intros _|done]. apply map_size_empty_inv. lia.
  - split; [done|]. intros E'. by rewrite E', map_size_empty in E.
Qed.

(** Reallocation: the new block starts with the contents of the old one, as far as both
    sizes go, the other blocks stay, and the old one is gone; when there is no new block,
    nothing has changed. *)
Theorem realloc_contents at_ a0 b0 sz1 m :
  heap m !! a0 = Some b0 -> (forall a, at_ = Some a -> heap m !! a = None) ->
  exists r m', libkext_realloc at_ (Some a0) (length b0) sz1 m = Some (r, m')
    ∧ match r with
      | None => m' = m ∧ (at_ = None ∨ sz1 = 0%nat)
      | Some a1 => exists b1, heap m' !! a1 = Some b1 ∧ length b1 = sz1
          ∧ take (Nat.min (length b0) sz1) b1 = take (Nat.min (length b0) sz1) b0
          ∧ (a1 ≠ a0 -> heap m' !! a0 = None) ∧ forall a, a ≠ a0 -> a ≠ a1 -> heap m' !! a = heap m !! a
      end.
Proof.
  intros H0 Hfresh. unfold libkext_realloc, libkext_realloc2. destruct (Nat.eqb_spec sz1 (length b0)) as [->|Hne].
  - bind_some. eexists _, _. split; [done|]. exists b0. by rewrite Nat.min_id.
  - unfold _MALLOC. destruct sz1 as [|sz]; [bind_some; exists None, m; auto|].
    destruct at_ as [a1|]; [|bind_some; exists None, m; auto].
    specialize (Hfresh a1 eq_refl). rewrite Hfresh. bind_some. cbn [heap].
    assert (Ha : a1 ≠ a0) by congruence. rewrite (lookup_insert_ne _ a1 a0) by exact Ha. rewrite H0, lookup_insert_eq. bind_some.
    rewrite (proj2 (Nat.ltb_ge _ _)) by lia.
    destruct (store_ok (replicate (S sz) None) 0 (take (Nat.min (length b0) (S sz)) b0)) as (b & -> & Hlb & Htb);
      [lia|rewrite length_take, length_replicate; lia|]. bind_some. cbn [_FREE heap].
    rewrite !(lookup_insert_ne _ a1 a0) by exact Ha. rewrite H0. bind_some. eexists _, _. split; [done|]. simpl. exists b.
    rewrite lookup_delete_ne by done. rewrite lookup_insert_eq. split; [done|]. split; [by rewrite Hlb, length_replicate|].
    rewrite length_take in Htb. simpl in Htb. split.
    { rewrite <- Htb. f_equal. lia. }
    split; [intros _; apply lookup_delete_eq|]. intros a Hn0 Hn1. by rewrite lookup_delete_ne, !lookup_insert_ne by done.
Qed.

Lemma malloc_counts_witness :
  exists m, run [OMalloc (Some 1%N) 4; ORealloc (Some 2%N) (Some 1%N) 4 8; ORealloc (Some 3%N) None 0 5; OFree (Some 3%N); OFree None] boot = Some m
    ∧ cnt m = 1 ∧ complaints m = 0%nat.
Proof.
  eexists. split; [vm_compute; reflexivity|]. split; [reflexivity|].
  eapply (malloc_counts [OMalloc (Some 1%N) 4; ORealloc (Some 2%N) (Some 1%N) 4 8; ORealloc (Some 3%N) None 0 5; OFree (Some 3%N); OFree None]);
    [done|vm_compute; reflexivity].
Defined.

End Malloc.

(** ** The UUID of an image *)

Module Uuid.

Definition MH_MAGIC : Z := 4277009102.
Definition MH_CIGAM : Z := 3472551422.
Definition MH_MAGIC_64 : Z := 4277009103.
Definition MH_CIGAM_64 : Z := 3489328638.
Definition LC_UUID : Z := 27.
Definition EBADMACHO : Z := 88.
Definition sizeof_mach_header : nat := 28.
Definition UUID_STR_BUFSZ : nat := 37.

Definition fmt_02x (b : Byte.byte) : string := hex_digits 2 (Z.of_N (Byte.to_N b)).
Definition hex (l : list Byte.byte) : string := foldr (λ b s, fmt_02x b +:+ s) ""%string l.

(** The format of both functions, for 16 bytes. *)
Definition uuid_text (u : list Byte.byte) : string :=
  hex (take 4 u) +:+ "-" +:+ hex (take 2 (drop 4 u)) +:+ "-" +:+ hex (take 2 (drop 6 u)) +:+ "-"
  +:+ hex (take 2 (drop 8 u)) +:+ "-" +:+ hex (take 6 (drop 10 u)).

Definition libkext_format_uuid_string (u : list Byte.byte) : string := snprintf UUID_STR_BUFSZ (uuid_text u).

(** The loop over the load commands; the image is the memory from its address on, and a read
    behind it is [None]. *)
Fixpoint find_uuid (ncmds : nat) (img : list Byte.byte) (p : nat) : option (option (list Byte.byte)) :=
  match ncmds with
  | O => Some None
  | S n =>
    cmd ← word 4 img p;
    if cmd =? LC_UUID then
      let u := take 16 (drop (p + 8) img) in
      if (length u =? 16)%nat then Some (Some u) else None
    else
      cmdsize ← word 4 img (p + 4);
      find_uuid n img (p + Z.to_nat cmdsize)
  end.

(** The error, and the text when there is none. *)
Definition libkext_vma_uuid (img : list Byte.byte) : option (Z * option string) :=
  magic ← word 4 img 0;
  let header := if (magic =? MH_MAGIC) || (magic =? MH_CIGAM) then Some sizeof_mach_header
                else if (magic =? MH_MAGIC_64) || (magic =? MH_CIGAM_64) then Some sizeof_mach_header_64
                else None in
  match header with
  | None => Some (EBADMACHO, None)
  | Some h =>
    ncmds ← word 4 img 16;
    r ← find_uuid (Z.to_nat ncmds) img h;
    Some (match r with
          | Some u => (0, Some (snprintf UUID_STR_BUFSZ (uuid_text u)))
          | None => (ENOENT, None)
          end)
  end.

(** ** Images *)

Definition command : Type := Z * list Byte.byte.

Definition command_bytes (c : command) : list Byte.byte :=
  le_bytes 4 c.1 ++ le_bytes 4 (8 + Z.of_nat (length c.2)) ++ c.2.

(** A 64-bit image with these load commands, and what follows them. *)
Definition image (cs : list command) (rest : list Byte.byte) : list Byte.byte :=
  le_bytes 4 MH_MAGIC_64 ++ le_bytes 4 16777228 ++ le_bytes 4 2 ++ le_bytes 4 11
  ++ le_bytes 4 (Z.of_nat (length cs)) ++ le_bytes 4 0 ++ le_bytes 4 0 ++ le_bytes 4 0
  ++ concat (map command_bytes cs) ++ rest.

Definition command_ok (c : command) : Prop :=
  0 <= c.1 < 4294967296 ∧ 8 + Z.of_nat (length c.2) < 4294967296
  ∧ (c.1 = LC_UUID -> length c.2 = 16%nat).

(** The contents of the first UUID command. *)
Definition uuid_of (cs : list command) : option (list Byte.byte) := snd <$> head (filter (λ c, c.1 = LC_UUID) cs).

Lemma word_here n v a r : 0 <= v < 256 ^ Z.of_nat n -> word n (a ++ le_bytes n v ++ r) (length a) = Some v.
Proof.
  intros Hv. unfold word. rewrite (proj2 (Nat.leb_le _ _)) by (rewrite !length_app, le_bytes_length; lia).
  by rewrite drop_app_length, field_value, Z.mod_small.
Qed.

Lemma word_next n k v w a r : 0 <= v < 256 ^ Z.of_nat n ->
  word n (a ++ le_bytes k w ++ le_bytes n v ++ r) (length a + k) = Some v.
Proof.
  intros Hv. rewrite app_assoc. replace (length a + k)%nat with (length (a ++ le_bytes k w)) by (rewrite length_app, le_bytes_length; lia).
  by apply word_here.
Qed.

Lemma find_uuid_image cs : forall a rest, Forall command_ok cs ->
  find_uuid (length cs) (a ++ concat (map command_bytes cs) ++ rest) (length a) = Some (uuid_of cs).
Proof.
  induction cs as [|[cmd body] cs IH]; intros a rest Hok; [done|]. inversion_clear Hok as [|? ? [Hc [Hs Hu]] Hok'].
  simpl in Hc, Hs, Hu. cbn [length find_uuid map concat]. 
  change (command_bytes (cmd, body)) with (le_bytes 4 cmd ++ le_bytes 4 (8 + Z.of_nat (length body)) ++ body).
  rewrite <- !app_assoc, word_here by (change (256 ^ Z.of_nat 4) with 4294967296; lia). bind_some.
  unfold uuid_of. rewrite filter_cons. cbn [fst]. destruct (Z.eqb_spec cmd LC_UUID) as [->|Hne].
  - rewrite decide_True by done. cbn [head]. specialize (Hu eq_refl).
    assert (E : take 16 (drop (length a + 8) (a ++ le_bytes 4 LC_UUID ++ le_bytes 4 (8 + Z.of_nat (length body)) ++ body ++ concat (map command_bytes cs) ++ rest)) = body).
    { rewrite drop_app_add, drop_field by lia. rewrite drop_field by lia. cbn [Nat.sub]. rewrite drop_0, <- Hu. by rewrite take_app_length. }
    rewrite E, Hu. done.
  - rewrite decide_False by done. rewrite word_next by (change (256 ^ Z.of_nat 4) with 4294967296; lia). bind_some.
    specialize (IH (a ++ le_bytes 4 cmd ++ le_bytes 4 (8 + Z.of_nat (length body)) ++ body) rest Hok').
    rewrite <- !app_assoc in IH. etrans; [|exact IH]. f_equal. rewrite !length_app, !le_bytes_length. lia.
Qed.

(** ** The text *)

Fixpoint unhex (l : list Byte.byte) : list Byte.byte :=
  match l with
  | a :: b :: l' =>
    match hexval a, hexval b with
    | Some x, Some y => match Byte.of_N (Z.to_N (16 * x + y)) with Some c => c :: unhex l' | None => [] end
    | _, _ => []
    end
  | _ => []
  end.

(** The bytes a UUID text stands for. *)
Definition parse_uuid (s : string) : list Byte.byte := unhex (filter (λ c, c ≠ Byte.x2d) (bytes_of_string s)).

Lemma fmt_02x_bytes b : exists x y, bytes_of_string (fmt_02x b) = [x; y] ∧ x ≠ Byte.x2d ∧ y ≠ Byte.x2d ∧ unhex [x; y] = [b].
Proof. destruct b; eexists _, _; (split; [vm_compute; reflexivity|]); split_and!; done. Qed.

Lemma hex_parts l : exists t, filter (λ c, c ≠ Byte.x2d) (bytes_of_string (hex l)) = t ∧ bytes_of_string (hex l) = t
  ∧ length t = (2 * length l)%nat ∧ forall r, unhex (t ++ r) = l ++ unhex r.
Proof.
  induction l as [|b l (t & E1 & E2 & Hl & Hu)]; [by exists []|].
  destruct (fmt_02x_bytes b) as (x & y & Eb & Hx & Hy & Hxy).
  exists (x :: y :: t). cbn [hex foldr]. fold (hex l). rewrite bytes_of_string_app, Eb, E2. split_and!; [|done|simpl; lia|].
  - cbn [app]. rewrite E2 in E1. rewrite !filter_cons, E1. by rewrite !decide_True.
  - intros r. specialize (Hu r). cbn [app unhex] in *. destruct (hexval x), (hexval y); try done.
    destruct (Byte.of_N _) as [c|]; [|done]. simplify_eq. by rewrite Hu.
Qed.

Lemma uuid_text_spec u : length u = 16%nat -> parse_uuid (uuid_text u) = u ∧ String.length (uuid_text u) = 36%nat.
Proof.
  intros Hl. rewrite <- bytes_of_string_length. unfold parse_uuid, uuid_text. rewrite !bytes_of_string_app.
  change (bytes_of_string "-") with [Byte.x2d]. rewrite !filter_app.
  change (filter (λ c, c ≠ Byte.x2d) [Byte.x2d]) with (@nil Byte.byte). cbn [app].
  destruct (hex_parts (take 4 u)) as (t1 & F1 & E1 & L1 & U1), (hex_parts (take 2 (drop 4 u))) as (t2 & F2 & E2 & L2 & U2),
    (hex_parts (take 2 (drop 6 u))) as (t3 & F3 & E3 & L3 & U3), (hex_parts (take 2 (drop 8 u))) as (t4 & F4 & E4 & L4 & U4),
    (hex_parts (take 6 (drop 10 u))) as (t5 & F5 & E5 & L5 & U5).
  rewrite F1, F2, F3, F4, F5, E1, E2, E3, E4, E5. split.
  - rewrite U1, U2, U3, U4. rewrite <- (app_nil_r t5), U5. cbn [unhex]. rewrite app_nil_r.
    do 16 (destruct u as [|? u]; [done|]). by destruct u.
  - repeat (rewrite length_app; cbn [length]). rewrite L1, L2, L3, L4, L5, !length_take, !length_drop, Hl. done.
Qed.

(** C35. The UUID of an image with any load commands: the text of the first UUID command, from
    which its 16 bytes can be read back, and the one libkext_format_uuid_string makes of
    them; ENOENT when there is none; and EBADMACHO for what is not a Mach-O image. *)
Theorem vma_uuid_image cs rest img magic :
  Forall command_ok cs -> Z.of_nat (length cs) < 4294967296 ->
  match uuid_of cs with
  | Some u => exists s, libkext_vma_uuid (image cs rest) = Some (0, Some s) ∧ s = libkext_format_uuid_string u ∧ parse_uuid s = u
  | None => libkext_vma_uuid (image cs rest) = Some (ENOENT, None)
  end
  ∧ (word 4 img 0 = Some magic -> magic ∉ [MH_MAGIC; MH_CIGAM; MH_MAGIC_64; MH_CIGAM_64] -> libkext_vma_uuid img = Some (EBADMACHO, None)).
Proof.
  intros Hok Hn. split.
  - assert (E : libkext_vma_uuid (image cs rest) =
      Some (match uuid_of cs with Some u => (0, Some (snprintf UUID_STR_BUFSZ (uuid_text u))) | None => (ENOENT, None) end)).
    { set (a := le_bytes 4 MH_MAGIC_64 ++ le_bytes 4 16777228 ++ le_bytes 4 2 ++ le_bytes 4 11).
      set (h := a ++ le_bytes 4 (Z.of_nat (length cs)) ++ le_bytes 4 0 ++ le_bytes 4 0 ++ le_bytes 4 0).
      assert (Eh : image cs rest = h ++ concat (map command_bytes cs) ++ rest)
        by (subst h a; unfold image; by rewrite <- !app_assoc).
      assert (Hm : word 4 (image cs rest) 0 = Some MH_MAGIC_64) by exact (word_here 4 MH_MAGIC_64 [] _ ltac:(done)).
      assert (Hw : word 4 (image cs rest) 16 = Some (Z.of_nat (length cs))).
      { rewrite Eh. subst h. rewrite <- app_assoc, <- (app_assoc (le_bytes 4 (Z.of_nat _))). apply (word_here 4 _ a). change (256 ^ Z.of_nat 4) with 4294967296. lia. }
      unfold libkext_vma_uuid. rewrite Hm. bind_some. cbn [Z.eqb Pos.eqb orb MH_MAGIC MH_CIGAM MH_MAGIC_64].
      rewrite Hw. bind_some. rewrite Nat2Z.id, Eh. change sizeof_mach_header_64 with 32%nat.
      replace 32%nat with (length h) by (subst h; by rewrite !length_app, !le_bytes_length).
      by rewrite find_uuid_image. }
    rewrite E. destruct (uuid_of cs) as [u|] eqn:Eu; [|done]. eexists. split; [done|]. split; [done|].
    assert (Hu : length u = 16%nat).
    { unfold uuid_of in Eu. destruct (filter _ cs) as [|c l] eqn:Ef; [done|]. simpl in Eu. injection Eu as <-.
      assert (Hin : c ∈ filter (λ c, c.1 = LC_UUID) cs) by (rewrite Ef; constructor).
      apply list_elem_of_filter in Hin as [Hc Hin]. by apply (proj1 (Forall_forall _ _) Hok c Hin). }
    destruct (uuid_text_spec u Hu) as [Hp Hl]. unfold snprintf. rewrite strlcpy_fits; [exact Hp|]. rewrite Hl. unfold UUID_STR_BUFSZ. lia.
  - intros Hw Hm. unfold libkext_vma_uuid. rewrite Hw. bind_some. rewrite !not_elem_of_cons in Hm.
    destruct Hm as (H1 & H2 & H3 & H4 & _). apply Z.eqb_neq in H1, H2, H3, H4. by rewrite H1, H2, H3, H4.
Qed.

Lemma vma_uuid_image_witness :
  exists s, libkext_vma_uuid (image [(25, replicate 64 Byte.x00); (LC_UUID, replicate 16 Byte.xc5); (2, [])] []) = Some (0, Some s)
    ∧ s = "c5c5c5c5-c5c5-c5c5-c5c5-c5c5c5c5c5c5"%string.
Proof.
  assert (Hok : Forall command_ok [(25, replicate 64 Byte.x00); (LC_UUID, replicate 16 Byte.xc5); (2, [])])
    by (repeat apply Forall_cons_2; [split; [by vm_compute|split; [by vm_compute|done]]..|by constructor]).
  destruct (vma_uuid_image _ [] [] 0 Hok eq_refl) as [(s & E & Es & _) _].
  exists s. split; [exact E|]. rewrite Es. vm_compute. reflexivity.
Defined.

(** A byte-swapped image is accepted by its magic number, but its fields are read as they
    are: with one UUID command the count is 2^24 and the command is not recognised. *)
Example vma_uuid_swapped :
  let swapped := rev (le_bytes 4 MH_MAGIC_64) ++ replicate 12 Byte.x00 ++ rev (le_bytes 4 1) ++ replicate 12 Byte.x00
                   ++ rev (le_bytes 4 LC_UUID) ++ rev (le_bytes 4 24) ++ replicate 16 Byte.xc5 in
  word 4 swapped 0 = Some MH_CIGAM_64 ∧ word 4 swapped 16 = Some 16777216 ∧ word 4 swapped 32 ≠ Some LC_UUID.
Proof. vm_compute. done. Qed.

End Uuid.
