(* ===== verification/Cpu.v ===== *)
(** * Processors (kext/lib/cpu.c, and cpuinfo of kext/procfs_linux.c)

    The file cpuinfo has an entry for each processor.  What it says comes from cpuid and
    model registers on x86_64 and from sysctl values on arm64; the tables that give the
    features their names and the loops that print the entries are the code's own. *)

From S2P Require Import Prelude Kernel Structure Subr Loadavg Linux Linuxproc.

(** ** Bit fields *)

Definition all_ones : Z := 4294967295.

(** The shifts of 32-bit words; the offset and the end are at most 32. *)
Definition extract_bitfield (infield width offset : Z) : Z :=
  let bitmask :=
    if offset + width =? 32 then u32 (Z.shiftl all_ones offset)
    else Z.lxor (u32 (Z.shiftl all_ones offset)) (u32 (Z.shiftl all_ones (offset + width))) in
  Z.shiftr (Z.land infield bitmask) offset.

(** x86_64: bsr gives the position of the highest bit. *)
Definition get_bitfield_width_x86 (number : Z) : Z :=
  let number := u32 (number - 1) in
  if number =? 0 then 0 else Z.log2 number + 1.

(** arm64: [32 - clz]. *)
Definition get_bitfield_width_arm (number : Z) : Z :=
  if number =? 0 then 0
  else let number := number - 1 in
       if number =? 0 then 0 else 32 - (31 - Z.log2 number).

(** ** x86_64 *)

Definition bit (n : Z) : Z := Z.shiftl 1 n.

Definition feature_list : list Z := map bit
  [0; 1; 2; 3; 4; 5; 6; 7; 8; 9; 11; 12; 13; 14; 15; 16; 17; 18; 19; 21; 22; 23; 24; 25; 26; 27; 28;
   29; 31; 32; 33; 34; 35; 36; 37; 38; 39; 40; 41; 42; 43; 44; 45; 46; 47; 49; 50; 51; 52; 53; 54; 55;
   56; 57; 58; 59; 60; 61; 62; 63].
Definition feature_flags : list string :=
  ["fpu"; "vme"; "de"; "pse"; "tsc"; "msr"; "pae"; "mce"; "cx8"; "apic"; "sep"; "mtrr"; "pge"; "mca";
   "cmov"; "pat"; "pse36"; "psn"; "clfsh"; "ds"; "acpi"; "mmx"; "fxsr"; "sse"; "sse2"; "ss"; "htt";
   "tm"; "pbe"; "sse3"; "pclmulqdq"; "dtes64"; "mon"; "dscpl"; "vmx"; "smx"; "est"; "tm2"; "ssse3";
   "cid"; "seglim64"; "fma"; "cx16"; "tpr"; "pdcm"; "pcid"; "dca"; "sse4.1"; "sse4.2"; "x2apic";
   "movbe"; "popcnt"; "tsctmr"; "aes"; "xsave"; "osxsave"; "avx"; "f16c"; "rdrand"; "vmm"]%string.

Definition feature_ext_list : list Z := map bit
  [11; 20; 26; 27; 29; 32; 37; 40].
Definition feature_ext_flags : list string :=
  ["syscall"; "xd"; "1gbpage"; "rdtscp"; "em64t"; "lahf"; "lzcnt"; "prefetchcw"]%string.

Definition leaf7_feature_list : list Z := map bit
  [0; 1; 2; 3; 4; 5; 6; 7; 8; 9; 10; 11; 12; 13; 14; 15; 16; 17; 18; 19; 20; 21; 23; 24; 25; 28; 29;
   30; 31; 32; 33; 34; 35; 36; 37; 40; 41; 42; 43; 44; 46; 54; 57; 59; 60; 62].
Definition leaf7_feature_flags : list string :=
  ["rdwrfsgs"; "tsc_thread_offset"; "sgx"; "bmi1"; "hle"; "avx2"; "fdpeo"; "smep"; "bmi2"; "erms";
   "invpcid"; "rtm"; "pqm"; "fpu_csds"; "mpx"; "pqe"; "avx512f"; "avx512dq"; "rdseed"; "adx"; "smap";
   "avx512ifma"; "clfsopt"; "clwb"; "ipt"; "avx512cd"; "sha"; "avx512bw"; "avx512vl"; "prefetchwt1";
   "avx512vbmi"; "umip"; "pku"; "ospke"; "waitpkg"; "gfni"; "vaes"; "vpclmulqdq"; "avx512vnni";
   "avx512bitalg"; "avx512vpopcntdq"; "rdpid"; "cldemote"; "movdiri"; "movdiri64b"; "sgxlc"]%string.

Definition leaf7_feature_ext_list : list Z := map bit
  [2; 3; 4; 9; 10; 13; 26; 27; 28; 29; 30; 31].
Definition leaf7_feature_ext_flags : list string :=
  ["avx5124vnniw"; "avx5124fmaps"; "fsrepmov"; "srbds_ctlr"; "mdclear"; "tsxfa"; "ibrs"; "stibp";
   "l1d"; "acapmsr"; "ccapmsr"; "ssbd"]%string.

(** The write-protection bit of cr0. *)
Definition CR0_WP : Z := bit 16.
Definition disable_write_protection (cr0 : Z) : Z := Z.ldiff cr0 CR0_WP.
Definition enable_write_protection (cr0 : Z) : Z := Z.lor cr0 CR0_WP.

(** What cpuid_info() points to, as far as it is used. *)
Record i386_cpu_info := I386CpuInfo {
  cpuid_vendor : string; cpuid_brand_string : string;
  cpuid_family : Z; cpuid_model : Z; cpuid_extmodel : Z; cpuid_stepping : Z;
  cpuid_features : Z; cpuid_extfeatures : Z; cpuid_leaf7_features : Z; cpuid_leaf7_extfeatures : Z;
  cache_linesize : Z; cpuid_cache_size : Z; core_count : Z;
  cpuid_address_bits_physical : Z; cpuid_address_bits_virtual : Z }.

(** Private functions and data of the kernel: symbols.c makes a pointer for each, which is
    NULL and which nothing sets. *)
Definition _processor_count : option Z := None.
Definition _tscFreq : option Z := None.
Definition _cpuid_info : option i386_cpu_info := None.

Definition with_leaf7 (v : Z) (i : i386_cpu_info) : i386_cpu_info :=
  I386CpuInfo (cpuid_vendor i) (cpuid_brand_string i) (cpuid_family i) (cpuid_model i) (cpuid_extmodel i) (cpuid_stepping i)
    (cpuid_features i) (cpuid_extfeatures i) v (cpuid_leaf7_extfeatures i) (cache_linesize i) (cpuid_cache_size i)
    (core_count i) (cpuid_address_bits_physical i) (cpuid_address_bits_virtual i).

(** The names are appended to a local array that is not initialised and that is gone when
    the function returns; [init] is the text its memory happens to hold.  The array has two
    pointers for each name, or eight when no feature is set. *)
Definition flags_text (bits : list Z) (names : list string) (features : Z) (init : string) : string :=
  if features =? 0 then strlcat 64 init ""
  else
    let size := (length names * 2 * 8 * 8)%nat in
    foldl (λ flags e, if (features &? e.1)%C then strlcat size (strlcat size flags e.2) " " else flags)
      init (zip bits names).

Definition get_cpu_flags_x86 (i : i386_cpu_info) : string -> string := flags_text feature_list feature_flags (cpuid_features i).
Definition get_cpu_ext_flags_x86 (i : i386_cpu_info) : string -> string :=
  flags_text feature_ext_list feature_ext_flags (cpuid_extfeatures i).
Definition get_leaf7_ext_flags_x86 (i : i386_cpu_info) : string -> string :=
  flags_text leaf7_feature_ext_list leaf7_feature_ext_flags (cpuid_leaf7_extfeatures i).

Section X86.
(** eax, ebx, ecx and edx of a leaf; model-specific registers. *)
Variable do_cpuid : Z -> Z * Z * Z * Z.
Variable rdmsr64 : Z -> Z.

Definition signature_is (b c d : Z) : bool :=
  let '(_, ebx, ecx, edx) := do_cpuid 0 in (ebx =? b) && (ecx =? c) && (edx =? d).

Definition is_amd_cpu : bool := signature_is 1752462657 1145913699 1769238117.
Definition is_intel_cpu : bool :=
  if signature_is 1970169159 1818588270 1231384169 then true else negb is_amd_cpu.

Definition MSR_UCODE_AMD_PATCHLEVEL : Z := 139.
Definition MSR_IA32_BIOS_SIGN_ID : Z := 139.

Definition get_microcode_version : Z :=
  if is_amd_cpu then u32 (rdmsr64 MSR_UCODE_AMD_PATCHLEVEL)
  else if is_intel_cpu then u32 (Z.shiftr (rdmsr64 MSR_IA32_BIOS_SIGN_ID) 32)
  else 0.

(** The version is stored through a pointer that is NULL: [None]. *)
Definition set_microcode_version : option Z :=
  if is_intel_cpu then None else if is_amd_cpu then None else Some 0.

Definition quad (hi lo : Z) : Z := Z.lor (Z.shiftl hi 32) lo.

(** On AMD processors the leaf is read again, into cpuid_info. *)
Definition get_leaf7_flags_x86 (i : i386_cpu_info) (init : string) : string * i386_cpu_info :=
  let i :=
    if is_amd_cpu && (23 <=? cpuid_family i) then
      let '(_, ebx, ecx, _) := do_cpuid 7 in with_leaf7 (Z.ldiff (quad ecx ebx) (bit 20)) i
    else i in
  (flags_text leaf7_feature_list leaf7_feature_flags (cpuid_leaf7_features i) init, i).

(** *** The entry of a processor *)

(** [%07x] *)
Definition fmt_07x (z : Z) : string := let s := fmt_llx z in String.concat "" (replicate (7 - String.length s) "0"%string) +:+ s.

Definition x86_entry (i : i386_cpu_info) (tscFreq cr0 microcode : Z) (flags : string) (n max_cpus core_id apicid : Z) : string :=
  let fq := u64 (tscFreq + 4999) in
  let fqmhz := if tscFreq =? 0 then 0 else s32 (fq / 1000000) in
  let fqkhz := if tscFreq =? 0 then 0 else s32 ((fq / 10000) mod 100) in
  let yes b := if (b : bool) then "yes" else "no" in
  let fpu := yes (cpuid_features i &? bit 0)%C in
  "processor" +:+ tab +:+ tab +:+ ": " +:+ fmt_d n +:+ nl
  +:+ "vendor_id" +:+ tab +:+ tab +:+ ": " +:+ cpuid_vendor i +:+ nl
  +:+ "cpu family" +:+ tab +:+ tab +:+ ": " +:+ fmt_d (cpuid_family i) +:+ nl
  +:+ "model" +:+ tab +:+ tab +:+ tab +:+ ": " +:+ fmt_d ((cpuid_model i + Z.shiftl (cpuid_extmodel i) 4) mod 256) +:+ nl
  +:+ "model name" +:+ tab +:+ tab +:+ ": " +:+ cpuid_brand_string i +:+ nl
  +:+ "microcode" +:+ tab +:+ tab +:+ ": 0x" +:+ fmt_07x microcode +:+ nl
  +:+ "stepping" +:+ tab +:+ tab +:+ ": " +:+ fmt_d (cpuid_stepping i) +:+ nl
  +:+ "cpu MHz" +:+ tab +:+ tab +:+ tab +:+ ": " +:+ fmt_d fqmhz +:+ "." +:+ fmt_02d fqkhz +:+ nl
  +:+ "cache size" +:+ tab +:+ tab +:+ ": " +:+ fmt_d (s32 (cpuid_cache_size i)) +:+ " KB" +:+ nl
  +:+ "physical id" +:+ tab +:+ tab +:+ ": 0" +:+ nl
  +:+ "siblings" +:+ tab +:+ tab +:+ ": " +:+ fmt_d max_cpus +:+ nl
  +:+ "core id" +:+ tab +:+ tab +:+ tab +:+ ": " +:+ fmt_d core_id +:+ nl
  +:+ "cpu cores" +:+ tab +:+ tab +:+ ": " +:+ fmt_d (core_count i) +:+ nl
  +:+ "apicid" +:+ tab +:+ tab +:+ tab +:+ ": " +:+ fmt_d apicid +:+ nl
  +:+ "initial apicid" +:+ tab +:+ tab +:+ ": " +:+ fmt_d apicid +:+ nl
  +:+ "fpu" +:+ tab +:+ tab +:+ tab +:+ ": " +:+ fpu +:+ nl
  +:+ "fpu_exception" +:+ tab +:+ tab +:+ ": " +:+ fpu +:+ nl
  +:+ "cpuid level" +:+ tab +:+ tab +:+ ": " +:+ fmt_d (core_count i) +:+ nl
  +:+ "wp" +:+ tab +:+ tab +:+ tab +:+ ": " +:+ yes (cr0 &? CR0_WP)%C +:+ nl
  +:+ "flags" +:+ tab +:+ tab +:+ tab +:+ ": " +:+ flags +:+ nl
  +:+ "bugs" +:+ tab +:+ tab +:+ tab +:+ ": " +:+ nl
  +:+ "bogomips" +:+ tab +:+ tab +:+ ": " +:+ fmt_d (s32 (fqmhz * 2)) +:+ "." +:+ fmt_02d fqkhz +:+ nl
  +:+ "TLB size" +:+ tab +:+ tab +:+ ": " +:+ fmt_d (u32 (cache_linesize i * 40)) +:+ " 4K pages" +:+ nl
  +:+ "clflush_size" +:+ tab +:+ tab +:+ ": " +:+ fmt_d (cache_linesize i) +:+ nl
  +:+ "cache_alignment" +:+ tab +:+ tab +:+ ": " +:+ fmt_d (s32 (cache_linesize i)) +:+ nl
  +:+ "address sizes" +:+ tab +:+ tab +:+ ": " +:+ fmt_d (s32 (cpuid_address_bits_physical i)) +:+ " bits physical, "
      +:+ fmt_d (s32 (cpuid_address_bits_virtual i)) +:+ " bits virtual" +:+ nl
  +:+ "power management" +:+ tab +:+ ": " +:+ nl +:+ nl.

(** The steps of the two counters. *)
Definition next_apicid (max_cpus apicid : Z) : Z :=
  let a := s32 (apicid + 2) in if s32 max_cpus <=? a then 1 else a.
Definition next_core (cores core_id : Z) : Z :=
  let c := s32 (core_id + 1) in if s32 (cores - 1) <? c then 0 else c.

(** [init n k] is what is in the memory of the k-th flags array in the n-th turn. *)
Variables (tscFreq cr0 : Z) (init : nat -> nat -> string).

Fixpoint x86_entries (fuel turn : nat) (i : i386_cpu_info) (cnt max_cpus core_id apicid : Z) : option (list string) :=
  match fuel with
  | O => None
  | S fuel' =>
    if cnt <? max_cpus then
      let '(leaf7, i') := get_leaf7_flags_x86 i (init turn 2) in
      let flags := get_cpu_flags_x86 i (init turn 0) +:+ get_cpu_ext_flags_x86 i (init turn 1) +:+ leaf7
                   +:+ get_leaf7_ext_flags_x86 i' (init turn 3) in
      let text := x86_entry i tscFreq cr0 get_microcode_version flags cnt max_cpus core_id apicid in
      let max' := match _processor_count with Some n => n | None => max_cpus end in
      l ← x86_entries fuel' (S turn) i' (u32 (cnt + 1)) max' (next_core (core_count i) core_id)
            (next_apicid max_cpus apicid);
      Some (text :: l)
    else Some []
  end.

End X86.

(** The entries on x86_64: both pointers are used without a test. *)
Definition x86_cpuinfo do_cpuid rdmsr64 cr0 init (fuel : nat) (max_cpus : Z) : option (list string) :=
  tscFreq ← _tscFreq; i ← _cpuid_info;
  x86_entries do_cpuid rdmsr64 tscFreq cr0 init fuel 0 i 0 max_cpus 0 0.

(** ** arm64 *)

Definition feature_map : list (string * string) :=
  [("hw.optional.floatingpoint", "fp"); ("hw.optional.arm.AdvSIMD", "asimd");
   ("hw.optional.arm.AdvSIMD_HPFPCvt", "asimdhp"); ("hw.optional.arm.FEAT_FP16", "fphp");
   ("hw.optional.arm.FEAT_ECV", "evtstrm"); ("hw.optional.arm.FEAT_AES", "aes");
   ("hw.optional.arm.FEAT_PMULL", "pmull"); ("hw.optional.arm.FEAT_SHA1", "sha1");
   ("hw.optional.arm.FEAT_SHA256", "sha2"); ("hw.optional.arm.FEAT_SHA512", "sha512");
   ("hw.optional.arm.FEAT_SHA3", "sha3"); ("hw.optional.arm.FEAT_CRC32", "crc32");
   ("hw.optional.arm.FEAT_LSE", "atomics"); ("hw.optional.arm.FEAT_LSE2", "uscat");
   ("hw.optional.arm.FEAT_PAuth", "paca"); ("hw.optional.arm.FEAT_PAuth", "pacg");
   ("hw.optional.arm.FEAT_PACIMP", "ilrcpc"); ("hw.optional.arm.FEAT_LRCPC", "lrcpc");
   ("hw.optional.arm.FEAT_LRCPC2", "ilrcpc"); ("hw.optional.arm.FEAT_DPB", "dcpop");
   ("hw.optional.arm.FEAT_DPB2", "dcpodp"); ("hw.optional.arm.FEAT_JSCVT", "jscvt");
   ("hw.optional.arm.FEAT_FCMA", "fcma"); ("hw.optional.arm.FEAT_SB", "sb");
   ("hw.optional.arm.FEAT_SSBS", "ssbs"); ("hw.optional.arm.FEAT_CSV2", "csv2");
   ("hw.optional.arm.FEAT_CSV3", "csv3"); ("hw.optional.arm.FEAT_DIT", "dit");
   ("hw.optional.armv8_gpi", "cpuid"); ("hw.optional.arm.FEAT_FRINTTS", "frint");
   ("hw.optional.arm.FEAT_DotProd", "asimddp"); ("hw.optional.arm.FEAT_FHM", "asimdfhm");
   ("hw.optional.arm.FEAT_FlagM", "flagm"); ("hw.optional.arm.FEAT_FlagM2", "flagm2");
   ("hw.optional.arm.FEAT_RDM", "asimdrdm"); ("hw.optional.arm.FEAT_BTI", "bti");
   ("hw.optional.arm.FEAT_BF16", "bf16"); ("hw.optional.arm.FEAT_I8MM", "i8mm");
   ("hw.optional.arm.FEAT_SME", "sme"); ("hw.optional.arm.FEAT_SME2", "sme2")]%string.
Definition part_table : list (Z * string) :=
  [(506291073, "0x01"); (933271106, "0x02"); (747742334, "0x03"); (2465937352, "0x04");
   (1741614739, "0x05"); (3894312694, "0x06"); (131287967, "0x07"); (1176831186, "0x08");
   (458787763, "0x22"); (3660830781, "0x25"); (2271604202, "0x28"); (4197663070, "0x2b")]%string.
Definition name_table : list (Z * string) :=
  [(506291073, "Apple Swift (A6)"); (933271106, "Apple Cyclone (A7)");
   (747742334, "Apple Typhoon (A8)"); (2465937352, "Apple Twister (A9)");
   (1741614739, "Apple Hurricane (A10)"); (3894312694, "Apple Monsoon/Mistral (A11)");
   (131287967, "Apple Vortex/Tempest (A12)"); (1176831186, "Apple Lightning/Thunder (A13)");
   (458787763, "Apple Firestorm/Icestorm (M1)"); (3660830781, "Apple Avalanche/Blizzard (M2)");
   (2271604202, "Apple Everest/Sawtooth (M3)"); (4197663070, "Apple Ibiza (M4)")]%string.

Definition in_table (t : list (Z * string)) (d : string) (k : Z) : string :=
  match List.find (λ e, e.1 =? k) t with Some e => e.2 | None => d end.
Definition arm64_cpu_part_string : Z -> string := in_table part_table "0x00".
Definition arm64_cpu_name_string : Z -> string := in_table name_table "Apple ARM64".

Section Arm.
(** A value read by sysctlbyname, when there is one of that name. *)
Variable sysctl : string -> option Z.

Definition arm64_sysctl_int (name : string) : Z := default 0 (sysctl name).

Definition FLAGS_SIZE : nat := 512.

Definition add_flag (st : string * list string) (e : string * string) : string * list string :=
  let '(flags, emitted) := st in
  if arm64_sysctl_int e.1 =? 0 then st
  else if existsb (String.eqb e.2) emitted then st
  else (strlcat FLAGS_SIZE (strlcat FLAGS_SIZE flags e.2) " ", emitted ++ [e.2]).

(** The trailing space is removed. *)
Definition trim_space (s : string) : string :=
  let n := String.length s in
  if (0 <? n)%nat && bool_decide (String.get (n - 1) s = Some " "%char) then String.substring 0 (n - 1) s else s.

Definition get_cpu_flags_arm : string := trim_space (foldl add_flag (""%string, []) feature_map).1.

Definition arm64_cpu_part : string := arm64_cpu_part_string (u32 (default 0 (sysctl "hw.cpufamily"))).
Definition arm64_cpu_name : string := arm64_cpu_name_string (u32 (default 0 (sysctl "hw.cpufamily"))).

Definition arm64_bogomips : string :=
  let tbfreq := match sysctl "hw.tbfrequency" with Some f => if f =? 0 then 24000000 else f | None => 24000000 end in
  let twice := u64 (tbfreq * 2) in
  snprintf 16 (fmt_d (twice / 1000000) +:+ "." +:+ fmt_02d (twice mod 1000000 / 10000)).

Definition arm_entry (n : Z) : string :=
  "processor" +:+ tab +:+ tab +:+ ": " +:+ fmt_d n +:+ nl
  +:+ "BogoMIPS" +:+ tab +:+ tab +:+ ": " +:+ arm64_bogomips +:+ nl
  +:+ "Features" +:+ tab +:+ tab +:+ ": " +:+ get_cpu_flags_arm +:+ nl
  +:+ "CPU implementer" +:+ tab +:+ tab +:+ ": 0x61" +:+ nl
  +:+ "CPU architecture" +:+ tab +:+ ": 8" +:+ nl
  +:+ "CPU variant" +:+ tab +:+ tab +:+ ": 0x0" +:+ nl
  +:+ "CPU part" +:+ tab +:+ tab +:+ ": " +:+ arm64_cpu_part +:+ nl
  +:+ "CPU revision" +:+ tab +:+ tab +:+ ": 0" +:+ nl +:+ nl.

Fixpoint arm_entries (fuel : nat) (cnt max_cpus : Z) : option (list string) :=
  match fuel with
  | O => None
  | S fuel' =>
    if cnt <? max_cpus then
      let max' := match _processor_count with Some n => n | None => max_cpus end in
      l ← arm_entries fuel' (u32 (cnt + 1)) max'; Some (arm_entry cnt :: l)
    else Some []
  end.

End Arm.

(** ** The node *)

Section Node.
Context `{KernelOps} `{PageSize} `{UioOps}.

Definition CPUINFO_BUF : Z := LBFSZ * 4.

(** The copy of one entry: from the start of the buffer, shorter by the offset in the page
    that the read began with; the error is ignored. *)
Definition entry_move (page_offset : Z) (text : string) (uio : uio_t) : option uio_t :=
  let buf := bytes_of_string (snprintf (Z.to_nat CPUINFO_BUF) text) ++ [Byte.x00] in
  let xlen := s32 (Z.of_nat (String.length text) - page_offset) in
  snd <$> uiomove_from buf 0 xlen uio.

Definition page_offset (uio : uio_t) : Z :=
  let uva := u64 (uio_offset uio) in uva - Z.land uva (Z.lnot PAGE_MASK).

Definition start_count (logicalcpu : option Z) : Z :=
  match _processor_count with Some n => n | None => default 1 logicalcpu end.

(** [entries max_cpus]: the entries the loop prints. *)
Definition procfs_docpuinfo (entries : Z -> option (list string)) (max_cpus : Z) (uio : uio_t) : K (option (Z * uio_t)) :=
  ok ← OSMalloc CPUINFO_BUF;
  if (ok : bool) then
    let r := l ← entries max_cpus;
             foldl (λ u text, u ← u; entry_move (page_offset uio) text u) (Some uio) l in
    _ ← OSFree CPUINFO_BUF; mret (u ← r; Some (0, u))
  else mret None.

End Node.

(** ** What the bit-field functions compute *)

Lemma ones_from k i : 0 <= k <= 32 -> 0 <= i -> Z.testbit (u32 (Z.shiftl all_ones k)) i = (k <=? i) && (i <? 32).
Proof.
  intros Hk Hi. unfold u32. change 4294967296 with (2 ^ 32). change all_ones with (Z.ones 32).
  destruct (Z.ltb_spec i 32) as [H|H].
  - rewrite Z.mod_pow2_bits_low, Z.shiftl_spec, Z.testbit_ones by lia. rewrite andb_true_r.
    destruct (Z.leb_spec k i); [rewrite (proj2 (Z.leb_le 0 (i - k))), (proj2 (Z.ltb_lt (i - k) 32)) by lia; done|].
    by rewrite (proj2 (Z.leb_gt 0 (i - k))) by lia.
  - by rewrite Z.mod_pow2_bits_high, andb_false_r by lia.
Qed.

(** extract_bitfield takes out the field of [width] bits at [offset], for every field
    that lies in the 32-bit word, the whole word and the fields that end with it
    included; get_bitfield_width is the number of bits needed to count up to [number]:
    the versions for the two processors agree except at 0. *)
Theorem bitfields infield width offset number :
  0 <= infield < 4294967296 -> 0 <= offset < 32 -> 0 <= width -> offset + width <= 32 ->
  1 <= number < 4294967296 ->
  extract_bitfield infield width offset = infield / 2 ^ offset mod 2 ^ width
  ∧ get_bitfield_width_x86 number = Z.log2_up number ∧ get_bitfield_width_arm number = Z.log2_up number
  ∧ get_bitfield_width_x86 0 = 32 ∧ get_bitfield_width_arm 0 = 0.
Proof.
  intros Hin Ho Hw How Hn. split; [|split; [|split; [|by split]]].
  - apply Z.bits_inj'. intros i Hi. rewrite <- Z.shiftr_div_pow2, <- Z.land_ones, Z.land_spec, Z.testbit_ones by lia.
    unfold extract_bitfield. rewrite !Z.shiftr_spec, Z.land_spec by done. f_equal. rewrite (proj2 (Z.leb_le 0 i)) by done.
    cbn [andb]. destruct (Z.eqb_spec (offset + width) 32).
    + rewrite ones_from by lia. rewrite (proj2 (Z.leb_le offset _)) by lia. cbn [andb].
      destruct (Z.ltb_spec (i + offset) 32), (Z.ltb_spec i width); (done || lia).
    + rewrite Z.lxor_spec, !ones_from by lia. rewrite (proj2 (Z.leb_le offset _)) by lia.
      destruct (Z.ltb_spec (i + offset) 32), (Z.leb_spec (offset + width) (i + offset)), (Z.ltb_spec i width); (done || lia).
  - unfold get_bitfield_width_x86. rewrite u32_small by lia. destruct (Z.eqb_spec (number - 1) 0).
    + by replace number with 1 by lia.
    + rewrite (Z.log2_up_eqn number) by lia. by rewrite <- Z.sub_1_r.
  - unfold get_bitfield_width_arm. rewrite (proj2 (Z.eqb_neq number 0)) by lia. destruct (Z.eqb_spec (number - 1) 0).
    + by replace number with 1 by lia.
    + rewrite (Z.log2_up_eqn number) by lia. rewrite <- Z.sub_1_r. lia.
Qed.

Lemma bitfields_witness : extract_bitfield 305419896 8 24 = 18 ∧ get_bitfield_width_arm 12 = 4.
Proof. destruct (bitfields 305419896 8 24 12) as (-> & _ & -> & _); [lia..|]. by vm_compute. Defined.

(** The vendor tests and write protection: every processor counts as Intel or AMD and none
    as both, so that set_microcode_version always stores through NULL; write protection is
    off exactly between the two calls, and the other bits of cr0 stay. *)
Theorem vendor_and_wp do_cpuid cr0 :
  xorb (is_intel_cpu do_cpuid) (is_amd_cpu do_cpuid) = true
  ∧ set_microcode_version do_cpuid = None
  ∧ (disable_write_protection cr0 &? CR0_WP)%C = false ∧ (enable_write_protection cr0 &? CR0_WP)%C = true
  ∧ enable_write_protection (disable_write_protection cr0) = enable_write_protection cr0.
Proof.
  assert (Hv : is_intel_cpu do_cpuid = negb (is_amd_cpu do_cpuid)).
  { unfold is_intel_cpu. destruct (signature_is do_cpuid 1970169159 1818588270 1231384169) eqn:E; [|done].
    unfold is_amd_cpu, signature_is in *. destruct (do_cpuid 0) as [[[a b] c] d]. b2p. subst. done. }
  split; [rewrite Hv; by destruct (is_amd_cpu do_cpuid)|].
  split; [unfold set_microcode_version; rewrite Hv; by destruct (is_amd_cpu do_cpuid)|].
  unfold disable_write_protection, enable_write_protection.
  assert (Hl : Z.land (Z.lor cr0 CR0_WP) CR0_WP = CR0_WP) 
    by (apply Z.bits_inj'; intros i Hi; rewrite Z.land_spec, Z.lor_spec; by destruct (Z.testbit cr0 i), (Z.testbit CR0_WP i)).
  split; [|split].
  - by rewrite Z.ldiff_land, <- Z.land_assoc, (Z.land_comm (Z.lnot _)), Z.land_lnot_diag, Z.land_0_r.
  - by rewrite Hl.
  - apply Z.bits_inj'. intros i Hi. rewrite !Z.lor_spec, Z.ldiff_spec. by destruct (Z.testbit cr0 i), (Z.testbit CR0_WP i).
Qed.

(** ** The feature flags of x86_64 *)

(** The names of the features whose bits are set. *)
Definition set_names (bits : list Z) (names : list string) (features : Z) : list string :=
  omap (λ e : Z * string, if (features &? e.1)%C then Some e.2 else None) (zip bits names).

(** Each name with a space behind it. *)
Definition spaced (l : list string) : string := foldr (λ n s, n +:+ String " " s) ""%string l.

Lemma spaced_words l : Forall (λ n, no_space n = true) l -> words (spaced l) = l ++ [""%string].
Proof. induction 1 as [|n l Hn _ IH]; [done|]. cbn [spaced foldr]. rewrite words_app by done. exact (f_equal (cons n) IH). Qed.

Lemma str_nil_r (s : string) : s +:+ "" = s.
Proof. induction s as [|c s IH]; [done|]. exact (f_equal (String c) IH). Qed.
Lemma str_assoc (a b c : string) : (a +:+ b) +:+ c = a +:+ (b +:+ c).
Proof. induction a as [|x a IH]; [done|]. exact (f_equal (String x) IH). Qed.

Definition room_for (l : list (Z * string)) : nat := foldr (λ e n, String.length e.2 + 1 + n)%nat 0%nat l.

Lemma flags_fold size features (l : list (Z * string)) out :
  (String.length out + room_for l < size)%nat ->
  foldl (λ flags e, if (features &? e.1)%C then strlcat size (strlcat size flags e.2) " " else flags) out l
  = out +:+ spaced (omap (λ e : Z * string, if (features &? e.1)%C then Some e.2 else None) l).
Proof.
  revert out. induction l as [|[b n] l IH]; intros out Hr; cbn [foldl room_for foldr fst snd] in *; [by rewrite str_nil_r|].
  change (omap ?f (?x :: ?l)) with (match f x with Some y => y :: omap f l | None => omap f l end). cbv beta. cbn [fst snd].
  fold (room_for l) in Hr. destruct (features &? b)%C; [|apply IH; lia].
  rewrite (strlcat_fits _ out) by lia. rewrite strlcat_fits by (rewrite string_length_app; cbn [String.length]; lia).
  rewrite IH by (rewrite !string_length_app; cbn [String.length]; lia). cbn [spaced foldr]. fold (spaced (omap (λ e : Z * string, if (features &? e.1)%C then Some e.2 else None) l)).
  by rewrite !str_assoc.
Qed.

Lemma flags_text_clean bits names features :
  (room_for (zip bits names) < length names * 2 * 8 * 8)%nat -> Forall (λ n, no_space n = true) names ->
  words (flags_text bits names features "") = set_names bits names features ++ [""%string].
Proof.
  intros Hr Hn. unfold flags_text, set_names. destruct (Z.eqb_spec features 0) as [->|Hf].
  - replace (omap _ (zip bits names)) with (@nil string); [done|]. clear. revert names.
    induction bits as [|b bits IH]; intros [|n names]; [done..|]. cbn [zip zip_with].
    change (omap ?f (?x :: ?l)) with (match f x with Some y => y :: omap f l | None => omap f l end). cbv beta. cbn [fst].
    rewrite Z.land_0_l. cbn [Z.eqb negb]. apply IH.
  - rewrite flags_fold by (cbn [String.length]; lia). cbn [String.append]. apply spaced_words.
    apply Forall_forall. intros x (e & He & E)%list_elem_of_omap. case_match; [|done]. simplify_eq.
    destruct e as [b n]. apply elem_of_zip_r in He. by eapply Forall_forall in Hn.
Qed.

(** x86_64: in an array that starts empty, each of the four flag functions leaves the
    names of exactly the features whose bits are set, in the order of its table, separated
    by spaces: no name is cut off and none contains a space. *)
Theorem x86_flags_words (do_cpuid : Z -> Z * Z * Z * Z) i :
  words (get_cpu_flags_x86 i "") = set_names feature_list feature_flags (cpuid_features i) ++ [""%string]
  ∧ words (get_cpu_ext_flags_x86 i "") = set_names feature_ext_list feature_ext_flags (cpuid_extfeatures i) ++ [""%string]
  ∧ words (get_leaf7_ext_flags_x86 i "")
    = set_names leaf7_feature_ext_list leaf7_feature_ext_flags (cpuid_leaf7_extfeatures i) ++ [""%string]
  ∧ let (text, i') := get_leaf7_flags_x86 do_cpuid i "" in
    words text = set_names leaf7_feature_list leaf7_feature_flags (cpuid_leaf7_features i') ++ [""%string].
Proof.
  split_and!; [| | |unfold get_leaf7_flags_x86];
    apply flags_text_clean; try (apply (bool_decide_unpack (_ < _)%nat); by vm_compute); by repeat constructor.
Qed.

(** What the array held before is printed in front of the flags: the array is not
    initialised. *)
Example x86_flags_garbage :
  flags_text feature_list feature_flags 3 "junk" = "junkfpu vme "%string.
Proof. by vm_compute. Qed.

(** ** The feature flags of arm64 *)

(** The flags the processor has, in the order of the table, those for two values twice. *)
Definition enabled (sysctl : string -> option Z) (l : list (string * string)) : list string :=
  omap (λ e : string * string, if arm64_sysctl_int sysctl e.1 =? 0 then None else Some e.2) l.

Lemma existsb_in x l : existsb (String.eqb x) l = bool_decide (x ∈ l).
Proof.
  induction l as [|y l IH]; [done|]. cbn [existsb]. rewrite IH. apply eq_true_iff_eq.
  rewrite orb_true_iff, !bool_decide_eq_true, elem_of_cons, String.eqb_eq. tauto.
Qed.

Lemma spaced_app l x : spaced (l ++ [x]) = spaced l +:+ (x +:+ " ").
Proof. induction l as [|y l IH]; [done|]. cbn [app spaced foldr]. fold (spaced (l ++ [x])). fold (spaced l). rewrite IH. by rewrite str_assoc. Qed.

Definition map_room (l : list (string * string)) : nat := foldr (λ e n, String.length e.2 + 1 + n)%nat 0%nat l.

Lemma add_flags_fold sysctl l emitted :
  (String.length (spaced emitted) + map_room l < FLAGS_SIZE)%nat ->
  foldl (add_flag sysctl) (spaced emitted, emitted) l
  = (spaced (foldl see emitted (enabled sysctl l)), foldl see emitted (enabled sysctl l)).
Proof.
  revert emitted. induction l as [|[k f] l IH]; intros em Hr; [done|]. cbn [foldl map_room foldr fst snd] in *. fold (map_room l) in Hr.
  unfold enabled. change (omap ?f (?x :: ?l)) with (match f x with Some y => y :: omap f l | None => omap f l end).
  cbv beta. cbn [fst snd]. unfold add_flag at 2. cbn [fst snd]. destruct (arm64_sysctl_int sysctl k =? 0); [apply IH; lia|].
  rewrite existsb_in. cbn [foldl]. unfold see at 2 4. destruct (bool_decide (f ∈ em)); [apply IH; lia|].
  rewrite (strlcat_fits _ (spaced em)) by lia. rewrite strlcat_fits by (rewrite string_length_app; cbn [String.length]; lia).
  rewrite str_assoc, <- spaced_app. apply IH. rewrite spaced_app, !string_length_app. cbn [String.length]. lia.
Qed.

Lemma map_room_fits : (map_room feature_map < FLAGS_SIZE)%nat.
Proof. apply (bool_decide_unpack (_ < _)%nat). by vm_compute. Qed.

Lemma trim_spaced s : trim_space (s +:+ " ") = s.
Proof.
  unfold trim_space. rewrite string_length_app. cbn [String.length]. replace (String.length s + 1 - 1)%nat with (String.length s) by lia.
  rewrite (proj2 (Nat.ltb_lt 0 _)) by lia. rewrite bool_decide_eq_true_2.
  - cbn [andb]. induction s as [|c s IH]; [done|]. exact (f_equal (String c) IH).
  - induction s as [|c s IH]; [done|]. exact IH.
Qed.

Lemma words_spaced_last l x : Forall (λ n, no_space n = true) (l ++ [x]) -> words (spaced l +:+ x) = l ++ [x].
Proof.
  induction l as [|y l IH]; intros Hf.
  - apply words_here. by inversion Hf.
  - apply Forall_cons in Hf as [Hy Hf]. cbn [spaced foldr]. fold (spaced l).
    change ((y +:+ String " " (spaced l)) +:+ x) with ((y +:+ (" " +:+ spaced l)) +:+ x). rewrite !str_assoc.
    change (y +:+ (" " +:+ (spaced l +:+ x))) with (y +:+ String " " (spaced l +:+ x)).
    rewrite words_app by done. by rewrite IH.
Qed.

Lemma enabled_once sysctl l :
  NoDup (first_seen (enabled sysctl l))
  ∧ forall f, f ∈ first_seen (enabled sysctl l) <-> exists k, (k, f) ∈ l ∧ arm64_sysctl_int sysctl k ≠ 0.
Proof.
  destruct (first_seen_spec (enabled sysctl l) [] (NoDup_nil_2)) as [Hd Hx]. split; [done|]. intros f.
  unfold first_seen. rewrite Hx, elem_of_nil. unfold enabled. rewrite list_elem_of_omap. split.
  - intros [[]|([k f'] & Hin & E)]. cbn [fst snd] in E. destruct (Z.eqb_spec (arm64_sysctl_int sysctl k) 0); [done|]. simplify_eq. eauto.
  - intros (k & Hin & Hk). right. exists (k, f). cbn [fst snd]. split; [done|]. by rewrite (proj2 (Z.eqb_neq _ 0)).
Qed.

(** arm64: whatever values the system has, a reader that splits the features at the
    spaces finds every enabled feature exactly once, in the order in which the table first
    names it, without an empty word at the end; all features together fit the array. *)
Theorem arm_flags sysctl :
  let flags := first_seen (enabled sysctl feature_map) in
  NoDup flags ∧ (forall f, f ∈ flags <-> exists k, (k, f) ∈ feature_map ∧ arm64_sysctl_int sysctl k ≠ 0)
  ∧ words (get_cpu_flags_arm sysctl) = (if bool_decide (flags = []) then [""%string] else flags).
Proof.
  intros flags.
  assert (Ef : foldl (add_flag sysctl) (""%string, []) feature_map = (spaced flags, flags))
    by exact (add_flags_fold sysctl feature_map [] map_room_fits).
  assert (Hf : NoDup flags ∧ forall f, f ∈ flags <-> exists k, (k, f) ∈ feature_map ∧ arm64_sysctl_int sysctl k ≠ 0)
    by apply enabled_once.
  unfold get_cpu_flags_arm. rewrite Ef. clearbody flags. clear Ef. destruct Hf as [Hd Hx].
  split; [done|]. split; [done|]. cbn [fst].
  assert (Hns : Forall (λ n, no_space n = true) flags).
  { apply Forall_forall. intros f Hf. apply Hx in Hf as (k & Hin & _).
    assert (Hall : Forall (λ e : string * string, no_space e.2 = true) feature_map) by (by repeat constructor).
    rewrite Forall_forall in Hall. exact (Hall _ Hin). }
  destruct (decide (flags = [])) as [E|E]; [by rewrite bool_decide_eq_true_2, E by done|]. rewrite bool_decide_eq_false_2 by done.
  destruct (exists_last E) as (l & x & El). rewrite El in *. rewrite spaced_app, <- str_assoc, trim_spaced. by apply words_spaced_last.
Qed.

(** The comment above the function computes 96.00 for the timer of 24 MHz; the code
    gives 48.00. *)
Example bogomips_24MHz : arm64_bogomips (λ _, None) = "48.00"%string.
Proof. by vm_compute. Qed.

(** ** The entries *)

(** The ids the x86_64 loop gives to the processors, in order. *)
Fixpoint apicids (max_cpus : Z) (n : nat) (a : Z) : list Z :=
  match n with O => [] | S n' => a :: apicids max_cpus n' (next_apicid max_cpus a) end.

(** First the even numbers, then the odd ones. *)
Definition apicid_at (n i : nat) : Z :=
  if (2 * i <? n)%nat then 2 * Z.of_nat i else 2 * (Z.of_nat i - (Z.of_nat n + 1) / 2) + 1.

Lemma next_apicid_at n i :
  Z.of_nat n <= 1000000000 -> (S i < n)%nat -> next_apicid (Z.of_nat n) (apicid_at n i) = apicid_at n (S i).
Proof.
  intros Hn Hi. unfold next_apicid, apicid_at. pose proof (Z.div_mod (Z.of_nat n + 1) 2). pose proof (Z.mod_pos_bound (Z.of_nat n + 1) 2).
  rewrite (s32_small (Z.of_nat n)) by (unfold INT_MIN, INT_MAX; lia).
  destruct (Nat.ltb_spec (2 * i) n), (Nat.ltb_spec (2 * S i) n); rewrite s32_small by (unfold INT_MIN, INT_MAX; lia);
    try (rewrite (proj2 (Z.leb_gt _ _)) by lia; lia); try (rewrite (proj2 (Z.leb_le _ _)) by lia; lia).
  all: lia.
Qed.

Lemma apicids_at n k i :
  Z.of_nat n <= 1000000000 -> (i + k <= n)%nat -> apicids (Z.of_nat n) k (apicid_at n i) = map (apicid_at n) (seq i k).
Proof.
  intros Hn. revert i. induction k as [|k IH]; intros i Hk; [done|]. cbn [apicids seq map]. f_equal.
  destruct k as [|k]; [done|]. rewrite next_apicid_at by lia. apply IH. lia.
Qed.

(** The apicid counter of the x86_64 loop (it goes up by two and starts again at one)
    gives every processor an id of its own, and the ids are the numbers below the number of
    processors. *)
Lemma apicids_distinct n :
  Z.of_nat n <= 1000000000 -> apicids (Z.of_nat n) n 0 ≡ₚ map Z.of_nat (seq 0 n).
Proof.
  intros Hn. destruct n as [|n]; [done|]. change 0 with (apicid_at (S n) 0). rewrite apicids_at by lia.
  set (m := S n) in *. pose proof (Z.div_mod (Z.of_nat m + 1) 2). pose proof (Z.mod_pos_bound (Z.of_nat m + 1) 2).
  assert (Hr : forall i, (i < m)%nat -> 0 <= apicid_at m i < Z.of_nat m).
  { intros i Hi. unfold apicid_at. destruct (Nat.ltb_spec (2 * i) m); lia. }
  assert (Hinj : forall i j, (i < m)%nat -> (j < m)%nat -> apicid_at m i = apicid_at m j -> i = j).
  { intros i j Hi Hj. unfold apicid_at. destruct (Nat.ltb_spec (2 * i) m), (Nat.ltb_spec (2 * j) m); lia. }
  assert (Hnd : NoDup (map (apicid_at m) (seq 0 m))).
  { apply NoDup_fmap_2_strong; [|apply NoDup_seq]. intros i j Hi%elem_of_seq Hj%elem_of_seq. apply Hinj; lia. }
  apply submseteq_length_Permutation; [|by rewrite !length_map, length_seq]. apply NoDup_submseteq; [done|].
  intros x (i & -> & Hi%elem_of_seq)%list_elem_of_fmap. pose proof (Hr i ltac:(lia)) as Hx. apply list_elem_of_fmap.
  exists (Z.to_nat (apicid_at m i)). split; [by rewrite Z2Nat.id by lia|]. apply elem_of_seq. lia.
Qed.

Lemma next_core_mod cores k :
  0 < cores <= INT_MAX -> next_core cores (Z.of_nat k mod cores) = Z.of_nat (S k) mod cores.
Proof.
  intros Hc. unfold next_core. pose proof (Z.mod_pos_bound (Z.of_nat k) cores ltac:(lia)) as Hm. unfold INT_MAX in Hc.
  pose proof (Z.div_mod (Z.of_nat k) cores ltac:(lia)) as Hd.
  rewrite !s32_small by (unfold INT_MIN, INT_MAX; lia). destruct (Z.ltb_spec (cores - 1) (Z.of_nat k mod cores + 1)).
  - apply (Z.mod_unique_pos _ _ (Z.of_nat k / cores + 1)); lia.
  - apply (Z.mod_unique_pos _ _ (Z.of_nat k / cores)); lia.
Qed.

Lemma leaf7_core_count do_cpuid i init : core_count (get_leaf7_flags_x86 do_cpuid i init).2 = core_count i.
Proof. unfold get_leaf7_flags_x86. cbn [snd]. case_match; [|done]. by destruct (do_cpuid 7) as [[[? ?] ?] ?]. Qed.

(** The entry of processor [k] of [n]: its number, its core and its id; what else it says is
    the same for all, up to the flags. *)
Definition is_entry (tscFreq cr0 microcode : Z) (cores : Z) (n k : nat) (text : string) : Prop :=
  exists i flags, core_count i = cores
    ∧ text = x86_entry i tscFreq cr0 microcode flags (Z.of_nat k) (Z.of_nat n) (Z.of_nat k mod cores) (apicid_at n k).

#[local] Opaque x86_entry.

Lemma x86_entries_from do_cpuid rdmsr64 tscFreq cr0 init cores n fuel :
  Z.of_nat n <= 1000000000 -> 0 < cores <= INT_MAX ->
  forall turn i k, core_count i = cores -> (k <= n)%nat -> (n - k < fuel)%nat ->
  exists l, x86_entries do_cpuid rdmsr64 tscFreq cr0 init fuel turn i (Z.of_nat k) (Z.of_nat n) (Z.of_nat k mod cores)
      (apicid_at n k) = Some l
    ∧ length l = (n - k)%nat
    ∧ forall j text, l !! j = Some text -> is_entry tscFreq cr0 (get_microcode_version do_cpuid rdmsr64) cores n (k + j) text.
Proof.
  intros Hn Hcores. induction fuel as [|fuel IH]; intros turn i k Hi Hk Hf; [lia|]. cbn [x86_entries].
  destruct (Z.ltb_spec (Z.of_nat k) (Z.of_nat n)); [|exists []; split_and!; [done|simpl; lia|done]].
  pose proof (leaf7_core_count do_cpuid i (init turn 2%nat)) as Hi'. destruct (get_leaf7_flags_x86 do_cpuid i (init turn 2%nat)) as [leaf7 i'].
  cbn [snd] in Hi'. rewrite Hi in *.
  cbn [_processor_count]. rewrite (next_core_mod cores k Hcores), (u32_small (Z.of_nat k + 1)) by lia. replace (Z.of_nat k + 1) with (Z.of_nat (S k)) by lia.
  assert (Hl : exists l, x86_entries do_cpuid rdmsr64 tscFreq cr0 init fuel (S turn) i' (Z.of_nat (S k)) (Z.of_nat n)
      (Z.of_nat (S k) mod cores) (next_apicid (Z.of_nat n) (apicid_at n k)) = Some l ∧ length l = (n - S k)%nat
    ∧ forall j text, l !! j = Some text -> is_entry tscFreq cr0 (get_microcode_version do_cpuid rdmsr64) cores n (S k + j) text).
  { destruct (decide (S k < n)%nat); [rewrite next_apicid_at by lia; apply IH; (done || lia)|].
    destruct fuel as [|fuel]; [lia|]. exists []. cbn [x86_entries]. rewrite (proj2 (Z.ltb_ge _ _)) by lia.
    split_and!; [done|simpl; lia|done]. }
  destruct Hl as (l & -> & Hlen & Hl). eexists. split; [reflexivity|]. split; [cbn [length]; lia|].
  intros [|j] text; [intros [= <-]; rewrite Nat.add_0_r; eexists i, _; split; [exact Hi|reflexivity]|]. intros Hj. rewrite Nat.add_succ_r. by apply Hl.
Qed.

(** x86_64, if the clock and the processor information were there: the loop ends after one turn
    for each and prints one entry for each, numbered from 0, with the cores taken in turn,
    and with apicids that are all different and are the numbers below the number of
    processors. *)
Theorem x86_cpuinfo_entries do_cpuid rdmsr64 tscFreq cr0 init i n :
  Z.of_nat n <= 1000000000 -> 0 < core_count i <= INT_MAX ->
  map (apicid_at n) (seq 0 n) ≡ₚ map Z.of_nat (seq 0 n)
  ∧ exists l, x86_entries do_cpuid rdmsr64 tscFreq cr0 init (S n) 0 i 0 (Z.of_nat n) 0 0 = Some l
    ∧ length l = n
    ∧ forall k text, l !! k = Some text -> is_entry tscFreq cr0 (get_microcode_version do_cpuid rdmsr64) (core_count i) n k text.
Proof.
  intros Hn Hcores. split.
  - etrans; [|by apply apicids_distinct]. destruct n as [|n]; [done|]. rewrite <- (apicids_at (S n) (S n) 0) by lia. done.
  - destruct (x86_entries_from do_cpuid rdmsr64 tscFreq cr0 init (core_count i) n (S n) Hn Hcores 0%nat i 0%nat)
      as (l & El & Hl & He); [done|lia|lia|]. exists l.
    rewrite Nat.sub_0_r in Hl. split; [|by split].
    change (Z.of_nat 0) with 0 in El. rewrite Z.mod_0_l in El by lia.
    destruct n as [|n]; [|exact El]. cbn [x86_entries] in *. exact El.
Qed.

Lemma x86_cpuinfo_entries_witness :
  let i := I386CpuInfo "GenuineIntel" "Xeon" 6 14 5 7 3 0 0 0 64 20480 4 39 48 in
  exists l, x86_entries (λ _, (0, 1970169159, 1818588270, 1231384169)) (λ _, 0) 0 0 (λ _ _, ""%string) 9 0 i 0 8 0 0 = Some l
    ∧ length l = 8%nat.
Proof.
  intros i. destruct (x86_cpuinfo_entries (λ _, (0, 1970169159, 1818588270, 1231384169)) (λ _, 0) 0 0 (λ _ _, ""%string) i 8)
    as (_ & l & El & Hl & _); [lia|vm_compute; split; congruence|].
  exists l. split; [exact El|exact Hl].
Defined.

(** ** Reading cpuinfo *)

Lemma substring_length i n s : (String.length (String.substring i n s) <= n)%nat.
Proof.
  revert i n. induction s as [|c s IH]; intros [|i] n; cbn [String.substring]; try (destruct n; cbn [String.length]; lia).
  - destruct n as [|n]; cbn [String.length]; [lia|]. pose proof (IH 0%nat n). lia.
  - apply IH.
Qed.

Lemma strlcat_length n dst s : (String.length dst < n)%nat -> (String.length (strlcat n dst s) < n)%nat.
Proof.
  intros Hd. unfold strlcat. rewrite (proj2 (Nat.leb_gt _ _)) by done. rewrite string_length_app.
  pose proof (substring_length 0 (n - 1 - String.length dst) s). lia.
Qed.

Lemma arm_flags_length sysctl : (String.length (get_cpu_flags_arm sysctl) < FLAGS_SIZE)%nat.
Proof.
  unfold get_cpu_flags_arm.
  assert (Hf : forall l st, (String.length st.1 < FLAGS_SIZE)%nat -> (String.length (foldl (add_flag sysctl) st l).1 < FLAGS_SIZE)%nat).
  { induction l as [|e l IH]; intros [f em] Hst; [done|]. cbn [foldl]. apply IH. unfold add_flag. case_match; [done|].
    case_match; [done|]. cbn [fst] in *. by apply strlcat_length, strlcat_length. }
  specialize (Hf feature_map (""%string, []) ltac:(unfold FLAGS_SIZE; simpl; lia)). revert Hf. generalize (foldl (add_flag sysctl) (""%string, []) feature_map).1.
  intros s Hs. unfold trim_space. case_match; [|done]. pose proof (substring_length 0 (String.length s - 1) s). lia.
Qed.

Lemma part_length k : (String.length (arm64_cpu_part_string k) <= 4)%nat.
Proof.
  unfold arm64_cpu_part_string, in_table. destruct (List.find _ part_table) as [e|] eqn:E; [|simpl; lia].
  apply List.find_some in E as [Hin%list_elem_of_In _].
  assert (Hall : Forall (λ e : Z * string, (String.length e.2 <= 4)%nat) part_table) by (repeat constructor; simpl; lia).
  rewrite Forall_forall in Hall. by apply Hall.
Qed.

Lemma arm_entry_length sysctl n :
  0 <= n < 4294967296 -> Z.of_nat (String.length (arm_entry sysctl n)) < CPUINFO_BUF.
Proof.
  intros Hn. unfold arm_entry, CPUINFO_BUF, LBFSZ. pose proof (fmt_d_length 10 n ltac:(lia) ltac:(lia)) as Hd.
  pose proof (arm_flags_length sysctl) as Hf. unfold FLAGS_SIZE in Hf. pose proof (part_length (u32 (default 0 (sysctl "hw.cpufamily"%string)))) as Hp.
  change (arm64_cpu_part_string (u32 (default 0 (sysctl "hw.cpufamily"%string)))) with (arm64_cpu_part sysctl) in Hp.
  assert (Hb : (String.length (arm64_bogomips sysctl) <= 15)%nat) by (unfold arm64_bogomips, snprintf, strlcpy; apply substring_length).
  revert Hd Hf Hp Hb. generalize (arm64_bogomips sysctl), (get_cpu_flags_arm sysctl), (arm64_cpu_part sysctl), (fmt_d n).
  intros a b c d. rewrite !string_length_app. change (String.length tab) with 1%nat. change (String.length nl) with 1%nat.
  cbn [String.length]. lia.
Qed.

Section CpuinfoRead.
Context `{KernelOps} `{PageSize} `{UioLaws}.

(** With a fixed number of processors the loop of arm64 prints one entry for each. *)
Lemma arm_entries_all sysctl n k fuel :
  Z.of_nat n < 4294967296 -> (k <= n)%nat -> (n - k < fuel)%nat ->
  arm_entries sysctl fuel (Z.of_nat k) (Z.of_nat n) = Some (map (λ i, arm_entry sysctl (Z.of_nat i)) (seq k (n - k))).
Proof.
  intros Hn. revert k. induction fuel as [|fuel IH]; intros k Hk Hf; [lia|]. cbn [arm_entries].
  destruct (Z.ltb_spec (Z.of_nat k) (Z.of_nat n)).
  - rewrite u32_small by lia. replace (Z.of_nat k + 1) with (Z.of_nat (S k)) by lia.
    cbn [_processor_count]. rewrite IH by lia. cbn [mbind option_bind]. replace (n - k)%nat with (S (n - S k)) by lia. done.
  - by replace (n - k)%nat with 0%nat by lia.
Qed.

(** The entries are moved one after the other. *)
Lemma entries_move l u :
  Forall (λ t, Z.of_nat (String.length t) < CPUINFO_BUF) l -> uio_writable u = true ->
  exists u', foldl (λ u text, u ← u; entry_move 0 text u) (Some u) l = Some u'
    ∧ uio_out u' = uio_out u ++ take (Z.to_nat (uio_resid u)) (concat (map bytes_of_string l))
    ∧ uio_writable u' = true.
Proof.
  intros Hl. revert u. induction Hl as [|t l Ht Hl IH]; intros u Hw; cbn [foldl map concat].
  - exists u. split_and!; [done| |done]. by rewrite take_nil, app_nil_r.
  - unfold entry_move at 2. cbn [mbind option_bind]. unfold CPUINFO_BUF, LBFSZ in Ht. rewrite Z.sub_0_r.
    rewrite s32_small by (unfold INT_MIN, INT_MAX; lia). unfold snprintf. rewrite strlcpy_fits by (unfold CPUINFO_BUF, LBFSZ; lia).
    destruct (uiomove_from_spec (bytes_of_string t ++ [Byte.x00]) 0 (Z.of_nat (String.length t)) u) as (u1 & E & Eo & _ & Er & _ & Ew);
      [lia|lia|rewrite length_app, bytes_of_string_length; lia|done|].
    rewrite E. cbn [fmap option_fmap option_map snd]. destruct (IH u1 Ew) as (u' & E' & Eo' & Ew'). exists u'.
    split; [exact E'|]. split; [|done]. rewrite Eo', Eo, Er, <- app_assoc, drop_0. f_equal. pose proof (uio_resid_nonneg u).
    rewrite take_app_le by (rewrite bytes_of_string_length; lia).
    destruct (Z.le_ge_cases (Z.of_nat (String.length t)) (uio_resid u)).
    + rewrite Z.min_l by done. rewrite take_app_ge by (rewrite bytes_of_string_length; lia). f_equal.
      * apply take_ge. rewrite bytes_of_string_length. lia.
      * rewrite bytes_of_string_length. f_equal. lia.
    + rewrite Z.min_r by done. replace (uio_resid u - uio_resid u) with 0 by lia. rewrite take_0, app_nil_r.
      by rewrite take_app_le by (rewrite bytes_of_string_length; lia).
Qed.

(** Reading cpuinfo on arm64 from the start of a page: the loop ends after one turn for
    each processor and the reader gets the entries of processors 0 to n - 1 in order, as
    far as its buffer goes; the buffer of the kernel is given back. *)
Theorem cpuinfo_read sysctl n u st :
  (forall t m, malloc_at t m = true) -> Z.of_nat n < 4294967296 ->
  0 <= uio_offset u < 9223372036854775808 -> uio_offset u mod PAGE_SIZE = 0 -> uio_writable u = true ->
  let m := procfs_docpuinfo (arm_entries sysctl (S n) 0) (Z.of_nat n) u in
  exists u', (m st).1 = Some (0, u') ∧ same_res st (m st).2
    ∧ uio_out u' = uio_out u
        ++ take (Z.to_nat (uio_resid u)) (concat (map (λ i, bytes_of_string (arm_entry sysctl (Z.of_nat i))) (seq 0 n))).
Proof.
  intros Hmem Hn Hoff Hpg Hw m.
  assert (Hp : page_offset u = 0).
  { unfold page_offset. rewrite u64_small, page_round by lia. pose proof page_size_cases. pose proof (Z.div_mod (uio_offset u) PAGE_SIZE). lia. }
  pose proof (arm_entries_all sysctl n 0 (S n) Hn ltac:(lia) ltac:(lia)) as El. rewrite Nat.sub_0_r in El. change (Z.of_nat 0) with 0 in El.
  destruct (entries_move (map (λ i, arm_entry sysctl (Z.of_nat i)) (seq 0 n)) u) as (u' & E & Eo & _); [|done|].
  { apply Forall_fmap, Forall_forall. intros i Hi%elem_of_seq. apply arm_entry_length. lia. }
  exists u'. rewrite Eo, map_map. subst m. unfold procfs_docpuinfo, OSMalloc, same_res. rewrite !K_bind_run. cbn [now fst snd tick k_clock].
  rewrite Hmem, !K_bind_run. cbn [fst snd mret K_ret add_mem OSFree k_procrefs k_mem]. rewrite El, Hp. cbn [mbind option_bind]. rewrite E.
  split; [done|]. split; [simpl; lia|done].
Qed.

(** Reading cpuinfo on x86_64 faults: the clock rate is read through a pointer that is NULL. *)
Theorem x86_cpuinfo_faults do_cpuid rdmsr64 cr0 init fuel n u st :
  (procfs_docpuinfo (x86_cpuinfo do_cpuid rdmsr64 cr0 init fuel) n u st).1 = None.
Proof.
  unfold procfs_docpuinfo. rewrite K_bind_run. destruct (OSMalloc _ st) as [[|] s1]; cbn [fst snd]; [|done].
  rewrite K_bind_run. done.
Qed.

End CpuinfoRead.

(** Two processors; the reader has room for the first eleven bytes. *)
Lemma cpuinfo_read_witness :
  exists u', (procfs_docpuinfo (H := simple_kernel []) (arm_entries (λ _, None) 3 0) 2
      (SimpleUio 0 11 true [] true : @uio_t simple_uio_ops) (Kstate 0 0 0)).1 = Some (0, u')
    ∧ uio_out u' = bytes_of_string ("processor" +:+ tab +:+ tab).
Proof.
  destruct (cpuinfo_read (H := simple_kernel []) (λ _, None) 2 (SimpleUio 0 11 true [] true : @uio_t simple_uio_ops)
    (Kstate 0 0 0)) as (u' & E & _ & Ho).
  - done.
  - lia.
  - by vm_compute.
  - by vm_compute.
  - done.
  - exists u'. split; [exact E|]. rewrite Ho. by vm_compute.
Defined.
