(* ===== verification/Account.v ===== *)
(** * Accounts of resources

    A small program logic for [K]: [spends m Q] says what result a program may have together
    with the process references and the bytes of memory it holds when it ends and did not
    hold when it began.  The rules follow the structure of a program, so that the accounts of
    the handlers of all files are checked by one tactic ([Dispatch]). *)

From S2P Require Import Prelude Kernel Structure Subr Node Sysctl Readdir Sbuf Text Bridge.

(** ** The judgement and its rules *)

Definition spends {A} (m : K A) (Q : A -> Z -> Z -> Prop) : Prop :=
  forall s, Q (m s).1 (k_procrefs (m s).2 - k_procrefs s) (k_mem (m s).2 - k_mem s).

(** Every result may be had with these resources. *)
Definition with_resources {A} (refs mem : Z) : A -> Z -> Z -> Prop := λ _ r n, r = refs ∧ n = mem.

(** Nothing is kept, unless the result is [None]: a panic or an access outside an object. *)
Definition settled {A} : option A -> Z -> Z -> Prop := λ a r n, is_Some a -> r = 0 ∧ n = 0.

Lemma spends_mono {A} (m : K A) (Q Q' : A -> Z -> Z -> Prop) :
  spends m Q -> (forall a r n, Q a r n -> Q' a r n) -> spends m Q'.
Proof. intros Hm HQ s. apply HQ, Hm. Qed.

Lemma spends_ret {A} (a : A) (Q : A -> Z -> Z -> Prop) : Q a 0 0 -> spends (mret a : K A) Q.
Proof. intros HQ s. unfold mret, K_ret. simpl. by rewrite !Z.sub_diag. Qed.

Lemma spends_bind {A B} (m : K A) (f : A -> K B) (Q : B -> Z -> Z -> Prop) :
  spends m (λ a r n, spends (f a) (λ b r' n', Q b (r + r') (n + n'))) -> spends (m ≫= f) Q.
Proof.
  intros Hm s. specialize (Hm s (m s).2). rewrite K_bind_run. cbv beta in Hm.
  by replace (k_procrefs (f (m s).1 (m s).2).2 - k_procrefs s) with
    (k_procrefs (m s).2 - k_procrefs s + (k_procrefs (f (m s).1 (m s).2).2 - k_procrefs (m s).2)) by lia;
  replace (k_mem (f (m s).1 (m s).2).2 - k_mem s) with
    (k_mem (m s).2 - k_mem s + (k_mem (f (m s).1 (m s).2).2 - k_mem (m s).2)) by lia.
Qed.

Lemma spends_match {A B} (o : option A) (f : A -> K B) (m : K B) Q :
  (o = None -> spends m Q) -> (forall a, o = Some a -> spends (f a) Q) -> spends (match o with Some a => f a | None => m end) Q.
Proof. destruct o; auto. Qed.

Lemma spends_if {B} (b : bool) (m m' : K B) Q :
  (b = true -> spends m Q) -> (b = false -> spends m' Q) -> spends (if b then m else m') Q.
Proof. destruct b; auto. Qed.

Lemma spends_now (Q : nat -> Z -> Z -> Prop) : (forall t, Q t 0 0) -> spends now Q.
Proof. intros HQ s. simpl. rewrite !Z.sub_diag. apply HQ. Qed.

Lemma spends_mem n (Q : unit -> Z -> Z -> Prop) : Q tt 0 n -> spends (add_mem n) Q.
Proof. intros HQ s. simpl. rewrite Z.sub_diag. by replace (k_mem s + n - k_mem s) with n by lia. Qed.

Lemma spends_OSFree n (Q : unit -> Z -> Z -> Prop) : Q tt 0 (- n) -> spends (OSFree n) Q.
Proof. apply spends_mem. Qed.

Lemma balanced_spends {A} (m : K A) : balanced m <-> spends m (with_resources 0 0).
Proof. split; intros Hm s; destruct (Hm s); split; lia. Qed.

Section Rules.
Context `{KernelOps}.

(** A process that exists at some time. *)
Definition live (p : proc_t) : Prop := exists t pid, proc_find_at t pid = Some p.

Lemma spends_proc_find pid (Q : option proc_t -> Z -> Z -> Prop) :
  Q None 0 0 -> (forall p, live p -> Q (Some p) 1 0) -> spends (proc_find pid) Q.
Proof.
  intros Hn Hs s. unfold proc_find. rewrite !K_bind_run. simpl. destruct (proc_find_at _ pid) as [p|] eqn:Ep; simpl.
  - replace (k_procrefs s + 1 - k_procrefs s) with 1 by lia. rewrite Z.sub_diag. apply Hs. by eexists _, _.
  - rewrite !Z.sub_diag. apply Hn.
Qed.

Lemma spends_proc_rele p (Q : unit -> Z -> Z -> Prop) : Q tt (-1) 0 -> spends (proc_rele p) Q.
Proof. intros HQ s. simpl. rewrite Z.sub_diag. by replace (k_procrefs s + -1 - k_procrefs s) with (-1) by lia. Qed.

Lemma spends_OSMalloc n (Q : bool -> Z -> Z -> Prop) : Q true 0 n -> Q false 0 0 -> spends (OSMalloc n) Q.
Proof.
  intros Ht Hf s. unfold OSMalloc. rewrite K_bind_run. simpl. destruct (malloc_at _ n); simpl; rewrite !Z.sub_diag; [|done].
  by replace (k_mem s + n - k_mem s) with n by lia.
Qed.

Lemma spends_balanced {A} (m : K A) (Q : A -> Z -> Z -> Prop) : balanced m -> (forall a, Q a 0 0) -> spends m Q.
Proof. intros Hm HQ. eapply spends_mono; [by apply balanced_spends|]. intros a r n [-> ->]. apply HQ. Qed.

End Rules.

(** ** Process counts and requests *)

Section Counts.
Context `{KernelOps}.

Lemma get_pids_body_spends fuel creds : spends (get_pids_body fuel creds) (λ r refs n, refs = 0 ∧ n = r.2).
Proof.
  unfold get_pids_body. apply spends_bind, spends_OSMalloc; [|by apply spends_ret].
  apply spends_bind, spends_balanced; [apply get_pids_loop_balanced|]. intros l. by apply spends_ret.
Qed.

Lemma get_pids_spends creds : spends (procfs_get_pids creds) (λ r refs n, refs = 0 ∧ n = r.2).
Proof. with_strategy transparent [procfs_get_pids] unfold procfs_get_pids. apply get_pids_body_spends. Qed.

Lemma process_count_balanced creds : balanced (procfs_get_process_count creds).
Proof.
  apply balanced_spends, spends_bind. eapply spends_mono; [apply get_pids_spends|]. intros r refs n [-> ->].
  apply spends_bind, spends_OSFree, spends_ret. split; simpl; lia.
Qed.

Lemma uthlist_balanced p : balanced (uthlist p).
Proof. intros s. done. Qed.

Lemma thread_size_balanced known : balanced (procfs_thread_size_init known).
Proof.
  unfold procfs_thread_size_init. repeat case_match; try apply balanced_ret.
  apply balanced_bind; [apply uthlist_balanced|]. intros l. apply balanced_ret.
Qed.

Lemma ctl_request_balanced `{CtlOps} ty pid arg cap : balanced (ctl_request ty pid arg cap).
Proof. intros s. done. Qed.

End Counts.

(** ** Threads *)

Section Threads.
Context `{KernelOps}.

(** No thread comes or goes while a file is read, and the thread structures are mapped. *)
Record threads_steady (known : option Z) : Prop := {
  ts_list t p : p_uthlist_at t p = p_uthlist_at 0 p;
  ts_mapped p size u : live p -> thread_size known = Some size -> u ∈ p_uthlist_at 0 p -> procfs_kptr_ok u = true ->
    procfs_kptr_ok (u64 (u - size)) = true;
}.

Lemma count_uthreads_ge l : forall k, k <= count_uthreads k l.
Proof.
  induction l as [|u l IH]; intros k; cbn [count_uthreads]; [lia|]. case_match; [|lia]. case_match; [|lia]. specialize (IH (k + 1)). lia.
Qed.

(** The second pass finds as many ids as the first pass counted. *)
Lemma collect_counted size l : forall k,
  (forall u, u ∈ l -> procfs_kptr_ok u = true -> procfs_kptr_ok (u64 (u - size)) = true) ->
  Z.of_nat (length (collect_tids size k (count_uthreads k l) l)) = count_uthreads k l - k.
Proof.
  induction l as [|u l IH]; intros k Hm; cbn [count_uthreads collect_tids]; [simpl; lia|].
  destruct (k <? PROCFS_MAX_THREADS) eqn:Ek; [|rewrite Z.ltb_irrefl; simpl; lia].
  destruct (procfs_kptr_ok u) eqn:Eu; [|rewrite Z.ltb_irrefl; simpl; lia].
  pose proof (count_uthreads_ge l (k + 1)). rewrite (proj2 (Z.ltb_lt k _)) by lia. cbn [negb]. cbv zeta.
  rewrite Hm by (done || left). cbn [length]. rewrite Nat2Z.inj_succ, IH; [lia|]. intros v Hv. apply Hm. by right.
Qed.

Lemma thread_size_value known : (forall t p, p_uthlist_at t p = p_uthlist_at 0 p) ->
  value (procfs_thread_size_init known) (thread_size known).
Proof.
  intros Hl s. unfold procfs_thread_size_init, thread_size. destruct known; [done|]. destruct current_proc as [cp|]; [|done].
  destruct (current_thread =? 0); [done|]. unfold uthlist. cbv [mbind K_bind now mret K_ret]. cbn [fst snd]. rewrite Hl.
  change (option_bind proc_t Z ?f (Some cp)) with (f cp). cbv beta. by destruct (thread_size_loop _ _ _ _).
Qed.

Lemma thread_ids_spends known p : threads_steady known -> live p ->
  spends (procfs_get_thread_ids_for_task (Some p) known)
    (λ r refs n, refs = 0 ∧ n = if r.1.1 =? 0 then Z.of_nat (length r.1.2) * 8 else 0).
Proof.
  intros [Hl Hm] Hlive. unfold procfs_get_thread_ids_for_task. apply spends_bind. intros s.
  rewrite (thread_size_value known Hl s). destruct (thread_size_balanced known s) as [-> ->]. rewrite !Z.sub_diag.
  destruct (thread_size known) as [size|] eqn:Es; [|by apply spends_ret].
  assert (Hu : forall Q, (Q (p_uthlist_at 0 p) 0 0) -> spends (uthlist p) Q).
  { intros Q HQ. apply spends_bind, spends_now. intros t. apply spends_ret. by rewrite Hl. }
  apply spends_bind, Hu. cbv zeta. apply spends_if; intros; [by apply spends_ret|].
  apply spends_bind, spends_OSMalloc; [|by apply spends_ret]. apply spends_bind, Hu, spends_ret. split; [done|].
  cbn [fst snd]. change (KERN_SUCCESS =? 0) with true. cbv iota. rewrite (collect_counted size); [lia|]. intros u Hin. by apply (Hm p size).
Qed.

Lemma thread_count_balanced known p : threads_steady known -> live p -> balanced (procfs_get_task_thread_count (Some p) known).
Proof.
  intros Hs Hp. apply balanced_spends, spends_bind. eapply spends_mono; [by apply thread_ids_spends|].
  intros [[e ids] kn] refs n [-> ->]. cbn [fst snd]. destruct (e =? 0); [|by apply spends_ret].
  apply spends_bind, spends_OSFree, spends_ret. split; lia.
Qed.

(** The array of thread ids is freed with the size for the ids that were found, which is not
    the size it was allocated with when a thread has gone in between, or the structure of a
    thread is not mapped: the rest of it stays allocated. *)
Theorem thread_count_residue p size s :
  let l1 := p_uthlist_at (k_clock s) p in
  let count := count_uthreads 0 l1 in
  let found := collect_tids size 0 count (p_uthlist_at (S (S (k_clock s))) p) in
  count ≠ 0 -> malloc_at (S (k_clock s)) (count * 8) = true ->
  k_mem (procfs_get_task_thread_count (Some p) (Some size) s).2 = k_mem s + 8 * (count - Z.of_nat (length found)).
Proof.
  intros l1 count found Hc Hm. unfold procfs_get_task_thread_count, procfs_get_thread_ids_for_task, procfs_thread_size_init, uthlist, OSMalloc.
  cbv [mbind K_bind now mret K_ret]. cbn [fst snd k_clock tick]. fold l1 count. rewrite (proj2 (Z.eqb_neq _ _) Hc).
  cbn [fst snd k_clock tick]. rewrite Hm. unfold add_mem, procfs_release_thread_ids, OSFree, tick. fold found. change (KERN_SUCCESS =? 0) with true.
  cbn [fst snd k_clock k_mem]. unfold add_mem. cbn [fst snd k_mem]. fold found. lia.
Qed.

End Threads.

(** ** String buffers *)

Section Buffers.
Context `{KernelOps} `{PageSize} `{UioOps}.

(** What a step of a string buffer adds to the memory the buffer owns. *)
Definition grows (s : sbuf) : option (Z * sbuf) -> Z -> Z -> Prop := λ r refs n,
  refs = 0 ∧ match r with Some (_, s') => n = owned s' - owned s | None => True end.

Lemma owned_overflowed s : owned (SBUF_SETFLAG s SBUF_OVERFLOWED) = owned s.
Proof. unfold owned. by flags. Qed.

Lemma store_at_owned s off data s' : store_at s off data = Some s' -> owned s' = owned s.
Proof.
  unfold store_at. destruct (s_buf s) as [b|] eqn:E; cbn [mbind option_bind]; [|done].
  destruct (store b off _) as [b'|]; [|done]. intros [= <-].
  unfold owned. cbn. by rewrite E.
Qed.

Lemma extend_grows s n : spends (sbuf_extend s n) (grows s).
Proof.
  unfold sbuf_extend. do 3 (apply spends_if; intros; [by apply spends_ret; unfold grows; rewrite Z.sub_diag|]).
  apply spends_match; [intros _; apply spends_ret; unfold grows; by rewrite Z.sub_diag|]. intros size _.
  apply spends_bind, spends_OSMalloc; [|apply spends_ret; unfold grows; by rewrite Z.sub_diag].
  destruct (s_buf s) as [b|] eqn:Eb; [|by apply spends_ret]. apply spends_if; [by intros _; apply spends_ret|]. intros _.
  apply spends_match; [by intros _; apply spends_ret|]. intros b' _. destruct (SBUF_ISSET s SBUF_DYNAMIC) eqn:Ed.
  - apply spends_bind, spends_bind, spends_OSFree, spends_ret, spends_ret. split; [done|].
    unfold owned. cbn [s_buf s_size]. change (SBUF_ISSET (Sbuf _ _ _ (s_flags s))) with (SBUF_ISSET s).
    rewrite Ed, Eb. cbn. lia.
  - apply spends_bind, spends_ret, spends_ret. split; [done|].
    unfold owned. cbn [s_buf s_size s_flags].
    change (SBUF_ISSET (Sbuf ?b ?n ?l (s_flags (SBUF_SETFLAG s ?f)))) with (SBUF_ISSET (SBUF_SETFLAG s f)).
    flags. rewrite Ed. change (bool_decide (16 = 16)) with true. change (bool_decide (19 = 16)) with false. cbn. lia.
Qed.

Lemma vprintf_grows s text : spends (sbuf_vprintf s text) (grows s).
Proof.
  unfold sbuf_vprintf. apply spends_if; [intros _; apply spends_ret; unfold grows; by rewrite Z.sub_diag|]. intros _.
  generalize 2%nat. intros fuel. revert s. induction fuel as [|fuel IH]; intros s; cbn [vprintf_loop]; [by apply spends_ret|].
  destruct (store_at s _ _) as [s1|] eqn:Es; [|by apply spends_ret]. apply store_at_owned in Es as Eo.
  cbv zeta. apply spends_if; [intros _; apply spends_ret; unfold grows; rewrite Eo, Z.sub_diag; done|]. intros _.
  apply spends_if; [intros _; apply spends_ret; split; [done|]; change (owned (set_len s1 ?l)) with (owned s1); lia|].
  intros _. apply spends_bind. unfold sbuf_ensure_capacity. cbv zeta.
  assert (Hloop : forall e s2 refs n, grows s1 (Some (e, s2)) refs n ->
    spends (if negb (e =? -1) then vprintf_loop fuel s2 text else mret (Some (-1, SBUF_SETFLAG s2 SBUF_OVERFLOWED)))
      (λ b r' n', grows s b (refs + r') (n + n'))).
  { intros e s2 refs n [-> Hn]. apply spends_if; intros _.
    - eapply spends_mono; [apply IH|]. intros r r' n' [-> Hr]. split; [done|]. destruct r as [[e' s']|]; [lia|done].
    - apply spends_ret. split; [done|]. rewrite owned_overflowed. lia. }
  apply spends_if; intros _.
  - apply spends_ret. apply Hloop. unfold grows. by rewrite Z.sub_diag.
  - eapply spends_mono; [apply extend_grows|]. intros [[e s2]|] refs n Hg; [by apply Hloop|]. apply spends_ret. split; [|done].
    destruct Hg as [-> _]. done.
Qed.

Lemma print_all_spends texts : forall s, spends (print_all texts s)
  (λ r refs n, refs = 0 ∧ match r with Some s' => n = owned s' - owned s | None => True end).
Proof.
  induction texts as [|text texts IH]; intros s; cbn [print_all]; [apply spends_ret; by rewrite Z.sub_diag|].
  apply spends_bind. unfold print. apply spends_bind. eapply spends_mono; [apply vprintf_grows|].
  intros [[e s1]|] refs n [-> Hn]; apply spends_ret; cbn [fmap option_fmap option_map snd]; [|by apply spends_ret].
  eapply spends_mono; [apply IH|]. intros [s2|] r' n' [-> Hn']; split; done || lia.
Qed.

Lemma delete_spends s (Q : option sbuf -> Z -> Z -> Prop) : (forall r, Q r 0 (- owned s)) -> spends (sbuf_delete s) Q.
Proof.
  intros HQ st. rewrite delete_mem. replace (k_mem st - owned s - k_mem st) with (- owned s) by lia.
  rewrite (refs_kept_delete s st), Z.sub_diag. apply HQ.
Qed.

Lemma new_spends given buf len flags (Q : option sbuf -> Z -> Z -> Prop) :
  buffer_ok buf len -> Q None 0 0 -> (forall s, Q (Some s) 0 (owned s)) -> spends (sbuf_new given buf len flags) Q.
Proof.
  intros Hb HN HS st. pose proof (new_ok given buf len flags st Hb) as Hc. rewrite (refs_kept_new given buf len flags st), Z.sub_diag.
  destruct (sbuf_new given buf len flags st) as [[s|] st1]; cbn [fst snd created] in *.
  - destruct Hc as [_ Hm]. by replace (k_mem st1 - k_mem st) with (owned s) by lia.
  - by rewrite Hc, Z.sub_diag.
Qed.

Lemma finish_spends s uio : spends (finish_and_copy s uio) (λ r refs n, is_Some r -> refs = 0 ∧ n = - owned s).
Proof.
  unfold finish_and_copy, sbuf_finish. destruct (store_at s _ _) as [s1|] eqn:Es; [|by apply spends_ret; intros [? [=]]].
  apply store_at_owned in Es as Eo. cbn [mbind option_bind]. apply spends_bind, delete_spends. intros _. apply spends_ret.
  intros _. split; [done|]. rewrite <- Eo.
  assert (owned (SBUF_SETFLAG (SBUF_CLEARFLAG s1 SBUF_OVERFLOWED) SBUF_FINISHED) = owned s1) as -> by (unfold owned; by flags). lia.
Qed.

Lemma reply_spends s texts uio : spends (reply_text (Some s) texts uio) (λ r refs n, is_Some r -> refs = 0 ∧ n = - owned s).
Proof.
  unfold reply_text. apply spends_bind. eapply spends_mono; [apply print_all_spends|].
  intros [s'|] refs n [-> Hn]; [|apply spends_ret; by intros [? [=]]].
  eapply spends_mono; [apply finish_spends|]. intros r refs' n' Hr Hs. specialize (Hr Hs). lia.
Qed.

End Buffers.

(** ** A system that changes *)

(** The processes are those of [before] up to a time, then those of [after]. *)
Definition changing (before after : list simple_proc) (when : nat) : KernelOps :=
  let at_ t := simple_kernel (if (t <? when)%nat then before else after) in
  let k := simple_kernel before in
  {| proc_t := simple_proc; kauth_cred_t := simple_cred; proc_find_at t := @proc_find_at (at_ t) t; proc_pid := sp_pid;
     proc_name := @proc_name k; malloc_at _ _ := true; kauth_cred_proc_ref := @kauth_cred_proc_ref k;
     cr_uid := sc_uid; cr_groups0 := sc_gid; kauth_cred_getuid := sc_uid; kauth_cred_getruid := sc_uid;
     kauth_cred_getgid := sc_gid; kauth_cred_getrgid := sc_gid;
     p_uthlist_at t p := match @proc_find_at (at_ t) t (sp_pid p) with Some q => sp_uthreads q | None => [] end;
     kernel_mapped _ := true; thread_tid := @thread_tid k; current_proc := @current_proc k; current_thread := @current_thread k;
     proc_fdlist_bound_at _ p := (0, Z.of_nat (length (sp_fds p)));
     proc_fdlist_at _ p cap := (0, take (Z.to_nat cap) (sp_fds p)) |}.

(** One of two threads exits between the two passes: 8 bytes are lost. *)
Example thread_exit_residue :
  let u1 := 18446741874686296164 in let u2 := 18446741874686300000 in
  let p threads := SimpleProc 501 "zsh" 501 20 threads [] in
  k_mem (@procfs_get_task_thread_count (changing [p [u1; u2]] [p [u1]] 2) (Some (p [u1; u2])) (Some 64) (Kstate 0 0 0)).2 = 8.
Proof.
  exact (@thread_count_residue (changing [SimpleProc 501 "zsh" 501 20 [18446741874686296164; 18446741874686300000] []]
    [SimpleProc 501 "zsh" 501 20 [18446741874686296164] []] 2) (SimpleProc 501 "zsh" 501 20 [18446741874686296164; 18446741874686300000] [])
    64 (Kstate 0 0 0) ltac:(vm_compute; discriminate) eq_refl).
Qed.
