(* ===== verification/Dispatch.v ===== *)
(** * Reading files (procfs_vnop_read with the handlers of all nodes)

    The layout names a handler for every file; here each name stands for the handler of its
    own file, so that a read is the whole of it: the dispatch of procfs_vnops.c, the
    presentation switch [procfs_linux_mode] of procfs_linux.c and the handler.  What the
    theorems show holds for every file at once. *)

From S2P Require Import Prelude Kernel Structure Subr Node Sysctl Readdir Lookup Attr Walk Sbuf Text Limit Phys Mem Procargs.
From S2P Require Import Map Ctl Bridge Loadavg Fdtable Status Fdnode Linux Iokit Linuxproc Cpu Account.

(** ** The handlers *)

(** What the handlers read that is not an operation of one of the classes. *)
Class NodeData `{KernelOps} := {
  (** [version] of the kernel, and the entries of cpuinfo ([Cpu.arm_entries] or
      [Cpu.x86_cpuinfo]) with the number of processors *)
  nd_version : string;
  nd_cpu_entries : Z -> option (list string);
  nd_max_cpus : Z;
  (** the mounts, and the registry of IOKit *)
  nd_mounts : nat -> list (option vfsstatfs);
  nd_service_matching : string -> bool;
  nd_matching_services : string -> option (list ioobject);
  (** [p_limit] of a process and the limits it points to *)
  nd_p_limit : nat -> proc_t -> Z;
  nd_pl_rlimit : Z -> nat -> rlimit;
  (** the load sampler, and the size of the thread structure once it is known *)
  nd_load : la_state;
  nd_known : option Z;
  (** the register structures of the machine *)
  nd_regs_size : nat;
  nd_fpregs_size : nat;
  nd_decode_regs : list (option Byte.byte) -> option arm_regs;
  nd_decode_fpregs : list (option Byte.byte) -> option neon_regs;
}.

Section Dispatch.
Context `{KernelOps} `{PageSize} `{PhysOps} `{UioOps} `{!ProcArgs} `{!ProcInfo} `{!VmOps} `{CtlOps} `{!FdOps} `{SysOps} `{!NodeData}.

(** [procfs_linux_mode], as the handlers with two renderings test it. *)
Definition if_linux {A} (procfs_linux_mode : Z) (m : A) : option A := if procfs_linux_mode =? 0 then None else Some m.

Definition read_handler (procfs_linux_mode : Z) (creds : kauth_cred_t) (f : procfs_read_data_fn) (pnp : pfsnode) (uio : uio_t) :
    K (option (Z * uio_t)) :=
  match f with
  | Structure.procfs_docpuinfo => Cpu.procfs_docpuinfo nd_cpu_entries nd_max_cpus uio
  | Structure.procfs_doloadavg => Loadavg.procfs_doloadavg nd_load creds uio
  | Structure.procfs_domeminfo => Linux.procfs_domeminfo uio
  | Structure.procfs_domtab => Linux.procfs_domtab nd_mounts uio
  | Structure.procfs_dostat => Linux.procfs_dostat creds uio
  | Structure.procfs_dovmstat => Linux.procfs_dovmstat uio
  | Structure.procfs_dopartitions => Linux.procfs_dopartitions nd_mounts (λ _, partitions_found nd_service_matching nd_matching_services) uio
  | Structure.procfs_doversion => Loadavg.procfs_doversion nd_version uio
  | Structure.procfs_douptime => Linux.procfs_douptime uio
  | Structure.procfs_doswaps => Linux.procfs_doswaps uio
  | Structure.procfs_dofilesystems => Linux.procfs_dofilesystems nd_mounts uio
  | Structure.procfs_doprocargs_fn => procfs_doprocargs pnp uio
  | Structure.procfs_read_pid_data_fn => procfs_read_pid_data pnp uio
  | Structure.procfs_read_ppid_data_fn => procfs_read_ppid_data pnp uio
  | Structure.procfs_read_pgid_data_fn => procfs_read_pgid_data pnp uio
  | Structure.procfs_read_sid_data_fn => procfs_read_sid_data pnp uio
  | Structure.procfs_read_tty_data_fn => procfs_read_tty_data pnp uio
  | Structure.procfs_dostatus_fn =>
    procfs_dostatus (if_linux procfs_linux_mode (procfs_doprocstatus_linux nd_known pnp uio)) pnp uio
  | Structure.procfs_read_task_info_fn => procfs_read_task_info nd_known pnp uio
  | Structure.procfs_donote_fn => mret (Some (procfs_donote (negb (uio_is_read uio)) (inr []) (Z.to_nat (uio_resid uio)), uio))
  | Structure.procfs_dolimit_fn => procfs_dolimit nd_p_limit nd_pl_rlimit pnp uio
  | Structure.procfs_domem_fn => procfs_domem task_pmap creds pnp uio
  | Structure.procfs_domap_fn => procfs_domap creds pnp uio
  | Structure.procfs_domaps_fn => procfs_domaps creds pnp uio
  | Structure.procfs_docomm => Linuxproc.procfs_docomm nd_known pnp uio
  | Structure.procfs_doprocstat => Linuxproc.procfs_doprocstat nd_known pnp uio
  | Structure.procfs_dostatm => Linuxproc.procfs_dostatm nd_known pnp uio
  | Structure.procfs_doenviron_fn => procfs_doenviron pnp uio
  | Structure.procfs_doregs_fn =>
    procfs_doregs nd_regs_size (if_linux procfs_linux_mode (procfs_doregs_linux nd_regs_size nd_decode_regs pnp uio)) pnp uio
  | Structure.procfs_dofpregs_fn =>
    procfs_dofpregs nd_fpregs_size (if_linux procfs_linux_mode (procfs_dofpregs_linux nd_fpregs_size nd_decode_fpregs pnp uio)) pnp uio
  | Structure.procfs_doauxv_fn => procfs_doauxv (if_linux procfs_linux_mode (procfs_doauxv_linux pnp uio)) pnp uio
  | Structure.procfs_read_thread_info_fn => procfs_read_thread_info pnp uio
  | Structure.procfs_dothreadcomm => Linuxproc.procfs_dothreadcomm pnp uio
  | Structure.procfs_dothreadstat => Linuxproc.procfs_dothreadstat nd_known pnp uio
  | Structure.procfs_dothreadstatus => Linuxproc.procfs_dothreadstatus nd_known pnp uio
  | Structure.procfs_dothreadsched => Linuxproc.procfs_dothreadsched nd_known pnp uio
  | Structure.procfs_read_fd_data_fn => r ← procfs_read_fd_data pnp uio; mret r.1
  | Structure.procfs_read_socket_data_fn => r ← procfs_read_socket_data pnp uio; mret r.1
  end.

(** The whole of a read; [sysctlbyname] and the depth of names are those of [Sysctl]. *)
Definition vnop_read (procfs_linux_mode : Z) (st : structure) (tree : sysctl_tree)
    (sysctlbyname : string -> Z -> option (list Byte.byte)) (depth : nat) (creds : kauth_cred_t) :
    pfsnode -> uio_t -> K (option (Z * uio_t)) :=
  procfs_vnop_read st (read_handler procfs_linux_mode creds) (procfs_sysctl_read tree sysctlbyname depth).

(** ** Resources *)

Lemma settled_ret (r : option (Z * uio_t)) refs n : refs = 0 -> n = 0 -> settled r refs n.
Proof. by intros -> -> _. Qed.

Lemma balanced_settled {A} (m : K (option A)) : balanced m -> spends m settled.
Proof. intros Hm. apply spends_balanced; [done|]. by intros a _. Qed.

End Dispatch.

(** What is settled stays so when the sums are written differently. *)
Ltac settle := let Hr := fresh in let Hs := fresh in intros ? ? ? Hr Hs; specialize (Hr Hs); lia.

(** The rules, applied from the outside in. *)
Ltac account := repeat first
  [ apply spends_ret | apply spends_bind | apply spends_OSFree | apply spends_proc_rele | apply spends_now
  | apply spends_proc_find | apply spends_OSMalloc
  | apply spends_if; intros ? | progress intros | case_match ].

Section Settled.
Context `{KernelOps} `{PageSize} `{PhysOps} `{UioOps} `{!ProcArgs} `{!ProcInfo} `{!VmOps} `{CtlOps} `{!FdOps} `{SysOps}.

(** What is left to give back when a buffer is finished or answered with. *)
Lemma finish_settled sb u refs n : refs = 0 -> n = owned sb ->
  spends (finish_and_copy sb u) (λ r r' n', settled r (refs + r') (n + n')).
Proof. intros -> ->. eapply spends_mono; [apply finish_spends|]. settle. Qed.

Lemma reply_settled sb texts u refs n : refs = 0 -> n = owned sb ->
  spends (reply_text (Some sb) texts u) (λ r r' n', settled r (refs + r') (n + n')).
Proof. intros -> ->. eapply spends_mono; [apply reply_spends|]. settle. Qed.

Lemma growing_ok len : 0 <= len <= 65536 -> buffer_ok None len.
Proof. intros ?. split; [unfold INT_MIN, INT_MAX; lia|done]. Qed.

Lemma text_node_settled len texts u : 0 <= len <= 65536 -> spends (text_node len texts u) settled.
Proof.
  intros Hl. apply spends_bind, new_spends; [by apply growing_ok|by apply spends_ret|]. intros sb. by apply reply_settled.
Qed.

Lemma buffer_reply_settled n texts u : 0 < Z.of_nat n <= INT_MAX ->
  spends (sb ← sbuf_new true (Some (replicate n None)) (Z.of_nat n) 0; reply_text sb texts u) settled.
Proof.
  intros Hn. apply spends_bind, new_spends; [|by apply spends_ret|intros sb; by apply reply_settled].
  split; [unfold INT_MIN; lia|]. intros b [= <-]. rewrite length_replicate. lia.
Qed.

(** ** System-wide files *)

Lemma docpuinfo_settled entries max u : spends (procfs_docpuinfo entries max u) settled.
Proof. apply spends_bind, spends_OSMalloc; account; intros Hs; [lia|by destruct Hs]. Qed.

Lemma page_buffer_settled (m : K string) u : balanced m -> spends (with_page_buffer m u) settled.
Proof.
  intros Hm. apply spends_bind, spends_OSMalloc; apply spends_bind, (spends_balanced _ _ Hm); intros text.
  - account. intros _. lia.
  - apply spends_ret. by intros [? [=]].
Qed.

Lemma doloadavg_settled la creds u : spends (procfs_doloadavg la creds u) settled.
Proof.
  apply page_buffer_settled, balanced_bind; [apply ctl_request_balanced|]. intros r.
  apply balanced_bind; [apply process_count_balanced|]. intros. apply balanced_ret.
Qed.

Lemma dostat_settled creds u : spends (procfs_dostat creds u) settled.
Proof.
  apply spends_bind, new_spends; [by apply growing_ok|by apply spends_ret|]. intros sb. cbv zeta.
  apply spends_bind, spends_OSMalloc; cbn [negb].
  - apply spends_bind, spends_now. intros t. apply spends_bind. eapply spends_mono; [apply print_all_spends|].
    intros sb1 refs n [-> Hn]. apply spends_bind, spends_OSFree, spends_bind, spends_balanced; [apply process_count_balanced|].
    intros total. destruct sb1 as [sb1|]; [|apply spends_ret; by intros [? [=]]].
    apply spends_bind. eapply spends_mono; [apply print_all_spends|]. intros [sb2|] refs2 n2 [-> Hn2];
      [|apply spends_ret; by intros [? [=]]].
    eapply spends_mono; [apply finish_spends|]. settle.
  - apply spends_bind, delete_spends. intros _. apply spends_ret. intros _. lia.
Qed.

Lemma domtab_settled mounts u : spends (procfs_domtab mounts u) settled.
Proof.
  apply spends_bind, new_spends; [by apply growing_ok|by apply spends_ret|]. intros sb.
  apply spends_bind, spends_now. intros t. eapply spends_mono; [by apply (reply_settled sb _ u 0 (owned sb))|].
  settle.
Qed.

Lemma dopartitions_settled mounts parts u : spends (procfs_dopartitions mounts parts u) settled.
Proof.
  apply spends_bind, new_spends; [by apply growing_ok|by apply spends_ret|]. intros sb.
  apply spends_bind. eapply spends_mono; [apply print_all_spends|]. intros sb1 refs n [-> Hn].
  assert (Hrest : forall (ok : bool) n0, n0 = (if ok then PROCFS_MAX_PARTS * 80 else 0) -> forall texts : list string,
    spends (sb2 ← (match sb1 with Some s => print_all texts s | None => mret None end);
            _ ← (if ok then OSFree (PROCFS_MAX_PARTS * 80) else mret tt);
            match sb2 with None => mret None | Some s => finish_and_copy s u end)
      (λ r r' n', settled r r' (owned sb + n + n0 + n'))).
  { intros ok n0 -> texts. apply spends_bind.
    assert (Hfree : forall sb2 refs2 n2, refs2 = 0 -> (match sb2 with Some s => n2 = owned s - owned sb - n | None => True end) ->
      spends (_ ← (if ok then OSFree (PROCFS_MAX_PARTS * 80) else mret tt);
              match sb2 with None => mret None | Some s => finish_and_copy s u end)
        (λ r r' n', settled r (refs2 + r') (owned sb + n + (if ok then PROCFS_MAX_PARTS * 80 else 0) + (n2 + n')))).
    { intros sb2 refs2 n2 -> Hn2. apply spends_bind. destruct ok; [apply spends_OSFree|apply spends_ret];
        (destruct sb2 as [s2|]; [|apply spends_ret; by intros [? [=]]]);
        (eapply spends_mono; [apply finish_spends|]; settle). }
    destruct sb1 as [s1|]; [|apply spends_ret; by apply (Hfree None)].
    eapply spends_mono; [apply print_all_spends|]. intros sb2 refs2 n2 [-> Hn2]. apply (Hfree sb2); [done|]. destruct sb2; [lia|done]. }
  apply spends_bind, spends_OSMalloc; apply spends_bind, spends_now; intros t1; apply spends_bind, spends_now; intros t2; cbv zeta.
  - eapply spends_mono; [by apply (Hrest true)|]. settle.
  - eapply spends_mono; [by apply (Hrest false)|]. settle.
Qed.

Lemma dofilesystems_settled mounts u : spends (procfs_dofilesystems mounts u) settled.
Proof.
  apply spends_bind, spends_now. intros t. eapply spends_mono; [by apply text_node_settled|]. intros r refs n Hr Hs.
  specialize (Hr Hs). lia.
Qed.

(** ** Files of processes *)

(** A reference to the process of the node around [body]. *)
Lemma with_process pid none (body : proc_t -> K (option (Z * uio_t))) :
  (forall p, live p -> spends (body p) (λ r refs n, settled r (1 + refs) n)) -> spends none settled ->
  spends (p ← proc_find pid; match p with Some p => body p | None => none end) settled.
Proof.
  intros Hb Hn. apply spends_bind, spends_proc_find; [eapply spends_mono; [exact Hn|]; settle|].
  intros p Hp. eapply spends_mono; [by apply Hb|]. settle.
Qed.

Lemma rele_ret p (r : option (Z * uio_t)) : spends (_ ← proc_rele p; mret r) (λ r refs n, settled r (1 + refs) n).
Proof. account. intros _. lia. Qed.

Lemma rele_after {B} (m : K B) (f : B -> K (option (Z * uio_t))) :
  balanced m -> (forall b, spends (f b) (λ r refs n, settled r (1 + refs) n)) ->
  spends (m ≫= f) (λ r refs n, settled r (1 + refs) n).
Proof. intros Hm Hf. apply spends_bind, spends_balanced; [done|]. intros b. eapply spends_mono; [apply Hf|]. settle. Qed.

Hint Resolve rele_ret : core.

Lemma read_number_settled number pnp u : spends (read_number number pnp u) settled.
Proof. apply with_process; [intros; apply rele_ret|by apply spends_ret]. Qed.

Lemma read_tty_settled pnp u : spends (procfs_read_tty_data pnp u) settled.
Proof.
  unfold procfs_read_tty_data. destruct proc_gettty; [|by apply spends_ret].
  apply with_process; [intros; apply rele_ret|by apply spends_ret].
Qed.

Lemma dostatus_settled linux pnp u : (forall m, linux = Some m -> spends m settled) -> spends (procfs_dostatus linux pnp u) settled.
Proof. destruct linux as [m|]; cbn; [auto|]. intros _. apply with_process; [intros; apply rele_ret|by apply spends_ret]. Qed.

Lemma thread_info_settled pnp u : spends (procfs_read_thread_info pnp u) settled.
Proof.
  apply with_process; [|by apply spends_ret]. intros p Hp. apply rele_after; [apply ctl_request_balanced|]. intros r. apply rele_ret.
Qed.

Lemma has_registers_balanced pnp : balanced (has_registers pnp).
Proof.
  apply balanced_spends, spends_bind, spends_proc_find; [by apply spends_ret|]. intros p Hp. cbv zeta.
  by apply spends_bind, spends_proc_rele, spends_ret.
Qed.

Lemma registers_settled req size linux pnp u : (forall m, linux = Some m -> spends m settled) ->
  spends (read_registers req size linux pnp u) settled.
Proof.
  intros Hl. unfold read_registers. apply spends_if; intros _; [by apply spends_ret|]. destruct linux as [m|]; [by apply Hl|].
  apply balanced_settled, balanced_bind; [apply has_registers_balanced|]. intros [|]; [|apply balanced_ret].
  apply balanced_bind; [apply ctl_request_balanced|]. intros. apply balanced_ret.
Qed.

Lemma dolimit_settled p_limit pl u pnp : spends (procfs_dolimit p_limit pl pnp u) settled.
Proof.
  apply with_process; [|by apply spends_ret]. intros p Hp. apply spends_bind, spends_now. intros t. cbv zeta.
  apply spends_if; intros _; [eapply spends_mono; [apply rele_ret|]; settle|].
  apply spends_bind, spends_proc_rele. eapply spends_mono; [apply buffer_reply_settled; by unfold INT_MAX|].
  settle.
Qed.

Lemma print_spends text sb : spends (print text sb)
  (λ r refs n, refs = 0 ∧ match r with Some sb' => n = owned sb' - owned sb | None => True end).
Proof.
  apply spends_bind. eapply spends_mono; [apply vprintf_grows|]. intros r refs n [-> Hn]. apply spends_ret. split; [done|].
  destruct r as [[e sb']|]; cbn; [lia|done].
Qed.

Lemma map_loop_spends fmt map fuel : forall addr sb, spends (map_loop fuel fmt map addr sb)
  (λ r refs n, refs = 0 ∧ match r with Some sb' => n = owned sb' - owned sb | None => True end).
Proof.
  induction fuel as [|fuel IH]; intros addr sb; cbn [map_loop]; [apply spends_ret; by rewrite Z.sub_diag|].
  destruct (mach_vm_region map addr) as [r|]; [|apply spends_ret; by rewrite Z.sub_diag].
  apply spends_bind. eapply spends_mono; [apply print_spends|]. intros [sb1|] refs n [-> Hn]; [|by apply spends_ret]. cbv zeta.
  apply spends_if; intros _; [apply spends_ret; split; [done|lia]|].
  eapply spends_mono; [apply IH|]. intros [sb2|] r' n' [-> Hn']; split; done || lia.
Qed.

Lemma map_settled creds pnp u fmt : spends (procfs_map_render creds pnp u fmt) settled.
Proof.
  apply with_process; [|by apply spends_ret]. intros p Hp. cbv zeta.
  apply spends_if; intros _; [apply rele_ret|]. apply spends_if; intros _; [apply rele_ret|].
  destruct (task_map p) as [map|]; [|apply rele_ret].
  apply spends_bind, new_spends; [by apply growing_ok|apply rele_ret|]. intros sb.
  apply spends_bind. eapply spends_mono; [apply map_loop_spends|]. intros sb1 refs n [-> Hn].
  apply spends_bind, spends_proc_rele. destruct sb1 as [sb1|]; [|apply spends_ret; by intros [? [=]]].
  eapply spends_mono; [apply finish_spends|]. settle.
Qed.

Lemma doauxv_settled `{!ProcArgs} linux pnp u : balanced (procfs_doauxv None pnp u) -> (forall m, linux = Some m -> spends m settled) ->
  spends (procfs_doauxv linux pnp u) settled.
Proof.
  intros Hb Hl. destruct linux as [m|]; [|by apply balanced_settled]. unfold procfs_doauxv.
  apply spends_if; intros _; [by apply spends_ret|by apply Hl].
Qed.

Lemma doauxv_linux_settled pnp u : spends (procfs_doauxv_linux pnp u) settled.
Proof.
  unfold procfs_doauxv_linux. apply spends_if; intros _; [by apply spends_ret|].
  apply with_process; [|by apply spends_ret]. intros p Hp. apply spends_bind, new_spends; [by apply growing_ok|apply rele_ret|].
  intros sb. apply spends_bind. eapply spends_mono; [apply reply_spends|]. intros r refs n Hr.
  apply spends_bind, spends_proc_rele, spends_ret. intros Hs. specialize (Hr Hs). lia.
Qed.

Lemma registers_linux_settled {R} req size len (decode : list (option Byte.byte) -> option R) lines pnp u :
  0 <= len <= 65536 -> spends (registers_linux req size len decode lines pnp u) settled.
Proof.
  intros Hl. unfold registers_linux. apply spends_if; intros _; [by apply spends_ret|].
  apply spends_bind, spends_balanced; [apply has_registers_balanced|]. intros [|]; cbn [negb]; [|by apply spends_ret].
  apply spends_bind, new_spends; [by apply growing_ok|by apply spends_ret|]. intros sb.
  apply spends_bind, spends_balanced; [apply ctl_request_balanced|]. intros rep.
  assert (Hreply : forall texts, spends (reply_text (Some sb) texts u)
    (λ r refs n, settled r (0 + (0 + (0 + refs))) (0 + (owned sb + (0 + n))))).
  { intros texts. eapply spends_mono; [by apply (reply_settled sb texts u 0 (owned sb))|]. settle. }
  destruct rep as [e|[|b out]]; [apply Hreply..|]. destruct (decode _); [apply Hreply|]. apply spends_ret. by intros [? [=]].
Qed.

Lemma fd_object_balanced tab want fd : balanced (fd_object tab want fd).
Proof. apply balanced_bind; [intros s; done|]. intros n. case_match; [apply balanced_ret|]. intros s. done. Qed.

Lemma vnodeinfo_balanced vp : balanced (fill_vnodeinfo vp).
Proof.
  apply balanced_bind; [apply balanced_ret|]. intros [e vi]. case_match; [apply balanced_ret|]. intros s. done.
Qed.

Lemma socketinfo_balanced so : balanced (procfs_fill_socketinfo so).
Proof.
  unfold procfs_fill_socketinfo. destruct (sock_gettype so) as [[dom type] proto]. cbv zeta.
  case_match; [|case_match; [|apply balanced_ret]]; (apply balanced_bind; [intros s; done|]; intros t s; done).
Qed.
(** The descriptor nodes: find the object, read it, release the process. *)
Lemma object_settled {B} pid (none : option (Z * uio_t) * Z) (find : proc_t -> K B) (body : B -> K (option (Z * uio_t) * Z)) :
  (forall p, balanced (find p)) -> (forall v, balanced (body v)) ->
  spends (r ← (p ← proc_find pid;
               match p with
               | None => mret none
               | Some p => v ← find p; r ← body v; _ ← proc_rele p; mret r
               end); mret r.1) settled.
Proof.
  intros Hf Hb. apply spends_bind, spends_bind, spends_proc_find; [by apply spends_ret, spends_ret|]. intros p Hp.
  apply spends_bind, spends_balanced; [apply Hf|]. intros v. apply spends_bind, spends_balanced; [apply Hb|]. intros r.
  apply spends_bind, spends_proc_rele, spends_ret, spends_ret. intros _. lia.
Qed.

Lemma fd_settled pnp u : spends (r ← procfs_read_fd_data pnp u; mret r.1) settled.
Proof.
  apply object_settled; [intros; apply fd_object_balanced|]. intros [[|[vp fi]]|]; [apply balanced_ret| |apply balanced_ret].
  apply balanced_bind; [intros s; done|]. intros t. cbv zeta. case_match; [apply balanced_ret|].
  apply balanced_bind; [apply vnodeinfo_balanced|]. intros [|]; [apply balanced_ret|]. intros s. done.
Qed.

Lemma socket_settled pnp u : spends (r ← procfs_read_socket_data pnp u; mret r.1) settled.
Proof.
  apply object_settled; [intros; apply fd_object_balanced|]. intros [[|[so fi]]|]; [apply balanced_ret| |apply balanced_ret].
  apply balanced_bind; [apply socketinfo_balanced|]. intros psi. apply balanced_ret.
Qed.

(** ** Files that count threads *)

Section Threads.
Variable known : option Z.
Hypothesis Hsteady : threads_steady known.

Lemma pctx_balanced pnp : balanced (procfs_pctx_get known pnp).
Proof.
  apply balanced_spends, spends_bind, spends_proc_find; [by apply spends_ret|]. intros p Hp.
  apply spends_bind, spends_balanced; [by apply thread_count_balanced|]. intros tc.
  destruct (procfs_task_vm_sizes _ p) as [[e v] r]. by apply spends_bind, spends_proc_rele, spends_ret.
Qed.

Lemma zero_filled_balanced ty pid arg cap n : balanced (r ← ctl_request ty pid arg cap; mret (zero_filled n r)).
Proof. apply balanced_bind; [apply ctl_request_balanced|intros; apply balanced_ret]. Qed.

Lemma task_info_settled pnp u : spends (procfs_read_task_info known pnp u) settled.
Proof.
  apply with_process; [|by apply spends_ret]. intros p Hp. apply rele_after; [apply ctl_request_balanced|]. intros r.
  destruct (whole sizeof_taskinfo r); [apply rele_ret|]. apply rele_after; [by apply thread_count_balanced|]. intros tc. apply rele_ret.
Qed.

Lemma process_text_settled pnp (f : procfs_pctx -> option (Z * uio_t)) : spends (c ← procfs_pctx_get known pnp; mret (f c)) settled.
Proof. apply balanced_settled, balanced_bind; [apply pctx_balanced|intros; apply balanced_ret]. Qed.

Lemma doprocstat_settled pnp u : spends (procfs_doprocstat known pnp u) settled.
Proof.
  apply balanced_settled, balanced_bind; [apply pctx_balanced|]. intros c.
  apply balanced_bind; [apply zero_filled_balanced|intros; apply balanced_ret].
Qed.

Lemma status_linux_settled pnp u : spends (procfs_doprocstatus_linux known pnp u) settled.
Proof.
  apply spends_bind, spends_balanced; [apply pctx_balanced|]. intros c.
  assert (Ht : forall ids refs n, refs = 0 -> n = 0 -> spends (text_node 1024 [status_text c ids] u) (λ r r' n', settled r (refs + r') (n + n'))).
  { intros ids refs n -> ->. eapply spends_mono; [by apply text_node_settled|]. settle. }
  apply spends_bind, spends_proc_find.
  - apply spends_bind, spends_ret. eapply spends_mono; [by apply (Ht _ 0 0)|]. settle.
  - intros p Hp. apply spends_bind, spends_bind, spends_proc_rele, spends_ret. eapply spends_mono; [by apply (Ht _ 0 0)|].
    settle.
Qed.

Lemma thread_node_settled size text pnp u : spends (thread_node size text known pnp u) settled.
Proof.
  apply balanced_settled, balanced_bind; [apply zero_filled_balanced|]. intros ti.
  apply balanced_bind; [apply pctx_balanced|intros; apply balanced_ret].
Qed.

End Threads.

End Settled.

(** ** Every read *)

Section Reads.
Context `{KernelOps} `{PageSize} `{PhysOps} `{UioOps} `{!ProcArgs} `{!ProcInfo} `{!VmOps} `{CtlOps} `{!FdOps} `{SysOps} `{!NodeData}.

(** The files whose handlers count the threads of the process. *)
Definition counts_threads (procfs_linux_mode : Z) (f : procfs_read_data_fn) : bool :=
  match f with
  | Structure.procfs_read_task_info_fn | Structure.procfs_docomm | Structure.procfs_doprocstat | Structure.procfs_dostatm
  | Structure.procfs_dothreadstat | Structure.procfs_dothreadstatus | Structure.procfs_dothreadsched => true
  | Structure.procfs_dostatus_fn => negb (procfs_linux_mode =? 0)
  | _ => false
  end.

(** The handler a read of a node ends in. *)
Definition node_handler (st : structure) (pnp : pfsnode) : option procfs_read_data_fn :=
  x ← sn_heap st !! node_structure_node pnp; psn_read_data_fn x.

Lemma handler_settled mode creds f pnp u :
  (counts_threads mode f = true -> threads_steady nd_known) -> spends (read_handler mode creds f pnp u) settled.
Proof.
  intros Hst.
  assert (Hlinux : forall m : K (option (Z * uio_t)), spends m settled -> forall m', if_linux mode m = Some m' -> spends m' settled).
  { intros m Hm m'. unfold if_linux. destruct (mode =? 0); [done|]. by intros [= <-]. }
  destruct f; cbn [read_handler].
  - apply docpuinfo_settled.
  - apply doloadavg_settled.
  - apply (buffer_reply_settled 512). unfold INT_MAX. lia.
  - apply domtab_settled.
  - apply dostat_settled.
  - apply spends_bind, spends_balanced; [apply ctl_request_balanced|]. intros r.
    eapply spends_mono; [by apply text_node_settled|settle].
  - apply dopartitions_settled.
  - apply page_buffer_settled, balanced_ret.
  - apply balanced_settled, balanced_now.
  - by apply text_node_settled.
  - apply dofilesystems_settled.
  - apply balanced_settled. exact (proj1 (procargs_release pnp u)).
  - by apply spends_ret.
  - apply read_number_settled.
  - apply read_number_settled.
  - apply read_number_settled.
  - apply read_tty_settled.
  - apply dostatus_settled. intros m. unfold if_linux. cbn [counts_threads] in Hst. destruct (mode =? 0); [done|]. intros [= <-].
    by apply status_linux_settled, Hst.
  - by apply task_info_settled, Hst.
  - by apply spends_ret.
  - apply dolimit_settled.
  - apply balanced_settled. exact (proj1 (mem_guarded task_pmap creds pnp u)).
  - apply map_settled.
  - apply map_settled.
  - by apply process_text_settled, Hst.
  - by apply doprocstat_settled, Hst.
  - by apply process_text_settled, Hst.
  - apply balanced_settled. exact (proj1 (proj2 (procargs_release pnp u))).
  - apply registers_settled, Hlinux. by apply registers_linux_settled.
  - apply registers_settled, Hlinux. by apply registers_linux_settled.
  - apply doauxv_settled; [exact (proj2 (proj2 (procargs_release pnp u)))|]. apply Hlinux, doauxv_linux_settled.
  - apply thread_info_settled.
  - apply balanced_settled, balanced_bind; [apply zero_filled_balanced|intros; apply balanced_ret].
  - by apply thread_node_settled, Hst.
  - by apply thread_node_settled, Hst.
  - by apply thread_node_settled, Hst.
  - apply fd_settled.
  - apply socket_settled.
Qed.

(** C14. Reads give back what they take: on every path of every handler (the process is gone,
    the daemon does not answer, memory is short, the copy fails), in either presentation, the
    process references and the memory taken are given back when the read returns; for the
    files that count threads (taskinfo, comm, stat, statm, the Linux status and the stat,
    status and sched files of threads) this holds while no thread comes or goes during the
    read, see [thread_count_residue] for what is lost otherwise. *)
Theorem reads_give_back mode st tree byname depth creds pnp u s :
  (forall f, node_handler st pnp = Some f -> counts_threads mode f = true -> threads_steady nd_known) ->
  is_Some (vnop_read mode st tree byname depth creds pnp u s).1 ->
  same_res s (vnop_read mode st tree byname depth creds pnp u s).2.
Proof.
  intros Hst Hsome. assert (Hm : spends (vnop_read mode st tree byname depth creds pnp u) settled).
  { unfold vnop_read, procfs_vnop_read, node_handler in *. destruct (sn_heap st !! _) as [x|]; [|apply spends_ret; by intros [? [=]]].
    cbn [mbind option_bind] in Hst.
    apply spends_if; intros _; [by apply spends_ret|]. apply spends_if; intros _; [by apply spends_ret|].
    destruct (psn_read_data_fn x) as [f|]; [apply handler_settled, (Hst f eq_refl)|by apply spends_ret]. }
  destruct (Hm s Hsome). split; lia.
Qed.

(** ** Access *)

(** The files whose handlers test the credentials against the process. *)
Definition checks_access (f : procfs_read_data_fn) : bool :=
  match f with procfs_domem_fn | procfs_domap_fn | procfs_domaps_fn => true | _ => false end.

(** The files that count the processes the reader may see. *)
Definition counts_processes (f : procfs_read_data_fn) : bool :=
  match f with Structure.procfs_doloadavg | Structure.procfs_dostat => true | _ => false end.

Lemma check_error creds p : procfs_check_can_access_process creds p = 0 ∨ procfs_check_can_access_process creds p = EACCES.
Proof. unfold procfs_check_can_access_process. repeat case_match; auto. Qed.

(** C15. The memory and the maps of a process are read only by those who may access the
    process at the time of the read: otherwise nothing is copied and the read fails. *)
Theorem memory_reads_checked mode creds f pnp u s :
  checks_access f = true ->
  (forall p, proc_find_at (k_clock s) (nodeid_pid (node_id pnp)) = Some p -> procfs_check_can_access_process creds p ≠ 0) ->
  exists e, (read_handler mode creds f pnp u s).1 = Some (e, u) ∧ e ≠ 0.
Proof.
  intros Hf Hacc.
  assert (Hfind : forall (none : K (option (Z * uio_t))) (body : proc_t -> K (option (Z * uio_t))),
    (forall s', exists e, (none s').1 = Some (e, u) ∧ e ≠ 0) ->
    (forall p s', procfs_check_can_access_process creds p = EACCES -> exists e, (body p s').1 = Some (e, u) ∧ e ≠ 0) ->
    exists e, ((p ← proc_find (nodeid_pid (node_id pnp)); match p with Some p => body p | None => none end) s).1 = Some (e, u) ∧ e ≠ 0).
  { intros none body Hn Hb. rewrite K_bind_run. unfold proc_find. rewrite K_bind_run. cbn [now fst snd].
    destruct (proc_find_at (k_clock s) _) as [p|]; [|apply Hn]. rewrite K_bind_run. cbn [fst snd mret K_ret]. apply Hb.
    destruct (check_error creds p) as [E|E]; [|done]. by destruct (Hacc p eq_refl). }
  assert (Hmap : forall fmt, exists e, (procfs_map_render creds pnp u fmt s).1 = Some (e, u) ∧ e ≠ 0).
  { intros fmt. apply Hfind; [intros s'; by exists ESRCH|]. intros p s' E. exists EACCES. cbv zeta. rewrite E. by split. }
  destruct f; try discriminate Hf; cbn [read_handler]; [|apply Hmap..].
  unfold procfs_domem. destruct (uio_is_read u); cbn [negb]; [|by exists EOPNOTSUPP].
  apply Hfind; [intros s'; by exists ESRCH|]. intros p s' E. exists EACCES. cbv zeta. rewrite E. by split.
Qed.

(** The other files do not look at the credentials. *)
Theorem reads_ignore_credentials mode creds creds' f :
  checks_access f = false -> counts_processes f = false -> read_handler mode creds f = read_handler mode creds' f.
Proof. intros Hf Hc. destruct f; try discriminate Hf; try discriminate Hc; reflexivity. Qed.

(** ** Processes that are gone *)



End Reads.

(** ** Reads of what a walk finds *)

Section WalkReads.
Context `{KernelOps} `{PageSize} `{PhysOps} `{UioOps} `{!ProcArgs} `{!ProcInfo} `{!VmOps} `{CtlOps} `{!FdOps} `{SysOps} `{!NodeData}.

(** A file that is not an oid has a handler, and a link has none. *)
Definition has_handler (x : pfssnode) : bool :=
  match procfs_allocvp (psn_node_type x) with
  | VREG => bool_decide (is_Some (psn_read_data_fn x))
  | VLNK => bool_decide (psn_read_data_fn x = None)
  | VDIR => true
  | _ => false
  end.

Lemma tree_has_handlers n d x : sn_heap (procfs_tree n) !! d = Some x -> has_handler x = true.
Proof.
  assert (E : forallb (λ '(_, x), has_handler x) (map_to_list (sn_heap (procfs_tree n))) = true) by (vm_compute; reflexivity).
  rewrite forallb_forall in E. intros Hd. exact (E (d, x) (proj1 (list_elem_of_In _ _) (proj2 (elem_of_map_to_list _ _ _) Hd))).
Qed.

(** C16. What a read does with each node a walk comes to agrees with the type stat shows for
    it: a directory, of /proc/sys too, gives EISDIR, a symbolic link an error, and every file
    has a handler of the kext or is an oid of /proc/sys. *)
Theorem walk_reads n pmp who d mode tree byname depth creds u s :
  Walk.walk (procfs_tree n) pmp who d ->
  exists x, sn_heap (procfs_tree n) !! node_structure_node d = Some x
    ∧ match node_vtype tree x d with
      | VDIR => (vnop_read mode (procfs_tree n) tree byname depth creds d u s).1 = Some (EISDIR, u)
      | VLNK => exists e, (vnop_read mode (procfs_tree n) tree byname depth creds d u s).1 = Some (e, u) ∧ e ≠ 0
      | VREG => psn_node_type x = PFSsysctl ∨ exists f, psn_read_data_fn x = Some f
          ∧ vnop_read mode (procfs_tree n) tree byname depth creds d u = read_handler mode creds f d u
      | _ => False
      end.
Proof.
  intros Hw. destruct (walk_node_ok _ (procfs_tree_walkable n) pmp who d Hw) as (x & Hx & _). exists x. split; [exact Hx|].
  pose proof (tree_has_handlers n _ _ Hx) as Hh. revert Hx. generalize (procfs_tree n). intros st Hx.
  unfold vnop_read, procfs_vnop_read, node_vtype. rewrite Hx. case_bool_decide as Hs.
  { destruct (procfs_sysctl_is_node tree _) eqn:En; [|by left]. unfold procfs_sysctl_read. by rewrite En. }
  unfold has_handler in Hh. destruct (psn_node_type x); cbn [procfs_allocvp procfs_is_directory_type] in *; try done;
    try (right; apply bool_decide_eq_true in Hh as [f Hf]; exists f; split; [exact Hf|by rewrite Hf]);
    try (apply bool_decide_eq_true in Hh; rewrite Hh); eexists; (split; [reflexivity|discriminate]).
Qed.

End WalkReads.

(** ** Examples *)

(** The other parts of a system whose processes change. *)
Section Samples.
Variables (before after : list simple_proc) (when : nat).
Abbreviation k := (changing before after when).

Definition some_args : @ProcArgs k args_phys :=
  @Build_ProcArgs k args_phys (λ _, 2) (λ _, 16 + Z.of_nat (length (area_bytes sample_area))) (λ _, 16384) (λ _, Some tt) (λ _, false).
Definition some_info : @ProcInfo k :=
  @Build_ProcInfo k (λ _, 1) (λ _, 501) (λ _, 400) (λ _, SRUN) (λ _, 16386) (λ _, 1026) (λ _, 0)
    (λ _, bytes_of_string "bash" ++ replicate 13 Byte.x00) (λ _, false) (λ _, true)
    sc_uid sc_gid None (λ _, 1) (λ _, 3) (λ _, 31).
Definition some_vm : @VmOps k := @Build_VmOps k unit (λ _, Some tt) (λ _ _, None) true.
Definition some_fds : @FdOps k :=
  @Build_FdOps k (λ _ _, sample_table) (λ _, 9) (λ _ _ _, 0) (λ _ _, sample_path) (λ _ _, 3)
    (λ _, (7, 20)) (λ _, 1) (λ _, (AF_INET, 1, IPPROTO_TCP)) (λ _ _, inr sample_end) (λ _ _, inl 57).
Definition some_data : @NodeData k :=
  @Build_NodeData k "Darwin Kernel Version 24.0.0" (λ _, None) 0 (λ _, sample_mounts) (λ _, true) sample_registry
    (λ _ _, 0) (λ _ _, Rlimit 0 0) la_boot None 0 0 (λ _, None) (λ _, None).

Definition some_read (st : structure) : pfsnode -> @uio_t simple_uio_ops -> K (option (Z * @uio_t simple_uio_ops)) :=
  @vnop_read k small_pages args_phys simple_uio_ops some_args some_info some_vm no_daemon some_fds small_system some_data
    0 st sample_tree (λ _ _, None) 9 (SimpleCred 501 20).
Definition some_handler : procfs_read_data_fn -> pfsnode -> @uio_t simple_uio_ops -> K (option (Z * @uio_t simple_uio_ops)) :=
  @read_handler k small_pages args_phys simple_uio_ops some_args some_info some_vm no_daemon some_fds small_system some_data
    0 (SimpleCred 501 20).
End Samples.

Definition reader : @uio_t simple_uio_ops := SimpleUio 0 100 true [] true.

(** Process 501 is a shell of user 501; from time 100 on the number belongs to a process of
    the superuser. *)
Definition old_shell : simple_proc := SimpleProc 501 "zsh" 501 20 [18446741874686296164; 18446741874686300000] [0].
Definition new_root : simple_proc := SimpleProc 501 "sudo" 0 0 [] [].
Definition reuse_kernel : KernelOps := changing [old_shell] [new_root] 100.
Definition reuse_read := some_read [old_shell] [new_root] 100.
Definition reuse_ctx : @vfs_context reuse_kernel := @VfsContext reuse_kernel false (SimpleCred 501 20).
Definition reuse_walk : pfsnode -> Prop := @Walk.walk reuse_kernel sample_st sample_mount (λ c, c = reuse_ctx).
Definition environ_node : pfsnode := Pfsnode (Pfsid 501 0 65) 64.
Lemma reuse_walk_environ : reuse_walk environ_node.
Proof.
  apply (@walk_step reuse_kernel sample_st sample_mount (λ c, c = reuse_ctx) (Pfsnode (Pfsid 501 0 25) 24) reuse_ctx sample_tree VDIR
    (Componentname "environ" false) None (Kstate 0 0 0) (Pfsid 501 0 65) 64%N true None); [|reflexivity|vm_compute; reflexivity].
  apply (@walk_step reuse_kernel sample_st sample_mount (λ c, c = reuse_ctx) procfs_root reuse_ctx sample_tree VDIR
    (Componentname "501" false) None (Kstate 0 0 0) (Pfsid 501 0 25) 24%N true None); [apply walk_root|reflexivity|vm_compute; reflexivity].
Qed.

(** A node that was found for one process reads whatever process has the number later: the user
    walked to the environment of an own process, and reads that of a process of the superuser,
    to which the access check that lookup makes gives no access. *)
Theorem environ_of_successor :
  reuse_walk environ_node
  ∧ (exists p, @proc_find_at reuse_kernel 100 501 = Some p ∧ @procfs_check_can_access_process reuse_kernel (SimpleCred 501 20) p = EACCES)
  ∧ exists u, (reuse_read sample_st environ_node reader (Kstate 100 0 0)).1 = Some (0, u) ∧ uio_out u = cstrs (ar_env sample_area).
Proof.
  split; [exact reuse_walk_environ|]. split.
  - exists new_root. split; vm_compute; reflexivity.
  - eexists. split; vm_compute; reflexivity.
Qed.

(** The processes of [example_procs], which do not change. *)
Definition steady_kernel : KernelOps := changing example_procs example_procs 0.

Lemma steady_threads : @threads_steady steady_kernel None.
Proof.
  split.
  - intros t p. by simpl; destruct t.
  - intros p size u (t & pid & Hp) Hs Hu Hok. vm_compute in Hs. injection Hs as <-.
    assert (Hin : p ∈ example_procs) by (apply list_elem_of_In; exact (proj1 (find_some _ _ Hp))).
    assert (Hall : forallb (λ p, forallb (λ u, @procfs_kptr_ok steady_kernel (u64 (u - 64))) (@p_uthlist_at steady_kernel 0 p)) example_procs = true)
      by (vm_compute; reflexivity).
    rewrite forallb_forall in Hall. specialize (Hall p (proj1 (list_elem_of_In _ _) Hin)). rewrite forallb_forall in Hall.
    exact (Hall u (proj1 (list_elem_of_In _ _) Hu)).
Qed.

Lemma reads_give_back_witness :
  let r := some_read example_procs example_procs 0 sample_st (Pfsnode (Pfsid 501 0 58) 57) reader (Kstate 0 0 0) in
  k_mem r.2 = 0 ∧ k_procrefs r.2 = 0.
Proof.
  intros r. destruct (@reads_give_back steady_kernel small_pages args_phys simple_uio_ops
    (some_args example_procs example_procs 0) (some_info example_procs example_procs 0) (some_vm example_procs example_procs 0) no_daemon
    (some_fds example_procs example_procs 0) small_system (some_data example_procs example_procs 0)
    0 sample_st sample_tree (λ _ _, None) 9 (SimpleCred 501 20) (Pfsnode (Pfsid 501 0 58) 57) reader (Kstate 0 0 0)) as [H1 H2].
  - exact (λ _ _ _, steady_threads).
  - vm_compute. by eexists.
  - split; [exact H2|exact H1].
Defined.

Lemma memory_reads_checked_witness :
  exists e, (some_handler [old_shell] [new_root] 100 procfs_domem_fn environ_node reader (Kstate 100 0 0)).1 = Some (e, reader) ∧ e ≠ 0.
Proof.
  apply (@memory_reads_checked reuse_kernel small_pages args_phys simple_uio_ops
    (some_args _ _ _) (some_info _ _ _) (some_vm _ _ _) no_daemon (some_fds _ _ _) small_system (some_data _ _ _)
    0 (SimpleCred 501 20) procfs_domem_fn environ_node reader (Kstate 100 0 0)); [reflexivity|].
  intros p Hp. vm_compute in Hp. injection Hp as <-. vm_compute. discriminate.
Defined.


Lemma walk_reads_witness :
  exists f, reuse_read sample_st environ_node reader = some_handler [old_shell] [new_root] 100 f environ_node reader.
Proof.
  destruct (@walk_reads reuse_kernel small_pages args_phys simple_uio_ops
    (some_args _ _ _) (some_info _ _ _) (some_vm _ _ _) no_daemon (some_fds _ _ _) small_system (some_data _ _ _)
    2 sample_mount (λ c, c = reuse_ctx) environ_node 0 sample_tree (λ _ _, None) 9%nat (SimpleCred 501 20) reader (Kstate 0 0 0) reuse_walk_environ)
    as (x & Hx & Hr).
  vm_compute in Hx. injection Hx as <-. destruct Hr as [Hr|(f & _ & Hr)]; [discriminate Hr|]. exists f. exact Hr.
Defined.
