(* ===== verification/Stage.v ===== *)
(** * Staging the symbol file (tools/procfs_ksyms.c, main)

    [Ksyms] says what text the tool makes of a kernel file.  This file is the rest of the
    tool: it looks for the kernel files, opens, reads and decompresses them, writes the
    text to a temporary file and renames it.  Each call may fail, and a write may be short;
    the history holds the file system after every change, as a kext that is loaded at that
    moment, or a reboot, finds it. *)

From S2P Require Import Prelude Fileio Ksyms.

(** ** The system the tool runs on *)

(** Contents and mode. *)
Abbreviation file := (list Byte.byte * Z)%type.
Abbreviation files := (gmap string file).

Record tstate := TS {
  t_files : files;
  (** the file system after each change, the last one first *)
  t_history : list files;
  (** descriptors that are open *)
  t_fds : Z;
  t_time : nat;
}.

(** What the system answers; [t] is the number of calls made before. *)
Class ToolOps := {
  (** [sysctlbyname("kern.version")] and [glob] *)
  kern_version : option (list Byte.byte);
  glob : string -> option (list string);
  (** whether a call succeeds that the file system would allow, or an allocation *)
  succeeds : nat -> bool;
  (** how many bytes of those asked for are read and written *)
  reads : nat -> nat -> nat;
  writes : nat -> nat -> nat;
  (** whether a stream writes its buffer out after a call that filled it *)
  flushes : nat -> bool;
  (** the letters [mkstemp] puts for the XXXXXX *)
  suffix : nat -> string;
  compression_decode_buffer : Z -> list Byte.byte -> list Byte.byte;
}.

(** A program of the tool; [None] is the end by a fault. *)
Definition T (A : Type) : Type := tstate -> option A * tstate.
#[export] Instance T_ret : MRet T := λ A a s, (Some a, s).
#[export] Instance T_bind : MBind T := λ A B k m s,
  match m s with (Some a, s1) => k a s1 | (None, s1) => (None, s1) end.

Section Calls.
Context `{ToolOps}.

Definition fault {A} : T A := λ s, (None, s).

Definition attempt : T bool := λ s,
  (Some (succeeds (t_time s)), TS (t_files s) (t_history s) (t_fds s) (S (t_time s))).

Definition transfer (moves : nat -> nat -> nat) (n : nat) : T nat := λ s,
  (Some (Nat.min n (moves (t_time s) n)), TS (t_files s) (t_history s) (t_fds s) (S (t_time s))).

(** A change of the file system. *)
Definition change (f : files -> files) : T unit := λ s,
  (Some tt, TS (f (t_files s)) (f (t_files s) :: t_history s) (t_fds s) (t_time s)).

Definition open_rdonly (path : string) : T (option (list Byte.byte)) := λ s,
  let s1 := TS (t_files s) (t_history s) (t_fds s) (S (t_time s)) in
  match t_files s !! path with
  | Some (contents, _) =>
    if succeeds (t_time s) then (Some (Some contents), TS (t_files s) (t_history s) (t_fds s + 1) (S (t_time s)))
    else (Some None, s1)
  | None => (Some None, s1)
  end.

Definition close : T unit := λ s, (Some tt, TS (t_files s) (t_history s) (t_fds s - 1) (t_time s)).

(** [mkstemp]: a new, empty file that only its owner may use. *)
Definition mkstemp (template : string) : T (option string) := λ s,
  let path := template +:+ suffix (t_time s) in
  let s1 := TS (t_files s) (t_history s) (t_fds s) (S (t_time s)) in
  match t_files s !! path with
  | Some _ => (Some None, s1)
  | None =>
    if succeeds (t_time s) then
      let fs := <[path := ([], 384)]> (t_files s) in
      (Some (Some path), TS fs (fs :: t_history s) (t_fds s + 1) (S (t_time s)))
    else (Some None, s1)
  end.

(** An open stream: its file and what is still in the buffer. *)
Record FILE := File { f_path : string; f_buffer : list Byte.byte }.

Definition append (path : string) (text : list Byte.byte) : T unit :=
  change (alter (λ f : file, (f.1 ++ text, f.2)) path).

Definition flush (f : FILE) : T FILE :=
  n ← transfer writes (length (f_buffer f));
  _ ← append (f_path f) (take n (f_buffer f));
  mret (File (f_path f) (drop n (f_buffer f))).

Definition fdopen (path : string) : T (option FILE) := ok ← attempt; mret (if ok : bool then Some (File path []) else None).

Definition fprintf (f : FILE) (text : list Byte.byte) : T FILE := λ s,
  let f1 := File (f_path f) (f_buffer f ++ text) in
  if flushes (t_time s) then flush f1 s else (Some f1, s).

(** The result is that of the last write. *)
Definition fclose (f : FILE) : T bool := f1 ← flush f; _ ← close; mret (bool_decide (f_buffer f1 = [])).

Definition chmod (path : string) (mode : Z) : T bool :=
  ok ← attempt;
  if ok : bool then _ ← change (alter (λ f : file, (f.1, mode)) path); mret true else mret false.

Definition rename_files (old new : string) (fs : files) : files :=
  match fs !! old with Some f => <[new := f]> (delete old fs) | None => fs end.

Definition rename (old new : string) : T bool :=
  ok ← attempt; if ok : bool then _ ← change (rename_files old new); mret true else mret false.

Definition unlink (path : string) : T bool :=
  ok ← attempt; if ok : bool then _ ← change (delete path); mret true else mret false.

(** ** main

    The result is the exit status; the line it prints is left out. *)

Definition STAGED_PATH : string := KL_STAGED_PATH.
Definition KC_GLOB : string := "/System/Volumes/Preboot/*/boot/*/System/Library/Caches/com.apple.kernelcaches/kernelcache".
Definition cap : Z := 512 * 1024 * 1024.

(** The build of a decompressed kernel file is the one wanted. *)
Definition right_build (want dec : list Byte.byte) : option (list Byte.byte) :=
  v ← kernel_version dec; t ← xnu_token v 64; if bool_decide (t = want) then Some dec else None.

(** One pass of the loop over the kernel files. *)
Definition try_cache (want : list Byte.byte) (path : string) : T (option (list Byte.byte)) :=
  fd ← open_rdonly path;
  match fd with
  | None => mret None
  | Some contents =>
    st ← attempt;
    if negb st then _ ← close; mret None
    else
      raw ← attempt;
      if negb raw then _ ← close; mret None
      else
        rd ← transfer reads (length contents);
        _ ← close;
        if negb (rd =? length contents)%nat then mret None
        else
          match strstr (bytes_of_string "bvx2") contents with
          | None => mret None
          | Some bvx =>
            dec ← attempt;
            if negb dec then mret None
            else
              match compression_decode_buffer cap bvx with
              | [] => mret None
              | out => mret (right_build want out)
              end
          end
  end.

Fixpoint find_cache (want : list Byte.byte) (paths : list string) : T (option (list Byte.byte * string)) :=
  match paths with
  | [] => mret None
  | path :: paths' =>
    out ← try_cache want path;
    match out with
    | Some dec => mret (Some (dec, path))
    | None => find_cache want paths'
    end
  end.

Fixpoint print_lines (f : FILE) (lines : list (list Byte.byte)) : T FILE :=
  match lines with
  | [] => mret f
  | l :: lines' => f1 ← fprintf f (l ++ [Byte.x0a]); print_lines f1 lines'
  end.

(** From mkstemp on. *)
Definition write_staged (want : list Byte.byte) (addr : list Z) : T Z :=
  tfd ← mkstemp (STAGED_PATH +:+ ".tmp");
  match tfd with
  | None => mret 1
  | Some tmp =>
    f ← fdopen tmp;
    match f with
    | None => fault
    | Some f =>
      f ← print_lines f (staged_lines want addr);
      _ ← fclose f;
      _ ← chmod tmp 420;
      ok ← rename tmp STAGED_PATH;
      if negb ok then _ ← unlink tmp; mret 1 else mret 0
    end
  end.

Definition main : T Z :=
  match kern_version with
  | None => mret 1
  | Some uname_v =>
    match xnu_token (cstring uname_v) 64 with
    | None => mret 1
    | Some want =>
      match glob KC_GLOB with
      | None | Some [] => mret 1
      | Some paths =>
        out ← find_cache want paths;
        match out with
        | None => mret 1
        | Some (img, _) =>
          match image_symbols img with
          | None => fault
          | Some None => mret 1
          | Some (Some addr) => write_staged want addr
          end
        end
      end
    end
  end.

End Calls.

(** ** Running a program *)

Definition wp {A} (m : T A) (Q : option A -> tstate -> Prop) (s : tstate) : Prop := Q (m s).1 (m s).2.

Lemma wp_ret {A} (a : A) Q s : Q (Some a) s -> wp (mret a) Q s.
Proof. done. Qed.

Lemma wp_bind {A B} (m : T A) (k : A -> T B) Q s :
  wp m (λ r s1, match r with Some a => wp (k a) Q s1 | None => Q None s1 end) s -> wp (m ≫= k) Q s.
Proof. unfold wp, mbind, T_bind. destruct (m s) as [[a|] s1]; done. Qed.

Lemma wp_mono {A} (m : T A) (Q Q' : option A -> tstate -> Prop) s :
  wp m Q s -> (forall r s1, Q r s1 -> Q' r s1) -> wp m Q' s.
Proof. unfold wp. auto. Qed.

(** From [s] to [s']: [d] more descriptors, and only file systems that satisfy [P] between. *)
Definition goes (P : files -> Prop) (d : Z) (s s' : tstate) : Prop :=
  t_fds s' = t_fds s + d
  ∧ exists h, t_history s' = h ++ t_history s ∧ Forall P h ∧ t_files s' = default (t_files s) (head h).

Lemma goes_none P d s s' : t_fds s' = t_fds s + d -> t_history s' = t_history s -> t_files s' = t_files s -> goes P d s s'.
Proof. intros Hd Hh Hf. split; [done|]. exists []. by split_and!. Qed.

Lemma goes_one (P : files -> Prop) d s s' : t_fds s' = t_fds s + d -> t_history s' = t_files s' :: t_history s -> P (t_files s') ->
  goes P d s s'.
Proof. intros Hd Hh Hf. split; [done|]. exists [t_files s']. split_and!; [done|by constructor|done]. Qed.

Lemma goes_trans P d1 d2 d s s1 s2 : goes P d1 s s1 -> goes P d2 s1 s2 -> d = d1 + d2 -> goes P d s s2.
Proof.
  intros (Hd1 & h1 & E1 & H1 & F1) (Hd2 & h2 & E2 & H2 & F2) ->. split; [lia|]. exists (h2 ++ h1).
  rewrite E2, E1, app_assoc. split_and!; [done|by apply Forall_app|]. rewrite F2. by destruct h2.
Qed.

Lemma goes_now (P : files -> Prop) d s s' : goes P d s s' -> P (t_files s) -> P (t_files s').
Proof. intros (_ & h & _ & Hh & ->) Hs. destruct h; [done|]. by apply Forall_cons in Hh as [? _]. Qed.

(** The file system has not changed. *)
Definition unchanged : tstate -> tstate -> Prop := goes (λ _, False) 0.

Lemma unchanged_same s s' : unchanged s s' -> t_files s' = t_files s ∧ t_history s' = t_history s ∧ t_fds s' = t_fds s.
Proof. intros (Hd & [|m h] & Eh & Hh & Ef); [split_and!; [done..|lia]|]. by apply Forall_cons in Hh as [[] _]. Qed.

Section Proofs.
Context `{ToolOps}.

(** ** Looking for the kernel file *)

Lemma attempt_rule (Q : option bool -> tstate -> Prop) s : (forall b s1, unchanged s s1 -> Q (Some b) s1) -> wp attempt Q s.
Proof. intros HQ. by apply HQ, goes_none; [cbn; lia|..]. Qed.

(** What the tool may take for the contents of a path: nothing, or the decompressed file. *)
Definition seen (fs : files) (path : string) (c : option (list Byte.byte)) : Prop :=
  c = None ∨ exists contents mode bvx, fs !! path = Some (contents, mode) ∧ strstr (bytes_of_string "bvx2") contents = Some bvx
    ∧ c = Some (compression_decode_buffer cap bvx).

Lemma unchanged_refl s : unchanged s s.
Proof. apply goes_none; [cbn; lia|done..]. Qed.
Lemma unchanged_trans s s1 s2 : unchanged s s1 -> unchanged s1 s2 -> unchanged s s2.
Proof. intros H1 H2. by eapply goes_trans. Qed.

(** Reading a kernel file changes nothing and closes it again. *)
Lemma try_cache_spec want path s :
  wp (try_cache want path) (λ r s1, unchanged s s1 ∧ exists c, seen (t_files s) path c ∧ r = Some (dec ← c; right_build want dec)) s.
Proof.
  assert (Hno : forall s1, unchanged s s1 -> unchanged s s1 ∧ exists c, seen (t_files s) path c
      ∧ Some None = Some (dec ← c; right_build want dec)) by (intros s1 Hs; split; [done|]; exists None; split; [by left|done]).
  apply wp_bind. unfold wp, open_rdonly. destruct (t_files s !! path) as [[contents mode]|] eqn:Ep;
    [|by apply Hno, goes_none; [cbn; lia|..]]. destruct (succeeds (t_time s)); [|by apply Hno, goes_none; [cbn; lia|..]]. cbn [fst snd].
  set (s0 := TS _ _ _ _).
  assert (Hclose : forall s1, unchanged s0 s1 -> unchanged s (close s1).2).
  { intros s1 (Ef & Eh & Ed)%unchanged_same. by apply goes_none; [cbn in *; lia|..]. }
  assert (Hst : forall s1, unchanged s0 s1 -> wp (_ ← close; mret None) (λ r s1, unchanged s s1 ∧ exists c, seen (t_files s) path c
      ∧ r = Some (dec ← c; right_build want dec)) s1) by (intros s1 Hs; by apply wp_bind, Hno, Hclose).
  apply wp_bind, attempt_rule. intros [] s1 H1; [|by apply Hst].
  apply wp_bind, attempt_rule. intros [] s2 H2; pose proof (unchanged_trans _ _ _ H1 H2) as H02; [|by apply Hst].
  apply wp_bind. unfold wp. cbn [transfer fst snd]. set (s3 := TS _ _ _ _).
  assert (H03 : unchanged s0 s3) by (eapply unchanged_trans; [exact H02|]; by apply goes_none; [cbn; lia|..]).
  apply wp_bind. pose proof (Hclose s3 H03) as Hc. revert Hc. unfold wp. generalize ((close s3).2) as s4. intros s4 Hc. cbn [close fst].
  case_match; [by apply Hno|]. destruct (strstr (bytes_of_string "bvx2") contents) as [bvx|] eqn:Eb; [|by apply Hno].
  apply wp_bind, attempt_rule. intros dec s5 H5. pose proof (unchanged_trans _ _ _ Hc H5) as Hc5.
  destruct dec; [|by apply Hno]. cbn [negb]. destruct (compression_decode_buffer cap bvx) as [|b out] eqn:Ed; [by apply Hno|].
  apply wp_ret. split; [done|]. exists (Some (b :: out)). split; [|done]. right. exists contents, mode, bvx. by rewrite Ed.
Qed.

(** The search is the choice of [Ksyms] among what was seen. *)
Lemma find_cache_spec want paths s :
  wp (find_cache want paths) (λ r s1, unchanged s s1 ∧ exists caches found, Forall2 (seen (t_files s)) paths caches
    ∧ r = Some found ∧ pick_kernelcache want caches = fst <$> found) s.
Proof.
  revert s. induction paths as [|path paths IH]; intros s; cbn [find_cache].
  { apply wp_ret. split; [apply unchanged_refl|]. exists [], None. by split. }
  apply wp_bind. eapply wp_mono; [apply try_cache_spec|]. intros r s1 (H1 & c & Hc & ->).
  destruct (dec ← c; right_build want dec) as [dec|] eqn:Ed.
  - apply wp_ret. split; [done|]. exists (c :: replicate (length paths) None), (Some (dec, path)).
    split_and!; [constructor; [done|]; clear; induction paths; constructor; [by left|done]|done|].
    cbn [pick_kernelcache]. change (c ≫= _) with (dec ← c; right_build want dec). by rewrite Ed.
  - eapply wp_mono; [apply IH|]. intros r s2 (H2 & caches & found & Hs & -> & Hp).
    split; [by eapply unchanged_trans|]. destruct (unchanged_same _ _ H1) as (Ef & _ & _). rewrite Ef in Hs.
    exists (c :: caches), found. split_and!; [by constructor|done|]. cbn [pick_kernelcache].
    change (c ≫= _) with (dec ← c; right_build want dec). by rewrite Ed.
Qed.

(** ** Writing the temporary file *)

(** Only the temporary file differs. *)
Definition only (base : files) (tmp : string) (m : files) : Prop := exists f, m = <[tmp := f]> base.

(** The stream has been given [text], and what is not in the file is in the buffer. *)
Definition holding (base : files) (f : FILE) (text : list Byte.byte) (s : tstate) : Prop :=
  exists c mode, t_files s = <[f_path f := (c, mode)]> base ∧ c ++ f_buffer f = text.

Lemma flush_spec base f text s : holding base f text s ->
  wp (flush f) (λ r s1, goes (only base (f_path f)) 0 s s1 ∧ exists f1, r = Some f1 ∧ f_path f1 = f_path f ∧ holding base f1 text s1
    ∧ ((forall t n, (n <= writes t n)%nat) -> f_buffer f1 = [])) s.
Proof.
  intros (c & mode & Ef & <-). unfold wp, flush, transfer, append, change, mbind, T_bind, mret, T_ret. cbn [fst snd t_files t_time t_fds t_history].
  rewrite Ef, alter_insert_eq. set (n := Nat.min _ _).
  split; [apply goes_one; cbn [t_fds t_history t_files]; [lia|done|by eexists]|].
  eexists. split_and!; [done..| |].
  - exists (c ++ take n (f_buffer f)), mode. split; [done|]. cbn [f_buffer]. by rewrite <- app_assoc, take_drop.
  - intros Hw. cbn [f_buffer]. apply drop_ge. specialize (Hw (t_time s) (length (f_buffer f))). subst n. lia.
Qed.

Lemma fprintf_spec base f text l s : holding base f text s ->
  wp (fprintf f l) (λ r s1, goes (only base (f_path f)) 0 s s1
    ∧ exists f1, r = Some f1 ∧ f_path f1 = f_path f ∧ holding base f1 (text ++ l) s1) s.
Proof.
  intros (c & mode & Ef & <-). unfold wp, fprintf.
  assert (Hh : holding base (File (f_path f) (f_buffer f ++ l)) ((c ++ f_buffer f) ++ l) s)
    by (exists c, mode; split; [done|]; cbn [f_buffer]; by rewrite app_assoc).
  destruct (flushes (t_time s)).
  - destruct (flush_spec _ _ _ _ Hh) as (Hg & f1 & Er & Ep & Hf & _). split; [done|]. by exists f1.
  - split; [apply goes_none; [cbn; lia|done..]|]. by eexists.
Qed.

Lemma print_lines_spec base lines f text s : holding base f text s ->
  wp (print_lines f lines) (λ r s1, goes (only base (f_path f)) 0 s s1
    ∧ exists f1, r = Some f1 ∧ f_path f1 = f_path f ∧ holding base f1 (text ++ file_of lines) s1) s.
Proof.
  revert f text s. induction lines as [|l lines IH]; intros f text s Hh; cbn [print_lines].
  { apply wp_ret. split; [apply goes_none; [cbn; lia|done..]|]. exists f. unfold file_of. by rewrite app_nil_r. }
  apply wp_bind. eapply wp_mono; [by eapply fprintf_spec|]. intros r s1 (Hg & f1 & -> & Ep & Hf).
  eapply wp_mono; [by eapply IH|]. intros r s2 (Hg2 & f2 & -> & Ep2 & Hf2). rewrite Ep in Hg2.
  split; [by eapply goes_trans|]. exists f2. split_and!; [done|congruence|]. unfold file_of in *. cbn [map concat]. by rewrite app_assoc.
Qed.

Lemma fclose_spec base f text s : holding base f text s ->
  wp (fclose f) (λ r s1, goes (only base (f_path f)) (-1) s s1 ∧ exists b c mode, r = Some b ∧ t_files s1 = <[f_path f := (c, mode)]> base
    ∧ c `prefix_of` text ∧ ((forall t n, (n <= writes t n)%nat) -> c = text)) s.
Proof.
  intros Hh. apply wp_bind. eapply wp_mono; [by eapply flush_spec|]. intros r s1 (Hg & f1 & -> & Ep & (c & mode & Ef & Et) & Hw).
  unfold wp, close, mbind, T_bind, mret, T_ret. cbn [fst snd].
  split; [eapply (goes_trans _ 0 (-1)); [exact Hg|apply goes_none; [cbn; lia|done..]|done]|].
  eexists _, c, mode. cbn [t_files]. rewrite Ep in Ef. split_and!; [done..| |].
  - exists (f_buffer f1). by rewrite Et.
  - intros Hwr. rewrite <- Et, (Hw Hwr). by rewrite app_nil_r.
Qed.

(** [chmod] and [unlink] of the temporary file. *)
Lemma chmod_spec base tmp c mode new s : t_files s = <[tmp := (c, mode)]> base ->
  wp (chmod tmp new) (λ r s1, goes (only base tmp) 0 s s1 ∧ exists b mode1, r = Some b ∧ t_files s1 = <[tmp := (c, mode1)]> base) s.
Proof.
  intros Ef. unfold wp, chmod, attempt, change, mbind, T_bind, mret, T_ret. destruct (succeeds (t_time s)); cbn [fst snd t_files].
  - rewrite Ef, alter_insert_eq. split; [apply goes_one; cbn [t_fds t_history t_files]; [lia|done|by eexists]|]. by eexists _, new.
  - split; [apply goes_none; [cbn; lia|done..]|]. by eexists _, mode.
Qed.

Lemma rename_only base tmp f : base !! tmp = None -> rename_files tmp STAGED_PATH (<[tmp := f]> base) = <[STAGED_PATH := f]> base.
Proof. intros Hb. unfold rename_files. by rewrite lookup_insert_eq, delete_insert_id by done. Qed.

(** No write is cut short. *)
Definition writes_whole : Prop := forall t n, (n <= writes t n)%nat.

(** How [write_staged] can end: before the temporary file is made; with the file renamed, which
    is the last change; with the rename refused; or in a fault. *)
Inductive outcome (text : list Byte.byte) (base : files) (s s1 : tstate) : option Z -> Prop :=
  | given_up : unchanged s s1 -> outcome text base s s1 (Some 1)
  | staged_new tmp c mode s0 : base !! tmp = None -> goes (only base tmp) 0 s s0 -> c `prefix_of` text -> (writes_whole -> c = text) ->
      t_files s1 = <[STAGED_PATH := (c, mode)]> base -> t_history s1 = t_files s1 :: t_history s0 -> t_fds s1 = t_fds s ->
      tmp ≠ STAGED_PATH -> outcome text base s s1 (Some 0)
  | not_staged tmp : base !! tmp = None -> goes (λ m, only base tmp m ∨ m = base) 0 s s1 -> tmp ≠ STAGED_PATH ->
      outcome text base s s1 (Some 1)
  | faulted tmp : base !! tmp = None -> goes (only base tmp) 1 s s1 -> tmp ≠ STAGED_PATH -> outcome text base s s1 None.

Lemma tmp_not_staged t : STAGED_PATH +:+ ".tmp" +:+ t ≠ STAGED_PATH.
Proof. intros E. apply (f_equal String.length) in E. rewrite !string_length_app in E. simpl in E. lia. Qed.

Lemma mkstemp_spec s (Q : option (option string) -> tstate -> Prop) :
  (forall s1, unchanged s s1 -> Q (Some None) s1) ->
  (forall tmp s1, tmp ≠ STAGED_PATH -> t_files s !! tmp = None -> goes (only (t_files s) tmp) 1 s s1 ->
     t_files s1 = <[tmp := ([], 384)]> (t_files s) -> Q (Some (Some tmp)) s1) ->
  wp (mkstemp (STAGED_PATH +:+ ".tmp")) Q s.
Proof.
  intros Hno Hyes. unfold wp, mkstemp. pose proof (tmp_not_staged (suffix (t_time s))) as Hne.
  set (tmp := (_ +:+ suffix _)%string). destruct (t_files s !! tmp) eqn:Et; [by apply Hno, goes_none; [cbn; lia|..]|].
  destruct (succeeds (t_time s)); [|by apply Hno, goes_none; [cbn; lia|..]].
  apply Hyes; [exact Hne|exact Et|apply goes_one; [cbn; lia|done|by eexists]|done].
Qed.

Lemma finish_staging_spec base tmp c mode s : base !! tmp = None -> t_files s = <[tmp := (c, mode)]> base ->
  wp (ok ← rename tmp STAGED_PATH; if negb ok then _ ← unlink tmp; mret 1 else mret 0)
    (λ r s1, (r = Some 0 ∧ t_files s1 = <[STAGED_PATH := (c, mode)]> base ∧ t_history s1 = t_files s1 :: t_history s ∧ t_fds s1 = t_fds s)
      ∨ (r = Some 1 ∧ goes (λ m, only base tmp m ∨ m = base) 0 s s1)) s.
Proof.
  intros Hb Ef. unfold wp, rename, unlink, attempt, change, mbind, T_bind, mret, T_ret.
  destruct (succeeds (t_time s)); cbn [fst snd t_files t_time t_fds t_history negb].
  - left. rewrite Ef, rename_only by done. by split_and!.
  - right. destruct (succeeds _); cbn [fst snd t_files t_time t_fds t_history]; (split; [done|]).
    + apply goes_one; cbn [t_files t_fds t_history]; [lia|done|]. right. rewrite Ef. by apply delete_insert_id.
    + by apply goes_none; [cbn; lia|..].
Qed.

Lemma write_staged_spec want addr s :
  wp (write_staged want addr) (λ r s1, outcome (staged_file want addr) (t_files s) s s1 r) s.
Proof.
  set (base := t_files s). apply wp_bind, mkstemp_spec; [intros s1 Hs; by constructor|].
  intros tmp s1 Hne Hnone H1 E1. cbn iota. apply wp_bind. unfold fdopen. apply wp_bind, attempt_rule. intros ok s2 H2.
  destruct (unchanged_same _ _ H2) as (E2 & Eh2 & Ed2).
  assert (H02 : goes (only base tmp) 1 s s2).
  { eapply (goes_trans _ 1 0); [exact H1|apply goes_none; [lia|done..]|done]. }
  apply wp_ret. destruct ok; [|by apply (faulted _ _ _ _ tmp)]. apply wp_bind.
  assert (Hh : holding base (File tmp []) [] s2) by (exists [], 384; by rewrite E2).
  eapply wp_mono; [by apply print_lines_spec|]. intros r s3 (H3 & f & -> & Ep & Hf). cbn [f_path] in *. rewrite app_nil_l in Hf.
  apply wp_bind. eapply wp_mono; [by apply fclose_spec|]. intros r s4 (H4 & b & c & mode & -> & E4 & Hc & Hw). rewrite Ep in *.
  apply wp_bind. eapply wp_mono; [by apply (chmod_spec base _ c mode)|]. intros r s5 (H5 & b5 & mode5 & -> & E5).
  assert (H05 : goes (only base tmp) 0 s s5).
  { eapply (goes_trans _ 1 (-1)); [exact H02| |done]. eapply (goes_trans _ 0 (-1)); [exact H3| |done].
    by eapply (goes_trans _ (-1) 0); [exact H4|exact H5|]. }
  eapply wp_mono; [by apply (finish_staging_spec base tmp c mode5)|].
  intros r s6 [(-> & E6 & Eh & Ed)|(-> & H6)].
  - destruct H05 as [Hd5 H05]. eapply (staged_new _ _ _ _ tmp c mode5 s5); first [done|by split|lia].
  - eapply (not_staged _ _ _ _ tmp); [done| |done]. eapply (goes_trans _ 0 0); [|exact H6|done].
    destruct H05 as (Hd & h & Eh & Hh5 & Eh5). split; [done|]. exists h. split_and!; [done| |done].
    eapply Forall_impl; [exact Hh5|]. intros m Hm. by left.
Qed.


(** The whole tool: either it gives up without a change, or it writes the text of [Ksyms] for
    what it saw of the kernel files. *)
Inductive run (s s1 : tstate) (r : option Z) : Prop :=
  | run_gave_up : unchanged s s1 -> r ≠ Some 0 -> run s s1 r
  | run_wrote s0 uname paths caches text : kern_version = Some uname -> glob KC_GLOB = Some paths -> unchanged s s0 ->
      Forall2 (seen (t_files s)) paths caches -> procfs_ksyms uname caches = Some (Some text) ->
      outcome text (t_files s) s0 s1 r -> run s s1 r.

Lemma main_spec s : wp main (λ r s1, run s s1 r) s.
Proof.
  assert (Hno : wp (mret 1) (λ r s1, run s s1 r) s) by (by apply wp_ret, run_gave_up; [apply unchanged_refl|]).
  unfold main. destruct kern_version as [uname|] eqn:Ek; [|done]. destruct (xnu_token (cstring uname) 64) as [want|] eqn:Ew; [|done].
  destruct (glob KC_GLOB) as [paths|] eqn:Eg; [|done]. destruct paths as [|p paths']; [done|].
  set (paths := p :: paths') in *. apply wp_bind. eapply wp_mono; [apply find_cache_spec|].
  intros r s0 (H0 & caches & found & Hs & -> & Hp). destruct found as [[img used]|]; [|by apply wp_ret, run_gave_up].
  destruct (image_symbols img) as [[addr|]|] eqn:Ei; [|by apply wp_ret, run_gave_up|by apply run_gave_up].
  assert (Et : procfs_ksyms uname caches = Some (Some (staged_file want addr))).
  { unfold procfs_ksyms. rewrite Ew, Hp. cbn [fmap option_fmap option_map fst]. by rewrite Ei. }
  destruct (unchanged_same _ _ H0) as (Ef & _). eapply wp_mono; [apply write_staged_spec|]. intros r s1 Ho. rewrite Ef in Ho.
  by eapply run_wrote.
Qed.

(** ** What the kext finds *)

(** The files as the kext reads them. *)
Definition kext_files (fs : files) : FileOps := {|
  vnode_t := list Byte.byte;
  vnode_lookup path := match fs !! path with Some (contents, _) => inr contents | None => inl ENOENT end;
  vnop_read contents off n := (0, take n (drop (Z.to_nat off) contents));
  vnop_read_room contents off n := take_room (drop (Z.to_nat off) contents) n;
  vfs_context_ok := true; uio_ok := true; uio_addiov_error := 0 |}.

(** [klookup] reads the staged file only. *)
Definition kext_resolve (fs : files) := @klookup_resolve (kext_files fs).

Lemma kext_resolve_staged fs fs' : fs !! STAGED_PATH = fs' !! STAGED_PATH -> kext_resolve fs = kext_resolve fs'.
Proof.
  intros E. change (fs !! KL_STAGED_PATH = fs' !! KL_STAGED_PATH) in E.
  unfold kext_resolve, klookup_resolve, vfs_context_create, vfs_context_rele, kl_slurp, vnode_get, uio_create.
  cbn [kext_files vnode_lookup vnop_read vfs_context_ok uio_ok]. unfold kext_files; cbn [vnode_t]. by rewrite E.
Qed.

(** [base], with at most one new file besides. *)
Definition spare (base m : files) : Prop :=
  m = base ∨ exists tmp f, base !! tmp = None ∧ tmp ≠ STAGED_PATH ∧ m = <[tmp := f]> base.

Lemma spare_staged base m : spare base m -> m !! STAGED_PATH = base !! STAGED_PATH.
Proof. intros [->|(tmp & f & _ & Hne & ->)]; [done|by rewrite lookup_insert_ne]. Qed.

Lemma only_spare base tmp m : base !! tmp = None -> tmp ≠ STAGED_PATH -> only base tmp m -> spare base m.
Proof. intros Hb Hne (f & ->). right. by exists tmp, f. Qed.

(** The file systems of the history since [s]. *)
Definition since (s s1 : tstate) : list files := take (length (t_history s1) - length (t_history s)) (t_history s1).

(** [base], then possibly one more file, then on success the staged file alone replaced. *)
Definition history_ok (base : files) (s s1 : tstate) (r : option Z) : Prop :=
  exists h, t_history s1 = h ++ t_history s ∧ t_files s1 = default (t_files s) (head h)
    ∧ Forall (λ m, spare base m ∨ (r = Some 0 ∧ m = t_files s1)) h
    ∧ (r = Some 0 -> exists f, t_files s1 = <[STAGED_PATH := f]> base)
    ∧ (r ≠ None -> t_fds s1 = t_fds s).

Lemma goes_history base d s s1 r : goes (spare base) d s s1 -> r ≠ Some 0 -> (r ≠ None -> d = 0) -> history_ok base s s1 r.
Proof.
  intros (Hd & h & Eh & Hh & Ef) Hr H0. exists h. split_and!; [done..| |done|].
  - eapply Forall_impl; [exact Hh|]. by left.
  - intros Hn. specialize (H0 Hn). lia.
Qed.

Lemma goes_mono (P Q : files -> Prop) d s s1 : goes P d s s1 -> (forall m, P m -> Q m) -> goes Q d s s1.
Proof. intros (Hd & h & Eh & Hh & Ef) HPQ. split; [done|]. exists h. split_and!; [done| |done]. eapply Forall_impl; [exact Hh|done]. Qed.

Lemma outcome_history text base s s1 r : outcome text base s s1 r -> t_files s = base -> history_ok base s s1 r.
Proof.
  intros [Hu|tmp c mode s0 Hb Hg _ _ Ef Eh Ed Hne|tmp Hb Hg Hne|tmp Hb Hg Hne] Es.
  - eapply (goes_history _ 0); [by eapply goes_mono|done|done].
  - destruct Hg as (Hd & h & Eh0 & Hh & Ef0). exists (t_files s1 :: h). split_and!.
    + by rewrite Eh, Eh0.
    + done.
    + constructor; [by right|]. eapply Forall_impl; [exact Hh|]. intros m Hm. left. by eapply only_spare.
    + by eexists.
    + done.
  - eapply (goes_history _ 0); [eapply goes_mono; [exact Hg|]|done|done]. intros m [Hm|Hm]; [by eapply only_spare|by left].
  - eapply (goes_history _ 1); [eapply goes_mono; [exact Hg|]|done|done]. intros m Hm. by eapply only_spare.
Qed.

(** C9. Staging is atomic: whatever calls fail or fall short, the file system after every
    change is the one before with at most one more file, or, at the end of a run that
    reports success, the one in which the staged file alone is replaced; so a kext that is
    loaded at any moment resolves what it resolved before or what it resolves at the end.
    Unless the tool faults, every descriptor is closed. *)
Theorem staging_atomic s :
  let '(r, s1) := main s in
  history_ok (t_files s) s s1 r
  ∧ Forall (λ m, kext_resolve m = kext_resolve (t_files s) ∨ (r = Some 0 ∧ kext_resolve m = kext_resolve (t_files s1)))
      (since s s1).
Proof.
  assert (Hh : history_ok (t_files s) s (main s).2 (main s).1).
  { pose proof (main_spec s) as Hm. unfold wp in Hm. destruct Hm as [Hu Hr|s0 uname paths caches text _ _ Hu _ _ Ho].
    - eapply (goes_history _ 0); [by eapply goes_mono|done|done].
    - destruct (unchanged_same _ _ Hu) as (Ef & Eh & Ed). apply outcome_history in Ho; [|done].
      destruct Ho as (h & H1 & H2 & H3 & H4 & H5). exists h. rewrite Eh, Ef, Ed in *. by split_and!. }
  destruct (main s) as [r s1]. cbn [fst snd] in Hh. split; [done|].
  destruct Hh as (h & Eh & _ & Hall & _). unfold since. rewrite Eh, length_app, Nat.add_sub, take_app_length.
  eapply Forall_impl; [exact Hall|]. intros m [Hs|[Hr ->]]; [left|by right]. by apply kext_resolve_staged, spare_staged.
Qed.

(** The staged file is read by the kext. *)
Lemma kext_staged fs contents mode : fs !! STAGED_PATH = Some (contents, mode) -> Z.of_nat (length contents) < KL_MAX ->
  @staged (kext_files fs) contents.
Proof.
  intros E Hl. split; [done|]. exists contents. cbn [kext_files vnode_lookup vnop_read].
  change KL_STAGED_PATH with STAGED_PATH. rewrite E. split; [done|]. f_equal. cbn [Z.to_nat drop]. apply take_ge. unfold KL_MAX in *. lia.
Qed.

(** C10. From the kernel file to the kext: a run that reports success, when writes are not cut
    short, has found a kernel file of the running build among those it could read and
    decompress, and leaves the text [Ksyms] makes of it; a kext loaded from then on, in a
    kernel moved by any distance, resolves exactly the symbols of that file. *)
Theorem staging_resolves s s1 :
  writes_whole -> main s = (Some 0, s1) -> (forall uname, kern_version = Some uname -> Byte.x0a ∉ uname) ->
  exists uname paths caches img addr text mode,
    kern_version = Some uname ∧ glob KC_GLOB = Some paths ∧ Forall2 (seen (t_files s)) paths caches
    ∧ Some img ∈ caches ∧ image_symbols img = Some (Some addr)
    ∧ procfs_ksyms uname caches = Some (Some text) ∧ t_files s1 = <[STAGED_PATH := (text, mode)]> (t_files s)
    ∧ forall slide names f, Forall (λ n, n ∈ WANTED) names ->
        let at_ n := moved slide (wanted_addr addr n) in
        (kext_resolve (t_files s1) (at_ "_version"%string) (at_ "_kernel_pmap"%string) true true names f).1
        = (Z.of_nat (length (filter (λ r, r ≠ 0) (map (wanted_addr addr) names))), map at_ names).
Proof.
  intros Hw Em Hnl. pose proof (main_spec s) as Hm. unfold wp in Hm. rewrite Em in Hm. cbn [fst snd] in Hm.
  destruct Hm as [_ []|s0 uname paths caches text Ek Eg Hu Hs Et Ho]; [done|].
  pose proof Et as Et'. unfold procfs_ksyms in Et'. destruct (xnu_token (cstring uname) 64) as [want|] eqn:Ew; [|done].
  destruct (pick_kernelcache want caches) as [img|] eqn:Ep; [|done].
  destruct (image_symbols img) as [[addr|]|] eqn:Ei; [|done..]. injection Et' as <-.
  destruct (image_symbols_ok img addr Ei) as (Hlen & Hok & Hv & Hk).
  destruct (xnu_token_ok _ _ _ Ew) as [Hwn Hwl];
    [unfold cstring; intros Hx%elem_of_take; destruct Hx as (? & Hx & _); by eapply (Hnl uname Ek), list_elem_of_lookup_2|].
  inversion Ho as [|tmp c mode s2 _ _ _ Hc Ef _ _ _| |]; subst. specialize (Hc Hw) as ->.
  exists uname, paths, caches, img, addr, (staged_file want addr), mode. split_and!; [done|done|done|by eapply pick_in|done|done|done|].
  intros slide names f Hn.
  assert (Em' : forall n, wanted_addr addr n ≠ 0 -> moved slide (wanted_addr addr n) = u64 (wanted_addr addr n + slide))
    by (intros n Hne; unfold moved; by rewrite (proj2 (Z.eqb_neq _ 0))).
  cbv beta zeta. rewrite (Em' "_version"%string Hv), (Em' "_kernel_pmap"%string Hk).
  assert (Hst : @staged (kext_files (t_files s1)) (staged_file want addr)).
  { apply (kext_staged _ _ mode); [rewrite Ef; apply lookup_insert_eq|by apply staged_file_fits]. }
  unfold kext_resolve. destruct (@klookup_staged (kext_files (t_files s1)) (u64 (wanted_addr addr "_version" + slide))
    (u64 (wanted_addr addr "_kernel_pmap" + slide)) names _ f Hst) as [-> _]; [done|]. by apply resolve_staged.
Qed.

End Proofs.

(** ** A run *)

(** One kernel file, which the decompression gives as it is behind its mark; [w] is the
    number of bytes a write takes, [bad] the call that fails. *)
Definition sample_system (w : nat -> nat) (bad : nat -> bool) : ToolOps := {|
  kern_version := Some sample_uname;
  glob _ := Some ["/missing"; "/kernelcache"]%string;
  succeeds t := negb (bad t);
  reads _ n := n;
  writes _ n := w n;
  flushes _ := false;
  suffix _ := "a1b2c3"%string;
  compression_decode_buffer _ bvx := drop 4 bvx;
|}.

Definition sample_start : tstate :=
  TS {["/kernelcache"%string := (bytes_of_string "IM4P" ++ bytes_of_string "bvx2" ++ sample_image, 420)]} [] 3 0.
Definition staged_text (s : tstate) : option (list Byte.byte) := fst <$> t_files s !! STAGED_PATH.
Definition temporary : string := STAGED_PATH +:+ ".tmpa1b2c3".

Example sample_run :
  let r := @main (sample_system id (λ _, false)) sample_start in
  r.1 = Some 0 ∧ staged_text r.2 = Some sample_file ∧ t_files r.2 !! temporary = None ∧ length (t_history r.2) = 4%nat ∧ t_fds r.2 = 3.
Proof. by vm_compute. Qed.

(** What the kext finds after the tool, in a kernel that was not moved. *)
Definition kext_after (s : tstate) (names : list string) : Z * list Z :=
  (kext_resolve (t_files s) 18446744005107777536 18446744005107781632 true true names (Fstate false 0 0 0 0)).1.

Lemma staging_resolves_witness :
  exists s1, @main (sample_system id (λ _, false)) sample_start = (Some 0, s1)
  ∧ exists text mode, t_files s1 = <[STAGED_PATH := (text, mode)]> (t_files sample_start)
  ∧ kext_after s1 ["_proc_gettty"%string] = (1, [18446744005107785728]).
Proof.
  eexists. split; [by vm_compute|]. set (s1 := TS _ _ _ _).
  destruct (@staging_resolves (sample_system id (λ _, false)) sample_start s1) as (u & p & c & i & a & text & mode & _ & _ & _ & _ & _ & _ & Ef & _).
  - by intros t n.
  - by vm_compute.
  - intros uname [= <-]. apply (bool_decide_unpack (_ ∉ _)). by vm_compute.
  - exists text, mode. split; [exact Ef|]. by vm_compute.
Defined.

(** The results of fprintf and fclose are not looked at: when the disk has no room for the
    last bytes, the tool renames the short file into place and reports success.  The kext
    checks two other symbols only, and takes the cut address for [proc_gettty]. *)
Theorem short_write_staged :
  let r := @main (sample_system (λ n, n - 5)%nat (λ _, false)) sample_start in
  r.1 = Some 0 ∧ kext_after r.2 ["_version"; "_proc_gettty"]%string = (2, [18446744005107777536; 281474975663876]).
Proof. by vm_compute. Qed.

(** The result of fdopen is not looked at either: the tool faults in fprintf, and leaves an
    empty temporary file behind. *)
Theorem fdopen_unchecked :
  let r := @main (sample_system id (λ t, t =? 7)%nat) sample_start in
  r.1 = None ∧ staged_text r.2 = None ∧ t_files r.2 !! temporary = Some ([], 384).
Proof. by vm_compute. Qed.

(** A failed rename leaves the file system as it was. *)
Example rename_fails :
  let r := @main (sample_system id (λ t, t =? 10)%nat) sample_start in
  r.1 = Some 1 ∧ t_files r.2 = t_files sample_start ∧ t_fds r.2 = 3.
Proof. by vm_compute. Qed.
